(* ===== verification/_CoqProject ===== *)
-Q . S2P
Prelude.v
LibUtils.v
CpuDefs.v
LibString.v
SmallVec.v
SSQueue.v
PacketQueue.v
KMap.v
Crc.v
Net.v
NetThms.v
Rtl8139.v
Rtl8139Thms.v
MemFs.v
Paging.v
PagingProofs.v
PagingThms.v
BuddyTree.v
CircList.v
Buddy.v
BuddyInv.v
BuddyProofs.v
BuddySpec.v
BuddyCount.v
BuddyThms.v
PageAlloc.v
PageAllocProofs.v
PageAllocThms.v
Process.v
ProcessProofs.v
AllocChain.v
UserSpace.v
ProcessThms.v
Elf.v
Syscall.v
SyscallThms.v
Irq.v
Cpu.v
Serial.v
SerialThms.v
ContextSwitch.v
ContextSwitchThms.v
Threads.v
Programs.v
Mm.v
MmThms.v
MmInit.v
MmInitThms.v
Ahci.v
Gpt.v
Boot.v
BootThms.v
Pci.v
Acpi.v
AcpiThms.v
Lapic.v
Start.v
StartThms.v
Rtl8139Init.v
Rtl8139InitThms.v
AhciInit.v
AhciInitThms.v
StartDevices.v
StartDevicesThms.v
KernelDrivers.v
Unwind.v
Debug.v
KMemory.v
BootDump.v
PortIo.v
Init.v
Fat32.v
BootScreen.v
FixedBlock.v
Hexdump.v
