(* ===== verification/Prelude.v ===== *)
(** * Verification of the kernel of modern_05

    modern_05 is a small 64-bit kernel in C++ with its own boot loader.  The
    firmware starts the boot loader ([boot_loader.c]), which loads the kernel file
    and enters it with first page tables ([boot_page_table.c]).  The kernel sets
    up segments, page tables and the page allocator ([mm/]), interrupts
    ([irq.cpp], [device/apic.cpp]), processes and system calls ([process.cpp],
    [syscall.cpp]), finds its devices ([device/efi.cpp], [device/pci.cpp]), and
    drives a network card ([device/rtl8139.cpp], [net/]) and a disk
    ([device/ahci.cpp], [device/gpt.cpp]).  Everything stands on the page
    allocator: kernel memory, process images and stacks, page tables and device
    buffers are blocks of it.

    ** How the code is modelled

    A function of the source is a function with its name.  State is a record with
    the members of the class or the globals that are used; a function that
    changes it is a computation of the state monad [ST], whose results are a
    value, a panic, a halt, an access C++ leaves undefined ([Fault]) or [OutOfFuel].
    Integers are [Z], with the wrap-around of their width written out ([wrap]);
    packed structures are bit fields of a number ([CpuDefs]); memory is a function
    from addresses to bytes, or where an object owns its memory a finite map.
    Pointers into an array are indices, [option] of one where null occurs.

    [Fault] also stands where the model does not follow the code: a user pointer
    that is not mapped in the lower half (the page fault stops the kernel, a kernel
    address would alias its state), a model specific register that does not exist,
    a command list or table of the disk below the identity map, a vector that grows
    past its storage, a negative number printed.  The theorems say when these do
    not occur.  Process objects are records of their own; since the allocator's
    addresses can overlap, [Process.objects_apart] is a hypothesis where memory
    behind two of them matters.

    Loops that are not structural carry fuel.  The bound is either a quantity of
    the state that suffices (the depth of a block, the number of processes, the
    bytes of a table) and the theorems show that the loop returns, or a parameter,
    and the theorems say how much is enough.  Loops the code can run for ever (a
    spin lock, a chain of stack frames that closes, an interrupt table with an
    entry of length zero) run out of any fuel.

    Code outside the repository is a parameter: the firmware services ([Boot]),
    the Ethernet driver below ARP (a class in [Net]), the disk below the partition
    table (the class [SectorDevice] in [Gpt], of which the AHCI driver is an
    instance), the disk controller ([Ahci], and its registers in [AhciInit]), the
    registers of the network card (the class [Card] in [Rtl8139Init]), what is
    behind the serial port (the class [PortIO] in [Serial], and the bus below the
    assembly in [PortIo]), base address registers ([Pci]).  The drivers of the PCI bus
    are behind the class [PciDrivers] of [StartDevices] with the laws [PciLaws]; the
    kernel's own drivers are the instance in [KernelDrivers], where the laws are
    proved.  Link addresses and the contents of fresh memory are parameters as well.
    What is assumed of them is a named hypothesis, and each theorem has a concrete
    instance in which its hypotheses hold.  Devices are assumed to do what their
    documentation says: a disk of a given number of sectors carries out a complete
    and well-formed read command ([Ahci.reads_disk]); a port of the controller
    stops running only when it is not started ([AhciInitThms.hba_laws]); the card
    keeps the bits of its settings, not those of its status registers
    ([Rtl8139InitThms.card_laws]); the line takes bytes one at a time
    ([uart_laws]).

    ** The files

    - Foundations: [Prelude] (outcomes, the monad, machine integers, bit fields,
      counting loops, tactics and hint databases); [LibUtils] (include/lib/utils.h);
      [CpuDefs] (include/cpu_defs.h, include/mm/); [LibString] (lib/string.cpp,
      common/endian.cpp, the printing of include/lib/serial_port.h); [Hexdump]
      (include/common/hexdump.hpp).
    - Containers: [SmallVec] (include/common/small_vec.hpp); [SSQueue]
      (include/common/kssq.hpp, with the interleaved steps of its two users);
      [PacketQueue] (packets passed through such a queue by pointer); [KMap]
      (include/common/kmap.hpp, for any comparison); [FixedBlock]
      (include/mm/fixed_block_allocator.h).
    - Page allocator, mm/page_alloc.cpp: [Buddy] is the code; [BuddyTree] and
      [CircList] are trees of block indices and circular lists; [BuddyInv] the
      invariant; [BuddyProofs] the operations on it; [BuddySpec] the abstract
      allocator; [BuddyCount] the counters; [BuddyThms] the theorems.  [PageAlloc]
      is initialisation, the usage report and kmalloc/kfree, with
      [PageAllocProofs] and [PageAllocThms].
    - Address spaces, mm/mm.cpp: [Paging], [PagingProofs], [PagingThms] (the
      kernel's page tables and the processor's walk of them); [Mm], [MmThms]
      (segments, the task state segment, the firmware's memory map); [MmInit],
      [MmInitThms] (mm_init as a whole, and what the processor uses after it).
    - Processes, process.cpp: [Process] is the code; [UserSpace] a process's
      tables; [ProcessProofs], [ProcessThms]; [AllocChain] sequences of
      allocations.  [Elf] is the program loader; [Syscall] and [SyscallThms] are
      syscall.cpp; [Irq] is irq.cpp.
    - Switching, irq.S: [ContextSwitch] is the assembly instruction by instruction,
      with the processor's delivery of an interrupt; [ContextSwitchThms]; [Threads]
      the first process on top of it; [Programs] the user program
      (user/programs/init.cpp) and the second kernel thread.  [Cpu] is
      lib/cpu_utils.cpp, [PortIo] lib/port_io.cpp.
    - Start-up: [Init] is the entry (init/init.S, init/init.cpp, kernel_start);
      [Start] is Kernel::start of kernel.cpp up to the local interrupt controller,
      over the states of the parts it initialises, and [StartThms]; [StartDevices]
      is the rest of it, with the PCI scan over drivers that have effects, and
      [StartDevicesThms]; [KernelDrivers] puts the two drivers under it.
    - Objects: [KMemory] (include/common/kmemory.hpp, vdtor.hpp, kallocator.hpp).
    - Console: [Serial], [SerialThms] (include/lib/serial_port.h,
      lib/serial_port.cpp, device/serial8250.cpp, the output of boot_loader.c);
      [Debug] (debug.cpp, Kernel::panic and Kernel::stack_dump, the report of an
      unhandled interrupt, cxx/placeholder.cpp, the first messages of the kernel).
    - Network: [Crc] (the frame check sequence); [Net], [NetThms] (net/arp.cpp,
      net/ipv4.cpp, include/net/); [Rtl8139], [Rtl8139Thms] (packets);
      [Rtl8139Init], [Rtl8139InitThms] (from the PCI device to running threads).
    - Storage: [MemFs] (include/fs/mem_fs_node.hpp); [Ahci] (device/ahci.cpp: reads);
      [AhciInit], [AhciInitThms] (its ports and its thread); [Gpt]
      (device/gpt.cpp).
    - Boot and devices: [Boot], [BootThms] (boot_loader.c, boot_page_table.c);
      [Pci] (device/pci.cpp, device/pci_devices.cpp); [Acpi], [AcpiThms]
      (device/efi.cpp and ioapic_init of device/rtl8139.cpp); [Lapic]
      (device/apic.cpp); [Unwind] (common/unwind.cpp); [BootDump] (the page table
      dump of boot_page_table.c); [BootScreen] (the graphics routines of
      boot_loader.c); [Fat32] (include/fs/fat32.hpp).

    ** What is shown

    - The page allocator refines an abstract allocator of disjoint blocks of a
      tree; from the constructor on it never faults, panics or loops; each smallest
      block is below exactly one free or handed-out block; freeing merges back
      what allocation split.  The addresses it derives from the tree are not
      those of a buddy system: the address of a block is its tree index times 64
      KiB, so blocks of different levels can overlap in memory
      ([BuddyThms.allocations_overlap]).
    - kmalloc and kfree, the initial self test and the usage report on top of it.
    - The boot loader enters the kernel with tables under which every byte of the
      kernel is where its file says; the kernel's own tables translate all of
      kernel space; a new process sees its image and stack and nothing else in the
      lower half.
    - The kernel is entered on its own stack with a copy of what the boot loader
      found out ([Init.kernel_entered]).  From there Kernel::start runs from its
      first to its last statement: memory, interrupts, the first process, the
      interrupt controllers, the search for devices with the drivers that answer,
      and the serial port; then the first process enters its program in user mode
      ([KernelDrivers.kernel_start_enters], with both drivers and laws of their
      devices only).  An interrupted process resumes with all its registers after
      every other process has had its turn once ([ContextSwitchThms.process_resumes]).
    - A write system call from user mode, from the instruction to the return
      ([Programs.write_from_user]), for a buffer that the process has mapped; the user program itself makes the wrong call and
      prints nothing.
    - Objects on the heap have blocks of their own, and are alive, destroyed or
      dropped without their destructor ([KMemory.object_lifetimes]); the allocator of
      the containers asks for too few bytes ([KMemory.kallocator_room]).
    - Before the kernel stops it reports: frames, registers and descriptor tables,
      for a run-time failure and for an exception without a handler.
    - The process table stays well formed under creation, switches and system calls
      ([SyscallThms.scheduler_invariant]); the scheduler switches in rotation and is
      fair; a program gets the memory it asks for; interrupts reach their handlers;
      programs are loaded as their headers say.
    - The network card is brought up, and the addresses it is given are those of
      the driver's buffers, which do not meet; what one card sends, another
      receives and checks; the check sequence notices every damage within four bytes; queued packets arrive in order,
      under every interleaving of producer and consumer; ARP learns addresses, as
      far as its comparison of addresses lets it.
    - The disk controller's ports are found and started; a read from the disk
      delivers its bytes; the driver's thread prints the partitions that the
      partition table holds; file writes, reads and lookups by name of
      the memory file system.
    - The firmware's tables lead to the routing of the device interrupts and to a
      complete scan of the PCI buses they list, less the last bus; the sizes of
      device regions.
    - Where the code does not do what it means to, the theorem says what it does
      (the read of more than 16 sectors, [Ahci.read_command]; the write across the
      end of a file, [MemFs.write_read]; the comparison of Internet addresses,
      [NetThms.arp_tables]; and others).

    - What is printed arrives on the serial line, digits and all, from the kernel as
      from the boot loader, through the assembly of the port functions.

    ** What is not modelled

    What is printed, except where a theorem is about the console ([Serial], [Debug],
    [BootDump], the thread of [AhciInit]); the containers of the standard library,
    which are lists and maps where they are used, and their storage, except that of
    the vector in [Gpt]; the memory map that the boot loader
    prints through the firmware; the firmware's graphics headers, which declare
    protocols.  Caches, TLBs and more than one processor do not occur; interrupts
    occur where a theorem says so (the context switch, the queues and the ARP
    lock).  The compiler's code is not modelled: a called C++ function keeps the
    registers the calling convention says. *)

From stdpp Require Export base strings gmap numbers functions list.
#[global] Open Scope Z_scope.

(** ** Outcomes of kernel code

    [Ret] is a normal return.  [Panic] is [Kernel::panic] (also reached through
    [assert]); it never returns.  [Halt] is [halt()].  [Fault] is an access C++
    leaves undefined: a null pointer or an index outside an array.  [OutOfFuel]
    is an artefact of modelling a loop with a step bound, and every theorem
    about such a loop excludes it. *)
Inductive outcome (A : Type) : Type :=
  | Ret (a : A)
  | Panic (msg : string)
  | Halt
  | Fault
  | OutOfFuel.
Arguments Ret {A} a.
Arguments Panic {A} msg.
Arguments Halt {A}.
Arguments Fault {A}.
Arguments OutOfFuel {A}.

(** State-passing computations over a state [S]. *)
Definition ST (S A : Type) : Type := S -> outcome (A * S).

#[global] Instance st_ret {S} : MRet (ST S) := fun A a s => Ret (a, s).
#[global] Instance st_bind {S} : MBind (ST S) := fun A B k c s =>
  match c s with
  | Ret (a, s') => k a s'
  | Panic m => Panic m
  | Halt => Halt
  | Fault => Fault
  | OutOfFuel => OutOfFuel
  end.

Definition get {S} : ST S S := fun s => Ret (s, s).
Definition put {S} (s' : S) : ST S unit := fun _ => Ret (tt, s').
Definition modify {S} (f : S -> S) : ST S unit := fun s => Ret (tt, f s).
Definition gets {S A} (f : S -> A) : ST S A := fun s => Ret (f s, s).
Definition fault {S A} : ST S A := fun _ => Fault.
Definition panic {S A} (msg : string) : ST S A := fun _ => Panic msg.
Definition halt {S A} : ST S A := fun _ => Halt.
Definition out_of_fuel {S A} : ST S A := fun _ => OutOfFuel.

(** [assert(condition, message)] of lib/string.h: [do_assert] panics when the
    condition is false. *)
Definition do_assert {S} (condition : bool) (msg : string) : ST S unit :=
  if condition then mret tt else panic msg.

(** Rewriting a bind whose first computation is known to return. *)
Lemma bind_ret {S A B} (c : ST S A) (k : A -> ST S B) s a s' :
  c s = Ret (a, s') -> (c ≫= k) s = k a s'.
Proof. unfold mbind, st_bind. by intros ->. Qed.

(** Inverting a bind that returned. *)
Lemma bind_inv {S A B} (c : ST S A) (k : A -> ST S B) s b s'' :
  (c ≫= k) s = Ret (b, s'') ->
  exists a s', c s = Ret (a, s') /\ k a s' = Ret (b, s'').
Proof.
  unfold mbind, st_bind. destruct (c s) as [[a s']| | | |]; try done. eauto.
Qed.

(** Monad laws, up to the state argument. *)
Lemma bind_mret_l {S A B} (a : A) (k : A -> ST S B) s : (mret a ≫= k) s = k a s.
Proof. done. Qed.
Lemma bind_assoc {S A B C} (c : ST S A) (k : A -> ST S B) (h : B -> ST S C) s :
  ((c ≫= k) ≫= h) s = (c ≫= (fun a => k a ≫= h)) s.
Proof. unfold mbind, st_bind. by destruct (c s) as [[a s']| | | |]. Qed.

(** [c] preserves [P]: every state it returns satisfies [P] when its start does. *)
Definition preserves {S A} (P : S -> Prop) (c : ST S A) : Prop :=
  forall s a s', c s = Ret (a, s') -> P s -> P s'.

Lemma preserves_bind {S A B} (P : S -> Prop) (c : ST S A) (k : A -> ST S B) :
  preserves P c -> (forall a, preserves P (k a)) -> preserves P (c ≫= k).
Proof. intros Hc Hk s b s'' (a & s' & H1 & H2)%bind_inv HP. eapply Hk; [done|]. by eapply Hc. Qed.
Lemma preserves_mret {S A} (P : S -> Prop) (a : A) : preserves P (mret a).
Proof. intros s b s' [= -> ->]. done. Qed.
Lemma preserves_gets {S A} (P : S -> Prop) (f : S -> A) : preserves P (gets f).
Proof. intros s b s' [= _ ->]. done. Qed.
Lemma preserves_get {S} (P : S -> Prop) : preserves P get.
Proof. intros s b s' [= _ ->]. done. Qed.
Lemma preserves_fault {S A} (P : S -> Prop) : preserves P (@fault S A).
Proof. done. Qed.
Lemma preserves_panic {S A} (P : S -> Prop) m : preserves P (@panic S A m).
Proof. done. Qed.
Lemma preserves_out_of_fuel {S A} (P : S -> Prop) : preserves P (@out_of_fuel S A).
Proof. done. Qed.
Lemma preserves_assert {S} (P : S -> Prop) b m : preserves P (@do_assert S b m).
Proof. destruct b; [apply preserves_mret|apply preserves_panic]. Qed.

Create HintDb preserves.
#[export] Hint Resolve preserves_mret preserves_gets preserves_get preserves_fault preserves_panic
  preserves_out_of_fuel preserves_assert : preserves.

(** Walk through a computation, leaving the primitives that are not known to
    preserve the property. *)
Ltac preserve :=
  repeat first
    [ solve [eauto with preserves]
    | apply preserves_bind; [|intros ?]
    | match goal with
      | |- preserves _ (match ?x with _ => _ end) => destruct x
      | |- preserves _ (let '(_, _) := ?x in _) => destruct x
      end ].

(** Step through a computation whose next primitive returns, by lemma [lem]. *)
Tactic Notation "step_with" uconstr(lem) :=
  rewrite ?bind_assoc; erewrite bind_ret; [|eapply lem]; cbv beta.

(** Unfold the primitive computations of the monad. *)
Ltac st_unfold :=
  unfold get, put, modify, gets, fault, panic, halt, out_of_fuel, do_assert, mret, st_ret in *.

(** ** Machine integers *)

(** Conversion to an unsigned integer of [w] bits. *)
Definition wrap (w z : Z) : Z := z mod 2 ^ w.
Abbreviation wrap8 := (wrap 8).
Abbreviation wrap16 := (wrap 16).
Abbreviation wrap32 := (wrap 32).
Abbreviation wrap64 := (wrap 64).

(** [z] is a value of the unsigned type of [w] bits. *)
Definition uint (w z : Z) : Prop := 0 <= z < 2 ^ w.

(** Conversion to a two's complement signed integer of [w] bits. *)
Definition swrap (w z : Z) : Z := (z + 2 ^ (w - 1)) mod 2 ^ w - 2 ^ (w - 1).

Create HintDb kernel.
Create Rewrite HintDb kernel_rw.

Lemma wrap_small w z : uint w z -> wrap w z = z.
Proof. apply Z.mod_small. Qed.
Lemma wrap_uint w z : 0 <= w -> uint w (wrap w z).
Proof. intros. apply Z.mod_pos_bound. lia. Qed.
Lemma wrap_wrap w z : wrap w (wrap w z) = wrap w z.
Proof. unfold wrap. by rewrite Zmod_mod. Qed.
Lemma wrap_add_l w a b : wrap w (wrap w a + b) = wrap w (a + b).
Proof. unfold wrap. apply Zplus_mod_idemp_l. Qed.
Lemma wrap_sub_l w a b : wrap w (wrap w a - b) = wrap w (a - b).
Proof. unfold wrap. apply Zminus_mod_idemp_l. Qed.

#[export] Hint Rewrite @wrap_wrap @wrap_add_l @wrap_sub_l : kernel_rw.

(** Linear arithmetic with division and modulo by constants. *)
Ltac dlia := Z.div_mod_to_equations; lia.

(** Decide [uint] goals on concrete widths. *)
Ltac uint_lia := unfold uint, wrap in *; cbn [Z.pow Z.pow_pos Pos.iter] in *; simpl in *; lia.

(** ** Finite sums *)

Fixpoint sum_to (f : nat -> Z) (n : nat) : Z :=
  match n with O => 0 | S n => sum_to f n + f n end.

Lemma sum_to_ext f g n : (forall i, (i < n)%nat -> f i = g i) -> sum_to f n = sum_to g n.
Proof. induction n as [|n IH]; intros H; [done|]. cbn. rewrite H by lia. f_equal. apply IH. intros. apply H. lia. Qed.
Lemma sum_to_add f g n : sum_to (fun i => f i + g i) n = sum_to f n + sum_to g n.
Proof. induction n as [|n IH]; [done|]. cbn. lia. Qed.
Lemma sum_to_nonneg f n : (forall i, 0 <= f i) -> 0 <= sum_to f n.
Proof. intros H. induction n as [|n IH]; [done|]. cbn. specialize (H n). lia. Qed.
Lemma sum_to_mono f n m : (forall i, 0 <= f i) -> (n <= m)%nat -> sum_to f n <= sum_to f m.
Proof. intros H. induction 1 as [|m _ IH]; [done|]. cbn. specialize (H m). lia. Qed.

Lemma sum_to_elem f n i : (forall i, 0 <= f i) -> (i < n)%nat -> f i <= sum_to f n.
Proof. intros H Hi. pose proof (sum_to_mono f (S i) n H Hi). cbn in *. pose proof (sum_to_nonneg f i H). lia. Qed.

(** An injective image has as many elements. *)
Lemma size_set_map_inj (f : Z -> Z) (X : gset Z) : Inj eq eq f -> size (set_map f X : gset Z) = size X.
Proof.
  intros Hf. unfold set_map. rewrite size_list_to_set.
  - by rewrite length_fmap.
  - apply NoDup_fmap_2; [done|]. apply NoDup_elements.
Qed.

(** Case on the [if] tests of a goal, turning boolean comparisons into
    propositions. *)
Ltac bool_cases :=
  repeat match goal with
  | |- context [if ?b then _ else _] => let E := fresh "E" in destruct b eqn:E
  end;
  repeat match goal with
  | H : (_ <? _) = true |- _ => apply Z.ltb_lt in H
  | H : (_ <? _) = false |- _ => apply Z.ltb_ge in H
  | H : (_ <=? _) = true |- _ => apply Z.leb_le in H
  | H : (_ <=? _) = false |- _ => apply Z.leb_gt in H
  | H : (_ =? _) = true |- _ => apply Z.eqb_eq in H
  | H : (_ =? _) = false |- _ => apply Z.eqb_neq in H
  end.

(** ** Bit fields

    A member of [w] bits at bit [lo] of a packed structure. *)

Definition get_bits (lo w word : Z) : Z := Z.land (Z.shiftr word lo) (Z.ones w).
Definition set_bits (lo w v word : Z) : Z :=
  Z.lor (Z.ldiff word (Z.shiftl (Z.ones w) lo)) (Z.shiftl (Z.land v (Z.ones w)) lo).

Lemma testbit_set_bits lo w v word i : 0 <= lo -> 0 <= w -> 0 <= i ->
  Z.testbit (set_bits lo w v word) i =
  if (lo <=? i) && (i <? lo + w) then Z.testbit v (i - lo) else Z.testbit word i.
Proof.
  intros Hlo Hw Hi. unfold set_bits. rewrite Z.lor_spec, Z.ldiff_spec, !Z.shiftl_spec, Z.land_spec by lia.
  destruct (Z.leb_spec lo i) as [H1|H1]; simpl.
  - destruct (Z.ltb_spec i (lo + w)) as [H2|H2].
    + rewrite Z.ones_spec_low by lia. by rewrite andb_false_r, andb_true_r.
    + rewrite Z.ones_spec_high by lia. by rewrite !andb_false_r, andb_true_r, orb_false_r.
  - rewrite (Z.testbit_neg_r (Z.ones w)) by lia. by rewrite !andb_false_r, andb_true_r, orb_false_r.
Qed.

Lemma testbit_get_bits lo w word i : 0 <= lo -> 0 <= w -> 0 <= i ->
  Z.testbit (get_bits lo w word) i = if i <? w then Z.testbit word (i + lo) else false.
Proof.
  intros Hlo Hw Hi. unfold get_bits. rewrite Z.land_spec, Z.shiftr_spec by lia.
  destruct (Z.ltb_spec i w); [rewrite Z.ones_spec_low by lia|rewrite Z.ones_spec_high by lia].
  - by rewrite andb_true_r.
  - by rewrite andb_false_r.
Qed.

(** Reading the member that was written. *)
Lemma get_set_bits lo w v word : 0 <= lo -> 0 <= w -> get_bits lo w (set_bits lo w v word) = v mod 2 ^ w.
Proof.
  intros Hlo Hw. rewrite <- Z.land_ones by lia. apply Z.bits_inj'. intros i Hi.
  rewrite testbit_get_bits, Z.land_spec by lia. destruct (Z.ltb_spec i w).
  - rewrite testbit_set_bits by lia. rewrite (proj2 (Z.leb_le _ _)), (proj2 (Z.ltb_lt _ _)) by lia. simpl.
    rewrite Z.ones_spec_low by lia. rewrite andb_true_r. f_equal. lia.
  - rewrite Z.ones_spec_high by lia. by rewrite andb_false_r.
Qed.

(** Reading another member. *)
Lemma get_set_bits_ne lo w lo' w' v word : 0 <= lo -> 0 <= w -> 0 <= lo' -> 0 <= w' ->
  lo' + w' <= lo \/ lo + w <= lo' -> get_bits lo' w' (set_bits lo w v word) = get_bits lo' w' word.
Proof.
  intros Hlo Hw Hlo' Hw' Hd. apply Z.bits_inj'. intros i Hi. rewrite !testbit_get_bits by lia.
  destruct (Z.ltb_spec i w'); [|done]. rewrite testbit_set_bits by lia.
  destruct (Z.leb_spec lo (i + lo')), (Z.ltb_spec (i + lo') (lo + w)); simpl; try done. lia.
Qed.

Lemma get_bits_zero lo w : get_bits lo w 0 = 0.
Proof. unfold get_bits. by rewrite Z.shiftr_0_l. Qed.

Lemma get_bits_eq lo w z : 0 <= lo -> 0 <= w -> get_bits lo w z = (z / 2 ^ lo) mod 2 ^ w.
Proof. intros. unfold get_bits. by rewrite Z.land_ones, Z.shiftr_div_pow2 by lia. Qed.

(** Writing a member of an object of [n] bits gives an object of [n] bits. *)
Lemma set_bits_range lo w v word n : 0 <= lo -> 0 <= w -> lo + w <= n -> 0 <= word < 2 ^ n -> 0 <= set_bits lo w v word < 2 ^ n.
Proof.
  intros Hlo Hw Hn Hr. assert (0 <= set_bits lo w v word) as Hnn.
  { unfold set_bits. apply Z.lor_nonneg. split; [apply Z.ldiff_nonneg; left; lia|].
    apply Z.shiftl_nonneg, Z.land_nonneg. right. rewrite Z.ones_equiv. pose proof (Z.pow_pos_nonneg 2 w). lia. }
  split; [done|]. destruct (Z.eq_dec (set_bits lo w v word) 0) as [->|Hne]; [lia|].
  apply Z.log2_lt_pow2; [lia|]. apply Z.nle_gt. intros Hle. pose proof (Z.bit_log2 (set_bits lo w v word) ltac:(lia)) as Hb.
  rewrite testbit_set_bits in Hb by lia. rewrite (proj2 (Z.ltb_ge _ (lo + w))) in Hb by lia. rewrite andb_false_r in Hb.
  apply Z.testbit_true in Hb; [|lia]. rewrite Z.div_small in Hb; [done|].
  assert (2 ^ n <= 2 ^ Z.log2 (set_bits lo w v word)) by (apply Z.pow_le_mono_r; lia). lia.
Qed.

(** Members of the low [n] bits of an object. *)
Lemma get_bits_low lo w n d : 0 <= lo -> 0 <= w -> lo + w <= n -> get_bits lo w (get_bits 0 n d) = get_bits lo w d.
Proof.
  intros Hlo Hw Hn. apply Z.bits_inj'. intros i Hi. rewrite !testbit_get_bits by lia.
  destruct (Z.ltb_spec i w); [|done]. rewrite (proj2 (Z.ltb_lt _ _)) by lia. f_equal. lia.
Qed.

(** Read members of a word built by writing members one by one. *)
Ltac bits := repeat first
  [ rewrite get_set_bits by lia
  | rewrite get_set_bits_ne by lia
  | rewrite get_bits_zero ].

(** Joining a high and a low part that do not overlap. *)
Lemma lor_shift_add n a b : 0 <= n -> 0 <= b < 2 ^ n -> Z.lor (a * 2 ^ n) b = a * 2 ^ n + b.
Proof.
  intros Hn Hb. rewrite <- Z.shiftl_mul_pow2 by done.
  rewrite Z.add_nocarry_lxor, Z.lxor_lor; [done|..]; apply Z.bits_inj'; intros i Hi; rewrite Z.land_spec, Z.bits_0.
  all: destruct (Z.lt_ge_cases i n); [rewrite Z.shiftl_spec_low by done; done|].
  all: rewrite (proj2 (Z.testbit_false b i Hi)); [by rewrite andb_false_r|].
  all: rewrite Z.div_small; [done|]. all: assert (2 ^ n <= 2 ^ i) by (apply Z.pow_le_mono_r; lia); lia.
Qed.

(** ** Loops *)

(** [for (x : l) body(x)] *)
Fixpoint forM {S A} (l : list A) (body : A -> ST S unit) : ST S unit :=
  match l with [] => mret tt | x :: l => body x;; forM l body end.

Lemma forM_app {S A} (l l' : list A) (f : A -> ST S unit) s : forM (l ++ l') f s = (forM l f;; forM l' f) s.
Proof.
  revert s. induction l as [|x l IH]; intros s; [done|]. cbn [app forM]. rewrite bind_assoc.
  unfold mbind, st_bind at 1 2. destruct (f x s) as [[[] s1]| | | |]; [apply IH|done..].
Qed.
Lemma forM_ext {S A} (l : list A) (f g : A -> ST S unit) s : (forall x s, x ∈ l -> f x s = g x s) -> forM l f s = forM l g s.
Proof.
  revert s. induction l as [|x l IH]; intros s E; [done|]. cbn [forM]. unfold mbind, st_bind. rewrite E by left.
  destruct (g x s) as [[[] s1]| | | |]; [|done..]. apply IH. intros y s2 Hy. apply E. by right.
Qed.
Lemma forM_bind {S A B} (l : list A) (g : A -> list B) (f : B -> ST S unit) s : forM (l ≫= g) f s = forM l (fun x => forM (g x) f) s.
Proof.
  revert s. induction l as [|x l IH]; intros s; [done|]. rewrite bind_cons, forM_app. cbn [forM]. unfold mbind, st_bind.
  destruct (forM (g x) f s) as [[[] s1]| | | |]; [apply IH|done..].
Qed.
Lemma forM_fmap {S A B} (l : list A) (g : A -> B) (f : B -> ST S unit) s : forM (g <$> l) f s = forM l (fun x => f (g x)) s.
Proof.
  revert s. induction l as [|x l IH]; intros s; [done|]. cbn [fmap list_fmap forM]. unfold mbind, st_bind.
  destruct (f (g x) s) as [[[] s1]| | | |]; [apply IH|done..].
Qed.

(** [for (i = start; i < start + n; i++) s = body(i, s)] *)
Fixpoint for_loop {S} (n : nat) (i : Z) (body : Z -> S -> S) (s : S) : S :=
  match n with O => s | S n => for_loop n (i + 1) body (body i s) end.

Lemma for_loop_ind {S} (P : Z -> S -> Prop) n i body s :
  P i s -> (forall j s, i <= j < i + Z.of_nat n -> P j s -> P (j + 1) (body j s)) ->
  P (i + Z.of_nat n) (for_loop n i body s).
Proof.
  revert i s. induction n as [|n IH]; intros i s H0 Hs; [by rewrite Z.add_0_r|].
  cbn [for_loop]. replace (i + Z.of_nat (Datatypes.S n)) with (i + 1 + Z.of_nat n) by lia.
  apply IH; [apply Hs; [lia|done]|]. intros j s' Hj. apply Hs. lia.
Qed.
