(* ===== verification/LibUtils.v ===== *)
(** * lib/utils.h: integer logarithms *)
From S2P Require Import Prelude.

Module Utils.

Fixpoint log2_loop (fuel : nat) (n ret : Z) : Z :=
  match fuel with
  | O => ret
  | S fuel =>
      let n := Z.shiftr n 1 in
      let ret := wrap64 (ret + 1) in
      if 0 <? n then log2_loop fuel n ret else ret
  end.

(** [log2]: the do-while halves a 64-bit value, so 64 rounds are enough. *)
Definition log2 (n : Z) : Z := wrap64 (log2_loop 64 n 0 - 1).

Fixpoint log2_ceil_loop (fuel : nat) (n ones ret : Z) : Z * Z :=
  match fuel with
  | O => (ones, ret)
  | S fuel =>
      let ones := if negb (Z.land n 1 =? 0) then wrap64 (ones + 1) else ones in
      let n := Z.shiftr n 1 in
      let ret := wrap64 (ret + 1) in
      if 0 <? n then log2_ceil_loop fuel n ones ret else (ones, ret)
  end.

Definition log2_ceil (n : Z) : Z :=
  let '(ones, ret) := log2_ceil_loop 64 n 0 0 in
  if 1 <? ones then ret else wrap64 (ret - 1).

(** Halving lowers the logarithm by one. *)
Lemma log2_half n : 2 <= n -> Z.log2 n = 1 + Z.log2 (n / 2).
Proof.
  intros Hn. change (n `div` 2) with (n `div` 2 ^ 1). rewrite <- Z.shiftr_div_pow2 by lia.
  rewrite Z.log2_shiftr by lia.
  pose proof (Z.log2_le_mono 2 n Hn) as H2. change (Z.log2 2) with 1 in H2. lia.
Qed.

Lemma log2_loop_eq fuel n ret :
  (0 < fuel)%nat -> 0 <= n < 2 ^ Z.of_nat fuel -> 0 <= ret -> ret + Z.of_nat fuel < 2 ^ 64 ->
  log2_loop fuel n ret = ret + 1 + Z.log2 n.
Proof.
  revert n ret. induction fuel as [|fuel IH]; intros n ret Hf Hn Hret Hb; [lia|].
  cbn [log2_loop]. rewrite Z.shiftr_div_pow2 by lia. change (2 ^ 1) with 2.
  rewrite (wrap_small 64 (ret + 1)) by (unfold uint; lia).
  rewrite Nat2Z.inj_succ, Z.pow_succ_r in Hn by lia.
  destruct (Z.ltb_spec 0 (n / 2)) as [Hd|Hd].
  - destruct fuel as [|fuel]; [change (2 ^ Z.of_nat 0) with 1 in Hn; dlia|].
    rewrite IH by dlia. rewrite (log2_half n) by dlia. lia.
  - assert (n = 0 \/ n = 1) as [-> | ->] by dlia; simpl; lia.
Qed.

Lemma log2_eq n : 0 <= n < 2 ^ 64 -> log2 n = Z.log2 n.
Proof.
  intros Hn. unfold log2. rewrite log2_loop_eq by lia.
  assert (Z.log2 n < 64).
  { destruct (Z.eq_dec n 0) as [->|]; [simpl; lia|]. apply Z.log2_lt_pow2; lia. }
  rewrite wrap_small; [lia|]. pose proof (Z.log2_nonneg n). unfold uint. lia.
Qed.

(** The ones counter exceeds one exactly when [n] is not a power of two. *)
Lemma log2_ceil_loop_eq fuel n ones ret :
  0 < n < 2 ^ Z.of_nat fuel -> 0 <= ret -> ret + Z.of_nat fuel < 2 ^ 64 ->
  0 <= ones -> ones + Z.of_nat fuel < 2 ^ 64 ->
  exists p, 1 <= p <= Z.of_nat fuel /\ (p = 1 <-> n = 2 ^ Z.log2 n) /\
    log2_ceil_loop fuel n ones ret = (ones + p, ret + 1 + Z.log2 n).
Proof.
  revert n ones ret. induction fuel as [|fuel IH]; intros n ones ret Hn Hret Hb Hones Hob; [change (2 ^ Z.of_nat 0) with 1 in Hn; lia|].
  cbn [log2_ceil_loop]. rewrite Z.shiftr_div_pow2 by lia. change (2 ^ 1) with 2.
  rewrite (wrap_small 64 (ret + 1)), (wrap_small 64 (ones + 1)) by (unfold uint; lia).
  replace (Z.land n 1) with (n mod 2) by (symmetry; apply (Z.land_ones n 1); lia).
  rewrite Nat2Z.inj_succ, Z.pow_succ_r in Hn by lia.
  destruct (Z.ltb_spec 0 (n / 2)) as [Hd|Hd].
  - rewrite (log2_half n) by dlia. rewrite Z.pow_add_r, Z.pow_1_r by (pose proof (Z.log2_nonneg (n / 2)); lia).
    pose proof (Z.log2_spec (n / 2) Hd) as Hspec.
    destruct (Z.eqb_spec (n mod 2) 0) as [E|E]; simpl negb; cbv iota.
    + destruct (IH (n / 2) ones (ret + 1)) as (p & Hp & Hiff & ->); try dlia.
      exists p. split; [lia|]. split; [|f_equal; lia]. rewrite Hiff. dlia.
    + destruct (IH (n / 2) (ones + 1) (ret + 1)) as (p & Hp & Hiff & ->); try dlia.
      exists (p + 1). split; [lia|]. split; [|f_equal; lia]. dlia.
  - assert (n = 1) as -> by dlia. exists 1. simpl. split; [lia|]. split; [done|]. f_equal; lia.
Qed.

Lemma log2_ceil_eq n : 0 < n < 2 ^ 64 -> log2_ceil n = Z.log2_up n.
Proof.
  intros Hn. unfold log2_ceil.
  destruct (log2_ceil_loop_eq 64 n 0 0) as (p & Hp & Hiff & ->); try lia.
  pose proof (Z.log2_nonneg n).
  assert (Z.log2 n < 64) by (apply Z.log2_lt_pow2; lia).
  destruct (Z.ltb_spec 1 (0 + p)) as [Hgt|Hle].
  - assert (n <> 2 ^ Z.log2 n) by lia.
    assert (n <> 1) by (intros ->; simpl in *; lia).
    pose proof (Z.le_log2_log2_up n). pose proof (Z.le_log2_up_succ_log2 n).
    assert (Z.log2_up n <> Z.log2 n); [|lia].
    intros E. pose proof (Z.log2_up_spec n ltac:(lia)) as Hs. rewrite E in Hs.
    pose proof (Z.log2_spec n ltac:(lia)). lia.
  - assert (n = 2 ^ Z.log2 n) as E by lia. rewrite wrap_small by (unfold uint; lia).
    rewrite E at 2. rewrite Z.log2_up_pow2 by lia. lia.
Qed.

(** For a positive 64-bit value, [log2] is the exponent of the largest power
    of two that is not above it and [log2_ceil] the least exponent whose power of
    two is not below it, so rounding a request up never loses bytes. *)
Theorem log2_exact n :
  0 < n < 2 ^ 64 ->
  2 ^ log2 n <= n < 2 ^ (log2 n + 1) /\
  n <= 2 ^ log2_ceil n /\ (forall m, 0 <= m -> n <= 2 ^ m -> log2_ceil n <= m).
Proof.
  intros Hn. rewrite log2_eq, log2_ceil_eq by lia. split; [apply Z.log2_spec; lia|].
  split; [apply Z.log2_log2_up_spec; lia|]. intros m Hm Hle. apply Z.log2_up_le_pow2; lia.
Qed.

Lemma log2_exact_witness :
  2 ^ log2 4097 <= 4097 < 2 ^ (log2 4097 + 1) /\
  4097 <= 2 ^ log2_ceil 4097 /\ (forall m, 0 <= m -> 4097 <= 2 ^ m -> log2_ceil 4097 <= m).
Proof. apply (log2_exact 4097). lia. Defined.

Example log2_ex : (log2 0, log2 1, log2 4097, log2_ceil 4096, log2_ceil 4097, log2_ceil 0) = (0, 0, 12, 12, 13, 0).
Proof. reflexivity. Qed.

End Utils.
