(* ===== verification/CpuDefs.v ===== *)
(** * include/cpu_defs.h, include/mm/mm.h and include/mm/page_alloc.h

    The constants of the memory layout, the segment selectors, and the packed
    structures the processor reads.  A packed structure is a list of members with
    their widths in bits, in declaration order; the first member is at bit 0, and
    an object of the type is a number in which each member is a bit field. *)
From S2P Require Import Prelude.

Definition PAGE_SIZE : Z := 4096.
Definition PAGES_PER_TABLE : Z := 512.

(** 4 GiB of kernel space, the first 64 MiB of which hold the kernel image. *)
Definition KERNEL_SPACE_PAGES : Z := 4 * 512 * 512.
Definition KERNEL_IMAGE_PAGES : Z := 32 * 512.
Definition KERNEL_START : Z := 0xffff800000000000.
Definition IDENTITY_MAP_SIZE : Z := KERNEL_SPACE_PAGES * PAGE_SIZE - KERNEL_IMAGE_PAGES * PAGE_SIZE.
Definition IDENTITY_MAP_PHY_START : Z := KERNEL_IMAGE_PAGES * PAGE_SIZE.
Definition IDENTITY_MAP_PHY_END : Z := KERNEL_IMAGE_PAGES * PAGE_SIZE + IDENTITY_MAP_SIZE.
Definition IDENTITY_MAP_START : Z := wrap64 (KERNEL_START + IDENTITY_MAP_PHY_START).
Definition IDENTITY_MAP_END : Z := wrap64 (IDENTITY_MAP_START + IDENTITY_MAP_SIZE).

Definition Log2MinSize : Z := 16.
Definition Log2MaxSize : Z := 32.

(** ** Segment selectors *)

Definition KERNEL_CODE_SEGMENT_INDEX : Z := 2.
Definition KERNEL_DATA_SEGMENT_INDEX : Z := 3.
Definition USER_CODE_SEGMENT_INDEX : Z := 4.
Definition USER_DATA_SEGMENT_INDEX : Z := 5.
Definition TSS_INDEX : Z := 6.
Definition KERNEL_CODE_SELECTOR : Z := KERNEL_CODE_SEGMENT_INDEX * 8.
Definition KERNEL_DATA_SELECTOR : Z := KERNEL_DATA_SEGMENT_INDEX * 8.
Definition USER_CODE_SELECTOR : Z := USER_CODE_SEGMENT_INDEX * 8 + 3.
Definition USER_DATA_SELECTOR : Z := USER_DATA_SEGMENT_INDEX * 8 + 3.
Definition TSS_SELECTOR : Z := TSS_INDEX * 8.

(** ** Packed structures *)

Definition layout : Type := list (string * Z).

(** Bit position and width of a member. *)
Fixpoint field_at (off : Z) (l : layout) (name : string) : Z * Z :=
  match l with
  | [] => (off, 0)
  | (n, w) :: l => if String.eqb n name then (off, w) else field_at (off + w) l name
  end.
Definition field (l : layout) (name : string) : Z * Z := field_at 0 l name.
Definition layout_bits (l : layout) : Z := foldr (fun m acc => snd m + acc) 0 l.

(** [obj.name] and [obj.name = v] *)
Definition read_field (l : layout) (name : string) (obj : Z) : Z :=
  get_bits (fst (field l name)) (snd (field l name)) obj.
Definition write_field (l : layout) (name : string) (v obj : Z) : Z :=
  set_bits (fst (field l name)) (snd (field l name)) v obj.

Open Scope string_scope.

Definition SegmentDescriptor : layout :=
  [("__segment_limit_lo16", 16); ("__base_addr_lo16", 16); ("__base_addr_mid8", 8);
   ("__accessed", 1); ("__wr", 1); ("_dc", 1); ("__exec", 1); ("__reserved", 1); ("_dpl", 2); ("present", 1);
   ("__segment_limit_hi4", 4); ("__avl", 1); ("_long_mode", 1); ("_default_operand_size", 1); ("__granularity", 1);
   ("__base_addr_hi8", 8)].

Inductive DescriptorType :=
  | LongLDT | LongAvailableTSS | LongBusyTSS | LongCallGate | LongInterruptGate | LongTrapGate.

Definition DescriptorType_value (t : DescriptorType) : Z :=
  match t with
  | LongLDT => 0x2 | LongAvailableTSS => 0x9 | LongBusyTSS => 0xb
  | LongCallGate => 0xc | LongInterruptGate => 0xe | LongTrapGate => 0xf
  end.

Definition SystemSegmentDescriptor : layout :=
  [("segment_limit_lo16", 16); ("base_addr_lo16", 16); ("base_addr_mid8", 8);
   ("type", 4); ("zero", 1); ("dpl", 2); ("p", 1);
   ("segment_limit_hi4", 4); ("avl", 1); ("unused", 2); ("g", 1);
   ("base_addr_midhi8", 8); ("base_addr_hi32", 32); ("reserved0", 32)].

Definition TaskStateSegment : layout :=
  [("reserved1_ignore", 32); ("rsp0", 64); ("rsp1", 64); ("rsp2", 64); ("reserved2_ignore", 64);
   ("ist1", 64); ("ist2", 64); ("ist3", 64); ("ist4", 64); ("ist5", 64); ("ist6", 64); ("ist7", 64);
   ("reserved3_ignore", 64); ("reserved4_ignore", 16); ("iomap_base_addr", 16); ("iomap", 8 * 1024 * 8)].

Definition InterruptDescriptor : layout :=
  [("offset_lo16", 16); ("selector", 16); ("ist", 4); ("zero", 4); ("type", 4);
   ("zero2", 1); ("dpl", 2); ("p", 1); ("offset_mid16", 16); ("offset_hi32", 32); ("zero3", 32)].

Definition PageTableEntry : layout :=
  [("p", 1); ("rw", 1); ("us", 1); ("pwt", 1); ("pcd", 1); ("a", 1); ("d", 1); ("pat", 1);
   ("g", 1); ("avl", 3); ("base_addr", 40); ("available", 7); ("reserved", 4); ("nx", 1)].

Definition PageDirectoryEntry : layout :=
  [("p", 1); ("rw", 1); ("us", 1); ("pwt", 1); ("pcd", 1); ("a", 1); ("ignore1", 1); ("zero1", 1);
   ("ignore2", 1); ("avl", 3); ("base_addr", 40); ("available", 11); ("nx", 1)].

Definition PageDirectoryPointerEntry : layout :=
  [("p", 1); ("rw", 1); ("us", 1); ("pwt", 1); ("pcd", 1); ("a", 1); ("ignore1", 1); ("zero1", 1);
   ("ignore2", 1); ("avl", 3); ("base_addr", 40); ("available", 11); ("nx", 1)].

Definition PageMappingL4Entry : layout :=
  [("p", 1); ("rw", 1); ("us", 1); ("pwt", 1); ("pcd", 1); ("a", 1); ("ignore1", 1); ("zero1", 1);
   ("zero2", 1); ("avl", 3); ("base_addr", 40); ("available", 11); ("nx", 1)].

Close Scope string_scope.

(** Members of a word known bit by bit. *)
Lemma read_write_same l n v o : 0 <= fst (field l n) -> 0 <= snd (field l n) ->
  read_field l n (write_field l n v o) = v mod 2 ^ snd (field l n).
Proof. intros. unfold read_field, write_field. by apply get_set_bits. Qed.

(** Evaluate member positions, then read members of written words. *)
Ltac fields :=
  unfold read_field, write_field;
  repeat match goal with
  | |- context [field ?l ?n] => let e := eval vm_compute in (field l n) in change (field l n) with e
  end; cbn [fst snd]; bits.
