(* ===== verification/LibString.v ===== *)
(** * lib/string.cpp, common/endian.cpp and the integer printing of lib/serial_port.h

    Memory is a function from addresses to bytes.  The functions do not touch
    anything outside the ranges they are given, so every address is readable
    here. *)
From S2P Require Import Prelude.

Module LibString.

Definition memory : Type := Z -> Z.
Definition write (a v : Z) (m : memory) : memory := <[a := v]> m.

(** The bytes of the buffer [data], [size] of them. *)
Definition read_bytes (m : memory) (data size : Z) : list Z :=
  (fun i => m (wrap64 (data + Z.of_nat i))) <$> seq 0 (Z.to_nat size).

(** The number that bytes stand for, least significant first, and the [n] low
    bytes of a number. *)
Fixpoint le_value (bs : list Z) : Z := match bs with [] => 0 | b :: bs => b + 256 * le_value bs end.
Fixpoint le_bytes (n : nat) (v : Z) : list Z := match n with O => [] | S n => v mod 256 :: le_bytes n (v / 256) end.

Lemma le_bytes_length n v : length (le_bytes n v) = n.
Proof. revert v. induction n as [|n IH]; intros v; [done|]. cbn. by rewrite IH. Qed.
Lemma le_value_bytes n v : 0 <= v < 2 ^ (8 * Z.of_nat n) -> le_value (le_bytes n v) = v.
Proof.
  revert v. induction n as [|n IH]; intros v Hv; [cbn in *; lia|]. cbn [le_bytes le_value]. rewrite IH; [dlia|].
  replace (8 * Z.of_nat (S n)) with (8 * Z.of_nat n + 8) in Hv by lia. rewrite Z.pow_add_r in Hv by lia. change (2 ^ 8) with 256 in Hv.
  split; [apply Z.div_pos; lia|]. apply Z.div_lt_upper_bound; lia.
Qed.

(** ** Blocks of memory *)

Definition memset (data value size : Z) (m : memory) : memory :=
  for_loop (Z.to_nat size) 0 (fun i => write (wrap64 (data + i)) (wrap8 value)) m.

Definition memcpy (dst src size : Z) (m : memory) : memory :=
  for_loop (Z.to_nat size) 0 (fun i m => write (wrap64 (dst + i)) (m (wrap64 (src + i))) m) m.

Definition memmove (dest src size : Z) (m : memory) : memory :=
  if dest <? src then
    for_loop (Z.to_nat size) 0 (fun i m => write (wrap64 (dest + i)) (m (wrap64 (src + i))) m) m
  else
    for_loop (Z.to_nat size) 0 (fun i m =>
      write (wrap64 (dest + wrap64 (size - i - 1))) (m (wrap64 (src + wrap64 (size - i - 1)))) m) m.

(** [n] rounds are left of the loop of [memcmp] at index [i], an [int]: callers
    compare fewer than [2^31] bytes. *)
Fixpoint memcmp_loop (n : nat) (i a b : Z) (m : memory) : Z :=
  match n with
  | O => 0
  | S n =>
      let lhs := m (wrap64 (a + i)) in
      let rhs := m (wrap64 (b + i)) in
      if lhs <? rhs then -1
      else if rhs <? lhs then 1
      else memcmp_loop n (i + 1) a b m
  end.
Definition memcmp (a b size : Z) (m : memory) : Z := memcmp_loop (Z.to_nat size) 0 a b m.

(** ** Strings *)

(** The loop of [strcmp] as written runs while one of the strings has ended. *)
Fixpoint strcmp_loop (fuel : nat) (i a b : Z) (m : memory) : outcome Z :=
  match fuel with
  | O => OutOfFuel
  | S fuel =>
      if (m (wrap64 (a + i)) =? 0) || (m (wrap64 (b + i)) =? 0) then
        let lhs := m (wrap64 (a + i)) in
        let rhs := m (wrap64 (b + i)) in
        if lhs <? rhs then Ret (-1)
        else if rhs <? lhs then Ret 1
        else strcmp_loop fuel (i + 1) a b m
      else Ret 0
  end.
(** No string is longer than the address space. *)
Definition strcmp (fuel : nat) (a b : Z) (m : memory) : outcome Z := strcmp_loop fuel 0 a b m.

Fixpoint strlen_loop (fuel : nat) (size s : Z) (m : memory) : outcome Z :=
  match fuel with
  | O => OutOfFuel
  | S fuel => if m (wrap64 (s + size)) =? 0 then Ret size else strlen_loop fuel (wrap64 (size + 1)) s m
  end.
Definition strlen (fuel : nat) (s : Z) (m : memory) : outcome Z := strlen_loop fuel 0 s m.

(** ** Byte order *)

Definition swap_endian32 (v : Z) : Z :=
  Z.lor (Z.lor (Z.lor
    (Z.shiftl (Z.land (Z.shiftr v 0) 0xff) 24)
    (Z.shiftl (Z.land (Z.shiftr v 8) 0xff) 16))
    (Z.shiftl (Z.land (Z.shiftr v 16) 0xff) 8))
    (Z.shiftl (Z.land (Z.shiftr v 24) 0xff) 0).
Definition swap_endian16 (v : Z) : Z :=
  Z.lor (Z.shiftl (Z.land (Z.shiftr v 0) 0xff) 8) (Z.shiftl (Z.land (Z.shiftr v 8) 0xff) 0).
Definition swap_endian8 (v : Z) : Z := v.

(** ** Printing integers *)

Inductive IntRadix := Binary | Oct | Dec | Hex.

(** Only two radices are implemented; the others print in decimal. *)
Definition radix_of (r : IntRadix) : Z := match r with Hex => 16 | _ => 10 end.

(** The digit loop fills [temp] from the least significant digit on; [temp] has 20
    cells.  Division and remainder of a signed value truncate towards zero; a
    negative remainder indexes before the alphabet. *)
Fixpoint digits_loop (fuel : nat) (radix remain : Z) (temp : list Z) : outcome (list Z) :=
  match fuel with
  | O => OutOfFuel
  | S fuel =>
      if remain =? 0 then Ret temp
      else if (Z.rem remain radix <? 0) || (20 <=? length temp)%nat then Fault
      else digits_loop fuel radix (Z.quot remain radix) (temp ++ [Z.rem remain radix])
  end.

(** The digits in the order they are sent to the port, as indices into
    "0123456789abcdef". *)
Definition print_int (r : IntRadix) (n : Z) : outcome (list Z) :=
  if n =? 0 then Ret [0]
  else match digits_loop 65 (radix_of r) n [] with
       | Ret temp => Ret (rev temp)
       | o => o
       end.

(** [print_file_size]: the number, the two decimals (0 for none) and the unit. *)
Fixpoint file_size_loop (fuel : nat) (size order remains : Z) : Z * Z * Z :=
  match fuel with
  | O => (size, order, remains)
  | S fuel =>
      if (1024 <=? size) && (order <? 4)
      then file_size_loop fuel (size / 1024) (order + 1) (size mod 1024)
      else (size, order, remains)
  end.
(** The order stops at 4, so five rounds are enough. *)
Definition print_file_size (size : Z) : Z * Z * Z :=
  let '(size, order, remains) := file_size_loop 5 size 0 0 in
  (size, wrap64 (remains * 100) / 1024, order).

(** ** Theorems *)

(** A loop that writes the addresses [d], [d + 1], ... with values fixed in advance. *)
Lemma write_loop (d : Z) (g : Z -> Z) (f : Z -> memory -> memory) n m a :
  (forall i m', 0 <= i < Z.of_nat n -> (forall a, ~ (d <= a < d + i) -> m' a = m a) -> f i m' = write (d + i) (g i) m') ->
  for_loop n 0 f m a = if decide (d <= a < d + Z.of_nat n) then g (a - d) else m a.
Proof.
  intros Hf.
  pose proof (for_loop_ind (fun j m' => forall a, m' a = if decide (d <= a < d + j) then g (a - d) else m a) n 0 f m) as H.
  rewrite Z.add_0_l in H. apply H; clear H.
  - intros b. by rewrite decide_False by lia.
  - intros j m' Hj IH b. rewrite Hf; [|lia|intros b' Hb'; by rewrite IH, decide_False].
    unfold write, insert, fn_insert. case_decide as E.
    + rewrite decide_True by lia. f_equal. lia.
    + rewrite IH. destruct (decide (d <= b < d + j)); [by rewrite decide_True by lia|by rewrite decide_False by lia].
Qed.

(** The same, downwards from the end. *)
Lemma write_loop_down (d s : Z) (f : Z -> memory -> memory) n m a :
  (forall i m', 0 <= i < Z.of_nat n -> (forall a, ~ (d + Z.of_nat n - i <= a < d + Z.of_nat n) -> m' a = m a) ->
     f i m' = write (d + (Z.of_nat n - i - 1)) (m (s + (Z.of_nat n - i - 1))) m') ->
  for_loop n 0 f m a = if decide (d <= a < d + Z.of_nat n) then m (s + (a - d)) else m a.
Proof.
  intros Hf. set (N := Z.of_nat n) in *.
  pose proof (for_loop_ind (fun j m' => forall a, m' a = if decide (d + N - j <= a < d + N) then m (s + (a - d)) else m a) n 0 f m) as H.
  rewrite Z.add_0_l in H. fold N in H. replace (d + N - N) with d in H by lia. apply H; clear H.
  - intros b. by rewrite decide_False by lia.
  - intros j m' Hj IH b. rewrite Hf; [|lia|intros b' Hb'; by rewrite IH, decide_False].
    unfold write, insert, fn_insert. case_decide as E.
    + rewrite decide_True by lia. f_equal. lia.
    + rewrite IH. destruct (decide (d + N - j <= b < d + N)); [by rewrite decide_True by lia|by rewrite decide_False by lia].
Qed.

Lemma memset_spec data value size m a :
  0 <= data -> 0 <= size -> data + size <= 2 ^ 64 ->
  memset data value size m a = if decide (data <= a < data + size) then wrap8 value else m a.
Proof.
  intros Hd Hs Hb. unfold memset. rewrite (write_loop data (fun _ => wrap8 value)).
  - by rewrite Z2Nat.id.
  - intros i m' Hi _. by rewrite wrap_small by (unfold uint; lia).
Qed.

(** C36: [memmove] copies correctly whatever the overlap of the two ranges: the
    destination holds what the source held before the call, and no other byte
    changes. *)
Theorem memmove_spec dest src size m a :
  0 <= dest -> 0 <= src -> 0 <= size -> dest + size <= 2 ^ 64 -> src + size <= 2 ^ 64 ->
  memmove dest src size m a = if decide (dest <= a < dest + size) then m (src + (a - dest)) else m a.
Proof.
  intros Hd Hs Hz Hdb Hsb. unfold memmove. destruct (Z.ltb_spec dest src) as [Hlt|Hge].
  - rewrite (write_loop dest (fun i => m (src + i))); [by rewrite Z2Nat.id|].
    intros i m' Hi Hm'. rewrite !wrap_small by (unfold uint; lia). f_equal. apply Hm'. lia.
  - rewrite (write_loop_down dest src); [by rewrite Z2Nat.id|].
    intros i m' Hi Hm'. rewrite Z2Nat.id in * by done.
    rewrite (wrap_small 64 (size - i - 1)), !wrap_small by (unfold uint; lia). f_equal. apply Hm'. lia.
Qed.

Lemma memcpy_spec dst src size m a :
  0 <= dst -> 0 <= src -> 0 <= size -> dst + size <= 2 ^ 64 -> src + size <= 2 ^ 64 ->
  dst <= src \/ src + size <= dst ->
  memcpy dst src size m a = if decide (dst <= a < dst + size) then m (src + (a - dst)) else m a.
Proof.
  intros Hd Hs Hz Hdb Hsb Hov. unfold memcpy. rewrite (write_loop dst (fun i => m (src + i))); [by rewrite Z2Nat.id|].
  intros i m' Hi Hm'. rewrite !wrap_small by (unfold uint; lia). f_equal. apply Hm'. lia.
Qed.

Lemma memcmp_loop_zero n i a b m :
  0 <= a + i -> 0 <= b + i -> a + i + Z.of_nat n <= 2 ^ 64 -> b + i + Z.of_nat n <= 2 ^ 64 ->
  memcmp_loop n i a b m = 0 <-> forall j, i <= j < i + Z.of_nat n -> m (a + j) = m (b + j).
Proof.
  revert i. induction n as [|n IH]; intros i Ha Hb Hna Hnb; [split; [intros _ j Hj; lia|done]|].
  cbn [memcmp_loop]. rewrite !wrap_small by (unfold uint; lia).
  destruct (Z.ltb_spec (m (a + i)) (m (b + i))) as [H1|H1].
  { split; [done|]. intros H. specialize (H i ltac:(lia)). lia. }
  destruct (Z.ltb_spec (m (b + i)) (m (a + i))) as [H2|H2].
  { split; [done|]. intros H. specialize (H i ltac:(lia)). lia. }
  rewrite IH by lia. split.
  - intros H j Hj. destruct (decide (j = i)) as [->|]; [lia|]. apply H. lia.
  - intros H j Hj. apply H. lia.
Qed.

(** [memcpy] and [memcmp] agree: after copying between ranges that [memcpy]
    supports, [memcmp] finds source and destination equal, and it finds two
    ranges equal exactly when all their bytes are. *)
Theorem memcpy_memcmp dst src size m :
  0 <= dst -> 0 <= src -> 0 <= size -> dst + size <= 2 ^ 64 -> src + size <= 2 ^ 64 ->
  dst + size <= src \/ src + size <= dst ->
  memcmp dst src size (memcpy dst src size m) = 0 /\
  (memcmp dst src size m = 0 <-> forall j, 0 <= j < size -> m (dst + j) = m (src + j)).
Proof.
  intros Hd Hs Hz Hdb Hsb Hov. unfold memcmp. rewrite !memcmp_loop_zero by lia. rewrite Z2Nat.id by done. split; [|done].
  intros j Hj. rewrite !memcpy_spec by lia. rewrite decide_True by lia. rewrite decide_False by lia. f_equal. lia.
Qed.

(** [strcmp] compares nothing once both strings start with a character: two
    different non-empty strings compare equal. *)
Theorem strcmp_nonempty a b m fuel :
  m (wrap64 a) <> 0 -> m (wrap64 b) <> 0 -> strcmp (S fuel) a b m = Ret 0.
Proof.
  intros Ha Hb. unfold strcmp. cbn [strcmp_loop]. rewrite !Z.add_0_r.
  rewrite (proj2 (Z.eqb_neq _ _) Ha), (proj2 (Z.eqb_neq _ _) Hb). done.
Qed.

Lemma strlen_loop_ok n fuel i s m :
  0 <= s -> 0 <= i -> s + i + Z.of_nat n < 2 ^ 64 -> (n < fuel)%nat ->
  (forall j, i <= j < i + Z.of_nat n -> m (s + j) <> 0) -> m (s + i + Z.of_nat n) = 0 ->
  strlen_loop fuel i s m = Ret (i + Z.of_nat n).
Proof.
  revert fuel i. induction n as [|n IH]; intros fuel i Hs Hi Hb Hf Hnz Hz; (destruct fuel as [|fuel]; [lia|]); cbn [strlen_loop].
  - rewrite wrap_small by (unfold uint; lia). rewrite Z.add_0_r in *. by rewrite Hz.
  - rewrite wrap_small by (unfold uint; lia). rewrite (proj2 (Z.eqb_neq _ _)) by (apply Hnz; lia).
    rewrite wrap_small by (unfold uint; lia). rewrite IH; [f_equal; lia|lia..| |].
    + intros j Hj. apply Hnz. lia.
    + rewrite <- Hz. f_equal. lia.
Qed.

(** ** Byte order *)

Lemma land_ff z : Z.land z 0xff = z mod 256.
Proof. change 0xff with (Z.ones 8). by rewrite Z.land_ones. Qed.

Lemma swap_endian32_eq v : 0 <= v < 2 ^ 32 ->
  swap_endian32 v = ((v mod 256 * 256 + (v / 256) mod 256) * 256 + (v / 65536) mod 256) * 256 + v / 16777216.
Proof.
  intros Hv. unfold swap_endian32. rewrite !land_ff, !Z.shiftr_div_pow2, !Z.shiftl_mul_pow2 by lia.
  change (2 ^ 0) with 1. rewrite Z.div_1_r, Z.mul_1_r. change (2 ^ 8) with 256. change (2 ^ 16) with 65536.
  rewrite (lor_shift_add 24) by dlia.
  replace (v mod 256 * 2 ^ 24 + (v / 256) mod 256 * 65536) with ((v mod 256 * 256 + (v / 256) mod 256) * 2 ^ 16) by lia.
  rewrite lor_shift_add by dlia.
  replace ((v mod 256 * 256 + (v / 256) mod 256) * 2 ^ 16 + (v / 65536) mod 256 * 256)
    with (((v mod 256 * 256 + (v / 256) mod 256) * 256 + (v / 65536) mod 256) * 2 ^ 8) by lia.
  rewrite lor_shift_add by dlia. change (2 ^ 24) with 16777216. change (2 ^ 8) with 256. dlia.
Qed.

Lemma swap_endian16_eq v : 0 <= v < 2 ^ 16 -> swap_endian16 v = v mod 256 * 256 + v / 256.
Proof.
  intros Hv. unfold swap_endian16. rewrite !land_ff, !Z.shiftr_div_pow2, !Z.shiftl_mul_pow2 by lia.
  change (2 ^ 0) with 1. rewrite Z.div_1_r, Z.mul_1_r. rewrite lor_shift_add by dlia. change (2 ^ 8) with 256. dlia.
Qed.

(** On a value given by its bytes, the swap reverses them. *)
Lemma swap_endian32_bytes b0 b1 b2 b3 :
  0 <= b0 < 256 -> 0 <= b1 < 256 -> 0 <= b2 < 256 -> 0 <= b3 < 256 ->
  swap_endian32 (b0 + 256 * (b1 + 256 * (b2 + 256 * b3))) = b3 + 256 * (b2 + 256 * (b1 + 256 * b0)).
Proof.
  intros H0 H1 H2 H3. set (v := b0 + _). rewrite swap_endian32_eq by lia.
  assert (v mod 256 = b0) as -> by (symmetry; apply (Z.mod_unique v 256 (b1 + 256 * (b2 + 256 * b3))); lia).
  assert (v / 256 = b1 + 256 * (b2 + 256 * b3)) as -> by (symmetry; apply (Z.div_unique v 256 _ b0); lia).
  assert (v / 65536 = b2 + 256 * b3) as -> by (symmetry; apply (Z.div_unique v 65536 _ (b0 + 256 * b1)); lia).
  assert (v / 16777216 = b3) as -> by (symmetry; apply (Z.div_unique v 16777216 _ (b0 + 256 * (b1 + 256 * b2))); lia).
  assert ((b1 + 256 * (b2 + 256 * b3)) mod 256 = b1) as -> by (symmetry; apply (Z.mod_unique _ 256 (b2 + 256 * b3)); lia).
  assert ((b2 + 256 * b3) mod 256 = b2) as -> by (symmetry; apply (Z.mod_unique _ 256 b3); lia). lia.
Qed.

Lemma bytes32 v : 0 <= v < 2 ^ 32 -> exists b0 b1 b2 b3,
  v = b0 + 256 * (b1 + 256 * (b2 + 256 * b3)) /\ 0 <= b0 < 256 /\ 0 <= b1 < 256 /\ 0 <= b2 < 256 /\ 0 <= b3 < 256.
Proof.
  intros Hv. exists (v mod 256), (v / 256 mod 256), (v / 256 / 256 mod 256), (v / 256 / 256 / 256).
  pose proof (Z.div_mod v 256). pose proof (Z.div_mod (v / 256) 256). pose proof (Z.div_mod (v / 256 / 256) 256).
  pose proof (Z.mod_pos_bound v 256). pose proof (Z.mod_pos_bound (v / 256) 256). pose proof (Z.mod_pos_bound (v / 256 / 256) 256).
  lia.
Qed.

(** Converting to network byte order and back is the identity on 16-bit and
    32-bit values, and the conversion stays in range. *)
Theorem swap_endian_involutive v :
  (0 <= v < 2 ^ 32 -> 0 <= swap_endian32 v < 2 ^ 32 /\ swap_endian32 (swap_endian32 v) = v) /\
  (0 <= v < 2 ^ 16 -> 0 <= swap_endian16 v < 2 ^ 16 /\ swap_endian16 (swap_endian16 v) = v).
Proof.
  split; intros Hv.
  - destruct (bytes32 v Hv) as (b0 & b1 & b2 & b3 & -> & H0 & H1 & H2 & H3).
    rewrite swap_endian32_bytes, swap_endian32_bytes by done. split; [lia|done].
  - assert (0 <= swap_endian16 v < 2 ^ 16) as Hr by (rewrite swap_endian16_eq by done; dlia).
    split; [done|]. rewrite (swap_endian16_eq (swap_endian16 v)) by done. rewrite swap_endian16_eq by done. dlia.
Qed.

(** ** Printing integers *)

(** The value of digits, most significant first. *)
Definition value_of (radix : Z) (ds : list Z) : Z := fold_left (fun acc d => acc * radix + d) ds 0.

(** The value of digits, least significant first. *)
Fixpoint value_le (radix : Z) (ds : list Z) : Z :=
  match ds with [] => 0 | d :: ds => d + radix * value_le radix ds end.

Lemma value_le_snoc radix ds d : value_le radix (ds ++ [d]) = value_le radix ds + d * radix ^ Z.of_nat (length ds).
Proof.
  induction ds as [|x ds IH]; [cbn; lia|]. cbn [value_le app length]. rewrite IH, Nat2Z.inj_succ, Z.pow_succ_r by lia. lia.
Qed.

Lemma value_rev radix ds : value_of radix (rev ds) = value_le radix ds.
Proof.
  induction ds as [|d ds IH]; [done|]. unfold value_of in *. cbn [rev value_le]. rewrite fold_left_app, IH. cbn. lia.
Qed.

Lemma digits_loop_ok r fuel remain temp n :
  0 <= n < 2 ^ 64 -> 0 <= remain -> value_le (radix_of r) temp + remain * radix_of r ^ Z.of_nat (length temp) = n ->
  0 <= value_le (radix_of r) temp -> Forall (fun d => 0 <= d < radix_of r) temp -> (21 - length temp < fuel)%nat -> (length temp <= 20)%nat ->
  exists ds, digits_loop fuel (radix_of r) remain temp = Ret ds /\ value_le (radix_of r) ds = n /\
    Forall (fun d => 0 <= d < radix_of r) ds /\ (length ds <= 20)%nat.
Proof.
  assert (10 <= radix_of r) as Hrad by (destruct r; cbn; lia). set (R := radix_of r) in *. clearbody R.
  revert remain temp. induction fuel as [|fuel IH]; intros remain temp Hn Hrem Hval Hpos Hall Hf Hlen; [lia|].
  cbn [digits_loop]. destruct (Z.eqb_spec remain 0) as [->|Hne].
  { exists temp. split; [done|]. split; [lia|]. done. }
  assert (length temp < 20)%nat as Hlt.
  { destruct (decide (length temp = 20%nat)) as [E|]; [|lia]. rewrite E in Hval.
    assert (10 ^ 20 <= R ^ Z.of_nat 20) by (apply Z.pow_le_mono_l; lia). change (10 ^ 20) with 100000000000000000000 in *. nia. }
  rewrite Z.rem_mod_nonneg, Z.quot_div_nonneg by lia.
  rewrite (proj2 (Z.ltb_ge _ _)) by (apply Z.mod_pos_bound; lia). rewrite (proj2 (Nat.leb_gt _ _)) by lia.
  apply IH; try done.
  - apply Z.div_pos; lia.
  - rewrite value_le_snoc, length_app. cbn [length]. rewrite Nat2Z.inj_add. cbn [Z.of_nat].
    rewrite Z.pow_add_r, Z.pow_1_r by lia. rewrite <- Hval. pose proof (Z.div_mod remain R ltac:(lia)). nia.
  - rewrite value_le_snoc. pose proof (Z.mod_pos_bound remain R ltac:(lia)).
    pose proof (Z.pow_nonneg R (Z.of_nat (length temp)) ltac:(lia)). nia.
  - apply Forall_app. split; [done|]. apply Forall_singleton. apply Z.mod_pos_bound. lia.
  - rewrite length_app. cbn [length]. lia.
  - rewrite length_app. cbn [length]. lia.
Qed.

(** What printing a number sends. *)
Lemma print_int_ok r n :
  0 <= n < 2 ^ 64 ->
  exists ds, print_int r n = Ret ds /\ value_of (radix_of r) ds = n /\
    Forall (fun d => 0 <= d < radix_of r) ds /\ (length ds <= 20)%nat.
Proof.
  intros Hn. unfold print_int. destruct (Z.eqb_spec n 0) as [->|Hne].
  - exists [0]. split; [done|]. split; [done|]. split; [|cbn; lia]. apply Forall_singleton. destruct r; cbn; lia.
  - destruct (digits_loop_ok r 65 n [] n) as (ds & H & Hv & Hall & Hlen); try done.
    + lia.
    + cbn. lia.
    + cbn. lia.
    + cbn. lia.
    + exists (rev ds). rewrite H. split; [done|]. split; [by rewrite value_rev|].
      split; [by apply Forall_rev|]. by rewrite length_rev.
Qed.

(** A negative value runs into a negative digit. *)
Lemma digits_loop_negative r fuel remain temp : remain < 0 -> - 2 ^ Z.of_nat fuel < remain ->
  digits_loop fuel (radix_of r) remain temp = Fault.
Proof.
  assert (10 <= radix_of r) as Hrad by (destruct r; cbn; lia). set (R := radix_of r) in *. clearbody R.
  revert remain temp. induction fuel as [|fuel IH]; intros remain temp Hn Hb; [cbn in Hb; lia|].
  cbn [digits_loop]. rewrite (proj2 (Z.eqb_neq _ _)) by lia. destruct (Z.ltb_spec (Z.rem remain R) 0) as [|Hr]; [done|]. cbn [orb].
  destruct (20 <=? length temp)%nat; [done|]. pose proof (Z.quot_rem remain R ltac:(lia)) as E.
  pose proof (Z.rem_nonpos remain R ltac:(lia) ltac:(lia)). rewrite Nat2Z.inj_succ, Z.pow_succ_r in Hb by lia. apply IH; nia.
Qed.
Lemma print_int_negative r n : - 2 ^ 63 <= n < 0 -> print_int r n = Fault.
Proof. intros Hn. unfold print_int. rewrite (proj2 (Z.eqb_neq _ _)) by lia. rewrite digits_loop_negative; [done|lia|]. cbn. lia. Qed.

(** Printing an unsigned 64-bit value, in either radix, sends digits of that
    radix whose value is the number, and the 20 cells of the digit buffer are
    enough. *)
Theorem print_int_roundtrip r n :
  0 <= n < 2 ^ 64 ->
  exists ds, print_int r n = Ret ds /\ value_of (radix_of r) ds = n /\
    Forall (fun d => 0 <= d < radix_of r) ds /\ (length ds <= 20)%nat.
Proof. apply print_int_ok. Qed.

(** ** Concrete inputs *)

Definition ex_memory : memory := fun a => a mod 251.

Lemma memmove_spec_witness :
  memmove 1000 1010 64 ex_memory 1003 = ex_memory 1013 /\ memmove 1010 1000 64 ex_memory 1013 = ex_memory 1003.
Proof.
  split; [rewrite (memmove_spec 1000 1010 64 ex_memory 1003) by lia|rewrite (memmove_spec 1010 1000 64 ex_memory 1013) by lia]; done.
Defined.

Lemma memcpy_memcmp_witness :
  memcmp 1000 2000 64 (memcpy 1000 2000 64 ex_memory) = 0 /\
  (memcmp 1000 2000 64 ex_memory = 0 <-> forall j, 0 <= j < 64 -> ex_memory (1000 + j) = ex_memory (2000 + j)).
Proof. apply (memcpy_memcmp 1000 2000 64 ex_memory); lia. Defined.

(** "a" and "b". *)
Definition two_strings : memory := fun a => if a =? 100 then 97 else if a =? 200 then 98 else 0.

Lemma strcmp_nonempty_witness : strcmp 10 100 200 two_strings = Ret 0.
Proof. apply (strcmp_nonempty 100 200 two_strings 9); done. Defined.

Lemma swap_endian_involutive_witness :
  (0 <= swap_endian32 0x12345678 < 2 ^ 32 /\ swap_endian32 (swap_endian32 0x12345678) = 0x12345678) /\
  (0 <= swap_endian16 0x1234 < 2 ^ 16 /\ swap_endian16 (swap_endian16 0x1234) = 0x1234).
Proof. split; [apply (proj1 (swap_endian_involutive 0x12345678)); lia|apply (proj2 (swap_endian_involutive 0x1234)); lia]. Defined.

Lemma print_int_roundtrip_witness :
  exists ds, print_int Dec 18446744073709551615 = Ret ds /\ value_of 10 ds = 18446744073709551615 /\
    Forall (fun d => 0 <= d < 10) ds /\ (length ds <= 20)%nat.
Proof. apply (print_int_roundtrip Dec 18446744073709551615). lia. Defined.

End LibString.
