(* ===== verification/SmallVec.v ===== *)
(** * include/common/small_vec.hpp: a vector in a fixed buffer

    The buffer has room for [N] objects.  [buf_] maps an index to the object
    last written there; an index never written holds [raw], the object whose
    bytes are those of untouched static storage.  Reading or writing outside
    [0, N) is [Fault]: [get_buf] does not check its argument.  Destructors do
    not change the bytes of the element types the kernel stores. *)
From S2P Require Import Prelude.

Module SmallVec.

Record SmallVec (T : Type) := mkVec { buf_ : gmap Z T; size_ : Z }.
Arguments mkVec {T} buf_ size_.
Arguments buf_ {T} s.
Arguments size_ {T} s.

Section vec.
Context {T : Type} (raw : T) (N : Z).
Local Abbreviation M := (ST (SmallVec T)).

Definition new : SmallVec T := mkVec ∅ 0.
Definition size (v : SmallVec T) : Z := size_ v.
Definition empty (v : SmallVec T) : bool := size v =? 0.

Definition cell (v : SmallVec T) (offset : Z) : T := default raw (buf_ v !! offset).

(** Reading and writing through the reference [get_buf] returns. *)
Definition get_buf (offset : Z) : M T := fun v =>
  if (0 <=? offset) && (offset <? N) then Ret (cell v offset, v) else Fault.
Definition set_buf (offset : Z) (x : T) : M unit := fun v =>
  if (0 <=? offset) && (offset <? N) then Ret (tt, mkVec (<[offset := x]> (buf_ v)) (size_ v)) else Fault.
Definition set_size (n : Z) : M unit := modify (fun v => mkVec (buf_ v) n).

(** The growing loop of [resize] constructs objects from index [i] on. *)
Fixpoint construct_loop (n : nat) (i : Z) (x : T) : M unit :=
  match n with
  | O => mret tt
  | S n => set_buf i x;; construct_loop n (i + 1) x
  end.

(** The destructor loop of the shrinking branch reads the elements it destroys. *)
Fixpoint destroy_loop (n : nat) (i : Z) : M unit :=
  match n with
  | O => mret tt
  | S n => _ ← get_buf i; destroy_loop n (i + 1)
  end.

Definition resize (new_size : Z) (dflt : T) : M unit :=
  size ← gets size_;
  if new_size <? size then
    destroy_loop (Z.to_nat (size - new_size)) new_size;;
    set_size new_size
  else if size <? new_size then
    construct_loop (Z.to_nat (new_size - size)) size dflt
  else mret tt.

(** [emplace_back] and [push_back] return a reference to the new element, here
    its index. *)
Definition emplace_back (obj : T) : M Z :=
  i ← gets size_;
  set_buf i obj;;
  set_size (wrap64 (i + 1));;
  mret i.

Definition push_back (obj : T) : M Z :=
  i ← gets size_;
  set_buf i obj;;
  set_size (wrap64 (i + 1));;
  mret i.

Definition pop_back : M unit :=
  n ← gets size_;
  do_assert (negb (n =? 0)) "cannot pop empty vec";;
  set_size (wrap64 (n - 1));;
  _ ← get_buf (wrap64 (n - 1));
  mret tt.

Definition back : M T :=
  n ← gets size_;
  do_assert (negb (n =? 0)) "SmallVec is empty";;
  get_buf (wrap64 (n - 1)).

(** [T &operator[](size_t offset)]: the argument is not used. *)
Definition at_mut (offset : Z) : M T :=
  n ← gets size_;
  get_buf n.

(** [const T &operator[](size_t offset) const] *)
Definition at_const (offset : Z) : M T := get_buf offset.

(** ** What the vector holds *)

Definition wf (v : SmallVec T) : Prop := 0 <= size_ v <= N.
Definition contents (v : SmallVec T) : list T := cell v <$> seqZ 0 (size_ v).

Context (HN : N < 2 ^ 64).

Lemma get_buf_ok v i : 0 <= i < N -> get_buf i v = Ret (cell v i, v).
Proof using Type. intros. unfold get_buf. by rewrite (proj2 (Z.leb_le _ _)), (proj2 (Z.ltb_lt _ _)) by lia. Qed.
Lemma set_buf_ok v i x : 0 <= i < N -> set_buf i x v = Ret (tt, mkVec (<[i := x]> (buf_ v)) (size_ v)).
Proof using Type. intros. unfold set_buf. by rewrite (proj2 (Z.leb_le _ _)), (proj2 (Z.ltb_lt _ _)) by lia. Qed.
Lemma get_buf_fault v i : ~ (0 <= i < N) -> get_buf i v = Fault.
Proof using Type. intros. unfold get_buf. bool_cases; [|done]. apply andb_true_iff in E as [?%Z.leb_le ?%Z.ltb_lt]. lia. Qed.

Lemma contents_insert v i x m :
  0 <= m <= i -> contents (mkVec (<[i := x]> (buf_ v)) m) = contents (mkVec (buf_ v) m).
Proof using Type.
  intros Hi. unfold contents. simpl. apply list_fmap_ext. intros n y Hy%list_elem_of_lookup_2.
  apply elem_of_seqZ in Hy. unfold cell. simpl. by rewrite lookup_insert_ne by lia.
Qed.

Lemma contents_snoc b m : 0 <= m -> contents (mkVec b (m + 1)) = contents (mkVec b m) ++ [default raw (b !! m)].
Proof using Type.
  intros. unfold contents. simpl. rewrite (seqZ_app 0 m 1) by lia. rewrite fmap_app. by rewrite Z.add_0_l.
Qed.

Lemma push_back_ok v x : wf v -> size_ v < N -> exists v',
  push_back x v = Ret (size_ v, v') /\ wf v' /\ contents v' = contents v ++ [x].
Proof using HN.
  intros [H0 _] Hs. unfold push_back. step_with (eq_refl (gets size_ v)).
  step_with set_buf_ok; [|lia]. eexists. split; [reflexivity|]. simpl.
  rewrite wrap_small by (unfold uint; lia). split; [unfold wf; simpl; lia|].
  rewrite contents_snoc by done. rewrite lookup_insert_eq, contents_insert by lia. by destruct v.
Qed.

Lemma length_contents v : wf v -> length (contents v) = Z.to_nat (size_ v).
Proof using Type. intros. unfold contents. by rewrite length_fmap, length_seqZ. Qed.

Lemma pop_back_ok v l x : wf v -> contents v = l ++ [x] -> exists v',
  pop_back v = Ret (tt, v') /\ wf v' /\ contents v' = l.
Proof using HN.
  intros Hwf Hc. pose proof (length_contents v Hwf) as Hl. rewrite Hc, length_app in Hl. simpl in Hl.
  destruct Hwf as [H0 H1]. unfold pop_back. step_with (eq_refl (gets size_ v)).
  rewrite (proj2 (Z.eqb_neq _ _)) by lia. cbn [negb do_assert].
  rewrite bind_mret_l. rewrite wrap_small by (unfold uint; lia).
  step_with (eq_refl (set_size _ v)). step_with get_buf_ok; [|lia].
  eexists. split; [reflexivity|]. split; [unfold wf; simpl; lia|].
  destruct v as [b m]. simpl in *. replace m with (m - 1 + 1) in Hc by lia.
  rewrite contents_snoc in Hc by lia. by apply app_inj_tail in Hc as [-> _].
Qed.

Lemma contents_lookup v i : 0 <= i < size_ v -> contents v !! Z.to_nat i = Some (cell v i).
Proof using Type.
  intros. unfold contents. rewrite list_lookup_fmap.
  rewrite lookup_seqZ_lt by lia. simpl. do 2 f_equal. lia.
Qed.

(** Growing with [resize] constructs objects past the end but records no new size. *)
Lemma construct_loop_ok n i x v : 0 <= i -> i + Z.of_nat n <= N -> 0 <= size_ v <= i -> exists v',
  construct_loop n i x v = Ret (tt, v') /\ size_ v' = size_ v /\ contents v' = contents v.
Proof using Type.
  revert i v. induction n as [|n IH]; intros i v Hi Hb Hs; [by exists v|].
  cbn [construct_loop]. step_with set_buf_ok; [|lia].
  destruct (IH (i + 1) (mkVec (<[i := x]> (buf_ v)) (size_ v))) as (v' & Hr & Hs' & Hc); simpl; [lia..|].
  exists v'. split; [done|]. split; [done|]. rewrite Hc, contents_insert by lia. by destruct v.
Qed.

End vec.

(** C40: in a well-formed vector [push_back], [back], [pop_back] and the const
    subscript act on the list of its elements as append, last, drop-last and
    lookup; pushing onto a full vector writes outside the buffer. *)
Theorem smallvec_refines_list {T} (raw : T) (N : Z) (v : SmallVec T) :
  N < 2 ^ 64 -> wf N v ->
  (forall x, size_ v < N -> exists v', push_back N x v = Ret (size_ v, v') /\ wf N v' /\
     contents raw v' = contents raw v ++ [x]) /\
  (forall l x, contents raw v = l ++ [x] -> back raw N v = Ret (x, v) /\
     exists v', pop_back raw N v = Ret (tt, v') /\ wf N v' /\ contents raw v' = l) /\
  (forall i, 0 <= i < size_ v -> exists x, contents raw v !! Z.to_nat i = Some x /\ at_const raw N i v = Ret (x, v)) /\
  (forall x, size_ v = N -> push_back N x v = Fault).
Proof.
  intros HN Hwf. split_and!.
  - intros x Hs. by apply push_back_ok.
  - intros l x Hc. split; [|by eapply pop_back_ok].
    pose proof (length_contents raw N v Hwf) as Hl. rewrite Hc, length_app in Hl. simpl in Hl. destruct Hwf as [H0 H1].
    unfold back. step_with (eq_refl (gets size_ v)). rewrite (proj2 (Z.eqb_neq _ _)) by lia. cbn [negb do_assert].
    rewrite bind_mret_l, wrap_small by (unfold uint; lia). rewrite get_buf_ok by lia. do 2 f_equal.
    pose proof (contents_lookup raw v (size_ v - 1)) as Hx. rewrite Hc, lookup_app_r in Hx by lia.
    replace (Z.to_nat (size_ v - 1) - length l)%nat with 0%nat in Hx by lia.
    specialize (Hx ltac:(lia)). simpl in Hx. congruence.
  - intros i Hi. exists (cell raw v i). split; [by apply contents_lookup|]. apply get_buf_ok. destruct Hwf. lia.
  - intros x Hs. unfold push_back. step_with (eq_refl (gets size_ v)). unfold mbind at 1, st_bind at 1, set_buf. rewrite Hs.
    bool_cases; [|done]. apply andb_true_iff in E as [_ ?%Z.ltb_lt]. lia.
Qed.

(** The non-const subscript ignores its argument: whatever the offset, it
    yields the cell one past the last element, and faults on a full vector. *)
Theorem smallvec_subscript_ignores_offset {T} (raw : T) (N : Z) (v : SmallVec T) (offset : Z) :
  wf N v ->
  (size_ v < N -> at_mut raw N offset v = Ret (cell raw v (size_ v), v)) /\
  (size_ v = N -> at_mut raw N offset v = Fault).
Proof.
  intros [H0 _]. unfold at_mut. split; intros H; step_with (eq_refl (gets size_ v)).
  - by apply get_buf_ok.
  - apply get_buf_fault. lia.
Qed.

(** ** Concrete vectors *)

Definition vec2 : SmallVec Z := mkVec (<[0 := 7]> (<[1 := 8]> ∅)) 2.

Lemma smallvec_refines_list_witness :
  (forall x, 2 < 4 -> exists v', push_back 4 x vec2 = Ret (2, v') /\ wf 4 v' /\ contents 0 v' = contents 0 vec2 ++ [x]) /\
  (forall l x, contents 0 vec2 = l ++ [x] -> back 0 4 vec2 = Ret (x, vec2) /\
     exists v', pop_back 0 4 vec2 = Ret (tt, v') /\ wf 4 v' /\ contents 0 v' = l) /\
  (forall i, 0 <= i < 2 -> exists x, contents 0 vec2 !! Z.to_nat i = Some x /\ at_const 0 4 i vec2 = Ret (x, vec2)) /\
  (forall x, 2 = 4 -> push_back 4 x vec2 = Fault).
Proof. apply (smallvec_refines_list 0 4 vec2); [lia|unfold wf; simpl; lia]. Defined.

Lemma smallvec_subscript_witness :
  (2 < 4 -> at_mut 0 4 1 vec2 = Ret (0, vec2)) /\ (2 = 4 -> at_mut 0 4 1 vec2 = Fault).
Proof. apply (smallvec_subscript_ignores_offset 0 4 vec2 1). unfold wf; simpl; lia. Defined.

End SmallVec.
