(* ===== verification/SSQueue.v ===== *)
(** * include/common/kssq.hpp: the single producer, single consumer queue

    The queue exchanges pointers: [enq] swaps the producer's packet with the
    pointer in the slot it fills, [deq] swaps the consumer's with the one it
    takes.  Each operation is three steps, one per access to shared state: a
    check, a swap, and the update of an index.  The sequential operations run
    their steps in a row; the concurrent system interleaves the steps of one
    producer and one consumer. *)
From S2P Require Import Prelude.

Module SSQueue.

Record ssq := mkQ { rx_queue_ : list Z; rx_start_ : Z; rx_end_ : Z }.

Definition qsize (s : ssq) : Z := Z.of_nat (length (rx_queue_ s)).

(** ** The steps *)

(** [enq]: the index after the slot to fill, [None] when the queue is full. *)
Definition enq_check (s : ssq) : option Z :=
  let next := (rx_end_ s + 1) mod qsize s in
  if next =? rx_start_ s then None else Some next.

(** [std::swap(packet, rx_queue_[i])] *)
Definition swap_slot (i packet : Z) (s : ssq) : Z * ssq :=
  (rx_queue_ s !!! Z.to_nat i, mkQ (<[Z.to_nat i := packet]> (rx_queue_ s)) (rx_start_ s) (rx_end_ s)).

Definition enq_swap (packet : Z) (s : ssq) : Z * ssq := swap_slot (rx_end_ s) packet s.
Definition enq_publish (next : Z) (s : ssq) : ssq := mkQ (rx_queue_ s) (rx_start_ s) next.

Definition deq_check (s : ssq) : bool := negb (rx_start_ s =? rx_end_ s).
Definition deq_swap (packet : Z) (s : ssq) : Z * ssq := swap_slot (rx_start_ s) packet s.
Definition deq_advance (s : ssq) : ssq := mkQ (rx_queue_ s) ((rx_start_ s + 1) mod qsize s) (rx_end_ s).

(** ** The operations *)

(** Result, the caller's packet afterwards, and the queue; an empty vector makes
    [%] divide by zero. *)
Definition enq (packet : Z) (s : ssq) : outcome (bool * Z * ssq) :=
  if qsize s =? 0 then Fault
  else match enq_check s with
       | None => Ret (false, packet, s)
       | Some next => let '(packet, s) := enq_swap packet s in Ret (true, packet, enq_publish next s)
       end.

Definition deq (packet : Z) (s : ssq) : outcome (bool * Z * ssq) :=
  if deq_check s then
    if qsize s =? 0 then Fault
    else let '(packet, s) := deq_swap packet s in Ret (true, packet, deq_advance s)
  else Ret (false, packet, s).

(** [SSQueue(kvector<T*> vec)] *)
Definition new (vec : list Z) : ssq := mkQ vec 0 0.

(** ** What the queue holds *)

Definition wf (s : ssq) : Prop := 0 < qsize s /\ 0 <= rx_start_ s < qsize s /\ 0 <= rx_end_ s < qsize s.

Definition count (s : ssq) : Z := (rx_end_ s - rx_start_ s) mod qsize s.

(** [k] consecutive slots from [start] on. *)
Definition slots (q : list Z) (start : Z) (k : Z) : list Z :=
  (fun i => q !!! Z.to_nat ((start + i) mod Z.of_nat (length q))) <$> seqZ 0 k.
Definition held (s : ssq) : list Z := slots (rx_queue_ s) (rx_start_ s) (count s).

Lemma slots_ext q q' start start' k :
  length q' = length q ->
  (forall i, 0 <= i < k -> q' !!! Z.to_nat ((start' + i) mod Z.of_nat (length q)) = q !!! Z.to_nat ((start + i) mod Z.of_nat (length q))) ->
  slots q' start' k = slots q start k.
Proof.
  intros Hl H. unfold slots. rewrite Hl. apply list_fmap_ext. intros n i Hi%list_elem_of_lookup_2.
  apply elem_of_seqZ in Hi. apply H. lia.
Qed.

Lemma slots_snoc q start k : 0 <= k -> slots q start (k + 1) = slots q start k ++ [q !!! Z.to_nat ((start + k) mod Z.of_nat (length q))].
Proof. intros Hk. unfold slots. rewrite (seqZ_app 0 k 1), fmap_app by lia. by rewrite Z.add_0_l. Qed.

Lemma slots_cons q start k : 0 < k ->
  slots q start k = q !!! Z.to_nat (start mod Z.of_nat (length q)) :: slots q (start + 1) (k - 1).
Proof.
  intros Hk. unfold slots. replace k with (1 + (k - 1)) at 1 by lia. rewrite (seqZ_app 0 1 (k - 1)), fmap_app by lia.
  cbn [fmap list_fmap app seqZ]. rewrite Z.add_0_l. change (seqZ 0 1) with [0]. cbn [fmap list_fmap app]. rewrite Z.add_0_r.
  f_equal. change (seqZ 1 (k - 1)) with (seqZ (1 + 0) (k - 1)). rewrite <- (fmap_add_seqZ 1 0 (k - 1)). rewrite <- list_fmap_compose. apply list_fmap_ext. intros _ i _. cbn.
  do 3 f_equal. lia.
Qed.

(** Modular arithmetic on indices, in the range used. *)
Lemma mod_cases a n : 0 < n -> - n <= a < 2 * n -> a mod n = if decide (a < 0) then a + n else if decide (a < n) then a else a - n.
Proof.
  intros Hn Ha. repeat case_decide.
  - symmetry. apply (Z.mod_unique a n (-1)); lia.
  - by rewrite Z.mod_small by lia.
  - symmetry. apply (Z.mod_unique a n 1); lia.
Qed.

Lemma count_range s : wf s -> 0 <= count s < qsize s.
Proof. intros (Hn & _). apply Z.mod_pos_bound. lia. Qed.

Lemma lookup_insert_total_ne (q : list Z) i j x : i <> j -> <[i := x]> q !!! j = q !!! j.
Proof. intros H. rewrite !list_lookup_total_alt. by rewrite list_lookup_insert_ne. Qed.
Lemma lookup_insert_total_eq (q : list Z) i x : (i < length q)%nat -> <[i := x]> q !!! i = x.
Proof. intros H. rewrite list_lookup_total_alt. by rewrite list_lookup_insert_eq. Qed.

(** Writing the slot at the end does not change what is held. *)
Lemma slots_insert_outside q start k e x :
  0 <= start < Z.of_nat (length q) -> 0 <= e < Z.of_nat (length q) -> 0 <= k <= (e - start) mod Z.of_nat (length q) ->
  slots (<[Z.to_nat e := x]> q) start k = slots q start k.
Proof.
  intros Hs He Hk. apply slots_ext; [by rewrite length_insert|]. intros i Hi. rewrite lookup_insert_total_ne; [done|].
  set (n := Z.of_nat (length q)) in *. intros E. apply (f_equal Z.of_nat) in E. rewrite !Z2Nat.id in E by (try apply Z.mod_pos_bound; lia).
  pose proof (Z.mod_pos_bound (e - start) n ltac:(lia)).
  rewrite (mod_cases (e - start) n) in * by lia. rewrite (mod_cases (start + i) n) in E by lia. repeat case_decide; lia.
Qed.

(** ** Effect of the steps on what is held *)

Lemma enq_check_spec s : wf s -> enq_check s = if decide (count s + 1 < qsize s) then Some ((rx_end_ s + 1) mod qsize s) else None.
Proof.
  intros (Hn & Hs & He). unfold enq_check, count. cbv zeta.
  destruct (Z.eqb_spec ((rx_end_ s + 1) mod qsize s) (rx_start_ s)) as [E|E]; rewrite (mod_cases (rx_end_ s + 1)) in E by lia;
    rewrite (mod_cases (rx_end_ s - rx_start_ s)) by lia; repeat case_decide; try done; lia.
Qed.

Lemma deq_check_spec s : wf s -> deq_check s = bool_decide (0 < count s).
Proof.
  intros (Hn & Hs & He). unfold deq_check, count. rewrite (mod_cases (rx_end_ s - rx_start_ s)) by lia.
  destruct (Z.eqb_spec (rx_start_ s) (rx_end_ s)); repeat case_decide; case_bool_decide; done || lia.
Qed.

Lemma publish_spec s : wf s -> count s + 1 < qsize s ->
  wf (enq_publish ((rx_end_ s + 1) mod qsize s) s) /\
  count (enq_publish ((rx_end_ s + 1) mod qsize s) s) = count s + 1 /\
  held (enq_publish ((rx_end_ s + 1) mod qsize s) s) = held s ++ [rx_queue_ s !!! Z.to_nat (rx_end_ s)].
Proof.
  intros Hwf Hc. pose proof (count_range s Hwf) as Hcr. destruct Hwf as (Hn & Hs & He).
  assert (count (enq_publish ((rx_end_ s + 1) mod qsize s) s) = count s + 1) as Ec.
  { unfold count, enq_publish, qsize in *. cbn. rewrite (mod_cases (rx_end_ s + 1)) by lia.
    rewrite (mod_cases (rx_end_ s - rx_start_ s)) in Hc |- * by lia.
    repeat case_decide; rewrite mod_cases by lia; repeat case_decide; lia. }
  split; [|split; [done|]].
  - split; [done|]. split; [done|]. cbn. apply Z.mod_pos_bound. done.
  - unfold held. rewrite Ec. cbn [rx_queue_ rx_start_ enq_publish]. rewrite slots_snoc by lia. do 2 f_equal. f_equal.
    fold (qsize s). unfold count. rewrite (mod_cases (rx_end_ s - rx_start_ s)) by lia. f_equal.
    repeat case_decide; rewrite mod_cases by lia; repeat case_decide; lia.
Qed.

Lemma swap_end_spec s p : wf s -> let s' := snd (enq_swap p s) in
  wf s' /\ count s' = count s /\ held s' = held s /\ rx_end_ s' = rx_end_ s /\ qsize s' = qsize s /\
  rx_queue_ s' !!! Z.to_nat (rx_end_ s) = p.
Proof.
  intros (Hn & Hs & He). cbn. unfold wf, held, count, qsize in *. cbn. rewrite length_insert.
  split; [done|]. split; [done|]. split; [|split; [done|split; [done|]]].
  - apply slots_insert_outside; [done|done|]. split; [apply Z.mod_pos_bound; lia|done].
  - apply lookup_insert_total_eq. lia.
Qed.

Lemma swap_start_spec s p : wf s -> 0 < count s -> let '(p', s') := deq_swap p s in
  wf s' /\ count s' = count s /\ qsize s' = qsize s /\ rx_end_ s' = rx_end_ s /\
  held s = p' :: tl (held s') /\ rx_queue_ s' !!! Z.to_nat (rx_end_ s) = rx_queue_ s !!! Z.to_nat (rx_end_ s).
Proof.
  intros Hwf Hc. pose proof (count_range s Hwf) as Hcr. destruct Hwf as (Hn & Hs & He). cbn. unfold wf, held, count, qsize in *. cbn. rewrite length_insert.
  set (n := Z.of_nat (length (rx_queue_ s))) in *. set (c := (rx_end_ s - rx_start_ s) mod n) in *.
  split; [done|]. split; [done|]. split; [done|]. split; [done|]. split.
  - rewrite (slots_cons (rx_queue_ s)), (slots_cons (<[_ := p]> _)) by lia. rewrite ?length_insert. fold n. rewrite Z.mod_small by done. cbn [tl]. f_equal.
    symmetry. apply slots_ext; [by rewrite length_insert|]. intros i Hi. fold n. rewrite lookup_insert_total_ne; [done|].
    intros E. apply (f_equal Z.of_nat) in E. rewrite !Z2Nat.id in E by (try apply Z.mod_pos_bound; lia).
    rewrite mod_cases in E by lia. repeat case_decide; lia.
  - apply lookup_insert_total_ne. intros E%Z2Nat.inj; [|lia..]. unfold c in Hc. rewrite E, Z.sub_diag, Z.mod_0_l in Hc; lia.
Qed.

Lemma advance_spec s : wf s -> 0 < count s ->
  wf (deq_advance s) /\ count (deq_advance s) = count s - 1 /\ held (deq_advance s) = tl (held s).
Proof.
  intros Hwf Hc. pose proof (count_range s Hwf) as Hcr. destruct Hwf as (Hn & Hs & He).
  assert (count (deq_advance s) = count s - 1) as Ec.
  { unfold count, deq_advance, qsize in *. cbn. rewrite (mod_cases (rx_start_ s + 1)) by lia.
    rewrite (mod_cases (rx_end_ s - rx_start_ s)) in Hc |- * by lia.
    repeat case_decide; rewrite mod_cases by lia; repeat case_decide; lia. }
  split; [|split; [done|]].
  - split; [done|]. split; [|done]. cbn. apply Z.mod_pos_bound. done.
  - unfold held. rewrite Ec. cbn [rx_queue_ rx_start_ deq_advance]. rewrite (slots_cons _ (rx_start_ s) (count s)) by done. cbn [tl].
    apply slots_ext; [done|]. intros i Hi. fold (qsize s). do 2 f_equal. by rewrite Zplus_mod_idemp_l.
Qed.

(** Swapping a pointer into a slot keeps the pointers. *)
Lemma swap_perm i p s : 0 <= i < qsize s -> let '(p', s') := swap_slot i p s in p' :: rx_queue_ s' ≡ₚ p :: rx_queue_ s.
Proof.
  intros Hi. cbn. unfold qsize in Hi. set (n := Z.to_nat i).
  destruct (lookup_lt_is_Some_2 (rx_queue_ s) n ltac:(lia)) as [x Hx].
  rewrite (list_lookup_total_correct _ _ _ Hx). rewrite (insert_take_drop (rx_queue_ s) n p) by lia.
  rewrite <- (take_drop_middle (rx_queue_ s) n x Hx) at 3. rewrite <- !Permutation_middle. apply perm_swap.
Qed.

(** ** The concurrent system *)

(** Where the producer is, and the packet it holds; after the swap, also the
    packet that is in the slot but not yet published. *)
Inductive producer :=
  | PIdle (packet : Z)
  | PSwap (packet next : Z)
  | PPublish (packet next inserted : Z).

Inductive consumer :=
  | CIdle (packet : Z)
  | CSwap (packet : Z)
  | CAdvance (packet : Z).

Definition prod_packet (p : producer) : Z := match p with PIdle x | PSwap x _ | PPublish x _ _ => x end.
Definition cons_packet (c : consumer) : Z := match c with CIdle x | CSwap x | CAdvance x => x end.

(** [sent] and [recv] record the packets whose [enq] and [deq] succeeded. *)
Record system := mkSystem { queue : ssq; prod : producer; cons_ : consumer; sent : list Z; recv : list Z }.

Inductive qstep : system -> system -> Prop :=
  | q_full q p c ss rs : enq_check q = None -> qstep (mkSystem q (PIdle p) c ss rs) (mkSystem q (PIdle p) c ss rs)
  | q_check q p c ss rs next : enq_check q = Some next ->
      qstep (mkSystem q (PIdle p) c ss rs) (mkSystem q (PSwap p next) c ss rs)
  | q_swap q p c ss rs next p' q' : enq_swap p q = (p', q') ->
      qstep (mkSystem q (PSwap p next) c ss rs) (mkSystem q' (PPublish p' next p) c ss rs)
  | q_publish q p c ss rs next x :
      qstep (mkSystem q (PPublish p next x) c ss rs) (mkSystem (enq_publish next q) (PIdle p) c (ss ++ [x]) rs)
  | q_empty q p c ss rs : deq_check q = false -> qstep (mkSystem q p (CIdle c) ss rs) (mkSystem q p (CIdle c) ss rs)
  | q_nonempty q p c ss rs : deq_check q = true -> qstep (mkSystem q p (CIdle c) ss rs) (mkSystem q p (CSwap c) ss rs)
  | q_take q p c ss rs c' q' : deq_swap c q = (c', q') ->
      qstep (mkSystem q p (CSwap c) ss rs) (mkSystem q' p (CAdvance c') ss (rs ++ [c']))
  | q_advance q p c ss rs : qstep (mkSystem q p (CAdvance c) ss rs) (mkSystem (deq_advance q) p (CIdle c) ss rs).

(** What waits between the two sides; a packet already taken waits no more. *)
Definition pending (s : system) : list Z :=
  match cons_ s with CAdvance _ => tl (held (queue s)) | _ => held (queue s) end.

(** The pointers of the system, in the slots or with one of the sides. *)
Definition pointers (s : system) : list Z := prod_packet (prod s) :: cons_packet (cons_ s) :: rx_queue_ (queue s).

Record sys_inv (all : list Z) (s : system) : Prop := {
  sy_wf : wf (queue s);
  sy_prod : match prod s with
            | PIdle _ => True
            | PSwap _ next => next = (rx_end_ (queue s) + 1) mod qsize (queue s) /\ count (queue s) + 1 < qsize (queue s)
            | PPublish _ next x => next = (rx_end_ (queue s) + 1) mod qsize (queue s) /\ count (queue s) + 1 < qsize (queue s) /\
                rx_queue_ (queue s) !!! Z.to_nat (rx_end_ (queue s)) = x
            end;
  sy_cons : match cons_ s with CIdle _ => True | _ => 0 < count (queue s) end;
  sy_fifo : sent s = recv s ++ pending s;
  sy_own : pointers s ≡ₚ all
}.

Lemma held_cons s : wf s -> 0 < count s -> exists x l, held s = x :: l.
Proof. intros Hwf Hc. unfold held. rewrite slots_cons by done. eauto. Qed.

Lemma sys_inv_step all s s' : sys_inv all s -> qstep s s' -> sys_inv all s'.
Proof.
  intros [Hwf Hp Hc Hf Ho] Hstep. destruct Hstep as [q p c ss rs E|q p c ss rs next E|q p c ss rs next p' q' E|q p c ss rs next x
    |q p c ss rs E|q p c ss rs E|q p c ss rs c' q' E|q p c ss rs]; cbn [queue prod cons_ sent recv] in *.
  - by split.
  - rewrite enq_check_spec in E by done. case_decide; [|done]. injection E as <-. by split.
  - pose proof (swap_end_spec q p Hwf) as Hs. cbv zeta in Hs. rewrite E in Hs. cbn [snd] in Hs. destruct Hs as (W & C & H & En & Q & X).
    split; cbn [queue prod cons_ sent recv].
    + done.
    + rewrite En, Q, C. destruct Hp as [-> Hp]. done.
    + by rewrite C.
    + rewrite Hf. unfold pending. cbn. by rewrite H.
    + rewrite <- Ho. unfold pointers. cbn. pose proof (swap_perm (rx_end_ q) p q) as Hsw.
      unfold enq_swap in E. rewrite E in Hsw. specialize (Hsw (proj2 (proj2 Hwf))).
      rewrite (perm_swap (cons_packet c) p'), Hsw. apply perm_swap.
  - destruct Hp as (-> & Hlt & Hx). destruct (publish_spec q Hwf Hlt) as (W & C & H).
    split; cbn [queue prod cons_ sent recv]; [done|done| | |done].
    + destruct c; [done|rewrite C; lia..].
    + rewrite Hf, <- app_assoc. f_equal. unfold pending. cbn. rewrite H, Hx. destruct c; try done.
      destruct (held_cons q Hwf Hc) as (y & l & ->). done.
  - by split.
  - rewrite deq_check_spec in E by done. apply bool_decide_eq_true in E. by split.
  - pose proof (swap_start_spec q c Hwf Hc) as Hs. rewrite E in Hs. destruct Hs as (W & C & Q & En & H & X).
    split; cbn [queue prod cons_ sent recv].
    + done.
    + destruct p; rewrite ?En, ?Q, ?C, ?X; done.
    + by rewrite C.
    + rewrite Hf, <- app_assoc. f_equal. unfold pending. cbn. by rewrite H.
    + rewrite <- Ho. unfold pointers. cbn. pose proof (swap_perm (rx_start_ q) c q) as Hsw.
      unfold deq_swap in E. rewrite E in Hsw. specialize (Hsw (proj1 (proj2 Hwf))). by rewrite Hsw.
  - destruct (advance_spec q Hwf Hc) as (W & C & H). split; cbn [queue prod cons_ sent recv]; [done| |done| |done].
    + destruct p; cbn; rewrite ?C; unfold qsize in *; cbn; intuition lia.
    + rewrite Hf. f_equal. unfold pending. cbn. by rewrite H.
Qed.

(** The start: the slots hold [vec], each side one packet. *)
Definition initial (vec : list Z) (p c : Z) : system := mkSystem (new vec) (PIdle p) (CIdle c) [] [].

Lemma initial_inv vec p c : vec <> [] -> sys_inv (p :: c :: vec) (initial vec p c).
Proof.
  intros Hv. destruct vec as [|x vec]; [done|]. split; try done.
Qed.

(** C24: under every interleaving of one producer and one consumer, the packets
    received are the packets sent, in order, without loss or repetition, up to
    those that wait in the queue; and every pointer is in exactly one place, a
    slot or one of the two sides. *)
Theorem spsc_fifo vec p c s :
  vec <> [] -> rtc qstep (initial vec p c) s ->
  sent s = recv s ++ pending s /\ (length (pending s) < length vec)%nat /\ pointers s ≡ₚ p :: c :: vec.
Proof.
  intros Hv Hrun.
  assert (forall s0, sys_inv (p :: c :: vec) s0 -> rtc qstep s0 s -> sys_inv (p :: c :: vec) s) as Hinv.
  { intros s0 H0 Hr. induction Hr as [|s1 s2 s3 H12 _ IH]; [done|]. apply IH; [done|]. by eapply sys_inv_step. }
  destruct (Hinv _ (initial_inv vec p c Hv) Hrun) as [Hwf _ _ Hf Ho]. split; [done|]. split; [|done].
  pose proof (count_range _ Hwf) as Hc.
  assert (length (held (queue s)) = Z.to_nat (count (queue s))) as Hl by (unfold held, slots; by rewrite length_fmap, length_seqZ).
  assert (length (rx_queue_ (queue s)) = length vec) as Hn.
  { apply Permutation_length in Ho. unfold pointers in Ho. cbn in Ho. lia. }
  unfold qsize in Hc. unfold pending. destruct (cons_ s); rewrite ?length_tl; lia.
Qed.

(** The operations run by one thread. *)
Lemma held_length s : wf s -> Z.of_nat (length (held s)) = count s.
Proof. intros Hwf. pose proof (count_range s Hwf). unfold held, slots. rewrite length_fmap, length_seqZ. lia. Qed.

Lemma enq_spec s x : wf s ->
  exists b y s', enq x s = Ret (b, y, s') /\ wf s' /\ qsize s' = qsize s /\ y :: rx_queue_ s' ≡ₚ x :: rx_queue_ s /\
    if decide (Z.of_nat (length (held s)) + 1 < qsize s) then b = true /\ held s' = held s ++ [x] else b = false /\ y = x /\ s' = s.
Proof.
  intros Hwf. rewrite held_length by done. unfold enq. rewrite (proj2 (Z.eqb_neq _ _)) by (destruct Hwf; lia).
  rewrite enq_check_spec by done. case_decide as Hd; [|by exists false, x, s].
  destruct (enq_swap x s) as [y s1] eqn:E. pose proof (swap_end_spec s x Hwf) as Hs. cbv zeta in Hs. rewrite E in Hs.
  destruct Hs as (W & C & H & En & Q & X). cbn [snd] in *. destruct (publish_spec s1 W) as (W' & _ & H'); [lia|]. rewrite En, Q in *.
  eexists true, y, _. split; [reflexivity|]. split; [done|]. split; [exact Q|]. split; [|split; [done|by rewrite H', H, X]].
  pose proof (swap_perm (rx_end_ s) x s (proj2 (proj2 Hwf))) as Hp. unfold enq_swap in E. by rewrite E in Hp.
Qed.

Lemma deq_spec s x : wf s ->
  exists b y s', deq x s = Ret (b, y, s') /\ wf s' /\ qsize s' = qsize s /\ y :: rx_queue_ s' ≡ₚ x :: rx_queue_ s /\
    match held s with z :: l => b = true /\ y = z /\ held s' = l | [] => b = false /\ y = x /\ s' = s end.
Proof.
  intros Hwf. pose proof (held_length s Hwf) as Hl. unfold deq. rewrite deq_check_spec by done. case_bool_decide as Hd.
  - rewrite (proj2 (Z.eqb_neq _ _)) by (destruct Hwf; lia).
    destruct (deq_swap x s) as [y s1] eqn:E. pose proof (swap_start_spec s x Hwf Hd) as Hs. rewrite E in Hs.
    destruct Hs as (W & C & Q & En & H & X). destruct (advance_spec s1 W) as (W' & _ & H'); [lia|].
    eexists true, y, _. split; [reflexivity|]. split; [done|]. split; [exact Q|]. split; [|by rewrite H].
    pose proof (swap_perm (rx_start_ s) x s (proj1 (proj2 Hwf))) as Hp. unfold deq_swap in E. by rewrite E in Hp.
  - exists false, x, s. split_and!; try done. destruct (held s); [done|]. cbn in Hl. lia.
Qed.

(** Used by one thread, the queue is a bounded first-in first-out queue of one
    packet less than it has slots: [enq] appends or reports that it is full,
    [deq] removes the oldest packet or reports that it is empty. *)
Theorem ssq_sequential s x :
  wf s ->
  (exists b y s', enq x s = Ret (b, y, s') /\ wf s' /\ qsize s' = qsize s /\
     if decide (Z.of_nat (length (held s)) + 1 < qsize s) then b = true /\ held s' = held s ++ [x] else b = false /\ y = x /\ s' = s) /\
  (exists b y s', deq x s = Ret (b, y, s') /\ wf s' /\ qsize s' = qsize s /\
     match held s with z :: l => b = true /\ y = z /\ held s' = l | [] => b = false /\ y = x /\ s' = s end).
Proof.
  intros Hwf. destruct (enq_spec s x Hwf) as (b & y & s' & ? & ? & ? & _ & ?).
  destruct (deq_spec s x Hwf) as (b' & y' & s'' & ? & ? & ? & _ & ?). split; [by exists b, y, s'|by exists b', y', s''].
Qed.

(** ** Concrete runs *)

Lemma spsc_fifo_witness :
  exists s, rtc qstep (initial [10; 11; 12; 13] 1 2) s /\ sent s = [1] /\ recv s = [1] /\
    (sent s = recv s ++ pending s /\ (length (pending s) < 4)%nat /\ pointers s ≡ₚ [1; 2; 10; 11; 12; 13]).
Proof.
  eexists. split; [|split; [|split; [|apply (spsc_fifo [10; 11; 12; 13] 1 2); [done|]]]].
  1, 4: eapply rtc_l; [by eapply q_check|]; eapply rtc_l; [by eapply q_swap|]; eapply rtc_l; [by eapply q_publish|];
        eapply rtc_l; [by eapply q_nonempty|]; eapply rtc_l; [by eapply q_take|]; apply rtc_refl.
  all: reflexivity.
Defined.

Definition ex_ssq : ssq := mkQ [10; 11; 12; 13] 3 1.

Lemma ssq_sequential_witness :
  (exists b y s', enq 7 ex_ssq = Ret (b, y, s') /\ wf s' /\ qsize s' = 4 /\
     if decide (2 + 1 < 4) then b = true /\ held s' = held ex_ssq ++ [7] else b = false /\ y = 7 /\ s' = ex_ssq) /\
  (exists b y s', deq 7 ex_ssq = Ret (b, y, s') /\ wf s' /\ qsize s' = 4 /\
     match held ex_ssq with z :: l => b = true /\ y = z /\ held s' = l | [] => b = false /\ y = 7 /\ s' = ex_ssq end).
Proof. apply (ssq_sequential ex_ssq 7). unfold wf, qsize. cbn. lia. Defined.

End SSQueue.
