(* ===== verification/PacketQueue.v ===== *)
(** * Packets exchanged through include/common/kssq.hpp

    The network code keeps packets in memory and passes pointers to them through
    an [SSQueue]: the producer fills the packet it owns and swaps it into the
    queue, the consumer swaps out the oldest one.  The same packets are used over
    and over, so what is queued is only safe because the pointers never meet. *)
From S2P Require Import Prelude SSQueue.

Module PacketQueue.
Import SSQueue.

(** [store] holds what was last written to a packet; [mine] is the producer's
    packet, [theirs] the consumer's. *)
Record pq (A : Type) := mkPQ { store : gmap Z A; ring : ssq; mine : Z; theirs : Z }.
Arguments mkPQ {A}.
Arguments store {A}.
Arguments ring {A}.
Arguments mine {A}.
Arguments theirs {A}.

Section queue.
Context {A : Type}.

(** Fill the packet, then [enq(mine)]. *)
Definition produce (x : A) : ST (pq A) bool := fun q =>
  match enq (mine q) (ring q) with
  | Ret (b, p, r) => Ret (b, mkPQ (<[mine q := x]> (store q)) r p (theirs q))
  | Panic m => Panic m | Halt => Halt | Fault => Fault | OutOfFuel => OutOfFuel
  end.

(** [deq(theirs)], and what the packet holds afterwards; [None] for an empty queue. *)
Definition consume : ST (pq A) (option (option A)) := fun q =>
  match deq (theirs q) (ring q) with
  | Ret (true, p, r) => Ret (Some (store q !! p), mkPQ (store q) r (mine q) p)
  | Ret (false, p, r) => Ret (None, mkPQ (store q) r (mine q) p)
  | Panic m => Panic m | Halt => Halt | Fault => Fault | OutOfFuel => OutOfFuel
  end.

(** The packets waiting, oldest first. *)
Definition queued (q : pq A) : list (option A) := (fun p => store q !! p) <$> held (ring q).

Definition all_pointers (q : pq A) : list Z := mine q :: theirs q :: rx_queue_ (ring q).

Record pq_wf (q : pq A) : Prop := {
  pq_ring : wf (ring q);
  pq_nodup : NoDup (all_pointers q)
}.

Lemma held_subset s p : wf s -> p ∈ held s -> p ∈ rx_queue_ s.
Proof.
  intros (Hn & _) (i & -> & Hi)%list_elem_of_fmap. unfold qsize in Hn.
  pose proof (Z.mod_pos_bound (rx_start_ s + i) (Z.of_nat (length (rx_queue_ s))) ltac:(lia)).
  destruct (lookup_lt_is_Some_2 (rx_queue_ s) (Z.to_nat ((rx_start_ s + i) mod Z.of_nat (length (rx_queue_ s)))) ltac:(lia)) as [x Hx].
  rewrite (list_lookup_total_correct _ _ _ Hx). by eapply list_elem_of_lookup_2.
Qed.

(** Writing to a packet that is not in the ring changes nothing that waits. *)
Lemma queued_store (st : gmap Z A) x p r : wf r -> p ∉ rx_queue_ r ->
  (fun p' => <[p := x]> st !! p') <$> held r = (fun p' => st !! p') <$> held r.
Proof.
  intros Hr Hp. apply list_fmap_ext. intros _ p' Hp'%list_elem_of_lookup_2. rewrite lookup_insert_ne; [done|].
  intros <-. apply Hp. by apply held_subset.
Qed.

(** [produce] appends the packet, or leaves the queue as it is when it is full. *)
Lemma produce_spec q x : pq_wf q ->
  exists b q', produce x q = Ret (b, q') /\ pq_wf q' /\ qsize (ring q') = qsize (ring q) /\ theirs q' = theirs q /\
    all_pointers q' ≡ₚ all_pointers q /\
    if decide (Z.of_nat (length (queued q)) + 1 < qsize (ring q)) then b = true /\ queued q' = queued q ++ [Some x]
    else b = false /\ queued q' = queued q.
Proof.
  intros [Hr Hnd]. destruct (enq_spec (ring q) (mine q) Hr) as (b & y & r & E & W & Q & Hp & Hres).
  unfold produce. rewrite E. eexists b, _. split; [reflexivity|].
  assert (all_pointers (mkPQ (<[mine q := x]> (store q)) r y (theirs q)) ≡ₚ all_pointers q) as Hall.
  { unfold all_pointers. cbn. rewrite (perm_swap (theirs q) y), Hp. apply perm_swap. }
  assert (mine q ∉ rx_queue_ (ring q)) as Hm by (unfold all_pointers in Hnd; set_solver by (inversion Hnd; set_solver)).
  split; [split; [done|by rewrite Hall]|]. split; [done|]. split; [done|]. split; [done|].
  unfold queued. cbn [store ring]. rewrite length_fmap. case_decide.
  - destruct Hres as [-> ->]. split; [done|]. rewrite fmap_app. cbn. rewrite queued_store by done. by rewrite lookup_insert_eq.
  - destruct Hres as (-> & _ & ->). split; [done|]. by apply queued_store.
Qed.

(** [consume] takes the oldest packet with the contents it was queued with. *)
Lemma consume_spec q : pq_wf q ->
  exists o q', consume q = Ret (o, q') /\ pq_wf q' /\ qsize (ring q') = qsize (ring q) /\ mine q' = mine q /\ store q' = store q /\
    all_pointers q' ≡ₚ all_pointers q /\
    match queued q with
    | x :: l => o = Some x /\ queued q' = l /\ store q' !! theirs q' = x
    | [] => o = None /\ q' = q
    end.
Proof.
  intros [Hr Hnd]. destruct (deq_spec (ring q) (theirs q) Hr) as (b & y & r & E & W & Q & Hp & Hres).
  unfold consume. rewrite E.
  assert (all_pointers (mkPQ (store q) r (mine q) y) ≡ₚ all_pointers q) as Hall.
  { unfold all_pointers. cbn. by rewrite Hp. }
  unfold queued. destruct (held (ring q)) as [|z l] eqn:Eh; destruct Hres as (-> & -> & Hl).
  - subst r. eexists _, _. split; [reflexivity|]. destruct q; cbn in *. split_and!; done.
  - eexists _, _. split; [reflexivity|]. cbn [store ring mine theirs fmap list_fmap]. split_and!; try done.
    + split; [done|]. by rewrite Hall.
    + by rewrite Hl.
Qed.

End queue.
End PacketQueue.
