(* ===== verification/KMap.v ===== *)
(** * include/common/kmap.hpp: std::map with the kernel's allocator

    The elements in the order of the comparison; searching and inserting stop at
    the first element that is not less than the key, and compare once more, as
    [lower_bound] does.  Every comparison function is allowed: the result for one
    that is not an order is what the comparisons lead to. *)
From S2P Require Import Prelude.

Module KMap.

Section map.
Context {K V : Type} (lt : K -> K -> bool).

Fixpoint find (k : K) (m : list (K * V)) : option V :=
  match m with
  | [] => None
  | (k', v) :: m => if lt k' k then find k m else if lt k k' then None else Some v
  end.

(** [m[k] = v] *)
Fixpoint set (k : K) (v : V) (m : list (K * V)) : list (K * V) :=
  match m with
  | [] => [(k, v)]
  | (k', v') :: m => if lt k' k then (k', v') :: set k v m else if lt k k' then (k, v) :: (k', v') :: m else (k', v) :: m
  end.

(** [m.emplace(k, v)] leaves an element with the key as it is. *)
Definition emplace (k : K) (v : V) (m : list (K * V)) : list (K * V) :=
  match find k m with Some _ => m | None => set k v m end.

(** What a key comparison has to be, on the keys [P] in use, for [std::map] to be
    a finite map. *)
Class StrictTotal (P : K -> Prop) : Prop := {
  lt_irrefl k : P k -> lt k k = false;
  lt_trans k k' k'' : P k -> P k' -> P k'' -> lt k k' = true -> lt k' k'' = true -> lt k k'' = true;
  lt_total k k' : P k -> P k' -> lt k k' = false -> lt k' k = false -> k = k'
}.

Section laws.
Context {P : K -> Prop} `{!StrictTotal P}.

Definition keys_in (m : list (K * V)) : Prop := Forall (fun e => P (fst e)) m.

Lemma lt_asym k k' : P k -> P k' -> lt k k' = true -> lt k' k = false.
Proof using All. intros Hk Hk' H1. destruct (lt k' k) eqn:H2; [|done]. rewrite <- (lt_irrefl k) by done. symmetry. by eapply (lt_trans k k'). Qed.

Lemma keys_set k v m : P k -> keys_in m -> keys_in (set k v m).
Proof using All.
  intros Hk Hm. induction Hm as [|[k' v'] m Hk' Hm IH]; [by repeat constructor|]. cbn.
  destruct (lt k' k); [by constructor|]. destruct (lt k k'); by repeat constructor.
Qed.

Lemma find_set_eq k v m : P k -> find k (set k v m) = Some v.
Proof using All.
  intros Hk. induction m as [|[k' v'] m IH]; cbn; [by rewrite !lt_irrefl|]. destruct (lt k' k) eqn:E1; cbn; [by rewrite E1|].
  destruct (lt k k') eqn:E2; cbn; [by rewrite !lt_irrefl|by rewrite E1, E2].
Qed.

Lemma find_set_ne k k' v m : P k -> P k' -> keys_in m -> k <> k' -> find k' (set k v m) = find k' m.
Proof using All.
  intros Hk Hk' Hm Hne. induction Hm as [|[k0 v0] m Hk0 Hm IH]; cbn in *.
  - destruct (lt k k') eqn:E1, (lt k' k) eqn:E2; try done. by destruct (lt_total k k').
  - destruct (lt k0 k) eqn:E1; cbn; [by rewrite IH|]. destruct (lt k k0) eqn:E2; cbn.
    + destruct (lt k k') eqn:E3; [done|]. destruct (lt k' k) eqn:E4; [|by destruct (lt_total k k')].
      assert (lt k' k0 = true) as E5 by (by eapply (lt_trans k' k)). by rewrite (lt_asym k' k0), E5 by done.
    + destruct (lt k0 k') eqn:E3; [done|]. destruct (lt k' k0) eqn:E4; [done|].
      pose proof (lt_total k0 k Hk0 Hk E1 E2). pose proof (lt_total k0 k' Hk0 Hk' E3 E4). congruence.
Qed.

End laws.

End map.

End KMap.
