(* ===== verification/Crc.v ===== *)
(** * device/rtl8139.cpp: the frame check sequence *)
From S2P Require Import Prelude LibString.

Module Crc.
Import LibString.

(** One round of the inner loop of [crc32iso_hdlc]. *)
Definition crc_bit (crc : Z) : Z :=
  if Z.land crc 1 =? 1 then Z.lxor (Z.shiftr crc 1) 0xedb88320 else Z.shiftr crc 1.

(** One byte: [crc ^= *data++] and eight rounds. *)
Definition crc_byte (crc b : Z) : Z := Nat.iter 8 crc_bit (Z.lxor crc b).

(** [while (len--)] *)
Fixpoint crc_loop (len : nat) (data crc : Z) (m : memory) : Z :=
  match len with
  | O => crc
  | S len => crc_loop len (wrap64 (data + 1)) (crc_byte crc (m data)) m
  end.

Definition crc32iso_hdlc (crc mem len : Z) (m : memory) : Z :=
  if mem =? 0 then 0
  else Z.lxor (crc_loop (Z.to_nat len) mem (Z.lxor crc 0xffffffff) m) 0xffffffff.

(** ** The rounds on 32-bit values *)

Lemma lxor_range n x y : 0 <= n -> 0 <= x < 2 ^ n -> 0 <= y < 2 ^ n -> 0 <= Z.lxor x y < 2 ^ n.
Proof.
  intros Hn Hx Hy. assert (Z.lxor x y mod 2 ^ n = Z.lxor x y) as <-; [|apply Z.mod_pos_bound; lia].
  rewrite <- Z.land_ones by done. apply Z.bits_inj'. intros i Hi. rewrite Z.land_spec, Z.lxor_spec.
  destruct (Z.lt_ge_cases i n); [rewrite Z.ones_spec_low by lia; by rewrite andb_true_r|].
  rewrite Z.ones_spec_high by lia. rewrite andb_false_r.
  rewrite <- (Z.mod_small x (2 ^ n)), <- (Z.mod_small y (2 ^ n)) by done.
  by rewrite !Z.mod_pow2_bits_high by lia.
Qed.

Lemma crc_bit_alt x : crc_bit x = if Z.odd x then Z.lxor (Z.shiftr x 1) 0xedb88320 else Z.shiftr x 1.
Proof.
  unfold crc_bit. change 1 with (Z.ones 1) at 1. rewrite Z.land_ones by lia. change (2 ^ 1) with 2. rewrite Zmod_odd. by destruct (Z.odd x).
Qed.

Lemma crc_bit_range x : 0 <= x < 2 ^ 32 -> 0 <= crc_bit x < 2 ^ 32.
Proof.
  intros Hx. rewrite crc_bit_alt. assert (0 <= Z.shiftr x 1 < 2 ^ 32) by (rewrite Z.shiftr_div_pow2 by lia; dlia).
  destruct (Z.odd x); [|done]. apply lxor_range; [lia|done|lia].
Qed.

(** The bit shifted out is the top bit of the result. *)
Lemma crc_bit_top x : 0 <= x < 2 ^ 32 -> Z.testbit (crc_bit x) 31 = Z.odd x.
Proof.
  intros Hx. rewrite crc_bit_alt.
  assert (Z.testbit (Z.shiftr x 1) 31 = false) as E.
  { rewrite Z.shiftr_spec by lia. rewrite <- (Z.mod_small x (2 ^ 32)) by done. by rewrite Z.mod_pow2_bits_high by lia. }
  destruct (Z.odd x); [|done]. by rewrite Z.lxor_spec, E.
Qed.

Lemma crc_bit_inj x y : 0 <= x < 2 ^ 32 -> 0 <= y < 2 ^ 32 -> crc_bit x = crc_bit y -> x = y.
Proof.
  intros Hx Hy E. assert (Z.odd x = Z.odd y) as Eo by (by rewrite <- !crc_bit_top, E).
  rewrite !crc_bit_alt, Eo in E. assert (Z.shiftr x 1 = Z.shiftr y 1) as Es.
  { destruct (Z.odd y); [|done]. apply (f_equal (fun z => Z.lxor z 0xedb88320)) in E.
    by rewrite !Z.lxor_assoc, Z.lxor_nilpotent, !Z.lxor_0_r in E. }
  rewrite (Z.div2_odd x), (Z.div2_odd y), !Z.div2_spec, Es, Eo. done.
Qed.

(** The rounds commute with an exclusive or above the bits they consume. *)
Lemma crc_bit_xor x z : crc_bit (Z.lxor x (2 * z)) = Z.lxor (crc_bit x) z.
Proof.
  rewrite !crc_bit_alt. rewrite Z.shiftr_lxor.
  assert (Z.odd (Z.lxor x (2 * z)) = Z.odd x) as ->.
  { rewrite <- !Z.bit0_odd, Z.lxor_spec, (Z.bit0_odd (2 * z)), Z.odd_mul. by rewrite xorb_false_r. }
  assert (Z.shiftr (2 * z) 1 = z) as -> by (rewrite Z.shiftr_div_pow2 by lia; change (2 ^ 1) with 2; dlia).
  destruct (Z.odd x); [|done]. by rewrite !Z.lxor_assoc, (Z.lxor_comm z).
Qed.

Lemma crc_iter_xor n x z : Nat.iter n crc_bit (Z.lxor x (2 ^ Z.of_nat n * z)) = Z.lxor (Nat.iter n crc_bit x) z.
Proof.
  revert x z. induction n as [|n IH]; intros x z; [by rewrite Z.mul_1_l|].
  change (Nat.iter (S n) crc_bit) with (fun x => crc_bit (Nat.iter n crc_bit x)). cbv beta.
  replace (2 ^ Z.of_nat (S n) * z) with (2 ^ Z.of_nat n * (2 * z)); [|rewrite Nat2Z.inj_succ, Z.pow_succ_r by lia; lia].
  by rewrite IH, crc_bit_xor.
Qed.

Lemma crc_iter_range n x : 0 <= x < 2 ^ 32 -> 0 <= Nat.iter n crc_bit x < 2 ^ 32.
Proof. induction n as [|n IH]; intros H; [done|]. apply crc_bit_range. by apply IH. Qed.
Lemma crc_iter_inj n x y : 0 <= x < 2 ^ 32 -> 0 <= y < 2 ^ 32 -> Nat.iter n crc_bit x = Nat.iter n crc_bit y -> x = y.
Proof.
  intros Hx Hy. induction n as [|n IH]; [done|]. intros E. apply IH.
  apply crc_bit_inj; [by apply crc_iter_range..|]. exact E.
Qed.

Lemma iter_add {A} (f : A -> A) n k x : Nat.iter (n + k) f x = Nat.iter n f (Nat.iter k f x).
Proof. induction n as [|n IH]; [done|]. change (f (Nat.iter (n + k) f x) = f (Nat.iter n f (Nat.iter k f x))). by rewrite IH. Qed.

(** ** Messages *)

Definition is_byte (b : Z) : Prop := 0 <= b < 256.

Lemma le_value_range bs : Forall is_byte bs -> 0 <= le_value bs < 2 ^ (8 * Z.of_nat (length bs)).
Proof.
  induction 1 as [|b bs Hb _ IH]; [done|]. cbn [le_value length]. unfold is_byte in Hb.
  replace (8 * Z.of_nat (S (length bs))) with (8 + 8 * Z.of_nat (length bs)) by lia. rewrite Z.pow_add_r by lia.
  change (2 ^ 8) with 256. nia.
Qed.

Lemma le_value_inj bs bs' : Forall is_byte bs -> Forall is_byte bs' -> length bs = length bs' -> le_value bs = le_value bs' -> bs = bs'.
Proof.
  intros H. revert bs'. induction H as [|b bs Hb _ IH]; intros bs' H' Hl E; [by destruct bs'|].
  destruct bs' as [|b' bs']; [done|]. inversion_clear H' as [|? ? Hb' Hbs']. cbn in *. unfold is_byte in *.
  assert (b = b' /\ le_value bs = le_value bs') as [-> Ev] by lia. f_equal. apply IH; [done|lia|done].
Qed.

Lemma crc_loop_fold n a c m : 0 <= a < 2 ^ 64 -> crc_loop n a c m = fold_left crc_byte (read_bytes m a (Z.of_nat n)) c.
Proof.
  intros Ha. unfold read_bytes. rewrite Nat2Z.id. revert a c Ha. induction n as [|n IH]; intros a c Ha; [done|].
  cbn [crc_loop seq fmap list_fmap fold_left]. rewrite IH by (apply wrap_uint; lia). f_equal.
  - rewrite <- fmap_S_seq, <- list_fmap_compose. apply list_fmap_ext. intros _ i _. cbn [compose]. f_equal.
    rewrite wrap_add_l. f_equal. lia.
  - f_equal. f_equal. rewrite Z.add_0_r. by rewrite wrap_small.
Qed.

Lemma crc_fold_iter bs c : Forall is_byte bs ->
  fold_left crc_byte bs c = Nat.iter (8 * length bs) crc_bit (Z.lxor c (le_value bs)).
Proof.
  intros H. revert c. induction H as [|b bs Hb _ IH]; intros c; [by rewrite Z.lxor_0_r|].
  cbn [fold_left length le_value]. rewrite IH. unfold crc_byte. rewrite <- (crc_iter_xor 8). change (2 ^ Z.of_nat 8) with 256.
  replace (8 * S (length bs))%nat with (8 * length bs + 8)%nat by lia. rewrite iter_add.
  f_equal. f_equal. rewrite Z.lxor_assoc. f_equal. rewrite (Z.mul_comm 256). change 256 with (2 ^ 8) in *. rewrite (Z.add_comm b).
  rewrite <- (lor_shift_add 8) by (unfold is_byte in Hb; lia). rewrite Z.lxor_comm. symmetry. rewrite <- Z.lxor_lor; [done|].
  apply Z.bits_inj'. intros i Hi. rewrite Z.land_spec, Z.bits_0. destruct (Z.lt_ge_cases i 8).
  - by rewrite Z.mul_pow2_bits_low by lia.
  - unfold is_byte in Hb. rewrite <- (Z.mod_small b (2 ^ 8)) by lia. rewrite (Z.mod_pow2_bits_high b) by lia. apply andb_false_r.
Qed.

Lemma crc_fold_range bs c : Forall is_byte bs -> 0 <= c < 2 ^ 32 -> 0 <= fold_left crc_byte bs c < 2 ^ 32.
Proof.
  intros H. revert c. induction H as [|b bs Hb _ IH]; intros c Hc; [done|]. apply IH. apply crc_iter_range, lxor_range; [lia|done|unfold is_byte in Hb; lia].
Qed.
Lemma crc_fold_inj bs c c' : Forall is_byte bs -> 0 <= c < 2 ^ 32 -> 0 <= c' < 2 ^ 32 ->
  fold_left crc_byte bs c = fold_left crc_byte bs c' -> c = c'.
Proof.
  intros H. revert c c'. induction H as [|b bs Hb _ IH]; intros c c' Hc Hc' E; [done|].
  assert (0 <= b < 2 ^ 32) by (unfold is_byte in Hb; lia).
  apply IH in E; [|by apply crc_iter_range, lxor_range..]. apply crc_iter_inj in E; [|by apply lxor_range..].
  apply (f_equal (fun z => Z.lxor z b)) in E. by rewrite !Z.lxor_assoc, Z.lxor_nilpotent, !Z.lxor_0_r in E.
Qed.

(** The check sequence of a message. *)
Definition crc32 (bs : list Z) : Z := Z.lxor (fold_left crc_byte bs 0xffffffff) 0xffffffff.

Lemma crc32_range bs : Forall is_byte bs -> 0 <= crc32 bs < 2 ^ 32.
Proof. intros H. apply lxor_range; [lia| |lia]. apply crc_fold_range; [done|lia]. Qed.

Lemma crc32iso_hdlc_bytes mem len m : 0 < mem < 2 ^ 64 -> 0 <= len -> crc32iso_hdlc 0 mem len m = crc32 (read_bytes m mem len).
Proof.
  intros Hm Hl. unfold crc32iso_hdlc. rewrite (proj2 (Z.eqb_neq _ _)) by lia. rewrite crc_loop_fold by lia. by rewrite Z2Nat.id.
Qed.

(** A change within four consecutive bytes changes the check sequence. *)
Lemma crc32_burst p w w' s : Forall is_byte (p ++ w ++ s) -> Forall is_byte w' ->
  length w = length w' -> (length w <= 4)%nat -> w <> w' -> crc32 (p ++ w ++ s) <> crc32 (p ++ w' ++ s).
Proof.
  intros [Hp [Hw Hs]%Forall_app]%Forall_app Hw' Hl Hn Hne E. apply Hne.
  unfold crc32 in E. apply (f_equal (fun z => Z.lxor z 0xffffffff)) in E. rewrite !Z.lxor_assoc, Z.lxor_nilpotent, !Z.lxor_0_r in E.
  rewrite !fold_left_app in E. assert (0 <= fold_left crc_byte p 0xffffffff < 2 ^ 32) as Hc by (apply crc_fold_range; [done|lia]).
  apply crc_fold_inj in E; [|done|by apply crc_fold_range..]. rewrite (crc_fold_iter w), (crc_fold_iter w'), <- Hl in E by done.
  assert (forall u, Forall is_byte u -> length u = length w -> 0 <= le_value u < 2 ^ 32) as Hr.
  { intros u Hu Hlu. pose proof (le_value_range u Hu). assert (2 ^ (8 * Z.of_nat (length u)) <= 2 ^ 32) by (apply Z.pow_le_mono_r; lia). lia. }
  apply crc_iter_inj in E; [|apply lxor_range; [lia|exact Hc|apply Hr; by rewrite ?Hl]..].
  apply (f_equal (Z.lxor (fold_left crc_byte p 0xffffffff))) in E. rewrite <- !Z.lxor_assoc, Z.lxor_nilpotent, !Z.lxor_0_l in E.
  by apply le_value_inj.
Qed.

Lemma read_bytes_length m a n : length (read_bytes m a n) = Z.to_nat n.
Proof. unfold read_bytes. by rewrite length_fmap, length_seq. Qed.
Lemma read_bytes_byte m a n : (forall x, is_byte (m x)) -> Forall is_byte (read_bytes m a n).
Proof. intros H. unfold read_bytes. apply Forall_fmap, Forall_true. intros i. apply H. Qed.

(** Splitting a range of memory. *)
Lemma read_bytes_app m a n k : 0 <= n -> 0 <= k -> read_bytes m a (n + k) = read_bytes m a n ++ read_bytes m (a + n) k.
Proof.
  intros Hn Hk. unfold read_bytes. rewrite Z2Nat.inj_add by done. rewrite seq_app, fmap_app. f_equal. cbn [Nat.add].
  rewrite <- (Nat.add_0_r (Z.to_nat n)) at 1. rewrite <- fmap_add_seq, <- list_fmap_compose. apply list_fmap_ext. intros _ i _. cbn. do 2 f_equal. lia.
Qed.
Lemma read_bytes_ext m m' a n : (forall i, 0 <= i < n -> m (wrap64 (a + i)) = m' (wrap64 (a + i))) -> read_bytes m a n = read_bytes m' a n.
Proof. intros H. unfold read_bytes. apply list_fmap_ext. intros _ i Hi%list_elem_of_lookup_2. apply elem_of_seq in Hi. apply H. lia. Qed.

(** C22: damage that stays within four consecutive bytes of a frame never goes
    unnoticed: two buffers of equal length that agree outside [[k, k + 4)] and
    differ inside have different check sequences. *)
Theorem crc32_detects_burst m m' a len k :
  (forall x, is_byte (m x)) -> (forall x, is_byte (m' x)) -> 0 < a < 2 ^ 64 -> 0 <= k -> k + 4 <= len ->
  (forall i, 0 <= i < len -> ~ (k <= i < k + 4) -> m (wrap64 (a + i)) = m' (wrap64 (a + i))) ->
  read_bytes m a len <> read_bytes m' a len ->
  crc32iso_hdlc 0 a len m <> crc32iso_hdlc 0 a len m'.
Proof.
  intros Hb Hb' Ha Hk Hlen Hag Hne. rewrite !crc32iso_hdlc_bytes by lia.
  assert (forall m0, read_bytes m0 a len = read_bytes m0 a k ++ read_bytes m0 (a + k) 4 ++ read_bytes m0 (a + k + 4) (len - k - 4)) as Esp.
  { intros m0. replace len with (k + (4 + (len - k - 4))) at 1 by lia. rewrite read_bytes_app by lia. f_equal. apply read_bytes_app; lia. }
  assert (read_bytes m a k = read_bytes m' a k) as E1 by (apply read_bytes_ext; intros i Hi; apply Hag; lia).
  assert (read_bytes m (a + k + 4) (len - k - 4) = read_bytes m' (a + k + 4) (len - k - 4)) as E2.
  { apply read_bytes_ext. intros i Hi. replace (a + k + 4 + i) with (a + (k + 4 + i)) by lia. apply Hag; lia. }
  rewrite (Esp m), (Esp m') in *. rewrite <- E1, <- E2 in *. apply crc32_burst.
  - rewrite !Forall_app. split_and!; by apply read_bytes_byte.
  - by apply read_bytes_byte.
  - by rewrite !read_bytes_length.
  - by rewrite read_bytes_length.
  - intros E. apply Hne. by rewrite E.
Qed.

(** ** Known values *)

(** "123456789", whose check sequence the definition of the code fixes. *)
Example crc32_check : crc32 [49; 50; 51; 52; 53; 54; 55; 56; 57] = 0xcbf43926.
Proof. reflexivity. Qed.

Definition mem_a : memory := fun x => if x =? 0x1002 then 7 else x mod 256.
Definition mem_b : memory := fun x => x mod 256.

Lemma crc32_detects_burst_witness : crc32iso_hdlc 0 0x1000 64 mem_a <> crc32iso_hdlc 0 0x1000 64 mem_b.
Proof.
  apply (crc32_detects_burst mem_a mem_b 0x1000 64 0).
  - intros x. unfold mem_a, is_byte. destruct (_ =? _); [lia|]. apply Z.mod_pos_bound. lia.
  - intros x. unfold mem_b, is_byte. apply Z.mod_pos_bound. lia.
  - lia.
  - lia.
  - lia.
  - intros i Hi Ho. unfold mem_a, mem_b. rewrite (proj2 (Z.eqb_neq _ _)); [done|]. rewrite wrap_small by (unfold uint; lia). lia.
  - vm_compute. discriminate.
Defined.

End Crc.
