(* ===== verification/Net.v ===== *)
(** * net/ and include/net/: Ethernet and IPv4 addresses, the ARP driver

    Addresses are the bytes of the structures, packets are records of their
    members as the processor loads them.  The Ethernet driver is an interface:
    the ARP driver is modelled against any state [D] with its operations. *)
From S2P Require Import Prelude LibString SSQueue PacketQueue KMap Crc.

Module Net.
Import LibString SSQueue PacketQueue Crc.

(** ** Byte sequences *)

(** [len] bytes from offset [off] on. *)
Definition slice (off len : nat) (bs : list Z) : list Z := take len (drop off bs).

(** [memcmp] on the contents of two objects of the same size. *)
Fixpoint bytes_cmp (a b : list Z) : Z :=
  match a, b with
  | x :: a, y :: b => if x <? y then -1 else if y <? x then 1 else bytes_cmp a b
  | _, _ => 0
  end.

(** ** struct EthernetAddress *)

Definition EthernetAddress : Type := list Z.
Definition eth_lt (a b : EthernetAddress) : bool := bytes_cmp a b <? 0.
Definition eth_eq (a b : EthernetAddress) : bool := bytes_cmp a b =? 0.
Definition IsBroadcast (a : EthernetAddress) : bool := forallb (fun v => v =? 0xff) a.
Definition Broadcast : EthernetAddress := replicate 6 0xff.

Definition EtherTypeIPv4 : Z := 0x0800.
Definition EtherTypeARP : Z := 0x0806.

(** ** struct IPv4Address *)

Definition IPv4Address : Type := list Z.
Definition to_u32 (ip : IPv4Address) : Z := swap_endian32 (le_value ip).

(** [operator<] as written compares the left operand with itself. *)
Definition ip_lt (this rhs : IPv4Address) : bool := to_u32 this <? to_u32 this.

Definition ip_address : IPv4Address := [172; 20; 0; 3].
Definition gateway_address : IPv4Address := [172; 20; 0; 1].

(** ** struct ArpPacket *)

Definition ArpOpcodeRequest : Z := 1.
Definition ArpOpcodeReply : Z := 2.
Definition ArpHwAddressSpaceEthernet : Z := 1.
Definition ArpProtoAddressSpaceIPv4 : Z := 0x0800.

Record ArpPacket := mkArpPacket {
  hardware_address_space : Z;
  protocol_address_space : Z;
  hw_len : Z;
  proto_len : Z;
  opcode : Z;
  hw_sender : EthernetAddress;
  proto_sender : IPv4Address;
  hw_target : EthernetAddress;
  proto_target : IPv4Address
}.

Definition sizeof_ArpPacket : nat := 28.

(** The bytes of the packed structure, and the structure at the start of a buffer. *)
Definition arp_bytes (p : ArpPacket) : list Z :=
  le_bytes 2 (hardware_address_space p) ++ le_bytes 2 (protocol_address_space p) ++
  [hw_len p] ++ [proto_len p] ++ le_bytes 2 (opcode p) ++
  hw_sender p ++ proto_sender p ++ hw_target p ++ proto_target p.
Definition arp_of_bytes (bs : list Z) : ArpPacket :=
  mkArpPacket (le_value (slice 0 2 bs)) (le_value (slice 2 2 bs)) (le_value (slice 4 1 bs)) (le_value (slice 5 1 bs))
    (le_value (slice 6 2 bs)) (slice 8 6 bs) (slice 14 4 bs) (slice 18 6 bs) (slice 24 4 bs).

(** [knew<ArpPacket>()] gives zeroed packets. *)
Definition zero_packet : ArpPacket :=
  mkArpPacket 0 0 0 0 0 (replicate 6 0) (replicate 4 0) (replicate 6 0) (replicate 4 0).

(** ** The Ethernet driver interface *)

(** [class EthernetDriver]: [TxEnqueue(dst, protocol, data, size)] and [address()]. *)
Class EthernetDriver (D : Type) := {
  TxEnqueue : EthernetAddress -> Z -> list Z -> ST D bool;
  address : D -> EthernetAddress
}.

(** ** class ArpDriver *)

(** [rx] holds [rx_queue_], the producer's packet [tmp_pkt] and the packet the ARP
    thread works on; [ip_driver_] says whether that pointer was set. *)
Record ArpDriver (D : Type) := mkArp {
  eth_driver_ : D;
  ip_driver_ : bool;
  lock_ : bool;
  eth2ip : list (EthernetAddress * IPv4Address);
  ip2eth : list (IPv4Address * EthernetAddress);
  rx : pq ArpPacket
}.
Arguments mkArp {D}.
Arguments eth_driver_ {D}.
Arguments ip_driver_ {D}.
Arguments lock_ {D}.
Arguments eth2ip {D}.
Arguments ip2eth {D}.
Arguments rx {D}.

Section arp.
Context {D : Type} `{EthernetDriver D}.
(** How often [kspinlock::lock] tries at most. *)
Context (spins : nat).
Local Abbreviation M := (ST (ArpDriver D)).

Definition with_driver (d : D) (s : ArpDriver D) : ArpDriver D := mkArp d (ip_driver_ s) (lock_ s) (eth2ip s) (ip2eth s) (rx s).
Definition with_lock (b : bool) (s : ArpDriver D) : ArpDriver D := mkArp (eth_driver_ s) (ip_driver_ s) b (eth2ip s) (ip2eth s) (rx s).
Definition with_tables (e : list (EthernetAddress * IPv4Address)) (i : list (IPv4Address * EthernetAddress)) (s : ArpDriver D) : ArpDriver D :=
  mkArp (eth_driver_ s) (ip_driver_ s) (lock_ s) e i (rx s).
Definition with_rx (q : pq ArpPacket) (s : ArpDriver D) : ArpDriver D :=
  mkArp (eth_driver_ s) (ip_driver_ s) (lock_ s) (eth2ip s) (ip2eth s) q.

(** Calls into the packet queue and the Ethernet driver. *)
Definition lift_rx {A} (c : ST (pq ArpPacket) A) : M A := fun s =>
  match c (rx s) with
  | Ret (a, q) => Ret (a, with_rx q s)
  | Panic m => Panic m | Halt => Halt | Fault => Fault | OutOfFuel => OutOfFuel
  end.
Definition lift_driver {A} (c : ST D A) : M A := fun s =>
  match c (eth_driver_ s) with
  | Ret (a, d) => Ret (a, with_driver d s)
  | Panic m => Panic m | Halt => Halt | Fault => Fault | OutOfFuel => OutOfFuel
  end.

(** [kspinlock]: an atomic flag. *)
Definition test_and_set : M bool := fun s => Ret (lock_ s, with_lock true s).
Fixpoint lock_loop (n : nat) : M unit :=
  match n with
  | O => out_of_fuel
  | S n => held ← test_and_set; if held : bool then lock_loop n else mret tt
  end.
Definition lock : M unit := lock_loop spins.
Definition unlock : M unit := modify (with_lock false).

Definition find_ip (mac : EthernetAddress) : M (option IPv4Address) :=
  lock;;
  ret ← gets (fun s => KMap.find eth_lt mac (eth2ip s));
  unlock;;
  mret ret.
Definition find_eth (ip : IPv4Address) : M (option EthernetAddress) :=
  lock;;
  ret ← gets (fun s => KMap.find ip_lt ip (ip2eth s));
  unlock;;
  mret ret.

(** The two assignments of [put] between [lock] and [unlock]. *)
Definition put_tables (eth : EthernetAddress) (ip : IPv4Address) (s : ArpDriver D) : ArpDriver D :=
  with_tables (KMap.set eth_lt eth ip (eth2ip s)) (KMap.set ip_lt ip eth (ip2eth s)) s.
Definition put (eth : EthernetAddress) (ip : IPv4Address) : M unit :=
  lock;;
  modify (put_tables eth ip);;
  unlock.

(** [SetIPDriver] *)
Definition SetIPDriver : M unit :=
  modify (fun s => mkArp (eth_driver_ s) true (lock_ s) (eth2ip s) (ip2eth s) (rx s));;
  mac ← gets (fun s => address (eth_driver_ s));
  put mac ip_address.

(** A member of the packet that [data] holds; reading past the vector is [Fault]. *)
Definition member (off len : nat) (data : list Z) : M Z :=
  if (off + len <=? length data)%nat then mret (le_value (slice off len data)) else fault.

Definition queue_up_mapping (data : list Z) : M unit :=
  if (sizeof_ArpPacket <=? length data)%nat
  then success ← lift_rx (produce (arp_of_bytes data)); mret tt
  else fault.

Definition HandleRx (dst src : EthernetAddress) (protocol : Z) (data : list Z) : M unit :=
  hw ← member 0 2 data;
  if negb (swap_endian16 hw =? ArpHwAddressSpaceEthernet) then mret tt else
  pr ← member 2 2 data;
  if negb (swap_endian16 pr =? ArpProtoAddressSpaceIPv4) then mret tt else
  hl ← member 4 1 data;
  do_assert (hl =? 6) "";;
  pl ← member 5 1 data;
  do_assert (pl =? 4) "";;
  op ← member 6 2 data;
  if swap_endian16 op =? ArpOpcodeRequest then queue_up_mapping data
  else if swap_endian16 op =? ArpOpcodeReply then queue_up_mapping data
  else mret tt.

(** A packet from this host. *)
Definition make_packet (op : Z) (mac : EthernetAddress) (target_mac : EthernetAddress) (target_ip : IPv4Address) : ArpPacket :=
  mkArpPacket (swap_endian16 ArpHwAddressSpaceEthernet) (swap_endian16 ArpProtoAddressSpaceIPv4) (swap_endian8 6) (swap_endian8 4)
    (swap_endian16 op) mac ip_address target_mac target_ip.

(** [handle_request] for the packet at address [ptr].  [ip_target] is a pointer,
    and the last [memcpy] copies the first four bytes of that pointer. *)
Definition handle_request (ptr : Z) (packet : ArpPacket) : M unit :=
  do_assert (swap_endian16 (opcode packet) =? ArpOpcodeRequest) "";;
  mac_target ← find_eth (proto_target packet);
  s ← get;
  match mac_target with
  | Some mac =>
      if ip_driver_ s then
        let ip_target := wrap64 (ptr + 24) in
        _ ← lift_driver (TxEnqueue (hw_sender packet) EtherTypeARP
              (arp_bytes (make_packet ArpOpcodeReply (address (eth_driver_ s)) mac (le_bytes 4 ip_target))));
        mret tt
      else mret tt
  | None => mret tt
  end.

Definition arp_thread_poll_rx : M unit :=
  o ← lift_rx consume;
  match o with
  | None => mret tt
  | Some c =>
      let packet := default zero_packet c in
      put (hw_sender packet) (proto_sender packet);;
      if swap_endian16 (opcode packet) =? ArpOpcodeRequest then
        ptr ← gets (fun s => theirs (rx s));
        handle_request ptr packet
      else mret tt
  end.

Definition Request (ip_target : IPv4Address) : M unit :=
  s ← get;
  _ ← lift_driver (TxEnqueue Broadcast EtherTypeARP
        (arp_bytes (make_packet ArpOpcodeRequest (address (eth_driver_ s)) (replicate 6 0) ip_target)));
  mret tt.
Definition request_gateway_ethernet_address : M unit := Request gateway_address.

(** Round [i] of the loop of [ArpThreadStart], without the [kyield]. *)
Definition arp_thread_round (i : Z) : M unit :=
  arp_thread_poll_rx;;
  if i mod 10000 =? 0 then request_gateway_ethernet_address else mret tt.

(** [IPDriver::HandleRx] reports the address it knows for the sender. *)
Definition ip_HandleRx (dst src : EthernetAddress) (protocol : Z) (data : list Z) : M (option IPv4Address) :=
  find_ip src.

End arp.

(** [ArpDriver(driver)]: queue with four packets, and the two packets of its ends. *)
Definition ArpDriver_new {D} (d : D) (packets : list Z) (tmp_pkt thread_pkt : Z) : ArpDriver D :=
  mkArp d false false [] [] (mkPQ ∅ (new packets) tmp_pkt thread_pkt).

End Net.
