(* ===== verification/NetThms.v ===== *)
(** * The ARP driver: address tables, the receive queue, replies and the lock *)
From S2P Require Import Prelude LibString SSQueue PacketQueue KMap Crc Net.
Import LibString SSQueue PacketQueue Crc Net.

(** ** Byte sequences *)

(** [memcmp] of lib/string.cpp on memory is [bytes_cmp] of the contents. *)
Lemma memcmp_loop_bytes n i a b m :
  memcmp_loop n i a b m = bytes_cmp (read_bytes m (a + i) (Z.of_nat n)) (read_bytes m (b + i) (Z.of_nat n)).
Proof.
  revert i. induction n as [|n IH]; intros i; [done|]. cbn [memcmp_loop]. rewrite IH.
  replace (Z.of_nat (S n)) with (1 + Z.of_nat n) by lia. rewrite !read_bytes_app by lia.
  change (read_bytes m (a + i) 1) with [m (wrap64 (a + i + 0))]. change (read_bytes m (b + i) 1) with [m (wrap64 (b + i + 0))].
  rewrite !Z.add_0_r, <- !Z.add_assoc. done.
Qed.
Lemma memcmp_bytes a b n m : 0 <= n -> memcmp a b n m = bytes_cmp (read_bytes m a n) (read_bytes m b n).
Proof. intros Hn. unfold memcmp. rewrite memcmp_loop_bytes, Z2Nat.id, !Z.add_0_r by done. done. Qed.

Lemma bytes_cmp_refl a : bytes_cmp a a = 0.
Proof. induction a as [|x a IH]; [done|]. cbn. by rewrite !Z.ltb_irrefl. Qed.
Lemma bytes_cmp_opp a b : bytes_cmp b a = - bytes_cmp a b.
Proof.
  revert b. induction a as [|x a IH]; intros [|y b]; try done. cbn.
  destruct (Z.ltb_spec x y), (Z.ltb_spec y x); lia || done || by rewrite IH.
Qed.
Lemma bytes_cmp_eq a b : length a = length b -> bytes_cmp a b = 0 -> a = b.
Proof.
  revert b. induction a as [|x a IH]; intros [|y b] Hl; try done. cbn.
  destruct (Z.ltb_spec x y), (Z.ltb_spec y x); try done. intros E. f_equal; [lia|]. apply IH; [by injection Hl|done].
Qed.
Lemma bytes_cmp_trans a b c : length a = length b -> length b = length c -> bytes_cmp a b < 0 -> bytes_cmp b c < 0 -> bytes_cmp a c < 0.
Proof.
  revert b c. induction a as [|x a IH]; intros [|y b] [|z c] H1 H2; try done. cbn.
  injection H1 as H1. injection H2 as H2. specialize (IH b c H1 H2).
  destruct (Z.ltb_spec x y), (Z.ltb_spec y z), (Z.ltb_spec y x), (Z.ltb_spec z y), (Z.ltb_spec x z), (Z.ltb_spec z x); lia || auto.
Qed.

(** Hardware addresses are totally ordered; addresses have six bytes. *)
Definition mac_ok (a : EthernetAddress) : Prop := length a = 6%nat.

#[export] Instance eth_lt_order : KMap.StrictTotal eth_lt mac_ok.
Proof.
  unfold mac_ok, eth_lt. split.
  - intros k _. by rewrite bytes_cmp_refl.
  - intros k k' k'' Hk Hk' Hk'' H1%Z.ltb_lt H2%Z.ltb_lt. apply Z.ltb_lt. eapply bytes_cmp_trans; [..|done|done]; congruence.
  - intros k k' Hk Hk' H1%Z.ltb_ge H2%Z.ltb_ge. rewrite bytes_cmp_opp in H2. apply bytes_cmp_eq; [congruence|lia].
Qed.

(** No two Internet addresses are ordered, so a map has one element. *)
Lemma ip_lt_false a b : ip_lt a b = false.
Proof. apply Z.ltb_irrefl. Qed.
Lemma find_ip_lt {V} ip (m : list (IPv4Address * V)) : KMap.find ip_lt ip m = snd <$> head m.
Proof. destruct m as [|[k v] m]; [done|]. cbn. by rewrite !ip_lt_false. Qed.
Lemma set_ip_lt {V} ip (v : V) m : snd <$> head (KMap.set ip_lt ip v m) = Some v.
Proof. destruct m as [|[k v'] m]; [done|]. cbn. by rewrite !ip_lt_false. Qed.

(** ** Packets and their bytes *)

Record arp_wf (p : ArpPacket) : Prop := {
  aw_hw : uint 16 (hardware_address_space p); aw_proto : uint 16 (protocol_address_space p);
  aw_op : uint 16 (opcode p);
  aw_hs : length (hw_sender p) = 6%nat; aw_ps : length (proto_sender p) = 4%nat;
  aw_ht : length (hw_target p) = 6%nat; aw_pt : length (proto_target p) = 4%nat
}.

Lemma le_value_bytes2 v : uint 16 v -> le_value (le_bytes 2 v) = v.
Proof. intros [H1 H2]. cbn [le_bytes le_value]. change (2 ^ 16) with 65536 in H2. dlia. Qed.

Lemma arp_bytes_length p : arp_wf p -> length (arp_bytes p) = sizeof_ArpPacket.
Proof. intros [_ _ _ H1 H2 H3 H4]. unfold arp_bytes. rewrite !length_app, H1, H2, H3, H4. done. Qed.

(** A list of known length as its elements. *)
Ltac explode l := repeat (destruct l as [|? l]; [try discriminate|]); try discriminate.

Lemma arp_decode_encode p rest : arp_wf p -> arp_of_bytes (arp_bytes p ++ rest) = p.
Proof.
  destruct p as [hw pr hl pl op hs ps ht pt]. intros [H1 H2 H3 Hhs Hps Hht Hpt]. cbn in *.
  do 7 (destruct hs as [|? hs]; try discriminate). do 5 (destruct ps as [|? ps]; try discriminate).
  do 7 (destruct ht as [|? ht]; try discriminate). do 5 (destruct pt as [|? pt]; try discriminate).
  pose proof (le_value_bytes2 _ H1) as E1. pose proof (le_value_bytes2 _ H2) as E2. pose proof (le_value_bytes2 _ H3) as E3.
  unfold arp_bytes, arp_of_bytes, slice. cbn -[Z.add Z.mul Z.modulo Z.div] in *. rewrite E1, E2, E3. f_equal; lia.
Qed.

(** The members [HandleRx] looks at first. *)
Lemma arp_members p rest : arp_wf p ->
  le_value (slice 0 2 (arp_bytes p ++ rest)) = hardware_address_space p /\ le_value (slice 2 2 (arp_bytes p ++ rest)) = protocol_address_space p /\
  le_value (slice 4 1 (arp_bytes p ++ rest)) = hw_len p /\ le_value (slice 5 1 (arp_bytes p ++ rest)) = proto_len p /\
  le_value (slice 6 2 (arp_bytes p ++ rest)) = opcode p.
Proof. intros Hp. rewrite <- (arp_decode_encode p rest Hp) at 2 4 6 8 10. done. Qed.

(** An ARP packet this driver understands, of opcode [op]. *)
Record arp_valid (op : Z) (p : ArpPacket) : Prop := {
  av_wf : arp_wf p;
  av_hw : swap_endian16 (hardware_address_space p) = ArpHwAddressSpaceEthernet;
  av_proto : swap_endian16 (protocol_address_space p) = ArpProtoAddressSpaceIPv4;
  av_hl : hw_len p = 6; av_pl : proto_len p = 4;
  av_op : swap_endian16 (opcode p) = op
}.

Section arp.
Context {D : Type} `{EthernetDriver D} (spins : nat).
Implicit Types s : ArpDriver D.

Record arp_inv (s : ArpDriver D) : Prop := {
  ai_lock : lock_ s = false;
  ai_rx : pq_wf (rx s);
  ai_size : qsize (ring (rx s)) = 4;
  ai_keys : KMap.keys_in (P := mac_ok) (eth2ip s)
}.

(** ** The lock *)

Lemma lock_free s : (0 < spins)%nat -> lock_ s = false -> lock spins s = Ret (tt, with_lock true s).
Proof. intros Hs Hl. unfold lock. destruct spins; [lia|]. cbn. unfold mbind, st_bind, test_and_set. by rewrite Hl. Qed.

Lemma lock_held n s : lock_ s = true -> lock_loop n s = OutOfFuel.
Proof.
  revert s. induction n as [|n IH]; intros s Hl; [done|]. cbn. unfold mbind, st_bind, test_and_set. rewrite Hl. by apply IH.
Qed.

Lemma with_lock_id s : lock_ s = false -> with_lock false (with_lock true s) = s.
Proof. by destruct s; cbn; intros ->. Qed.

Lemma find_ip_ok s mac : (0 < spins)%nat -> lock_ s = false -> find_ip spins mac s = Ret (KMap.find eth_lt mac (eth2ip s), s).
Proof.
  intros Hs Hl. unfold find_ip. erewrite bind_ret by by apply lock_free. cbn. unfold mbind, st_bind, gets, unlock, modify, mret, st_ret. by rewrite with_lock_id.
Qed.
Lemma find_eth_ok s ip : (0 < spins)%nat -> lock_ s = false -> find_eth spins ip s = Ret (KMap.find ip_lt ip (ip2eth s), s).
Proof.
  intros Hs Hl. unfold find_eth. erewrite bind_ret by by apply lock_free. cbn. unfold mbind, st_bind, gets, unlock, modify, mret, st_ret. by rewrite with_lock_id.
Qed.
Lemma put_ok s eth ip : (0 < spins)%nat -> lock_ s = false -> put spins eth ip s = Ret (tt, put_tables eth ip s).
Proof.
  intros Hs Hl. unfold put. erewrite bind_ret by by apply lock_free. cbn. unfold mbind, st_bind, unlock, modify. do 2 f_equal. destruct s; cbn in *. by subst.
Qed.

Lemma put_tables_inv s eth ip : mac_ok eth -> arp_inv s -> arp_inv (put_tables eth ip s).
Proof. intros He [H1 H2 H3 H4]. split; try done. cbn. apply (KMap.keys_set eth_lt (P := mac_ok)); done. Qed.

(** ** The receive queue *)

Lemma queue_up_ok s data : arp_inv s -> (sizeof_ArpPacket <= length data)%nat ->
  exists q, queue_up_mapping data s = Ret (tt, with_rx q s) /\ arp_inv (with_rx q s) /\ theirs q = theirs (rx s) /\
    queued q = if decide (length (queued (rx s)) < 3)%nat then queued (rx s) ++ [Some (arp_of_bytes data)] else queued (rx s).
Proof.
  intros [H1 H2 H3 H4] Hl. destruct (produce_spec (rx s) (arp_of_bytes data) H2) as (b & q & E & W & Q & T & _ & R).
  exists q. unfold queue_up_mapping. rewrite (proj2 (Nat.leb_le _ _)) by done. unfold mbind, st_bind, lift_rx. rewrite E.
  split; [done|]. split; [split; try done; cbn; congruence|]. split; [done|].
  rewrite H3 in R. case_decide; case_decide; try lia; naive_solver.
Qed.

Lemma HandleRx_ok s dst src proto p pad op : arp_inv s -> arp_valid op p -> op = ArpOpcodeRequest \/ op = ArpOpcodeReply ->
  HandleRx dst src proto (arp_bytes p ++ pad) s = queue_up_mapping (arp_bytes p ++ pad) s.
Proof.
  intros Hi [Hp Hhw Hpr Hhl Hpl Hop] Hor. pose proof (arp_bytes_length p Hp) as Hlen.
  destruct (arp_members p pad Hp) as (M1 & M2 & M3 & M4 & M5).
  unfold HandleRx. assert (forall off len : nat, (off + len <= 28)%nat ->
    member (D := D) off len (arp_bytes p ++ pad) = mret (le_value (slice off len (arp_bytes p ++ pad)))) as Hm.
  { intros off len Ho. unfold member. rewrite (proj2 (Nat.leb_le _ _)); [done|]. rewrite length_app, Hlen. unfold sizeof_ArpPacket. lia. }
  rewrite !Hm by lia. rewrite M1, M2, M3, M4, M5. rewrite bind_mret_l, Hhw. cbn [negb Z.eqb Pos.eqb ArpHwAddressSpaceEthernet].
  rewrite bind_mret_l, Hpr. cbn [negb Z.eqb Pos.eqb ArpProtoAddressSpaceIPv4].
  rewrite Hhl, Hpl, bind_mret_l. change (do_assert (6 =? 6) "") with (mret (M := ST (ArpDriver D)) tt).
  rewrite !bind_mret_l. change (do_assert (4 =? 4) "") with (mret (M := ST (ArpDriver D)) tt). rewrite !bind_mret_l, Hop. by destruct Hor as [-> | ->].
Qed.

Lemma poll_consume s p l : arp_inv s -> queued (rx s) = Some p :: l ->
  exists q, lift_rx consume s = Ret (Some (Some p), with_rx q s) /\ arp_inv (with_rx q s) /\ queued q = l.
Proof.
  intros [H1 H2 H3 H4] Hq. destruct (consume_spec (rx s) H2) as (o & q & E & W & Q & T & S & _ & R). rewrite Hq in R.
  destruct R as (-> & R & _). exists q. unfold lift_rx. rewrite E. split; [done|]. split; [split; try done; cbn; congruence|done].
Qed.

(** Handling a packet that is not a request, and a request. *)
Lemma poll_learn s p l : (0 < spins)%nat -> arp_inv s -> queued (rx s) = Some p :: l -> mac_ok (hw_sender p) ->
  exists s1, arp_inv s1 /\ queued (rx s1) = l /\ eth_driver_ s1 = eth_driver_ s /\ ip_driver_ s1 = ip_driver_ s /\
    eth2ip s1 = KMap.set eth_lt (hw_sender p) (proto_sender p) (eth2ip s) /\ ip2eth s1 = KMap.set ip_lt (proto_sender p) (hw_sender p) (ip2eth s) /\
    arp_thread_poll_rx spins s =
      (if swap_endian16 (opcode p) =? ArpOpcodeRequest then handle_request spins (theirs (rx s1)) p s1 else Ret (tt, s1)).
Proof.
  intros Hs Hi Hq Hm. destruct (poll_consume s p l Hi Hq) as (q & E & I & Hl).
  exists (put_tables (hw_sender p) (proto_sender p) (with_rx q s)). split; [by apply put_tables_inv|]. split_and!; try done.
  unfold arp_thread_poll_rx. erewrite bind_ret by exact E. cbn [default]. erewrite bind_ret by (apply put_ok; [done|apply I]).
  by destruct (_ =? _).
Qed.

Lemma handle_request_ok s ptr p : (0 < spins)%nat -> arp_inv s -> ip_driver_ s = true -> swap_endian16 (opcode p) = ArpOpcodeRequest ->
  handle_request spins ptr p s =
    match snd <$> head (ip2eth s) with
    | None => Ret (tt, s)
    | Some mac =>
        match TxEnqueue (hw_sender p) EtherTypeARP
                (arp_bytes (make_packet ArpOpcodeReply (address (eth_driver_ s)) mac (le_bytes 4 (wrap64 (ptr + 24))))) (eth_driver_ s) with
        | Ret (_, d) => Ret (tt, with_driver d s)
        | Panic m => Panic m | Halt => Halt | Fault => Fault | OutOfFuel => OutOfFuel
        end
    end.
Proof.
  intros Hs Hi Hip Hop. unfold handle_request. rewrite Hop.
  change (do_assert (ArpOpcodeRequest =? ArpOpcodeRequest) "") with (mret (M := ST (ArpDriver D)) tt). rewrite bind_mret_l.
  erewrite bind_ret by (apply find_eth_ok; [done|apply Hi]). rewrite find_ip_lt.
  unfold mbind, st_bind, get, lift_driver. rewrite Hip. destruct (snd <$> head (ip2eth s)); [|done].
  by destruct (TxEnqueue _ _ _ _) as [[b d]| | | |].
Qed.

End arp.

(** C23: the address tables after [put].  By hardware address the table is a finite
    map: the new entry is found and all others are as before.  By Internet
    address it holds one entry: every address, known or not, is answered with the
    hardware address put last, because [IPv4Address::operator<] compares an
    address with itself. *)
Theorem arp_tables {D} `{EthernetDriver D} spins (s : ArpDriver D) eth ip :
  (0 < spins)%nat -> arp_inv s -> mac_ok eth ->
  exists s', put spins eth ip s = Ret (tt, s') /\ arp_inv s' /\
    (forall mac, mac_ok mac -> find_ip spins mac s' = Ret (if decide (mac = eth) then Some ip else KMap.find eth_lt mac (eth2ip s), s')) /\
    (forall ip', find_eth spins ip' s' = Ret (Some eth, s')).
Proof.
  intros Hs Hi He. exists (put_tables eth ip s). split; [by apply put_ok, Hi|]. pose proof (put_tables_inv s eth ip He Hi) as Hi'.
  split; [done|]. split.
  - intros mac Hm. rewrite find_ip_ok by (done || apply Hi'). do 2 f_equal. cbn. case_decide as E.
    + subst mac. by apply (KMap.find_set_eq eth_lt (P := mac_ok)).
    + apply (KMap.find_set_ne eth_lt (P := mac_ok)); try done. apply Hi.
  - intros ip'. rewrite find_eth_ok by (done || apply Hi'). rewrite find_ip_lt. cbn. by rewrite set_ip_lt.
Qed.

(** Receiving refines a bounded queue of packets.  Every request or reply that
    arrives is appended as it was sent, unless three packets wait already, in
    which case it is dropped; the packets that wait are not disturbed, although
    the driver uses the same six packets over and over. *)
Theorem arp_rx_queue {D} `{EthernetDriver D} (s : ArpDriver D) dst src proto p pad op :
  arp_inv s -> arp_valid op p -> op = ArpOpcodeRequest \/ op = ArpOpcodeReply ->
  exists s', HandleRx dst src proto (arp_bytes p ++ pad) s = Ret (tt, s') /\ arp_inv s' /\
    eth2ip s' = eth2ip s /\ eth_driver_ s' = eth_driver_ s /\
    queued (rx s') = if decide (length (queued (rx s)) < 3)%nat then queued (rx s) ++ [Some p] else queued (rx s).
Proof.
  intros Hi Hv Hop. erewrite HandleRx_ok by done. destruct (queue_up_ok s (arp_bytes p ++ pad) Hi) as (q & E & I & _ & Q).
  { rewrite length_app, (arp_bytes_length p) by apply Hv. lia. }
  exists (with_rx q s). rewrite arp_decode_encode in Q by apply Hv. done.
Qed.

(** A reply that arrives and is handled teaches the driver the sender: looking
    the sender up afterwards gives the Internet address of the packet. *)
Theorem arp_learns {D} `{EthernetDriver D} spins (s : ArpDriver D) dst src proto p pad :
  (0 < spins)%nat -> arp_inv s -> arp_valid ArpOpcodeReply p -> queued (rx s) = [] ->
  exists s1 s2, HandleRx dst src proto (arp_bytes p ++ pad) s = Ret (tt, s1) /\ arp_thread_poll_rx spins s1 = Ret (tt, s2) /\
    arp_inv s2 /\ queued (rx s2) = [] /\ eth_driver_ s2 = eth_driver_ s /\
    find_ip spins (hw_sender p) s2 = Ret (Some (proto_sender p), s2).
Proof.
  intros Hs Hi Hv Hq. pose proof (av_wf _ _ Hv) as Hw.
  erewrite HandleRx_ok; [|done|exact Hv|by right]. destruct (queue_up_ok s (arp_bytes p ++ pad) Hi) as (q & E & I & _ & Q).
  { rewrite length_app, (arp_bytes_length p) by done. lia. }
  rewrite Hq, arp_decode_encode in Q by done.
  destruct (poll_learn spins (with_rx q s) p [] Hs I Q (aw_hs _ Hw)) as (s2 & I2 & Q2 & D2 & _ & T2 & _ & E2).
  rewrite (av_op _ _ Hv) in E2. exists (with_rx q s), s2. split_and!; try done.
  rewrite find_ip_ok by (done || apply I2). rewrite T2. by rewrite (KMap.find_set_eq eth_lt (P := mac_ok)) by apply Hw.
Qed.

(** The driver answers every request, whichever address is asked for: the
    reply carries the hardware and Internet address of this host and is sent to
    the sender, and its target address is taken from a pointer into the packet. *)
Theorem arp_answers_every_request {D} `{EthernetDriver D} spins (s : ArpDriver D) p l b d :
  (0 < spins)%nat -> arp_inv s -> ip_driver_ s = true -> queued (rx s) = Some p :: l -> arp_valid ArpOpcodeRequest p ->
  (forall ptr, TxEnqueue (hw_sender p) EtherTypeARP
     (arp_bytes (make_packet ArpOpcodeReply (address (eth_driver_ s)) (hw_sender p) (le_bytes 4 (wrap64 (ptr + 24))))) (eth_driver_ s) = Ret (b, d ptr)) ->
  exists s', arp_thread_poll_rx spins s = Ret (tt, s') /\ arp_inv s' /\ queued (rx s') = l /\
    eth_driver_ s' = d (theirs (rx s')).
Proof.
  intros Hs Hi Hip Hq Hv Htx. pose proof (av_wf _ _ Hv) as Hw.
  destruct (poll_learn spins s p l Hs Hi Hq (aw_hs _ Hw)) as (s1 & I1 & Q1 & D1 & P1 & _ & T1 & E1).
  rewrite (av_op _ _ Hv) in E1. cbn in E1.
  assert (snd <$> head (ip2eth s1) = Some (hw_sender p)) as Eh by (rewrite T1; apply set_ip_lt).
  rewrite handle_request_ok in E1; [|done|done|by rewrite P1|by apply Hv]. rewrite Eh, D1, Htx in E1.
  exists (with_driver (d (theirs (rx s1))) s1). split; [done|]. split; [|done]. destruct I1; by split.
Qed.

(** The lock of the tables is also taken by the receive interrupt.  When an
    Internet packet arrives while the ARP thread is between [lock] and [unlock]
    of [put], the interrupt handler spins forever: no number of attempts
    suffices, and nothing else runs on the processor. *)
Theorem arp_lock_deadlock {D} `{EthernetDriver D} (s s1 : ArpDriver D) eth ip dst src proto data :
  lock 1 s = Ret (tt, s1) ->
  forall spins, ip_HandleRx spins dst src proto data s1 = OutOfFuel /\
    ip_HandleRx spins dst src proto data (put_tables eth ip s1) = OutOfFuel.
Proof.
  intros E spins. assert (lock_ s1 = true) as Hl.
  { unfold lock in E. cbn in E. unfold mbind, st_bind, test_and_set in E. destruct (lock_ s); [done|]. by injection E as <-. }
  unfold ip_HandleRx, find_ip, lock. unfold mbind at 1 4, st_bind at 1 4. by rewrite !lock_held.
Qed.

(** ** Concrete runs *)

(** A driver that records what it is given. *)
Definition log_driver : Type := list (EthernetAddress * Z * list Z).
#[local] Instance log_ethernet : EthernetDriver log_driver := {|
  TxEnqueue dst protocol data := fun l => Ret (true, l ++ [(dst, protocol, data)]);
  address _ := [0x52; 0x54; 0; 0x12; 0x34; 0x56]
|}.

Definition ex_arp : ArpDriver log_driver := ArpDriver_new [] [0x10000; 0x20000; 0x30000; 0x40000] 0x50000 0x60000.
Definition ex_packet (op : Z) : ArpPacket :=
  mkArpPacket 0x0100 0x0008 6 4 (swap_endian16 op) [2; 0; 0; 0; 0; 9] [10; 0; 0; 9] [0; 0; 0; 0; 0; 0] [10; 0; 0; 77].

Lemma new_arp_inv {D} `{EthernetDriver D} (d : D) packets a b :
  length packets = 4%nat -> NoDup (a :: b :: packets) -> arp_inv (ArpDriver_new d packets a b).
Proof.
  intros Hl Hnd. split; try done.
  - split; [|done]. unfold wf, qsize. cbn. rewrite Hl. lia.
  - unfold qsize. cbn. by rewrite Hl.
  - constructor.
Qed.
Lemma ex_arp_inv : arp_inv ex_arp.
Proof. apply new_arp_inv; [done|]. apply (bool_decide_unpack _). by vm_compute. Qed.
Lemma ex_packet_valid op : op = 1 \/ op = 2 -> arp_valid op (ex_packet op).
Proof. intros [-> | ->]; repeat split; vm_compute; done || lia. Qed.

Lemma arp_tables_witness :
  exists s', put 1 [2; 0; 0; 0; 0; 9] [10; 0; 0; 9] ex_arp = Ret (tt, s') /\ arp_inv s' /\
    (forall mac, mac_ok mac -> find_ip 1 mac s' = Ret (if decide (mac = [2; 0; 0; 0; 0; 9]) then Some [10; 0; 0; 9] else None, s')) /\
    (forall ip', find_eth 1 ip' s' = Ret (Some [2; 0; 0; 0; 0; 9], s')).
Proof. apply (arp_tables 1 ex_arp [2; 0; 0; 0; 0; 9] [10; 0; 0; 9]); [lia|exact ex_arp_inv|reflexivity]. Defined.

Lemma arp_rx_queue_witness :
  exists s', HandleRx [] [] EtherTypeARP (arp_bytes (ex_packet 1) ++ replicate 18 0) ex_arp = Ret (tt, s') /\ arp_inv s' /\
    eth2ip s' = eth2ip ex_arp /\ eth_driver_ s' = [] /\ queued (rx s') = [] ++ [Some (ex_packet 1)].
Proof.
  apply (arp_rx_queue ex_arp [] [] EtherTypeARP (ex_packet 1) (replicate 18 0) 1); [exact ex_arp_inv|apply ex_packet_valid; by left|by left].
Defined.

Lemma arp_learns_witness :
  exists s1 s2, HandleRx [] [] EtherTypeARP (arp_bytes (ex_packet 2) ++ replicate 18 0) ex_arp = Ret (tt, s1) /\ arp_thread_poll_rx 1 s1 = Ret (tt, s2) /\
    arp_inv s2 /\ queued (rx s2) = [] /\ eth_driver_ s2 = [] /\ find_ip 1 [2; 0; 0; 0; 0; 9] s2 = Ret (Some [10; 0; 0; 9], s2).
Proof.
  apply (arp_learns 1 ex_arp [] [] EtherTypeARP (ex_packet 2) (replicate 18 0)); [lia|exact ex_arp_inv|apply ex_packet_valid; by right|reflexivity].
Defined.

(** A request for an address that is not this host's, waiting in the queue. *)
Definition ex_waiting : ArpDriver log_driver :=
  mkArp [] true false [] [] (mkPQ {[0x10000 := ex_packet 1]} (mkQ [0x10000; 0x20000; 0x30000; 0x40000] 0 1) 0x50000 0x60000).
Lemma ex_waiting_inv : arp_inv ex_waiting.
Proof.
  split; try done.
  - split; [unfold wf, qsize; cbn; lia|]. apply (bool_decide_unpack _). by vm_compute.
  - constructor.
Qed.

Lemma arp_answers_every_request_witness :
  exists s', arp_thread_poll_rx 1 ex_waiting = Ret (tt, s') /\ arp_inv s' /\ queued (rx s') = [] /\
    eth_driver_ s' = [([2; 0; 0; 0; 0; 9], EtherTypeARP,
      arp_bytes (make_packet ArpOpcodeReply [0x52; 0x54; 0; 0x12; 0x34; 0x56] [2; 0; 0; 0; 0; 9] (le_bytes 4 (wrap64 (theirs (rx s') + 24)))))].
Proof.
  apply (arp_answers_every_request 1 ex_waiting (ex_packet 1) [] true
    (fun ptr => [([2; 0; 0; 0; 0; 9], EtherTypeARP,
      arp_bytes (make_packet ArpOpcodeReply [0x52; 0x54; 0; 0x12; 0x34; 0x56] [2; 0; 0; 0; 0; 9] (le_bytes 4 (wrap64 (ptr + 24)))))])).
  - lia.
  - exact ex_waiting_inv.
  - reflexivity.
  - reflexivity.
  - apply ex_packet_valid. by left.
  - intros ptr. reflexivity.
Defined.

Lemma arp_lock_deadlock_witness :
  lock 1 ex_arp = Ret (tt, with_lock true ex_arp) /\
  forall spins, ip_HandleRx spins [] [] EtherTypeIPv4 [] (with_lock true ex_arp) = OutOfFuel /\
    ip_HandleRx spins [] [] EtherTypeIPv4 [] (put_tables [2; 0; 0; 0; 0; 9] [10; 0; 0; 9] (with_lock true ex_arp)) = OutOfFuel.
Proof. split; [reflexivity|]. apply (arp_lock_deadlock ex_arp (with_lock true ex_arp)). reflexivity. Defined.
