(* ===== verification/Rtl8139.v ===== *)
(** * device/rtl8139.cpp: the network card driver

    The state holds the members of [Rtl8139Device], the registers it uses, and
    the byte memory its buffers lie in.  The registers that the card changes by
    itself are inputs: the transmit status is part of the state, the interrupt
    status is a sequence of the values read.  The whole network stack is an ARP
    driver whose Ethernet driver is this one. *)
From S2P Require Import Prelude CpuDefs LibString SSQueue PacketQueue KMap Crc Net.

Module Rtl8139.
Import LibString SSQueue PacketQueue Crc Net.

Definition RxOk : Z := Z.shiftl 1 0.
Definition RxError : Z := Z.shiftl 1 1.
Definition TxOk : Z := Z.shiftl 1 2.
Definition TxError : Z := Z.shiftl 1 3.
Definition Timeout_ : Z := Z.shiftl 1 14.
Definition RxOverflow : Z := 0x10.
Definition RxFifoOverflow : Z := 0x40.
Definition RxAck : Z := Z.lor (Z.lor RxOk RxOverflow) RxFifoOverflow.

Definition TxQueueSize : Z := 32.

(** ** struct KEthernetPacket *)

Definition L2MTU : Z := 1500.
Definition EthernetHeaderSize : Z := 6 * 2 + 2.

Record KEthernetPacket := mkPacket {
  pk_size : Z;
  pk_max_size : Z;
  pk_dst : EthernetAddress;
  pk_src : EthernetAddress;
  pk_protocol : Z;
  pk_data : list Z
}.

(** The bytes from [pkt_start] on, [EthernetHeaderSize + size] of them. *)
Definition frame_bytes (p : KEthernetPacket) : list Z :=
  pk_dst p ++ pk_src p ++ le_bytes 2 (pk_protocol p) ++ take (Z.to_nat (pk_size p)) (pk_data p).

(** ** class Rtl8139Device *)

(** [tx_member] is the address of the member array [tx_buffer]; [tx] holds
    [tx_queue_], the packet the driver fills next and the one its thread sends. *)
Record Dev := mkDev {
  mac : EthernetAddress;
  rx_buffer : Z;
  rx_offset : Z;
  tx_buffer : list Z;
  tx_member : Z;
  tx_buffer_index : Z;
  tx_done_ : bool;
  tx_status : list Z;
  current_address_of_packet_read : Z;
  mem : memory;
  tx : pq KEthernetPacket
}.
Definition rx_buffer_size : Z := Z.shiftl 1 16.

Abbreviation DM := (ST Dev).

Definition with_rx_pos (off capr : Z) (d : Dev) : Dev :=
  mkDev (mac d) (rx_buffer d) off (tx_buffer d) (tx_member d) (tx_buffer_index d) (tx_done_ d) (tx_status d) capr (mem d) (tx d).
Definition with_tx_pos (i : Z) (done_ : bool) (d : Dev) : Dev :=
  mkDev (mac d) (rx_buffer d) (rx_offset d) (tx_buffer d) (tx_member d) i done_ (tx_status d) (current_address_of_packet_read d) (mem d) (tx d).
Definition with_mem (m : memory) (d : Dev) : Dev :=
  mkDev (mac d) (rx_buffer d) (rx_offset d) (tx_buffer d) (tx_member d) (tx_buffer_index d) (tx_done_ d) (tx_status d)
    (current_address_of_packet_read d) m (tx d).
Definition with_status (st : list Z) (d : Dev) : Dev :=
  mkDev (mac d) (rx_buffer d) (rx_offset d) (tx_buffer d) (tx_member d) (tx_buffer_index d) (tx_done_ d) st
    (current_address_of_packet_read d) (mem d) (tx d).
Definition with_tx (q : pq KEthernetPacket) (d : Dev) : Dev :=
  mkDev (mac d) (rx_buffer d) (rx_offset d) (tx_buffer d) (tx_member d) (tx_buffer_index d) (tx_done_ d) (tx_status d)
    (current_address_of_packet_read d) (mem d) q.

Definition lift_tx {A} (c : ST (pq KEthernetPacket) A) : DM A := fun d =>
  match c (tx d) with
  | Ret (a, q) => Ret (a, with_tx q d)
  | Panic m => Panic m | Halt => Halt | Fault => Fault | OutOfFuel => OutOfFuel
  end.

(** Storing bytes one after the other. *)
Definition write_bytes (a : Z) (bs : list Z) (m : memory) : memory :=
  for_loop (length bs) 0 (fun i => write (wrap64 (a + i)) (nth (Z.to_nat i) bs 0)) m.

(** ** Transmission *)

(** [RTL8139Driver::TxEnqueue]: fill the packet and queue it.  A payload longer
    than the packet's data is written past it. *)
Definition rtl_TxEnqueue (dst : EthernetAddress) (protocol : Z) (payload : list Z) : DM bool :=
  if L2MTU <? Z.of_nat (length payload) then fault
  else
    d ← get;
    lift_tx (produce (mkPacket (Z.of_nat (length payload)) L2MTU dst (mac d) (swap_endian16 protocol) payload)).

#[export] Instance rtl_driver : EthernetDriver Dev := {| TxEnqueue := rtl_TxEnqueue; address := mac |}.

Definition tx_ready (d : Dev) : bool := Z.testbit (nth (Z.to_nat (tx_buffer_index d)) (tx_status d) 0) 13.

(** The members of the device from [tx_buffer] on: [tx_buffer], [tx_buffer_phy],
    [tx_buffer_size], [tx_buffer_index], [tx_done_], [regs], [config_space],
    [arp_], [ipv4_] and [tx_queue_]. *)
Definition tx_members_size : Z := 32 + 16 + 8 + 4 + 4 + 8 + 8 + 8 + 8 + (24 + 8 + 8).

(** [tx_async(buffer, size)] for the bytes [frame] at [buffer].  The padding is
    written at [&tx_buffer[tx_buffer_index] + size], which counts in pointers:
    within the members it destroys them, past them it changes other memory. *)
Definition tx_async (buffer : Z) (frame : list Z) : DM bool :=
  d ← get;
  if negb (tx_ready d) then mret false
  else
    do_assert (wrap64 (buffer - KERNEL_START) <? Z.shiftl 1 32) "invalid tx buffer set, must be < 4G";;
    let i := tx_buffer_index d in
    let slot := nth (Z.to_nat i) (tx_buffer d) 0 in
    let size := Z.of_nat (length frame) in
    let m := write_bytes slot frame (mem d) in
    let pad := 8 * i + 8 * size in
    if (size <? 64 - 4) && (pad <? tx_members_size) then fault
    else
      let m := if size <? 64 - 4 then memset (wrap64 (tx_member d + pad)) 0 (64 - 4 - size) m else m in
      let size := if size <? 64 - 4 then 64 - 4 else size in
      let crc32 := wrap32 (crc32iso_hdlc 0 slot size m) in
      let m := write_bytes (wrap64 (slot + size)) (le_bytes 4 crc32) m in
      let size := size + 4 in
      let status := nth (Z.to_nat i) (tx_status d) 0 in
      let status := Z.lor (Z.land status (wrap32 (Z.lnot (Z.shiftl 1 13)))) (Z.land size 0xfff) in
      modify (fun d => with_status (<[Z.to_nat i := status]> (tx_status d)) (with_mem m d));;
      mret true.

Definition handle_tx : DM unit :=
  modify (fun d => with_tx_pos ((tx_buffer_index d + 1) mod 4) true d).

(** The thread [kthread_entry] between two points where it may wait: for a packet,
    for the card to be ready, for the card to have sent. *)
Inductive kthread := KIdle | KReady (packet : KEthernetPacket) | KSent.

Definition default_packet : KEthernetPacket := mkPacket 0 L2MTU (replicate 6 0) (replicate 6 0) 0 [].

Definition kthread_step (k : kthread) : DM kthread :=
  match k with
  | KIdle =>
      o ← lift_tx consume;
      match o with
      | None => mret KIdle
      | Some p => mret (KReady (default default_packet p))
      end
  | KReady packet =>
      d ← get;
      if tx_ready d then
        queued ← tx_async (wrap64 (theirs (tx d) + 16)) (frame_bytes packet);
        mret (if queued : bool then KSent else KIdle)
      else mret (KReady packet)
  | KSent =>
      d ← get;
      if tx_done_ d then modify (with_tx_pos (tx_buffer_index d) false);; mret KIdle
      else mret KSent
  end.

(** ** Reception *)

Abbreviation NM := (ST (ArpDriver Dev)).

Definition RxUpper (spins : nat) (dst src : EthernetAddress) (protocol : Z) (data : list Z) : NM unit :=
  if protocol =? EtherTypeARP then HandleRx dst src protocol data
  else if protocol =? EtherTypeIPv4 then _ ← ip_HandleRx spins dst src protocol data; mret tt
  else mret tt.

Definition consume_rx (packet_size : Z) : DM unit :=
  modify (fun d =>
    let off := wrap32 (Z.land (rx_offset d + packet_size + 4 + 3) (Z.lnot 3)) in
    with_rx_pos (off mod 8192) (wrap16 (off - 0x10)) d).

(** Sizes for which the loads or the subtractions leave the buffer are [Fault]: a
    size below 4 makes the length of the checksum wrap around, one below 18 the
    length of the payload. *)
Definition handle_rx (spins : nat) : NM unit :=
  d ← gets eth_driver_;
  let at_ := wrap64 (rx_buffer d + rx_offset d) in
  let status := le_value (read_bytes (mem d) at_ 4) in
  let packet_size := Z.shiftr status 16 in
  if packet_size =? 0 then mret tt
  else if (packet_size <? 4) || (rx_buffer_size <? rx_offset d + 4 + packet_size) then fault
  else
    let data := wrap64 (at_ + 4) in
    let calculated_crc32 := crc32iso_hdlc 0 data (packet_size - 4) (mem d) in
    let stored_crc32 := le_value (read_bytes (mem d) (data + (packet_size - 4)) 4) in
    if negb (stored_crc32 =? calculated_crc32) then lift_driver (consume_rx packet_size)
    else if packet_size <? 6 + 6 + 2 + 4 then fault
    else
      let upper := read_bytes (mem d) (data + (6 + 6 + 2)) (packet_size - 6 - 6 - 2 - 4) in
      let dst := read_bytes (mem d) data 6 in
      let src := read_bytes (mem d) (data + 6) 6 in
      let protocol := swap_endian16 (le_value (read_bytes (mem d) (data + 12) 2)) in
      if negb (IsBroadcast dst) && negb (eth_eq dst (mac d)) then lift_driver (consume_rx packet_size)
      else
        RxUpper spins dst src protocol upper;;
        lift_driver (consume_rx packet_size).

(** [irq()]: [isr k] is the value of the [k]-th read of the interrupt status. *)
Definition irq (spins : nat) (isr : nat -> Z) : NM bool :=
  if isr 0%nat =? 0 then mret false
  else
    (if negb (Z.land (isr 1%nat) RxOk =? 0) then handle_rx spins else mret tt);;
    (if negb (Z.land (isr 3%nat) TxOk =? 0) then lift_driver handle_tx else mret tt);;
    (if negb (Z.land (isr 5%nat) RxOverflow =? 0) then handle_rx spins else mret tt);;
    mret true.

End Rtl8139.
