(* ===== verification/Rtl8139Thms.v ===== *)
(** * The network card driver: frames out, frames in, and the transmit queue *)
From S2P Require Import Prelude CpuDefs LibString SSQueue PacketQueue KMap Crc Net NetThms Rtl8139.
Import LibString SSQueue PacketQueue Crc Net Rtl8139.

(** ** Bytes in memory *)

Lemma write_bytes_spec a bs m x : 0 <= a -> a + Z.of_nat (length bs) <= 2 ^ 64 ->
  write_bytes a bs m x = if decide (a <= x < a + Z.of_nat (length bs)) then nth (Z.to_nat (x - a)) bs 0 else m x.
Proof.
  intros Ha Hl. unfold write_bytes. rewrite (write_loop a (fun i => nth (Z.to_nat i) bs 0)); [done|].
  intros i m' Hi _. by rewrite wrap_small by (unfold uint; lia).
Qed.

Lemma read_bytes_lookup m a n bs : length bs = Z.to_nat n ->
  (forall i, 0 <= i < n -> m (wrap64 (a + i)) = nth (Z.to_nat i) bs 0) -> read_bytes m a n = bs.
Proof.
  intros Hl H. apply (list_eq_same_length _ _ (Z.to_nat n)); [done|by rewrite read_bytes_length|].
  intros i x y Hi Hx Hy. unfold read_bytes in Hx. apply list_lookup_fmap_Some in Hx as (j & -> & Hj).
  apply lookup_seq in Hj as [-> _]. rewrite H by lia. rewrite Nat.add_0_l, Nat2Z.id. by apply nth_lookup_Some.
Qed.
Lemma read_bytes_nth m a n i : 0 <= i < n -> nth (Z.to_nat i) (read_bytes m a n) 0 = m (wrap64 (a + i)).
Proof.
  intros Hi. apply nth_lookup_Some. unfold read_bytes. rewrite list_lookup_fmap, lookup_seq_lt by lia. cbn. do 3 f_equal. lia.
Qed.

(** Reading back what was written, and what lies elsewhere. *)
Lemma read_write_bytes a bs m : 0 <= a -> a + Z.of_nat (length bs) <= 2 ^ 64 ->
  read_bytes (write_bytes a bs m) a (Z.of_nat (length bs)) = bs.
Proof.
  intros Ha Hl. apply read_bytes_lookup; [lia|]. intros i Hi. rewrite wrap_small by (unfold uint; lia).
  rewrite write_bytes_spec by lia. rewrite decide_True by lia. do 2 f_equal. lia.
Qed.
Lemma read_write_other a bs m b n : 0 <= a -> a + Z.of_nat (length bs) <= 2 ^ 64 -> 0 <= b -> b + n <= 2 ^ 64 ->
  b + n <= a \/ a + Z.of_nat (length bs) <= b -> read_bytes (write_bytes a bs m) b n = read_bytes m b n.
Proof.
  intros Ha Hl Hb Hn Hd. apply read_bytes_ext. intros i Hi. rewrite wrap_small by (unfold uint; lia).
  rewrite write_bytes_spec by lia. by rewrite decide_False by lia.
Qed.
Lemma read_memset_other a v k m b n : 0 <= a -> a + k <= 2 ^ 64 -> 0 <= k -> 0 <= b -> b + n <= 2 ^ 64 ->
  b + n <= a \/ a + k <= b -> read_bytes (memset a v k m) b n = read_bytes m b n.
Proof.
  intros Ha Hl Hk Hb Hn Hd. apply read_bytes_ext. intros i Hi. rewrite wrap_small by (unfold uint; lia).
  rewrite memset_spec by lia. by rewrite decide_False by lia.
Qed.

Lemma le_bytes_value bs : Forall is_byte bs -> le_bytes (length bs) (le_value bs) = bs.
Proof.
  induction 1 as [|b bs Hb _ IH]; [done|]. cbn [length le_bytes le_value]. unfold is_byte in Hb.
  replace (b + 256 * le_value bs) with (le_value bs * 256 + b) by lia. rewrite Z.add_comm, Z_mod_plus_full, Z.div_add by lia.
  rewrite Z.mod_small, Z.div_small, Z.add_0_l by lia. by rewrite IH.
Qed.
Lemma le_bytes_is_byte n v : Forall is_byte (le_bytes n v).
Proof. revert v. induction n as [|n IH]; intros v; [constructor|]. cbn. constructor; [|apply IH]. unfold is_byte. apply Z.mod_pos_bound. lia. Qed.

(** ** Transmission *)

(** The device after its constructor: four buffers in one block, apart from the
    device object. *)
Record tx_ok (raw : Z) (d : Dev) : Prop := {
  tk_raw : 0 < raw /\ raw + 65536 <= 2 ^ 64;
  tk_buf : tx_buffer d = (fun i => raw + 4096 * i) <$> [0; 1; 2; 3];
  tk_member : 0 <= tx_member d /\ tx_member d + 4096 <= 2 ^ 64 /\ (tx_member d + 4096 <= raw \/ raw + 65536 <= tx_member d);
  tk_index : 0 <= tx_buffer_index d < 4;
  tk_status : length (tx_status d) = 4%nat
}.

Lemma tx_slot raw d : tx_ok raw d -> nth (Z.to_nat (tx_buffer_index d)) (tx_buffer d) 0 = raw + 4096 * tx_buffer_index d.
Proof.
  intros [_ -> _ Hi _]. assert (tx_buffer_index d = 0 \/ tx_buffer_index d = 1 \/ tx_buffer_index d = 2 \/ tx_buffer_index d = 3) as [-> |[-> |[-> | ->]]] by lia; done.
Qed.

(** The bytes sent for a frame: short frames are extended to 60 bytes with what
    the buffer held. *)
Definition sent_body (d : Dev) (slot : Z) (frame : list Z) : list Z :=
  frame ++ read_bytes (mem d) (slot + Z.of_nat (length frame)) (Z.max 0 (60 - Z.of_nat (length frame))).

Lemma tx_async_ok raw d buffer frame : tx_ok raw d -> tx_ready d = true -> wrap64 (buffer - KERNEL_START) < 2 ^ 32 ->
  17 <= Z.of_nat (length frame) <= 1514 -> Forall is_byte frame -> (forall x, is_byte (mem d x)) ->
  let slot := raw + 4096 * tx_buffer_index d in let body := sent_body d slot frame in
  exists m st, tx_async buffer frame d = Ret (true, with_status (<[Z.to_nat (tx_buffer_index d) := st]> (tx_status d)) (with_mem m d)) /\
    Z.land st 0xfff = Z.land (Z.lor (nth (Z.to_nat (tx_buffer_index d)) (tx_status d) 0) (Z.of_nat (length body) + 4)) 0xfff /\
    Z.testbit st 13 = false /\
    read_bytes m slot (Z.of_nat (length body) + 4) = body ++ le_bytes 4 (crc32 body).
Proof.
  intros Hok Hrdy Hbuf Hlen Hf Hm slot body. pose proof (tx_slot raw d Hok) as Es. destruct Hok as [[Hr1 Hr2] _ (Hm1 & Hm2 & Hm3) Hi Hst].
  set (size := Z.of_nat (length frame)) in *. set (m1 := write_bytes slot frame (mem d)).
  set (m2 := if size <? 60 then memset (wrap64 (tx_member d + (8 * tx_buffer_index d + 8 * size))) 0 (60 - size) m1 else m1).
  set (size' := if size <? 60 then 60 else size). assert (0 < slot /\ slot + 4096 <= raw + 65536 /\ raw <= slot) as Hslot by (unfold slot; lia).
  assert (size' = Z.of_nat (length body)) as Elen.
  { unfold body, sent_body. rewrite length_app, read_bytes_length. fold size. unfold size'. destruct (Z.ltb_spec size 60); lia. }
  assert (read_bytes m2 slot size' = body) as Ebody.
  { transitivity (read_bytes m1 slot size').
    - unfold m2, size'. destruct (Z.ltb_spec size 60); [|done].
      rewrite (wrap_small 64) by (unfold uint; lia). apply read_memset_other; lia.
    - unfold body, sent_body. fold size. replace size' with (size + Z.max 0 (60 - size)) by (unfold size'; destruct (Z.ltb_spec size 60); lia).
      rewrite read_bytes_app by lia. unfold m1. rewrite read_write_bytes by lia. f_equal. apply read_write_other; lia. }
  assert (Forall is_byte body) as Hbody.
  { unfold body, sent_body. apply Forall_app. split; [done|]. by apply read_bytes_byte. }
  unfold tx_async. unfold mbind at 1, st_bind at 1, get. rewrite Hrdy. cbn [negb]. rewrite Es. fold slot. fold size.
  change (Z.shiftl 1 32) with (2 ^ 32). rewrite (proj2 (Z.ltb_lt (wrap64 (buffer - KERNEL_START)) _) Hbuf).
  change (64 - 4) with 60. assert ((size <? 60) && (8 * tx_buffer_index d + 8 * size <? tx_members_size) = false) as ->.
  { change tx_members_size with 136. destruct (Z.ltb_spec size 60), (Z.ltb_spec (8 * tx_buffer_index d + 8 * size) 136); try done. lia. }
  fold m1. fold m2. fold size'. rewrite crc32iso_hdlc_bytes by (unfold size'; destruct (Z.ltb_spec size 60); lia). rewrite Ebody.
  rewrite (wrap_small 32 (crc32 body)) by (by apply crc32_range). rewrite (wrap_small 64 (slot + size')) by (unfold uint, size'; destruct (Z.ltb_spec size 60); lia).
  eexists _, _. split; [reflexivity|]. rewrite Elen. split; [|split].
  - apply Z.bits_inj'. intros k Hk. rewrite !Z.land_spec, !Z.lor_spec, !Z.land_spec. change 0xfff with (Z.ones 12).
    destruct (Z.lt_ge_cases k 12); [|rewrite Z.ones_spec_high by lia; by rewrite !andb_false_r].
    rewrite Z.ones_spec_low by lia. rewrite !andb_true_r. f_equal.
    change (wrap32 (Z.lnot (Z.shiftl 1 13))) with 0xffffdfff.
    assert (Z.testbit 0xffffdfff k = true) as ->; [|by rewrite andb_true_r].
    assert (k = 0 \/ k = 1 \/ k = 2 \/ k = 3 \/ k = 4 \/ k = 5 \/ k = 6 \/ k = 7 \/ k = 8 \/ k = 9 \/ k = 10 \/ k = 11) as Hc by lia.
    by repeat destruct Hc as [-> |Hc]; subst.
  - rewrite Z.lor_spec, !Z.land_spec. change 0xfff with (Z.ones 12). rewrite Z.ones_spec_high by lia. rewrite andb_false_r.
    change (Z.testbit (wrap32 (Z.lnot (Z.shiftl 1 13))) 13) with false. by rewrite andb_false_r.
  - rewrite read_bytes_app by lia. assert (0 <= Z.of_nat (length body) <= 1514) as Hbl by (unfold size' in Elen; destruct (Z.ltb_spec size 60); lia).
    rewrite read_write_other by (rewrite ?le_bytes_length; lia). rewrite <- Elen at 1. rewrite Ebody. f_equal.
    pose proof (read_write_bytes (slot + Z.of_nat (length body)) (le_bytes 4 (crc32 body)) m2) as Hrw. rewrite le_bytes_length in Hrw. apply Hrw; lia.
Qed.

(** ** Reception *)

Record rx_ok (d : Dev) : Prop := {
  rk_buf : 0 < rx_buffer d /\ rx_buffer d + 65536 <= 2 ^ 64;
  rk_off : 0 <= rx_offset d < 8192;
  rk_mac : length (mac d) = 6%nat
}.

(** What the card stored at the read position: a header with the length in its
    upper half, then the [n] bytes [bs]. *)
Definition rx_holds (d : Dev) (bs : list Z) : Prop :=
  exists flags, uint 16 flags /\
    read_bytes (mem d) (rx_buffer d + rx_offset d) (4 + Z.of_nat (length bs)) =
      le_bytes 4 (flags + 2 ^ 16 * Z.of_nat (length bs)) ++ bs.

Lemma read_bytes_split m a n bs bs' : 0 <= n -> read_bytes m a n = bs ++ bs' ->
  read_bytes m a (Z.of_nat (length bs)) = bs /\ read_bytes m (a + Z.of_nat (length bs)) (Z.of_nat (length bs')) = bs'.
Proof.
  intros Hn E. pose proof (f_equal length E) as El. rewrite read_bytes_length, length_app in El.
  replace n with (Z.of_nat (length bs) + Z.of_nat (length bs')) in E by lia. rewrite read_bytes_app in E by lia.
  apply app_inj_1 in E; [done|]. rewrite read_bytes_length. lia.
Qed.

(** The position after a packet of [size] bytes: the next multiple of 4, in an 8 KiB ring. *)
Definition rx_next (off size : Z) : Z := (off + size + 4 + 3) / 4 * 4 mod 8192.

Lemma consume_rx_ok d size : 0 <= rx_offset d < 8192 -> 0 <= size < 2 ^ 16 ->
  consume_rx size d = Ret (tt, with_rx_pos (rx_next (rx_offset d) size) (wrap16 ((rx_offset d + size + 4 + 3) / 4 * 4 - 0x10)) d).
Proof.
  intros Ho Hs. unfold consume_rx, modify. do 2 f_equal.
  assert (Z.land (rx_offset d + size + 4 + 3) (Z.lnot 3) = (rx_offset d + size + 4 + 3) / 4 * 4) as ->.
  { change 3 with (Z.ones 2) at 2. rewrite <- Z.ldiff_land, Z.ldiff_ones_r by lia. rewrite Z.shiftl_mul_pow2, Z.shiftr_div_pow2 by lia. done. }
  rewrite (wrap_small 32) by (unfold uint; dlia). done.
Qed.

Lemma eth_eq_decide a b : length a = length b -> eth_eq a b = bool_decide (a = b).
Proof.
  intros Hl. unfold eth_eq. case_bool_decide as E; [subst; by rewrite bytes_cmp_refl|]. apply Z.eqb_neq. intros H. apply E. by apply bytes_cmp_eq.
Qed.

(** The bytes of a frame in the buffer, as [handle_rx] reads them. *)
Lemma rx_reads d bs : rx_ok d -> rx_holds d bs -> 1 <= Z.of_nat (length bs) < 2 ^ 15 ->
  let at_ := wrap64 (rx_buffer d + rx_offset d) in
  Z.shiftr (le_value (read_bytes (mem d) at_ 4)) 16 = Z.of_nat (length bs) /\
  wrap64 (at_ + 4) = rx_buffer d + rx_offset d + 4 /\
  read_bytes (mem d) (rx_buffer d + rx_offset d + 4) (Z.of_nat (length bs)) = bs.
Proof.
  intros [[Hb1 Hb2] Ho _] (flags & Hf & E) Hlen at_. unfold at_. rewrite (wrap_small 64 (_ + _)) by (unfold uint; lia).
  apply read_bytes_split in E as [E1 E2]; [|lia]. rewrite le_bytes_length in *. change (Z.of_nat 4) with 4 in *. split; [|split; [|done]].
  - rewrite E1. unfold uint in Hf. rewrite le_value_bytes by (change (8 * Z.of_nat 4) with 32; lia). rewrite Z.shiftr_div_pow2 by lia. dlia.
  - rewrite wrap_small by (unfold uint; lia). done.
Qed.

Lemma handle_rx_frame spins (s : ArpDriver Dev) dst src pr payload :
  let d := eth_driver_ s in let f := dst ++ src ++ le_bytes 2 pr ++ payload in
  rx_ok d -> rx_holds d (f ++ le_bytes 4 (crc32 f)) -> Forall is_byte f ->
  length dst = 6%nat -> length src = 6%nat -> uint 16 pr -> Z.of_nat (length payload) <= 1500 ->
  handle_rx spins s =
    ((if IsBroadcast dst || bool_decide (dst = mac d) then RxUpper spins dst src (swap_endian16 pr) payload else mret tt);;
     lift_driver (consume_rx (Z.of_nat (length payload) + 18))) s.
Proof.
  intros d f Hrx Hh Hf Hd Hs Hpr Hp.
  assert (length f = (14 + length payload)%nat) as Lf by (unfold f; rewrite !length_app, le_bytes_length; lia).
  assert (Z.of_nat (length (f ++ le_bytes 4 (crc32 f))) = Z.of_nat (length payload) + 18) as Lb by (rewrite length_app, le_bytes_length; lia).
  destruct (rx_reads d _ Hrx Hh) as (E1 & E2 & E3); [lia|]. rewrite Lb in *. destruct Hrx as [[Hb1 Hb2] Ho Hmac].
  unfold handle_rx. unfold mbind at 1, st_bind at 1, gets at 1. fold d. rewrite E1, E2.
  rewrite (proj2 (Z.eqb_neq _ _)) by lia.
  assert ((Z.of_nat (length payload) + 18 <? 4) || (rx_buffer_size <? rx_offset d + 4 + (Z.of_nat (length payload) + 18)) = false) as ->.
  { change rx_buffer_size with 65536. apply orb_false_iff. split; [apply Z.ltb_ge|apply Z.ltb_ge]; lia. }
  set (a := rx_buffer d + rx_offset d + 4) in *.
  apply read_bytes_split in E3 as [Ef Ec]; [|lia]. rewrite le_bytes_length in Ec.
  replace (Z.of_nat (length payload) + 18 - 4) with (Z.of_nat (length f)) by lia.
  rewrite crc32iso_hdlc_bytes by (unfold a; lia). rewrite Ef. change (Z.of_nat 4) with 4 in Ec. rewrite Ec.
  rewrite le_value_bytes by (apply crc32_range; done). rewrite Z.eqb_refl. cbn [negb].
  rewrite (proj2 (Z.ltb_ge _ (6 + 6 + 2 + 4))) by lia.
  unfold f in Ef. apply read_bytes_split in Ef as [Ed Er]; [|lia]. rewrite Hd in *.
  apply read_bytes_split in Er as [Esr Er]; [|lia]. rewrite Hs in *. apply read_bytes_split in Er as [Epr Ep]; [|lia]. rewrite le_bytes_length in *.
  change (Z.of_nat 6) with 6 in *. change (Z.of_nat 2) with 2 in *. rewrite Ed, Esr.
  replace (a + 12) with (a + 6 + 6) by lia. rewrite Epr, le_value_bytes by exact Hpr.
  replace (a + (6 + 6 + 2)) with (a + 6 + 6 + 2) by lia. replace (Z.of_nat (length payload) + 18 - 6 - 6 - 2 - 4) with (Z.of_nat (length payload)) by lia.
  rewrite Ep. rewrite eth_eq_decide by congruence. rewrite <- negb_orb.
  by destruct (IsBroadcast dst || bool_decide (dst = mac d)).
Qed.

(** Nothing above the driver touches the device. *)
Lemma RxUpper_device spins dst src pr data d :
  preserves (fun s : ArpDriver Dev => eth_driver_ s = d) (RxUpper spins dst src pr data).
Proof.
  assert (forall A (c : ST (pq ArpPacket) A), preserves (fun s : ArpDriver Dev => eth_driver_ s = d) (lift_rx c)) as Hrx.
  { intros A c s a s' E <-. unfold lift_rx in E. destruct (c (rx s)) as [[x q]| | | |]; try done. by injection E as <- <-. }
  assert (forall n, preserves (fun s : ArpDriver Dev => eth_driver_ s = d) (lock_loop n)) as Hl.
  { induction n as [|n IH]; cbn; [preserve|]. apply preserves_bind; [by intros s b s' [= _ <-]|]. intros []; [done|preserve]. }
  assert (forall off len, preserves (fun s : ArpDriver Dev => eth_driver_ s = d) (member off len data)) as Hm.
  { intros. unfold member. preserve. }
  unfold RxUpper, HandleRx, queue_up_mapping, ip_HandleRx, find_ip, lock, unlock. preserve; try apply Hm; try apply Hrx; try apply Hl.
  by intros s b s' [= _ <-].
Qed.

(** C20: a frame with a correct check sequence at the read position is handed to the
    layer above exactly when it is addressed to this host or to everyone, with
    its addresses, protocol and payload; in every case the read position moves to
    the next frame, aligned to four bytes in the 8 KiB ring, and the card is told
    the position less 16. *)
Theorem rx_frame_delivered spins (s : ArpDriver Dev) dst src pr payload :
  let d := eth_driver_ s in let f := dst ++ src ++ le_bytes 2 pr ++ payload in
  rx_ok d -> rx_holds d (f ++ le_bytes 4 (crc32 f)) -> Forall is_byte f ->
  length dst = 6%nat -> length src = 6%nat -> uint 16 pr -> Z.of_nat (length payload) <= 1500 ->
  let size := Z.of_nat (length payload) + 18 in
  let d' := with_rx_pos (rx_next (rx_offset d) size) (wrap16 ((rx_offset d + size + 4 + 3) / 4 * 4 - 0x10)) d in
  if IsBroadcast dst || bool_decide (dst = mac d) then
    forall s1, RxUpper spins dst src (swap_endian16 pr) payload s = Ret (tt, s1) -> handle_rx spins s = Ret (tt, with_driver d' s1)
  else handle_rx spins s = Ret (tt, with_driver d' s).
Proof.
  intros d f Hrx Hh Hf Hd Hs Hpr Hp size d'. pose proof (handle_rx_frame spins s dst src pr payload Hrx Hh Hf Hd Hs Hpr Hp) as E.
  fold d in E. assert (consume_rx (Z.of_nat (length payload) + 18) d = Ret (tt, d')) as Ec by (apply consume_rx_ok; [apply Hrx|lia]).
  destruct (IsBroadcast dst || bool_decide (dst = mac d)).
  - intros s1 Hu. rewrite E. erewrite bind_ret by exact Hu. unfold lift_driver.
    rewrite (RxUpper_device _ _ _ _ _ d _ _ _ Hu eq_refl). by rewrite Ec.
  - rewrite E, bind_mret_l. unfold lift_driver. fold d. by rewrite Ec.
Qed.

(** C21: a frame that was damaged within four consecutive bytes after its check
    sequence was computed is dropped: the layers above see nothing, and the read
    position moves on. *)
Theorem rx_damaged_dropped spins (s : ArpDriver Dev) p w w' q :
  let d := eth_driver_ s in let sent := p ++ w ++ q in let got := p ++ w' ++ q in
  rx_ok d -> rx_holds d (got ++ le_bytes 4 (crc32 sent)) -> Forall is_byte sent -> Forall is_byte w' ->
  length w = length w' -> (length w <= 4)%nat -> w <> w' -> Z.of_nat (length sent) <= 1514 ->
  let size := Z.of_nat (length sent) + 4 in
  handle_rx spins s =
    Ret (tt, with_driver (with_rx_pos (rx_next (rx_offset d) size) (wrap16 ((rx_offset d + size + 4 + 3) / 4 * 4 - 0x10)) d) s).
Proof.
  intros d sent got Hrx Hh Hb Hb' Hl H4 Hne Hlen size.
  assert (length got = length sent) as Lg by (unfold got, sent; rewrite !length_app; lia).
  assert (Z.of_nat (length (got ++ le_bytes 4 (crc32 sent))) = size) as Lb by (rewrite length_app, le_bytes_length, Lg; unfold size; lia).
  destruct (rx_reads d _ Hrx Hh) as (E1 & E2 & E3); [unfold size in Lb; lia|]. rewrite Lb in *. destruct Hrx as [[Hb1 Hb2] Ho Hmac].
  unfold handle_rx. unfold mbind at 1, st_bind at 1, gets at 1. fold d. rewrite E1, E2.
  rewrite (proj2 (Z.eqb_neq _ _)) by (unfold size; lia).
  assert ((size <? 4) || (rx_buffer_size <? rx_offset d + 4 + size) = false) as ->.
  { change rx_buffer_size with 65536. apply orb_false_iff. split; apply Z.ltb_ge; unfold size; lia. }
  apply read_bytes_split in E3 as [Ef Ec]; [|unfold size; lia]. rewrite le_bytes_length in Ec. change (Z.of_nat 4) with 4 in Ec.
  replace (size - 4) with (Z.of_nat (length got)) by (unfold size; lia).
  rewrite crc32iso_hdlc_bytes by lia. rewrite Ef, Ec, le_value_bytes by (apply crc32_range; done).
  rewrite (proj2 (Z.eqb_neq _ _)) by (by apply crc32_burst). cbn [negb]. unfold lift_driver. fold d.
  rewrite consume_rx_ok; [done|done|unfold size; lia].
Qed.

(** ** From one host to another *)

Lemma rtl_TxEnqueue_ok d dst proto payload : pq_wf (tx d) -> qsize (ring (tx d)) = TxQueueSize -> Z.of_nat (length payload) <= L2MTU ->
  let p := mkPacket (Z.of_nat (length payload)) L2MTU dst (mac d) (swap_endian16 proto) payload in
  exists b q, rtl_TxEnqueue dst proto payload d = Ret (b, with_tx q d) /\ pq_wf q /\ qsize (ring q) = TxQueueSize /\
    if decide (Z.of_nat (length (queued (tx d))) < 31) then b = true /\ queued q = queued (tx d) ++ [Some p] else b = false /\ queued q = queued (tx d).
Proof.
  intros Hw Hq Hl p. destruct (produce_spec (tx d) p Hw) as (b & q & E & W & Q & _ & _ & R).
  exists b, q. unfold rtl_TxEnqueue. rewrite (proj2 (Z.ltb_ge _ _)) by done. unfold mbind, st_bind, get, lift_tx. fold p. rewrite E.
  split; [done|]. split; [done|]. split; [congruence|]. rewrite Hq in R. change TxQueueSize with 32 in R.
  case_decide; case_decide; done || lia.
Qed.

Lemma swap16_range v : uint 16 v -> uint 16 (swap_endian16 v).
Proof. intros Hv. rewrite swap_endian16_eq by done. unfold uint in *. change (2 ^ 16) with 65536 in *. dlia. Qed.
Lemma swap16_involutive v : uint 16 v -> swap_endian16 (swap_endian16 v) = v.
Proof.
  intros Hv. rewrite (swap_endian16_eq (swap_endian16 v)) by (by apply swap16_range). rewrite swap_endian16_eq by done.
  unfold uint in Hv. change (2 ^ 16) with 65536 in Hv. dlia.
Qed.

(** A device that is ready to send: nothing queued, packets in the lower 4 GiB.
    The descriptor may have been used before. *)
Record can_send (raw : Z) (d : Dev) : Prop := {
  cs_tx : tx_ok raw d;
  cs_ready : tx_ready d = true;
  cs_wf : pq_wf (tx d); cs_size : qsize (ring (tx d)) = TxQueueSize; cs_empty : queued (tx d) = [];
  cs_low : Forall (fun p => wrap64 (p + 16 - KERNEL_START) < 2 ^ 32) (all_pointers (tx d));
  cs_mac : length (mac d) = 6%nat /\ Forall is_byte (mac d);
  cs_mem : forall x, is_byte (mem d x)
}.

Lemma size_bits st n : Z.land st 0xfff = 0 -> 0 <= n < 4096 -> Z.land (Z.lor st n) 0xfff = n.
Proof.
  intros Hs Hn. rewrite Z.land_lor_distr_l, Hs. change 0xfff with (Z.ones 12). rewrite Z.land_ones by lia. apply Z.mod_small. lia.
Qed.

(** Queueing a packet and two steps of the thread put it on the wire. *)
Lemma send_ok raw d dst proto payload : can_send raw d -> length dst = 6%nat -> Forall is_byte dst -> uint 16 proto ->
  3 <= Z.of_nat (length payload) <= 1500 -> Forall is_byte payload ->
  let slot := raw + 4096 * tx_buffer_index d in
  let p := mkPacket (Z.of_nat (length payload)) L2MTU dst (mac d) (swap_endian16 proto) payload in
  let body := sent_body d slot (frame_bytes p) in
  exists d1 d2 d3, rtl_TxEnqueue dst proto payload d = Ret (true, d1) /\ kthread_step KIdle d1 = Ret (KReady p, d2) /\
    kthread_step (KReady p) d2 = Ret (KSent, d3) /\ queued (tx d3) = [] /\
    Z.land (nth (Z.to_nat (tx_buffer_index d)) (tx_status d3) 0) 0xfff =
      Z.land (Z.lor (nth (Z.to_nat (tx_buffer_index d)) (tx_status d) 0) (Z.of_nat (length body) + 4)) 0xfff /\
    Z.of_nat (length body) = Z.max 60 (14 + Z.of_nat (length payload)) /\
    read_bytes (mem d3) slot (Z.of_nat (length body) + 4) = body ++ le_bytes 4 (crc32 body).
Proof.
  intros [Htx Hrdy Hw Hq He Hlow [Hm1 Hm2] Hmem] Hd Hdb Hpr Hlen Hpb slot p body.
  destruct (rtl_TxEnqueue_ok d dst proto payload Hw Hq) as (b & q & E1 & W1 & Q1 & R1); [unfold L2MTU; lia|]. fold p in R1.
  rewrite He, decide_True in R1 by done. destruct R1 as [-> R1]. cbn in R1.
  destruct (consume_spec q W1) as (o & q2 & E2 & W2 & _ & _ & _ & P2 & R2). rewrite R1 in R2. destruct R2 as (-> & R2 & _).
  assert (all_pointers q ≡ₚ all_pointers (tx d)) as P1.
  { destruct (produce_spec (tx d) p Hw) as (b' & q' & E' & _ & _ & _ & P' & _). unfold rtl_TxEnqueue in E1.
    rewrite (proj2 (Z.ltb_ge _ _)) in E1 by (unfold L2MTU; lia). unfold mbind, st_bind, get, lift_tx in E1. fold p in E1. rewrite E' in E1.
    injection E1 as _ E1. by rewrite <- E1. }
  assert (frame_bytes p = dst ++ mac d ++ le_bytes 2 (swap_endian16 proto) ++ payload) as Ef by (unfold frame_bytes; cbn; rewrite Nat2Z.id, take_ge; done).
  assert (Z.of_nat (length (frame_bytes p)) = 14 + Z.of_nat (length payload)) as Lf by (rewrite Ef, !length_app, le_bytes_length; lia).
  set (d2 := with_tx q2 (with_tx q d)).
  destruct (tx_async_ok raw d2 (wrap64 (theirs q2 + 16)) (frame_bytes p)) as (m & st & E3 & S3 & _ & B3).
  - destruct Htx. by split.
  - exact Hrdy.
  - rewrite wrap_sub_l. rewrite <- P1, <- P2 in Hlow. rewrite Forall_forall in Hlow. apply Hlow. unfold all_pointers. set_solver.
  - lia.
  - rewrite Ef, !Forall_app. split_and!; try done. apply le_bytes_is_byte.
  - exact Hmem.
  - exists (with_tx q d), d2, (with_status (<[Z.to_nat (tx_buffer_index d) := st]> (tx_status d)) (with_mem m d2)).
    split; [done|]. split; [|split].
    + unfold kthread_step, mbind, st_bind, lift_tx. cbn [tx with_tx]. by rewrite E2.
    + unfold kthread_step, mbind at 1, st_bind at 1, get. change (tx_ready d2) with (tx_ready d). rewrite Hrdy. erewrite bind_ret by exact E3. done.
    + split; [exact R2|]. change (tx_buffer_index d2) with (tx_buffer_index d) in *. change (tx_status d2) with (tx_status d) in *.
      assert (Z.of_nat (length body) = Z.max 60 (14 + Z.of_nat (length payload))) as Lb by (unfold body, sent_body; rewrite length_app, read_bytes_length; lia).
      split; [|split; [exact Lb|exact B3]]. cbn [tx_status with_status]. destruct Htx as [_ _ _ Hi Hs]. rewrite nth_lookup, list_lookup_insert_eq by lia. cbn [from_option id].
      rewrite S3. done.
Qed.

(** C18: what one host sends another receives.  A payload of 3 to 1500 bytes queued
    on an idle device is taken by its thread and written to the transmit buffer
    with header, padding and check sequence.  The size the card is told is that of
    the frame or-ed with the size left in the descriptor.  Where the descriptor's
    size bits are clear, as in one that was not used before, a host whose card
    stores the bytes sent unchanged hands the payload to its upper layer with the
    sender's address and the protocol.  A payload below 46 bytes is followed by
    what the transmit buffer held before. *)
Theorem tx_rx_roundtrip spins raw d dst proto payload :
  can_send raw d -> length dst = 6%nat -> Forall is_byte dst -> uint 16 proto ->
  3 <= Z.of_nat (length payload) <= 1500 -> Forall is_byte payload ->
  let slot := raw + 4096 * tx_buffer_index d in
  let stale := read_bytes (mem d) (slot + 14 + Z.of_nat (length payload)) (Z.max 0 (46 - Z.of_nat (length payload))) in
  exists p d1 d2 d3, rtl_TxEnqueue dst proto payload d = Ret (true, d1) /\ kthread_step KIdle d1 = Ret (KReady p, d2) /\
    kthread_step (KReady p) d2 = Ret (KSent, d3) /\
    let old := nth (Z.to_nat (tx_buffer_index d)) (tx_status d) 0 in
    let told := Z.land (nth (Z.to_nat (tx_buffer_index d)) (tx_status d3) 0) 0xfff in
    told = Z.land (Z.lor old (Z.max 60 (14 + Z.of_nat (length payload)) + 4)) 0xfff /\
    (Z.land old 0xfff = 0 ->
    let out := read_bytes (mem d3) slot told in
    forall s : ArpDriver Dev, rx_ok (eth_driver_ s) -> mac (eth_driver_ s) = dst -> rx_holds (eth_driver_ s) out ->
    forall s1, RxUpper spins dst (mac d) proto (payload ++ stale) s = Ret (tt, s1) ->
    exists d', handle_rx spins s = Ret (tt, with_driver d' s1)).
Proof.
  intros Hcs Hd Hdb Hpr Hlen Hpb slot stale.
  destruct (send_ok raw d dst proto payload Hcs Hd Hdb Hpr Hlen Hpb) as (d1 & d2 & d3 & E1 & E2 & E3 & _ & S & L & B).
  set (p := mkPacket _ _ _ _ _ _) in *. exists p, d1, d2, d3. split; [done|]. split; [done|]. split; [done|].
  cbv zeta. rewrite S. fold slot in L, B |- *. split; [by rewrite L|]. intros Hclr. rewrite size_bits by (done || lia). rewrite B. intros s Hrx Hmac Hh s1 Hu.
  assert (sent_body d slot (frame_bytes p) = dst ++ mac d ++ le_bytes 2 (swap_endian16 proto) ++ (payload ++ stale)) as Eb.
  { destruct Hcs as [_ _ _ _ _ _ [Hm _] _]. unfold sent_body, frame_bytes, p. cbn [pk_dst pk_src pk_protocol pk_data pk_size].
    rewrite Nat2Z.id, take_ge by done. rewrite !length_app, le_bytes_length, Hd, Hm. rewrite <- !app_assoc. do 4 f_equal. unfold stale.
    f_equal; lia. }
  rewrite Eb in Hh. erewrite handle_rx_frame; [|exact Hrx|exact Hh|..].
  - rewrite Hmac, bool_decide_true, orb_true_r by done. rewrite swap16_involutive by done. erewrite bind_ret by exact Hu.
    assert (eth_driver_ s1 = eth_driver_ s) as Ed by (exact (RxUpper_device _ _ _ _ _ _ _ _ _ Hu eq_refl)).
    unfold lift_driver. rewrite Ed. rewrite consume_rx_ok; [by eexists|apply Hrx|].
    rewrite length_app. unfold stale. rewrite read_bytes_length. lia.
  - rewrite !Forall_app. destruct Hcs as [_ _ _ _ _ _ [_ Hmb] Hmem]. split_and!; try done; [apply le_bytes_is_byte|by apply read_bytes_byte].
  - done.
  - apply Hcs.
  - by apply swap16_range.
  - rewrite length_app. unfold stale. rewrite read_bytes_length. lia.
Qed.

(** ** The transmit queue under any use *)

Inductive tx_event := Enqueue (dst : EthernetAddress) (proto : Z) (payload : list Z) | Take.

(** Packets accepted by [TxEnqueue] and packets the thread took, in order. *)
Fixpoint tx_run (evs : list tx_event) (d : Dev) : outcome (list KEthernetPacket * list KEthernetPacket * Dev) :=
  match evs with
  | [] => Ret ([], [], d)
  | Enqueue dst proto payload :: evs =>
      match rtl_TxEnqueue dst proto payload d with
      | Ret (b, d') =>
          match tx_run evs d' with
          | Ret (acc, taken, d'') =>
              let p := mkPacket (Z.of_nat (length payload)) L2MTU dst (mac d) (swap_endian16 proto) payload in
              Ret (if b : bool then p :: acc else acc, taken, d'')
          | o => o
          end
      | Panic m => Panic m | Halt => Halt | Fault => Fault | OutOfFuel => OutOfFuel
      end
  | Take :: evs =>
      match kthread_step KIdle d with
      | Ret (k, d') =>
          match tx_run evs d' with
          | Ret (acc, taken, d'') => Ret (acc, match k with KReady p => p :: taken | _ => taken end, d'')
          | o => o
          end
      | Panic m => Panic m | Halt => Halt | Fault => Fault | OutOfFuel => OutOfFuel
      end
  end.

Definition event_ok (e : tx_event) : Prop :=
  match e with Enqueue _ _ payload => Z.of_nat (length payload) <= L2MTU | Take => True end.

Lemma tx_run_queued evs d : Forall event_ok evs -> pq_wf (tx d) -> qsize (ring (tx d)) = TxQueueSize -> Forall is_Some (queued (tx d)) ->
  exists acc taken d', tx_run evs d = Ret (acc, taken, d') /\ pq_wf (tx d') /\ queued (tx d) ++ (Some <$> acc) = (Some <$> taken) ++ queued (tx d').
Proof.
  intros Hev. revert d. induction Hev as [|e evs He _ IH]; intros d Hw Hq Hs.
  { exists [], [], d. split; [done|]. split; [done|]. by rewrite app_nil_r. }
  destruct e as [dst proto payload|]; cbn [tx_run].
  - destruct (rtl_TxEnqueue_ok d dst proto payload Hw Hq He) as (b & q & E & W & Q & R). rewrite E.
    set (p := mkPacket _ _ _ _ _ _) in *. destruct (IH (with_tx q d) W Q) as (acc & taken & d' & E' & W' & F).
    { cbn [tx with_tx]. case_decide; destruct R as [_ ->]; [|done]. apply Forall_app. split; [done|]. repeat constructor. by eexists. }
    cbn [tx with_tx] in F. rewrite E'. exists (if b then p :: acc else acc), taken, d'. split; [done|]. split; [done|].
    case_decide; destruct R as [-> R]; rewrite R in F; [|done]. rewrite <- F, <- app_assoc. done.
  - destruct (consume_spec (tx d) Hw) as (o & q & E & W & Q & _ & _ & _ & R). unfold kthread_step, mbind, st_bind, lift_tx. rewrite E.
    destruct (queued (tx d)) as [|x l] eqn:Eq.
    + destruct R as [-> ->]. cbn. destruct (IH (with_tx (tx d) d)) as (acc & taken & d' & E' & W' & F); [done|done|cbn; by rewrite Eq|].
      rewrite E'. cbn [tx with_tx] in F. rewrite Eq in F. by exists acc, taken, d'.
    + destruct R as (-> & R & _). inversion_clear Hs as [|? ? [y ->] Hl]. cbn.
      destruct (IH (with_tx q d)) as (acc & taken & d' & E' & W' & F); [done|cbn; congruence|cbn; by rewrite R|].
      rewrite E'. cbn [tx with_tx] in F. rewrite R in F. exists acc, (y :: taken), d'. split; [done|]. split; [done|]. cbn. by rewrite F.
Qed.

(** C19: under every sequence of packets queued and packets taken by the thread, the
    packets taken are those accepted, in order and with the contents they were
    queued with, up to the ones that still wait: a packet that waits is never
    overwritten although packets are reused. *)
Theorem tx_queue_fifo evs d :
  Forall event_ok evs -> pq_wf (tx d) -> qsize (ring (tx d)) = TxQueueSize -> queued (tx d) = [] ->
  exists acc taken d', tx_run evs d = Ret (acc, taken, d') /\ (Some <$> acc) = (Some <$> taken) ++ queued (tx d').
Proof.
  intros He Hw Hq H0. destruct (tx_run_queued evs d He Hw Hq) as (acc & taken & d' & E & _ & F); [by rewrite H0|].
  rewrite H0 in F. by exists acc, taken, d'.
Qed.

(** A frame of at most 16 bytes destroys the device's own members: the padding
    is written eight times as far from the array of buffer pointers as meant. *)
Theorem tx_short_frame_fault d buffer frame :
  0 <= tx_buffer_index d -> tx_ready d = true -> wrap64 (buffer - KERNEL_START) < 2 ^ 32 ->
  tx_buffer_index d + Z.of_nat (length frame) < 17 ->
  tx_async buffer frame d = Fault.
Proof.
  intros Hi Hr Hb Hl. unfold tx_async, mbind at 1, st_bind at 1, get. rewrite Hr. cbn [negb]. change (Z.shiftl 1 32) with (2 ^ 32).
  rewrite (proj2 (Z.ltb_lt (wrap64 (buffer - KERNEL_START)) _) Hb). change (64 - 4) with 60. change tx_members_size with 136.
  assert ((Z.of_nat (length frame) <? 60) && (8 * tx_buffer_index d + 8 * Z.of_nat (length frame) <? 136) = true) as ->.
  { apply andb_true_iff. split; apply Z.ltb_lt; lia. }
  done.
Qed.

(** ** Concrete runs *)

Definition my_mac : EthernetAddress := [0x52; 0x54; 0; 0x12; 0x34; 0x56].
Definition peer_mac : EthernetAddress := [2; 0; 0; 0; 0; 9].

(** A receive buffer that holds [bs] behind a header, at the start of the ring. *)
Definition rx_memory (bs : list Z) : memory := fun a =>
  nth (Z.to_nat (a - 0xffff800004000000)) (le_bytes 4 (1 + 2 ^ 16 * Z.of_nat (length bs)) ++ bs) 0.

Definition ex_dev (m : memory) (status : list Z) : Dev :=
  mkDev my_mac 0xffff800004000000 0 ((fun i => 0xffff800004010000 + 4096 * i) <$> [0; 1; 2; 3]) 0xffff800004020000 0 false status 0 m
    (mkPQ ∅ (new ((fun i => 0xffff800004100000 + 65536 * i) <$> seqZ 0 32)) 0xffff800004050000 0xffff800004060000).
Definition ex_net (m : memory) : ArpDriver Dev := ArpDriver_new (ex_dev m [0x2000; 0x2000; 0x2000; 0x2000]) [0x10000; 0x20000; 0x30000; 0x40000] 0x50000 0x60000.

Lemma ex_rx_ok m : rx_ok (eth_driver_ (ex_net m)).
Proof. split; cbn; done || lia. Qed.
Lemma ex_rx_holds bs : (4 + Z.of_nat (length bs) < 2 ^ 15) -> rx_holds (eth_driver_ (ex_net (rx_memory bs))) bs.
Proof.
  intros Hl. exists 1. split; [unfold uint; lia|]. apply read_bytes_lookup; [rewrite length_app, le_bytes_length; lia|].
  intros i Hi. cbn [eth_driver_ ex_net ArpDriver_new ex_dev rx_buffer rx_offset mem]. unfold rx_memory. rewrite wrap_small by (unfold uint; lia). f_equal. lia.
Qed.
Lemma bytes_check bs : forallb (fun b => (0 <=? b) && (b <? 256)) bs = true -> Forall is_byte bs.
Proof. intros H. apply Forall_forall. intros b Hb. rewrite forallb_forall in H. apply list_elem_of_In in Hb. apply H in Hb. unfold is_byte. lia. Qed.

Definition ex_payload : list Z := replicate 50 7.
Definition ex_frame : list Z := my_mac ++ peer_mac ++ le_bytes 2 0xdd86 ++ ex_payload.

Lemma rx_frame_delivered_witness :
  let s := ex_net (rx_memory (ex_frame ++ le_bytes 4 (crc32 ex_frame))) in
  handle_rx 1 s = Ret (tt, with_driver (with_rx_pos 72 56 (eth_driver_ s)) s).
Proof.
  intros s. refine (rx_frame_delivered 1 s my_mac peer_mac 0xdd86 ex_payload (ex_rx_ok _) _ _ _ _ _ _ s _).
  - apply ex_rx_holds. vm_compute. done.
  - apply bytes_check. reflexivity.
  - reflexivity.
  - reflexivity.
  - unfold uint. lia.
  - vm_compute. discriminate.
  - reflexivity.
Defined.

Lemma rx_damaged_dropped_witness :
  let got := my_mac ++ [3; 0; 0] ++ (drop 9 ex_frame) in
  let s := ex_net (rx_memory (got ++ le_bytes 4 (crc32 (my_mac ++ [2; 0; 0] ++ drop 9 ex_frame)))) in
  handle_rx 1 s = Ret (tt, with_driver (with_rx_pos 72 56 (eth_driver_ s)) s).
Proof.
  intros got s. apply (rx_damaged_dropped 1 s my_mac [2; 0; 0] [3; 0; 0] (drop 9 ex_frame) (ex_rx_ok _)).
  - apply ex_rx_holds. vm_compute. done.
  - apply bytes_check. reflexivity.
  - apply bytes_check. reflexivity.
  - reflexivity.
  - cbn. lia.
  - discriminate.
  - vm_compute. discriminate.
Defined.

Lemma ex_pq_wf m st : pq_wf (tx (ex_dev m st)).
Proof. split; [repeat split; vm_compute; done || discriminate|]. apply (bool_decide_unpack _). by vm_compute. Qed.
Lemma ex_can_send : can_send 0xffff800004010000 (ex_dev (fun _ => 0) [0x2000; 0x2000; 0x2000; 0x2000]).
Proof.
  split; try done.
  - split; cbn; done || lia.
  - apply ex_pq_wf.
  - apply Forall_forall. intros p Hp. assert (forallb (fun p => wrap64 (p + 16 - KERNEL_START) <? 2 ^ 32) (all_pointers (tx (ex_dev (fun _ => 0) [0x2000; 0x2000; 0x2000; 0x2000]))) = true) as H by reflexivity.
    rewrite forallb_forall in H. apply Z.ltb_lt. apply H. by apply list_elem_of_In.
  - split; [done|]. apply bytes_check. reflexivity.
Qed.

Lemma tx_rx_roundtrip_witness :
  let d := ex_dev (fun _ => 0) [0x2000; 0x2000; 0x2000; 0x2000] in
  exists p d1 d2 d3, rtl_TxEnqueue peer_mac 0x0800 [1; 2; 3] d = Ret (true, d1) /\ kthread_step KIdle d1 = Ret (KReady p, d2) /\
    kthread_step (KReady p) d2 = Ret (KSent, d3) /\
    let told := Z.land (nth 0 (tx_status d3) 0) 0xfff in told = 64 /\
    let out := read_bytes (mem d3) 0xffff800004010000 told in
    forall s : ArpDriver Dev, rx_ok (eth_driver_ s) -> mac (eth_driver_ s) = peer_mac -> rx_holds (eth_driver_ s) out ->
    forall s1, RxUpper 1 peer_mac my_mac 0x0800 ([1; 2; 3] ++ read_bytes (fun _ => 0) (0xffff800004010000 + 14 + 3) 43) s = Ret (tt, s1) ->
    exists d', handle_rx 1 s = Ret (tt, with_driver d' s1).
Proof.
  intros d. destruct (tx_rx_roundtrip 1 0xffff800004010000 d peer_mac 0x0800 [1; 2; 3] ex_can_send) as (p & d1 & d2 & d3 & E1 & E2 & E3 & E4 & E5).
  - reflexivity.
  - apply bytes_check. reflexivity.
  - unfold uint. lia.
  - cbn. lia.
  - apply bytes_check. reflexivity.
  - exists p, d1, d2, d3. split; [exact E1|]. split; [exact E2|]. split; [exact E3|]. split; [exact E4|]. exact (E5 eq_refl).
Defined.

Definition ex_events : list tx_event :=
  [Enqueue peer_mac 0x0800 [1; 2; 3]; Take; Take; Enqueue peer_mac 0x0806 [4]; Enqueue my_mac 0x0800 [5; 6]; Take].

Lemma tx_queue_fifo_witness :
  exists acc taken d', tx_run ex_events (ex_dev (fun _ => 0) []) = Ret (acc, taken, d') /\ (Some <$> acc) = (Some <$> taken) ++ queued (tx d').
Proof.
  apply (tx_queue_fifo ex_events (ex_dev (fun _ => 0) [])).
  - unfold ex_events. repeat constructor; cbn; unfold L2MTU; lia.
  - apply ex_pq_wf.
  - reflexivity.
  - reflexivity.
Defined.

Lemma tx_short_frame_fault_witness :
  tx_async (0xffff800004100000 + 16) (replicate 14 0) (ex_dev (fun _ => 0) [0x2000; 0x2000; 0x2000; 0x2000]) = Fault.
Proof. apply tx_short_frame_fault; [cbn; lia|reflexivity|vm_compute; reflexivity|cbn; lia]. Defined.
