(* ===== verification/MemFs.v ===== *)
(** * include/fs/mem_fs_node.hpp: the file system in memory

    Nodes live in a heap; a directory maps names to the nodes it owns.  The
    address [knew] gives a new node is an argument of the operations that create
    one. *)
From S2P Require Import Prelude KMap.

Module MemFs.

Inductive NodeType := Dir | File.

#[export] Instance NodeType_eq_dec : EqDecision NodeType.
Proof. solve_decision. Defined.

(** [kstring] compares like [std::string]: byte by byte, a prefix first. *)
Definition kstring : Type := list Z.
Fixpoint name_lt (a b : kstring) : bool :=
  match a, b with
  | _, [] => false
  | [], _ :: _ => true
  | x :: a, y :: b => if x <? y then true else if y <? x then false else name_lt a b
  end.

Inductive MemFsNode :=
  | MemFsFileNode (data_ : list Z) (parent_ : Z)
  | MemFsDirNode (entries_ : list (kstring * Z)) (parent_ : Z).

(** [type()] of the two classes, as written. *)
Definition type (n : MemFsNode) : NodeType :=
  match n with MemFsFileNode _ _ => Dir | MemFsDirNode _ _ => File end.

Abbreviation heap := (gmap Z MemFsNode).
Abbreviation M := (ST heap).

(** The members of the file or directory [this] points to.  A pointer to a node
    of the other class, which a wrong [reinterpret_cast] gives, is [Fault]. *)
Definition file_data (this : Z) : M (list Z * Z) := fun h =>
  match h !! this with Some (MemFsFileNode d p) => Ret ((d, p), h) | _ => Fault end.
Definition dir_entries (this : Z) : M (list (kstring * Z) * Z) := fun h =>
  match h !! this with Some (MemFsDirNode e p) => Ret ((e, p), h) | _ => Fault end.
Definition node_type (p : Z) : M NodeType := fun h =>
  match h !! p with Some n => Ret (type n, h) | None => Fault end.

(** ** Files *)

(** [std::vector::resize] *)
Definition resize (n : Z) (d : list Z) : list Z := take (Z.to_nat n) d ++ replicate (Z.to_nat n - length d) 0.

(** [Read(buffer, size, offset)]: the bytes copied to the buffer. *)
Definition Read (this size offset : Z) : M (list Z) :=
  '(data_, _) ← file_data this;
  let len := Z.of_nat (length data_) in
  do_assert (offset <? len) "";;
  let read_size := if len <? wrap64 (offset + size) then len - offset else size in
  if len <? offset + read_size then fault
  else mret (take (Z.to_nat read_size) (drop (Z.to_nat offset) data_)).

(** [Write(buffer, size, offset)] for the bytes [bs]; a copy past the end of the
    vector is [Fault]. *)
Definition Write (this : Z) (bs : list Z) (offset : Z) : M Z :=
  '(data_, parent) ← file_data this;
  let size := Z.of_nat (length bs) in
  let data_ := if Z.of_nat (length data_) <? offset then resize (wrap64 (offset + size)) data_ else data_ in
  if Z.of_nat (length data_) <? offset + size then fault
  else
    modify (fun h => <[this := MemFsFileNode (take (Z.to_nat offset) data_ ++ bs ++ drop (Z.to_nat (offset + size)) data_) parent]> h);;
    mret size.

Definition Resize (this new_size : Z) : M unit :=
  '(data_, parent) ← file_data this;
  modify (fun h => <[this := MemFsFileNode (resize new_size data_) parent]> h).

Definition size (this : Z) : M Z :=
  '(data_, _) ← file_data this;
  mret (Z.of_nat (length data_)).

(** ** Directories *)

Definition ListDirNode (this : Z) : M (list (kstring * Z)) :=
  '(entries_, _) ← dir_entries this;
  mret (foldl (fun ret e => KMap.emplace name_lt (fst e) (snd e) ret) [] entries_).

(** A new node [p] entered under [name]. *)
Definition add_entry (this p : Z) (name : kstring) (n : MemFsNode) : M Z :=
  '(entries_, parent) ← dir_entries this;
  modify (fun h => <[this := MemFsDirNode (KMap.emplace name_lt name p entries_) parent]> (<[p := n]> h));;
  mret (default p (KMap.find name_lt name (KMap.emplace name_lt name p entries_))).

Definition Mkdir (p this : Z) (name : kstring) : M Z :=
  '(entries_, _) ← dir_entries this;
  do_assert (bool_decide (KMap.find name_lt name entries_ = None)) "";;
  add_entry this p name (MemFsDirNode [] this).

Definition Open (p this : Z) (name : kstring) : M Z :=
  '(entries_, _) ← dir_entries this;
  match KMap.find name_lt name entries_ with
  | Some it =>
      t ← node_type it;
      do_assert (bool_decide (t = File)) "";;
      mret it
  | None => add_entry this p name (MemFsFileNode [] this)
  end.

(** ** Names *)

#[export] Instance name_order : KMap.StrictTotal name_lt (fun _ => True).
Proof.
  split.
  - intros k _. induction k as [|x k IH]; [done|]. cbn. by rewrite Z.ltb_irrefl.
  - intros a b c _ _ _. revert b c. induction a as [|x a IH]; intros [|y b] [|z c]; try done. cbn.
    destruct (Z.ltb_spec x y), (Z.ltb_spec y z), (Z.ltb_spec y x), (Z.ltb_spec z y), (Z.ltb_spec x z), (Z.ltb_spec z x); try done; try lia. apply IH.
  - intros a b _ _. revert b. induction a as [|x a IH]; intros [|y b]; try done. cbn.
    destruct (Z.ltb_spec x y), (Z.ltb_spec y x); try done. intros H1 H2. f_equal; [lia|]. by apply IH.
Qed.

Lemma find_emplace name p (m : list (kstring * Z)) : KMap.find name_lt name m = None -> KMap.find name_lt name (KMap.emplace name_lt name p m) = Some p.
Proof. intros H. unfold KMap.emplace. rewrite H. by apply (KMap.find_set_eq name_lt (P := fun _ => True)). Qed.

(** ** Theorems *)

Lemma resize_length n d : 0 <= n -> Z.of_nat (length (resize n d)) = n.
Proof. intros Hn. unfold resize. rewrite length_app, length_take, length_replicate. lia. Qed.
Lemma resize_prefix n d : Z.of_nat (length d) <= n -> resize n d = d ++ replicate (Z.to_nat n - length d) 0.
Proof. intros Hn. unfold resize. by rewrite take_ge by lia. Qed.

(** The data after a write that fits. *)
Definition written (d bs : list Z) (offset : nat) : list Z := take offset d ++ bs ++ drop (offset + length bs) d.

Lemma written_length d bs off : (off + length bs <= length d)%nat -> length (written d bs off) = length d.
Proof. intros H. unfold written. rewrite !length_app, length_take, length_drop. lia. Qed.
Lemma written_slice d bs off : (off + length bs <= length d)%nat -> take (length bs) (drop off (written d bs off)) = bs.
Proof.
  intros H. unfold written. rewrite drop_app_length' by (rewrite length_take; lia). by rewrite take_app_length.
Qed.
Lemma written_other d bs off i : (off + length bs <= length d)%nat -> (i < off \/ off + length bs <= i)%nat -> written d bs off !! i = d !! i.
Proof.
  intros H Hi. unfold written. destruct Hi as [Hi|Hi].
  - rewrite lookup_app_l by (rewrite length_take; lia). by rewrite lookup_take_lt.
  - rewrite lookup_app_r by (rewrite length_take; lia). rewrite lookup_app_r by (rewrite length_take; lia).
    rewrite lookup_drop. f_equal. rewrite length_take. lia.
Qed.

(** [Write] on a file, unfolded. *)
Lemma Write_file h this d parent bs offset : h !! this = Some (MemFsFileNode d parent) ->
  Write this bs offset h =
    let d1 := if Z.of_nat (length d) <? offset then resize (wrap64 (offset + Z.of_nat (length bs))) d else d in
    if Z.of_nat (length d1) <? offset + Z.of_nat (length bs) then Fault
    else Ret (Z.of_nat (length bs),
      <[this := MemFsFileNode (take (Z.to_nat offset) d1 ++ bs ++ drop (Z.to_nat (offset + Z.of_nat (length bs))) d1) parent]> h).
Proof. intros Hf. unfold Write, mbind, st_bind, file_data. rewrite Hf. cbv zeta. destruct (Z.of_nat (length d) <? offset); cbn [fst snd]; destruct (_ <? offset + _); reflexivity. Qed.

(** C35: what [Write] does, for every offset.  Inside the file the bytes are
    replaced, read back as written, and the rest is untouched.  Past the end the
    file grows to exactly hold them, and the gap between its old end and the
    offset is zeros.  A write that begins inside the
    file, or at its end, and does not fit writes past the vector: a file cannot be
    extended by writing at its end. *)
Theorem write_read h this d parent bs offset :
  h !! this = Some (MemFsFileNode d parent) -> 0 <= offset -> bs <> [] -> offset + Z.of_nat (length bs) < 2 ^ 64 ->
  if decide (offset <= Z.of_nat (length d) < offset + Z.of_nat (length bs)) then Write this bs offset h = Fault
  else exists d' h', Write this bs offset h = Ret (Z.of_nat (length bs), h') /\ h' = <[this := MemFsFileNode d' parent]> h /\
    Read this (Z.of_nat (length bs)) offset h' = Ret (bs, h') /\
    Z.of_nat (length d') = Z.max (Z.of_nat (length d)) (offset + Z.of_nat (length bs)) /\
    (forall i, (i < length d)%nat -> ~ (offset <= Z.of_nat i < offset + Z.of_nat (length bs)) -> d' !! i = d !! i) /\
    (forall i, (length d <= i)%nat -> Z.of_nat i < offset -> d' !! i = Some 0).
Proof.
  intros Hf Ho Hne Hb. assert (0 < length bs)%nat as Hpos by (destruct bs; [done|cbn; lia]).
  rewrite (Write_file _ _ _ _ _ _ Hf). cbv zeta. rewrite (wrap_small 64) by (unfold uint; lia).
  set (d1 := if Z.of_nat (length d) <? offset then resize (offset + Z.of_nat (length bs)) d else d).
  assert (Z.of_nat (length d1) = if Z.of_nat (length d) <? offset then offset + Z.of_nat (length bs) else Z.of_nat (length d)) as Ed1.
  { unfold d1. destruct (_ <? _); [|done]. apply resize_length. lia. }
  case_decide as Hc.
  - unfold d1 in *. rewrite (proj2 (Z.ltb_ge (Z.of_nat (length d)) offset)) by lia. by rewrite (proj2 (Z.ltb_lt _ _)) by lia.
  - assert (offset + Z.of_nat (length bs) <= Z.of_nat (length d1)) as Hfit by (rewrite Ed1; destruct (Z.ltb_spec (Z.of_nat (length d)) offset); lia).
    rewrite (proj2 (Z.ltb_ge (Z.of_nat (length d1)) _)) by lia.
    assert (take (Z.to_nat offset) d1 ++ bs ++ drop (Z.to_nat (offset + Z.of_nat (length bs))) d1 = written d1 bs (Z.to_nat offset)) as Ew.
    { unfold written. do 3 f_equal. lia. }
    rewrite Ew. pose proof (written_length d1 bs (Z.to_nat offset) ltac:(lia)) as Lw.
    exists (written d1 bs (Z.to_nat offset)), (<[this := MemFsFileNode (written d1 bs (Z.to_nat offset)) parent]> h).
    split; [done|]. split; [done|]. split; [|split; [|split]].
    + unfold Read, mbind at 1, st_bind at 1, file_data. rewrite lookup_insert_eq. cbn [fst snd]. rewrite Lw, (wrap_small 64) by (unfold uint; lia).
      rewrite (proj2 (Z.ltb_lt offset (Z.of_nat (length d1)))) by lia.
      rewrite (proj2 (Z.ltb_ge (Z.of_nat (length d1)) (offset + Z.of_nat (length bs)))) by lia.
      unfold do_assert, mbind, st_bind, mret, st_ret. rewrite ?(proj2 (Z.ltb_ge (Z.of_nat (length d1)) (offset + Z.of_nat (length bs)))) by lia.
      rewrite Nat2Z.id, written_slice by lia. done.
    + rewrite Lw, Ed1. destruct (Z.ltb_spec (Z.of_nat (length d)) offset); lia.
    + intros i Hi Hout. rewrite written_other by lia. unfold d1. destruct (Z.ltb_spec (Z.of_nat (length d)) offset); [|done].
      rewrite resize_prefix by lia. by rewrite lookup_app_l by lia.
    + intros i Hi Hgap. rewrite written_other by lia. unfold d1. rewrite (proj2 (Z.ltb_lt _ _)) by lia.
      rewrite resize_prefix, lookup_app_r by lia. apply lookup_replicate_2. lia.
Qed.

(** Opening by name, whatever the directory holds.  A free name gives a new
    empty file entered in the directory.  A name that is a file panics and a name
    that is a directory is returned as if it were a file, because the two [type]
    functions are exchanged. *)
Theorem open_by_name h this entries parent p name :
  h !! this = Some (MemFsDirNode entries parent) -> h !! p = None ->
  match KMap.find name_lt name entries with
  | None => exists h', Open p this name h = Ret (p, h') /\ h' !! p = Some (MemFsFileNode [] this) /\
      h' !! this = Some (MemFsDirNode (KMap.emplace name_lt name p entries) parent) /\
      (forall p' , Open p' this name h' = Panic "")
  | Some it =>
      match h !! it with
      | Some (MemFsFileNode _ _) => Open p this name h = Panic ""
      | Some (MemFsDirNode _ _) => Open p this name h = Ret (it, h)
      | None => Open p this name h = Fault
      end
  end.
Proof.
  intros Hd Hp. assert (this <> p) as Hne by congruence. destruct (KMap.find name_lt name entries) as [it|] eqn:Ef.
  - destruct (h !! it) as [[]|] eqn:Ei; unfold Open, mbind, st_bind, dir_entries, node_type; rewrite Hd, Ef, Ei; done.
  - assert (Open p this name h = Ret (p, <[this := MemFsDirNode (KMap.emplace name_lt name p entries) parent]> (<[p := MemFsFileNode [] this]> h))) as E.
    { unfold Open, add_entry, mbind, st_bind, dir_entries. rewrite Hd, Ef, Hd. cbn. by rewrite find_emplace. }
    eexists. split; [exact E|]. rewrite lookup_insert_eq, lookup_insert_ne, lookup_insert_eq by done. split; [done|]. split; [done|].
    intros p'. unfold Open, mbind, st_bind, dir_entries, node_type. rewrite lookup_insert_eq, find_emplace by done.
    by rewrite lookup_insert_ne, lookup_insert_eq by done.
Qed.

(** [Mkdir] on a free name enters a new empty directory, which listing shows;
    on a name in use it panics. *)
Theorem mkdir_by_name h this entries parent p name :
  h !! this = Some (MemFsDirNode entries parent) -> h !! p = None ->
  match KMap.find name_lt name entries with
  | None => exists h', Mkdir p this name h = Ret (p, h') /\ h' !! p = Some (MemFsDirNode [] this) /\
      (forall name', KMap.find name_lt name' (KMap.emplace name_lt name p entries) = if decide (name' = name) then Some p else KMap.find name_lt name' entries) /\
      h' !! this = Some (MemFsDirNode (KMap.emplace name_lt name p entries) parent) /\
      (forall q, q <> p -> q <> this -> h' !! q = h !! q)
  | Some _ => Mkdir p this name h = Panic ""
  end.
Proof.
  intros Hd Hp. assert (this <> p) as Hne by congruence. destruct (KMap.find name_lt name entries) as [it|] eqn:Ef.
  - unfold Mkdir, mbind, st_bind, dir_entries. rewrite Hd, Ef. done.
  - exists (<[this := MemFsDirNode (KMap.emplace name_lt name p entries) parent]> (<[p := MemFsDirNode [] this]> h)). split; [|split; [|split; [|split]]].
    + unfold Mkdir, add_entry, mbind, st_bind, dir_entries. rewrite Hd, Ef. cbn. rewrite Hd. cbn. by rewrite find_emplace.
    + by rewrite lookup_insert_ne, lookup_insert_eq by done.
    + intros name'. unfold KMap.emplace. rewrite Ef. case_decide as E.
      * subst name'. by apply (KMap.find_set_eq name_lt (P := fun _ => True)).
      * apply (KMap.find_set_ne name_lt (P := fun _ => True)); try done. apply Forall_forall. done.
    + by rewrite lookup_insert_eq.
    + intros q Hq1 Hq2. by rewrite !lookup_insert_ne by done.
Qed.

(** ** Concrete runs *)

Definition ex_heap : heap :=
  {[0x1000 := MemFsDirNode [([97], 0x2000)] 0; 0x2000 := MemFsFileNode [1; 2; 3; 4] 0x1000]}.

Lemma write_read_witness :
  (exists d' h', Write 0x2000 [8; 9] 1 ex_heap = Ret (2, h') /\ h' = <[0x2000 := MemFsFileNode d' 0x1000]> ex_heap /\
    Read 0x2000 2 1 h' = Ret ([8; 9], h') /\ Z.of_nat (length d') = 4 /\
    (forall i, (i < 4)%nat -> ~ (1 <= Z.of_nat i < 1 + 2) -> d' !! i = [1; 2; 3; 4] !! i) /\
    (forall i, (4 <= i)%nat -> Z.of_nat i < 1 -> d' !! i = Some 0)) /\
  (exists d' h', Write 0x2000 [8; 9] 6 ex_heap = Ret (2, h') /\ h' = <[0x2000 := MemFsFileNode d' 0x1000]> ex_heap /\
    Read 0x2000 2 6 h' = Ret ([8; 9], h') /\ Z.of_nat (length d') = 8 /\
    (forall i, (i < 4)%nat -> ~ (6 <= Z.of_nat i < 6 + 2) -> d' !! i = [1; 2; 3; 4] !! i) /\
    (forall i, (4 <= i)%nat -> Z.of_nat i < 6 -> d' !! i = Some 0)).
Proof.
  split; [apply (write_read ex_heap 0x2000 [1; 2; 3; 4] 0x1000 [8; 9] 1)|apply (write_read ex_heap 0x2000 [1; 2; 3; 4] 0x1000 [8; 9] 6)];
    [reflexivity|lia|discriminate|cbn; lia..|reflexivity|lia|discriminate|cbn; lia].
Defined.

Lemma open_by_name_witness :
  Open 0x3000 0x1000 [97] ex_heap = Panic "" /\
  exists h', Open 0x3000 0x1000 [98] ex_heap = Ret (0x3000, h') /\ h' !! 0x3000 = Some (MemFsFileNode [] 0x1000) /\
      h' !! 0x1000 = Some (MemFsDirNode [([97], 0x2000); ([98], 0x3000)] 0) /\ (forall p', Open p' 0x1000 [98] h' = Panic "").
Proof.
  split.
  - apply (open_by_name ex_heap 0x1000 [([97], 0x2000)] 0 0x3000 [97]); reflexivity.
  - apply (open_by_name ex_heap 0x1000 [([97], 0x2000)] 0 0x3000 [98]); reflexivity.
Defined.

Lemma mkdir_by_name_witness :
  Mkdir 0x3000 0x1000 [97] ex_heap = Panic "" /\ exists h', Mkdir 0x3000 0x1000 [98] ex_heap = Ret (0x3000, h').
Proof.
  split.
  - apply (mkdir_by_name ex_heap 0x1000 [([97], 0x2000)] 0 0x3000 [97]); reflexivity.
  - destruct (mkdir_by_name ex_heap 0x1000 [([97], 0x2000)] 0 0x3000 [98] eq_refl eq_refl) as (h' & H & _). by exists h'.
Defined.

End MemFs.
