(* ===== verification/Paging.v ===== *)
(** * mm/mm.cpp: the kernel's page tables and address conversions

    The tables of a [struct] lie in consecutive 8-byte words; a table is a finite
    map from word index to word, zero where nothing was stored after the
    [memset].  [walk] is the translation the processor performs from [cr3]. *)
From S2P Require Import Prelude CpuDefs.

Module Paging.

(** ** Tables in memory *)

Abbreviation table := (gmap Z Z).
Definition word (t : table) (k : Z) : Z := default 0 (t !! k).

(** [entry.name = v] for the entry in word [k], of structure type [l]. *)
Definition set_member (l : layout) (k : Z) (name : string) (v : Z) (t : table) : table :=
  <[k := write_field l name v (word t k)]> t.

Definition PTE := PageTableEntry.
Definition PDE := PageDirectoryEntry.
Definition PDPE := PageDirectoryPointerEntry.
Definition PML4E := PageMappingL4Entry.

(** ** Address translation by the processor *)

Definition present (e : Z) : bool := Z.testbit e 0.
Definition writable (e : Z) : bool := Z.testbit e 1.
Definition user (e : Z) : bool := Z.testbit e 2.
Definition large (e : Z) : bool := Z.testbit e 7.
Definition frame (e : Z) : Z := Z.land e 0x000ffffffffff000.

(** Index of the table entry a virtual address selects at the level that
    translates bits [sh] and up. *)
Definition index (sh va : Z) : Z := Z.land (Z.shiftr va sh) 511.

(** Physical address, and whether writing and user access are allowed. *)
Record mapping := mkMapping { pa : Z; rw : bool; us : bool }.

Definition walk (mem : Z -> Z) (cr3 va : Z) : option mapping :=
  let e4 := mem (frame cr3 + 8 * index 39 va) in
  if negb (present e4) then None else
  let e3 := mem (frame e4 + 8 * index 30 va) in
  if negb (present e3) then None else
  if large e3 then
    Some (mkMapping (Z.land e3 0x000fffffc0000000 + Z.land va 0x3fffffff)
            (writable e4 && writable e3) (user e4 && user e3)) else
  let e2 := mem (frame e3 + 8 * index 21 va) in
  if negb (present e2) then None else
  if large e2 then
    Some (mkMapping (Z.land e2 0x000fffffffe00000 + Z.land va 0x1fffff)
            (writable e4 && writable e3 && writable e2) (user e4 && user e3 && user e2)) else
  let e1 := mem (frame e2 + 8 * index 12 va) in
  if negb (present e1) then None else
  Some (mkMapping (frame e1 + Z.land va 0xfff)
          (writable e4 && writable e3 && writable e2 && writable e1)
          (user e4 && user e3 && user e2 && user e1)).

(** ** struct KernelImagePageTable *)

Definition pml4t_word (i : Z) : Z := i.
Definition pdpt_word (i : Z) : Z := PAGES_PER_TABLE + i.
Definition pdt_word (i : Z) : Z := 2 * PAGES_PER_TABLE + i.
Definition pt_word (i : Z) : Z := 2 * PAGES_PER_TABLE + KERNEL_SPACE_PAGES / PAGES_PER_TABLE + i.
Definition kernel_table_words : Z := pt_word KERNEL_SPACE_PAGES.

(** [((u64)(&t.member) - KERNEL_START + kernel_start_phy) >> 12] for word [k] of [t]. *)
Definition word_frame (t_vaddr kernel_start_phy k : Z) : Z :=
  Z.shiftr (wrap64 (wrap64 (t_vaddr + 8 * k) - KERNEL_START + kernel_start_phy)) 12.

Section setup.
Context (t_vaddr kernel_start_phy : Z).
Local Abbreviation wf := (word_frame t_vaddr kernel_start_phy).

Definition setup_pml4t (t : table) : table :=
  set_member PML4E (pml4t_word 256) "base_addr" (wf (pdpt_word 0))
    (set_member PML4E (pml4t_word 256) "rw" 1 (set_member PML4E (pml4t_word 256) "p" 1 t)).

Definition setup_pdpt_entry (i : Z) (t : table) : table :=
  set_member PDPE (pdpt_word i) "base_addr" (wf (pdt_word (i * PAGES_PER_TABLE)))
    (set_member PDPE (pdpt_word i) "rw" 1 (set_member PDPE (pdpt_word i) "p" 1 t)).

Definition setup_pdt_entry (i : Z) (t : table) : table :=
  set_member PDE (pdt_word i) "base_addr" (wf (pt_word (i * PAGES_PER_TABLE)))
    (set_member PDE (pdt_word i) "rw" 1 (set_member PDE (pdt_word i) "p" 1 t)).

(** The identity mapping, cache disabled. *)
Definition identity_entry (i : Z) (t : table) : table :=
  set_member PTE (pt_word i) "pcd" 1
    (set_member PTE (pt_word i) "base_addr" i
      (set_member PTE (pt_word i) "rw" 1 (set_member PTE (pt_word i) "p" 1 t))).

(** The kernel image. *)
Definition image_entry (i : Z) (t : table) : table :=
  set_member PTE (pt_word i) "base_addr" (wrap64 (Z.shiftr kernel_start_phy 12 + i))
    (set_member PTE (pt_word i) "rw" 1 (set_member PTE (pt_word i) "p" 1 t)).

(** [setup_page_table_in_kernel_space]: the tables and the new [cr3]. *)
Definition setup_page_table_in_kernel_space : table * Z :=
  let t := ∅ in
  let t := setup_pml4t t in
  let t := for_loop (Z.to_nat PAGES_PER_TABLE) 0 setup_pdpt_entry t in
  let t := for_loop (Z.to_nat (KERNEL_SPACE_PAGES / PAGES_PER_TABLE)) 0 setup_pdt_entry t in
  let t := for_loop (Z.to_nat KERNEL_SPACE_PAGES) 0 identity_entry t in
  let t := for_loop (Z.to_nat KERNEL_IMAGE_PAGES) 0 image_entry t in
  (t, wrap64 (wrap64 (t_vaddr - KERNEL_START) + kernel_start_phy)).

End setup.

(** ** Address conversions *)

Definition kernel2phy (kernel_addr : Z) : Z := wrap64 (kernel_addr - KERNEL_START).
Definition is_kernel (vaddr : Z) : bool := KERNEL_START <=? vaddr.
Definition phy2virt (phy : Z) : outcome Z :=
  if phy <? IDENTITY_MAP_PHY_END then Ret (wrap64 (phy + KERNEL_START)) else Panic "".

End Paging.
