(* ===== verification/PagingProofs.v ===== *)
(** * What the kernel's page tables map *)
From S2P Require Import Prelude CpuDefs Paging.
Import Paging.

(** ** Loops over table entries *)

Definition update (k : Z) (f : Z -> Z) (t : table) : table := <[k := f (word t k)]> t.

Lemma word_update k f t j : word (update k f t) j = if decide (k = j) then f (word t j) else word t j.
Proof. unfold update, word. rewrite lookup_insert. case_decide; subst; done. Qed.

Lemma set_member_update l k n v f t :
  set_member l k n v (update k f t) = update k (fun w => write_field l n v (f w)) t.
Proof.
  unfold set_member. rewrite word_update, decide_True by done.
  unfold update. by rewrite insert_insert_eq.
Qed.
(** Three and four members of one entry written in turn. *)
Lemma set_members3 l k n1 v1 n2 v2 n3 v3 t :
  set_member l k n3 v3 (set_member l k n2 v2 (set_member l k n1 v1 t)) =
  update k (fun w => write_field l n3 v3 (write_field l n2 v2 (write_field l n1 v1 w))) t.
Proof. exact (eq_trans (f_equal _ (set_member_update l k n2 v2 (write_field l n1 v1) t)) (set_member_update _ _ _ _ _ _)). Qed.
Lemma set_members4 l k n1 v1 n2 v2 n3 v3 n4 v4 t :
  set_member l k n4 v4 (set_member l k n3 v3 (set_member l k n2 v2 (set_member l k n1 v1 t))) =
  update k (fun w => write_field l n4 v4 (write_field l n3 v3 (write_field l n2 v2 (write_field l n1 v1 w)))) t.
Proof. by rewrite (set_members3 l k n1 v1 n2 v2 n3 v3), set_member_update. Qed.

(** A loop that rewrites the words [b], [b + 1], ... *)
Lemma word_for_loop b f n t k :
  word (for_loop n 0 (fun i => update (b + i) (f i)) t) k =
  if decide (b <= k < b + Z.of_nat n) then f (k - b) (word t k) else word t k.
Proof.
  pose proof (for_loop_ind (fun m t' => forall k, word t' k = if decide (b <= k < b + m) then f (k - b) (word t k) else word t k)
    n 0 (fun i => update (b + i) (f i)) t) as H.
  rewrite Z.add_0_l in H. apply H; clear H.
  - intros j. by rewrite decide_False by lia.
  - intros j s Hj IH j'. rewrite word_update. destruct (decide (b + j = j')) as [<-|Hne].
    + rewrite decide_True by lia. rewrite IH, decide_False by lia. f_equal. lia.
    + rewrite IH. destruct (decide (b <= j' < b + j)); [by rewrite decide_True by lia|by rewrite decide_False by lia].
Qed.

Lemma for_loop_ext {S} n i (f g : Z -> S -> S) s : (forall j s, f j s = g j s) -> for_loop n i f s = for_loop n i g s.
Proof. intros H. revert i s. induction n as [|n IH]; intros i s; [done|]. cbn. by rewrite H, IH. Qed.

(** ** Entries as the processor reads them *)

(** Table entries with flags [fl] below bit 12 and frame number [b]. *)
Definition entry_of (e : Z) (p w u g : bool) (fr : Z) : Prop :=
  present e = p /\ writable e = w /\ user e = u /\ large e = g /\ frame e = fr.

Lemma frame_bits e : frame e = get_bits 12 40 e * 4096.
Proof.
  unfold frame. change 0x000ffffffffff000 with (Z.shiftl (Z.ones 40) 12).
  change 4096 with (2 ^ 12). rewrite <- Z.shiftl_mul_pow2 by lia. apply Z.bits_inj'. intros i Hi.
  rewrite Z.land_spec, !Z.shiftl_spec by lia. destruct (Z.lt_ge_cases i 12).
  - rewrite !(Z.testbit_neg_r _ (i - 12)) by lia. by rewrite andb_false_r.
  - rewrite testbit_get_bits by lia. replace (i - 12 + 12) with i by lia.
    destruct (Z.ltb_spec (i - 12) 40); [rewrite Z.ones_spec_low by lia|rewrite Z.ones_spec_high by lia].
    + by rewrite andb_true_r.
    + by rewrite andb_false_r.
Qed.

Lemma testbit_bit e i : 0 <= i -> Z.testbit e i = (get_bits i 1 e =? 1).
Proof.
  intros Hi. unfold get_bits. change (Z.ones 1) with (Z.ones 1). rewrite Z.land_ones by lia.
  change (2 ^ 1) with 2. rewrite <- Z.bit0_mod, Z.shiftr_spec, Z.add_0_l by lia. by destruct (Z.testbit e i).
Qed.

(** Decide what the processor sees of an entry built from members. *)
Ltac entry_solve :=
  unfold entry_of, present, writable, user, large;
  rewrite !testbit_bit, frame_bits by lia; fields; rewrite ?Z.mod_small by lia; try done.

(** ** The index of a kernel address *)

Lemma index_eq sh va : 0 <= sh -> index sh va = (va / 2 ^ sh) mod 512.
Proof. intros. unfold index. change 511 with (Z.ones 9). by rewrite Z.land_ones, Z.shiftr_div_pow2 by lia. Qed.

Lemma low_bits va n : 0 <= n -> Z.land va (Z.ones n) = va mod 2 ^ n.
Proof. intros. by apply Z.land_ones. Qed.

Lemma kernel_indices x : 0 <= x < 2 ^ 39 ->
  index 39 (KERNEL_START + x) = 256 /\ index 30 (KERNEL_START + x) = x / 2 ^ 30 /\
  index 21 (KERNEL_START + x) = (x / 2 ^ 21) mod 512 /\ index 12 (KERNEL_START + x) = (x / 2 ^ 12) mod 512 /\
  Z.land (KERNEL_START + x) 0xfff = x mod 4096.
Proof.
  intros Hx. rewrite !index_eq by lia. change 0xfff with (Z.ones 12). rewrite low_bits by lia.
  unfold KERNEL_START. split_and!; dlia.
Qed.

(** ** The words of the kernel's tables *)

Section kernel_table.
Context (t_vaddr kphy : Z).
Context (Hv : KERNEL_START <= t_vaddr /\ t_vaddr + 8 * kernel_table_words <= KERNEL_START + IDENTITY_MAP_PHY_START).
Context (Hva : t_vaddr mod 4096 = 0) (Hpa : kphy mod 4096 = 0) (Hp : 0 <= kphy /\ kphy + IDENTITY_MAP_PHY_START < 2 ^ 52).

(** Physical address of the tables. *)
Definition t_phys : Z := t_vaddr - KERNEL_START + kphy.
Lemma word_frame_eq k : 0 <= k -> k mod 512 = 0 -> k <= kernel_table_words -> word_frame t_vaddr kphy k * 4096 = t_phys + 8 * k.
Proof using Hv Hva Hpa Hp.
  intros Hk Hk5 Hkb. unfold word_frame, t_phys, kernel_table_words, pt_word, IDENTITY_MAP_PHY_START, KERNEL_START in *.
  rewrite (wrap_small 64 (t_vaddr + 8 * k)), wrap_small, Z.shiftr_div_pow2 by (unfold uint, KERNEL_SPACE_PAGES, KERNEL_IMAGE_PAGES, PAGES_PER_TABLE, PAGE_SIZE in *; lia).
  change (2 ^ 12) with 4096. unfold KERNEL_SPACE_PAGES, KERNEL_IMAGE_PAGES, PAGES_PER_TABLE, PAGE_SIZE in *. dlia.
Qed.

Lemma word_frame_range k : 0 <= k -> k mod 512 = 0 -> k <= kernel_table_words -> 0 <= word_frame t_vaddr kphy k < 2 ^ 40.
Proof using Hv Hva Hpa Hp.
  intros Hk Hk5 Hkb. pose proof (word_frame_eq k Hk Hk5 Hkb) as E.
  unfold t_phys, kernel_table_words, pt_word, IDENTITY_MAP_PHY_START, KERNEL_START, KERNEL_SPACE_PAGES, KERNEL_IMAGE_PAGES, PAGES_PER_TABLE, PAGE_SIZE in *. lia.
Qed.

(** The three flags and the frame number, written into a zero entry. *)
Definition link_word (l : layout) (fr w : Z) : Z := write_field l "base_addr" fr (write_field l "rw" 1 (write_field l "p" 1 w)).
Definition leaf_word (i w : Z) : Z :=
  write_field PTE "pcd" 1 (write_field PTE "base_addr" i (write_field PTE "rw" 1 (write_field PTE "p" 1 w))).

Definition table_words (k : Z) : Z :=
  let w0 := if decide (k = 256) then link_word PML4E (word_frame t_vaddr kphy (pdpt_word 0)) 0 else 0 in
  let w1 := if decide (pdpt_word 0 <= k < pdpt_word 0 + 512)
            then link_word PDPE (word_frame t_vaddr kphy (pdt_word ((k - pdpt_word 0) * 512))) w0 else w0 in
  let w2 := if decide (pdt_word 0 <= k < pdt_word 0 + 2048)
            then link_word PDE (word_frame t_vaddr kphy (pt_word ((k - pdt_word 0) * 512))) w1 else w1 in
  let w3 := if decide (pt_word 0 <= k < pt_word 0 + KERNEL_SPACE_PAGES) then leaf_word (k - pt_word 0) w2 else w2 in
  if decide (pt_word 0 <= k < pt_word 0 + KERNEL_IMAGE_PAGES)
  then link_word PTE (wrap64 (Z.shiftr kphy 12 + (k - pt_word 0))) w3 else w3.

Lemma setup_words k : word (fst (setup_page_table_in_kernel_space t_vaddr kphy)) k = table_words k.
Proof using Type.
  unfold setup_page_table_in_kernel_space. cbn [fst].
  rewrite (for_loop_ext _ _ (image_entry kphy) (fun i => update (pt_word 0 + i) (link_word PTE (wrap64 (Z.shiftr kphy 12 + i))))).
  2: { intros j s. unfold image_entry. by rewrite set_members3. }
  rewrite (for_loop_ext _ _ identity_entry (fun i => update (pt_word 0 + i) (leaf_word i))).
  2: { intros j s. unfold identity_entry. by rewrite set_members4. }
  rewrite (for_loop_ext _ _ (setup_pdt_entry t_vaddr kphy)
    (fun i => update (pdt_word 0 + i) (link_word PDE (word_frame t_vaddr kphy (pt_word (i * 512)))))).
  2: { intros j s. unfold setup_pdt_entry. by rewrite set_members3. }
  rewrite (for_loop_ext _ _ (setup_pdpt_entry t_vaddr kphy)
    (fun i => update (pdpt_word 0 + i) (link_word PDPE (word_frame t_vaddr kphy (pdt_word (i * 512)))))).
  2: { intros j s. unfold setup_pdpt_entry. by rewrite set_members3. }
  rewrite !word_for_loop, !Z2Nat.id by (unfold KERNEL_IMAGE_PAGES, KERNEL_SPACE_PAGES; lia).
  unfold setup_pml4t. rewrite set_members3, word_update.
  unfold table_words. change (KERNEL_SPACE_PAGES / PAGES_PER_TABLE) with 2048. change PAGES_PER_TABLE with 512.
  change (word ∅ k) with 0. change (pml4t_word 256) with 256.
  assert ((if decide (256 = k) then write_field PML4E "base_addr" (word_frame t_vaddr kphy (pdpt_word 0))
            (write_field PML4E "rw" 1 (write_field PML4E "p" 1 0)) else 0) =
          if decide (k = 256) then link_word PML4E (word_frame t_vaddr kphy (pdpt_word 0)) 0 else 0) as ->.
  { repeat case_decide; done. }
  done.
Qed.

(** From here on only the words of the tables matter. *)
Context (T : table) (HT : forall k, word T k = table_words k).

(** Where the sub-tables are. *)
Ltac words_lia := unfold kernel_table_words, pml4t_word, pdpt_word, pdt_word, pt_word, PAGES_PER_TABLE, KERNEL_SPACE_PAGES, KERNEL_IMAGE_PAGES in *;
  change (4 * 512 * 512 / 512) with 2048 in *; change (32 * 512) with 16384 in *; change (4 * 512 * 512) with 1048576 in *; try lia.

(** Find the loop that wrote a word. *)
Ltac pick_word := unfold table_words; cbv zeta; repeat (case_decide; try solve [exfalso; words_lia]).

Lemma link_entry l k : (l = PML4E \/ l = PDPE \/ l = PDE) -> 0 <= k -> k mod 512 = 0 -> k <= kernel_table_words ->
  entry_of (link_word l (word_frame t_vaddr kphy k) 0) true true false false (t_phys + 8 * k).
Proof using Hv Hva Hpa Hp.
  intros Hl Hk Hk5 Hkb. pose proof (word_frame_eq k Hk Hk5 Hkb) as E. pose proof (word_frame_range k Hk Hk5 Hkb) as Hr.
  destruct Hl as [->|[->| ->]]; unfold link_word; entry_solve; split_and!; try done.
Qed.

Lemma pml4_entry : entry_of (word T 256) true true false false (t_phys + 8 * pdpt_word 0).
Proof using Hv Hva Hpa Hp HT.
  rewrite HT. pick_word. apply link_entry; [by left|words_lia; dlia..].
Qed.

Lemma pdpt_entry i : 0 <= i < 512 -> entry_of (word T (pdpt_word i)) true true false false (t_phys + 8 * pdt_word (i * 512)).
Proof using Hv Hva Hpa Hp HT.
  intros Hi. rewrite HT. pick_word.
  replace (pdpt_word i - pdpt_word 0) with i by words_lia.
  apply link_entry; [by right; left|words_lia; dlia..].
Qed.

Lemma pdt_entry i : 0 <= i < 2048 -> entry_of (word T (pdt_word i)) true true false false (t_phys + 8 * pt_word (i * 512)).
Proof using Hv Hva Hpa Hp HT.
  intros Hi. rewrite HT. pick_word.
  replace (pdt_word i - pdt_word 0) with i by words_lia.
  apply link_entry; [by right; right|words_lia; dlia..].
Qed.

Lemma pt_entry i : 0 <= i < KERNEL_SPACE_PAGES ->
  entry_of (word T (pt_word i)) true true false false (if decide (i < KERNEL_IMAGE_PAGES) then kphy + i * 4096 else i * 4096).
Proof using Hp Hpa HT.
  intros Hi. rewrite HT. unfold IDENTITY_MAP_PHY_START, PAGE_SIZE in Hp. pick_word.
  all: replace (pt_word i - pt_word 0) with i by words_lia.
  - rewrite Z.shiftr_div_pow2, wrap_small by (unfold uint; words_lia; dlia). change (2 ^ 12) with 4096.
    unfold link_word, leaf_word. entry_solve. split_and!; try done. words_lia. dlia.
  - unfold leaf_word. entry_solve. split_and!; try done. words_lia. dlia.
Qed.

(** ** The translation *)

(** Physical memory holds the tables at [t_phys]. *)
Context (mem : Z -> Z) (Hmem : forall k, 0 <= k < kernel_table_words -> mem (t_phys + 8 * k) = word T k).
Context (cr3 : Z) (Hcr3 : cr3 = wrap64 (wrap64 (t_vaddr - KERNEL_START) + kphy)).

Lemma cr3_frame : frame cr3 = t_phys.
Proof using Hv Hva Hpa Hp Hcr3.
  rewrite Hcr3. unfold t_phys.
  unfold IDENTITY_MAP_PHY_START, KERNEL_START, PAGE_SIZE, kernel_table_words, pt_word in *. words_lia.
  rewrite (wrap_small 64 (t_vaddr - _)), wrap_small by (unfold uint; lia).
  rewrite frame_bits, get_bits_eq by lia. change (2 ^ 12) with 4096. dlia.
Qed.

(** Every kernel address below [2^39] passes the first two levels. *)
Lemma walk_upper x : 0 <= x < 2 ^ 39 ->
  mem (frame cr3 + 8 * index 39 (KERNEL_START + x)) = word T 256 /\
  mem (frame (word T 256) + 8 * index 30 (KERNEL_START + x)) = word T (pdpt_word (x / 2 ^ 30)).
Proof using All.
  intros Hx. destruct (kernel_indices x Hx) as (-> & -> & _). rewrite cr3_frame.
  destruct pml4_entry as (_ & _ & _ & _ & ->). split; [apply Hmem; words_lia|].
  rewrite <- Hmem by (words_lia; dlia). f_equal. words_lia.
Qed.

Lemma walk_kernel x : 0 <= x < IDENTITY_MAP_PHY_END ->
  walk mem cr3 (KERNEL_START + x) =
  Some (mkMapping (if decide (x < IDENTITY_MAP_PHY_START) then kphy + x else x) true false).
Proof using All.
  intros Hx. change IDENTITY_MAP_PHY_END with (2 ^ 32) in Hx. destruct (walk_upper x ltac:(lia)) as [E4 E3].
  destruct (kernel_indices x ltac:(lia)) as (_ & _ & I2 & I1 & I0).
  unfold walk. rewrite E4, E3. destruct pml4_entry as (-> & -> & -> & _ & _).
  destruct (pdpt_entry (x / 2 ^ 30) ltac:(dlia)) as (-> & -> & -> & -> & ->). cbn [negb].
  rewrite I2. assert (mem (t_phys + 8 * pdt_word (x / 2 ^ 30 * 512) + 8 * ((x / 2 ^ 21) mod 512)) = word T (pdt_word (x / 2 ^ 21))) as ->.
  { rewrite <- Hmem by (words_lia; dlia). f_equal. words_lia. dlia. }
  destruct (pdt_entry (x / 2 ^ 21) ltac:(dlia)) as (-> & -> & -> & -> & ->). cbn [negb].
  rewrite I1. assert (mem (t_phys + 8 * pt_word (x / 2 ^ 21 * 512) + 8 * ((x / 2 ^ 12) mod 512)) = word T (pt_word (x / 2 ^ 12))) as ->.
  { rewrite <- Hmem by (words_lia; dlia). f_equal. words_lia. dlia. }
  destruct (pt_entry (x / 2 ^ 12)) as (-> & -> & -> & _ & ->); [words_lia; dlia|]. cbn [negb andb].
  rewrite I0. do 2 f_equal. change IDENTITY_MAP_PHY_START with 67108864. change (2 ^ 12) with 4096.
  repeat case_decide; words_lia; dlia.
Qed.

(** The first 2 MiB beyond the 4 GiB of kernel space: the third level is a page
    table of the second, and the page table is the kernel image. *)
Lemma walk_beyond y : 0 <= y < 2 ^ 21 ->
  walk mem cr3 (KERNEL_START + (2 ^ 32 + y)) =
  let e1 := mem (kphy + 8 * (y / 4096)) in
  if present e1 then Some (mkMapping (frame e1 + y mod 4096) (writable e1) false) else None.
Proof using All.
  intros Hy. set (x := 2 ^ 32 + y). destruct (walk_upper x ltac:(unfold x; lia)) as [E4 E3].
  destruct (kernel_indices x ltac:(unfold x; lia)) as (_ & _ & I2 & I1 & I0).
  unfold walk. rewrite E4, E3. destruct pml4_entry as (-> & -> & -> & _ & _).
  replace (x / 2 ^ 30) with 4 by (unfold x; dlia).
  destruct (pdpt_entry 4 ltac:(lia)) as (-> & -> & -> & -> & ->). cbn [negb].
  rewrite I2. replace ((x / 2 ^ 21) mod 512) with 0 by (unfold x; dlia).
  assert (mem (t_phys + 8 * pdt_word (4 * 512) + 8 * 0) = word T (pt_word 0)) as ->.
  { rewrite <- Hmem by words_lia. f_equal. words_lia. }
  destruct (pt_entry 0) as (-> & -> & -> & -> & ->); [words_lia|]. cbn [negb].
  rewrite decide_True by words_lia. rewrite I1, I0.
  replace (kphy + 0 * 4096 + 8 * ((x / 2 ^ 12) mod 512)) with (kphy + 8 * (y / 4096)) by (unfold x; dlia).
  replace (x mod 4096) with (y mod 4096) by (unfold x; dlia). cbn [andb]. cbv zeta. by destruct (present _).
Qed.

End kernel_table.
