(* ===== verification/PagingThms.v ===== *)
(** * Theorems about the kernel's address space *)
From S2P Require Import Prelude CpuDefs Paging PagingProofs.
Import Paging.

(** The linker places the tables, page aligned, in the kernel image, and the
    boot loader places the image at a page-aligned physical address. *)
Record well_placed (t_vaddr kphy : Z) : Prop := {
  wp_range : KERNEL_START <= t_vaddr /\ t_vaddr + 8 * kernel_table_words <= KERNEL_START + IDENTITY_MAP_PHY_START;
  wp_valign : t_vaddr mod 4096 = 0;
  wp_palign : kphy mod 4096 = 0;
  wp_phys : 0 <= kphy /\ kphy + IDENTITY_MAP_PHY_START < 2 ^ 52
}.

Definition kernel_tables (t_vaddr kphy : Z) : table := fst (setup_page_table_in_kernel_space t_vaddr kphy).
Definition kernel_cr3 (t_vaddr kphy : Z) : Z := snd (setup_page_table_in_kernel_space t_vaddr kphy).

(** Physical memory [mem] holds the tables that were set up. *)
Definition holds_tables (t_vaddr kphy : Z) (mem : Z -> Z) : Prop :=
  forall k, 0 <= k < kernel_table_words -> mem (t_phys t_vaddr kphy + 8 * k) = word (kernel_tables t_vaddr kphy) k.

Lemma kernel_cr3_eq t_vaddr kphy : kernel_cr3 t_vaddr kphy = wrap64 (wrap64 (t_vaddr - KERNEL_START) + kphy).
Proof. unfold kernel_cr3, setup_page_table_in_kernel_space. cbn [snd]. reflexivity. Qed.

(** Translation of an address of kernel space. *)
Lemma kernel_walk t_vaddr kphy mem x :
  well_placed t_vaddr kphy -> holds_tables t_vaddr kphy mem -> 0 <= x < IDENTITY_MAP_PHY_END ->
  walk mem (kernel_cr3 t_vaddr kphy) (KERNEL_START + x) =
  Some (mkMapping (if decide (x < IDENTITY_MAP_PHY_START) then kphy + x else x) true false).
Proof.
  intros [H1 H2 H3 H4] Hmem Hx.
  apply (walk_kernel t_vaddr kphy H1 H2 H3 H4 (kernel_tables t_vaddr kphy) (setup_words t_vaddr kphy)); [done|apply kernel_cr3_eq|done].
Qed.

(** C31: Once the kernel's page tables are loaded, the processor translates every
    address of the 4 GiB of kernel space: the first 64 MiB to the kernel image,
    the rest to the physical address at the same offset; all of it writable and
    none of it accessible from user mode. *)
Theorem kernel_space_translation t_vaddr kphy mem x :
  well_placed t_vaddr kphy -> holds_tables t_vaddr kphy mem -> 0 <= x < IDENTITY_MAP_PHY_END ->
  walk mem (kernel_cr3 t_vaddr kphy) (KERNEL_START + x) =
  Some (mkMapping (if decide (x < IDENTITY_MAP_PHY_START) then kphy + x else x) true false).
Proof. apply kernel_walk. Qed.

(** [phy2virt] and [kernel2phy] agree with the page tables on the identity
    mapped part of memory: [phy2virt] returns an address the processor
    translates back, and [kernel2phy] inverts it; below 64 MiB the address
    [phy2virt] returns belongs to the kernel image instead, and from 4 GiB on it
    panics. *)
Theorem phy2virt_translates t_vaddr kphy mem p :
  well_placed t_vaddr kphy -> holds_tables t_vaddr kphy mem -> 0 <= p ->
  (IDENTITY_MAP_PHY_START <= p < IDENTITY_MAP_PHY_END ->
     exists v, phy2virt p = Ret v /\ kernel2phy v = p /\ is_kernel v = true /\
       walk mem (kernel_cr3 t_vaddr kphy) v = Some (mkMapping p true false)) /\
  (p < IDENTITY_MAP_PHY_START ->
     exists v, phy2virt p = Ret v /\ walk mem (kernel_cr3 t_vaddr kphy) v = Some (mkMapping (kphy + p) true false)) /\
  (IDENTITY_MAP_PHY_END <= p -> phy2virt p = Panic "").
Proof.
  intros Hwp Hmem Hp.
  assert (p < IDENTITY_MAP_PHY_END -> phy2virt p = Ret (KERNEL_START + p)) as Hv.
  { intros Hlt. unfold phy2virt. rewrite (proj2 (Z.ltb_lt _ _)) by done. f_equal. rewrite Z.add_comm. apply wrap_small.
    change IDENTITY_MAP_PHY_END with (2 ^ 32) in Hlt. unfold uint, KERNEL_START. lia. }
  split_and!.
  - intros Hr. exists (KERNEL_START + p). split; [apply Hv; lia|]. change IDENTITY_MAP_PHY_START with 67108864 in *.
    change IDENTITY_MAP_PHY_END with (2 ^ 32) in *. split.
    { unfold kernel2phy. replace (KERNEL_START + p - KERNEL_START) with p by lia. apply wrap_small. unfold uint. lia. }
    split; [unfold is_kernel; apply Z.leb_le; lia|].
    rewrite (kernel_walk t_vaddr kphy mem p Hwp Hmem); [|change IDENTITY_MAP_PHY_END with (2 ^ 32); lia]. rewrite decide_False; [done|].
    change IDENTITY_MAP_PHY_START with 67108864. lia.
  - intros Hr. exists (KERNEL_START + p). split.
    { apply Hv. change IDENTITY_MAP_PHY_START with 67108864 in *. change IDENTITY_MAP_PHY_END with (2 ^ 32). lia. }
    rewrite (kernel_walk t_vaddr kphy mem p Hwp Hmem); [by rewrite decide_True|].
    change IDENTITY_MAP_PHY_START with 67108864 in *. change IDENTITY_MAP_PHY_END with (2 ^ 32). lia.
  - intros Hr. unfold phy2virt. by rewrite (proj2 (Z.ltb_ge _ _)).
Qed.

(** The page directory pointers beyond the fourth run past the page
    directories into the page tables, so the addresses right above the 4 GiB of
    kernel space are translated with page table entries read from the bytes of
    the kernel image. *)
Theorem kernel_space_overrun t_vaddr kphy mem y :
  well_placed t_vaddr kphy -> holds_tables t_vaddr kphy mem -> 0 <= y < 2 ^ 21 ->
  walk mem (kernel_cr3 t_vaddr kphy) (KERNEL_START + (IDENTITY_MAP_PHY_END + y)) =
  let e1 := mem (kphy + 8 * (y / 4096)) in
  if present e1 then Some (mkMapping (frame e1 + y mod 4096) (writable e1) false) else None.
Proof.
  intros [H1 H2 H3 H4] Hmem Hy. change IDENTITY_MAP_PHY_END with (2 ^ 32).
  apply (walk_beyond t_vaddr kphy H1 H2 H3 H4 (kernel_tables t_vaddr kphy) (setup_words t_vaddr kphy)); [done|apply kernel_cr3_eq|done].
Qed.

(** ** A concrete placement *)

Definition ex_vaddr : Z := KERNEL_START + 0x1000000.
Definition ex_kphy : Z := 0x10000000.

(** Physical memory with the tables and zeros elsewhere. *)
Definition ex_mem (a : Z) : Z :=
  let k := (a - t_phys ex_vaddr ex_kphy) / 8 in
  if (0 <=? k) && (k <? kernel_table_words) then word (kernel_tables ex_vaddr ex_kphy) k else 0.

Lemma ex_placed : well_placed ex_vaddr ex_kphy.
Proof. by split; [split|..|split]. Qed.

Lemma ex_holds : holds_tables ex_vaddr ex_kphy ex_mem.
Proof.
  intros k Hk. unfold ex_mem. generalize (t_phys ex_vaddr ex_kphy) as b. intros b.
  replace ((b + 8 * k - b) / 8) with k by (replace (b + 8 * k - b) with (k * 8) by lia; by rewrite Z.div_mul).
  by rewrite (proj2 (Z.leb_le _ _)), (proj2 (Z.ltb_lt _ _)) by lia.
Qed.

Lemma kernel_space_translation_witness :
  walk ex_mem (kernel_cr3 ex_vaddr ex_kphy) (KERNEL_START + 0x5000123) = Some (mkMapping 0x5000123 true false).
Proof.
  refine (eq_trans (kernel_space_translation ex_vaddr ex_kphy ex_mem 0x5000123 ex_placed ex_holds _) _).
  - split; [lia|]. change IDENTITY_MAP_PHY_END with (2 ^ 32). lia.
  - by rewrite decide_False by (change IDENTITY_MAP_PHY_START with 67108864; lia).
Defined.

Lemma phy2virt_translates_witness :
  exists v, phy2virt 0x5000123 = Ret v /\ kernel2phy v = 0x5000123 /\ is_kernel v = true /\
    walk ex_mem (kernel_cr3 ex_vaddr ex_kphy) v = Some (mkMapping 0x5000123 true false).
Proof.
  apply (proj1 (phy2virt_translates ex_vaddr ex_kphy ex_mem 0x5000123 ex_placed ex_holds ltac:(lia))).
  change IDENTITY_MAP_PHY_END with (2 ^ 32). change IDENTITY_MAP_PHY_START with 67108864. lia.
Defined.

Lemma kernel_space_overrun_witness :
  walk ex_mem (kernel_cr3 ex_vaddr ex_kphy) (KERNEL_START + (IDENTITY_MAP_PHY_END + 0x1234)) =
  let e1 := ex_mem (ex_kphy + 8 * (0x1234 / 4096)) in
  if present e1 then Some (mkMapping (frame e1 + 0x1234 mod 4096) (writable e1) false) else None.
Proof. apply (kernel_space_overrun ex_vaddr ex_kphy ex_mem 0x1234 ex_placed ex_holds). lia. Defined.
