(* ===== verification/BuddyTree.v ===== *)
(** * The buddy tree, abstractly

    mm/page_alloc.cpp keeps its blocks in an implicit binary tree: block [i] has
    children [2i+1] and [2i+2].  This file is the theory of that tree in terms of
    the two flags a block carries, [valid] and [available], as functions of the
    index.  A valid block that is not available is either handed out or split;
    it is handed out exactly when its left child is not valid. *)
From S2P Require Import Prelude.

(** ** Index arithmetic *)

Definition left_of (i : Z) : Z := 2 * i + 1.
Definition right_of (i : Z) : Z := 2 * i + 2.
Definition parent_of (i : Z) : Z := (i - 1) / 2.
Definition buddy_of (i : Z) : Z := if i mod 2 =? 0 then i - 1 else i + 1.
Definition depth (i : Z) : Z := Z.log2 (i + 1).

(** A non-root index is one of the two children of its parent. *)
Lemma index_cases i :
  0 < i -> exists p, 0 <= p /\ parent_of i = p /\
    ((i = left_of p /\ buddy_of i = right_of p) \/ (i = right_of p /\ buddy_of i = left_of p)).
Proof.
  intros Hi. exists (parent_of i). unfold parent_of, left_of, right_of, buddy_of.
  destruct (Z.eqb_spec (i mod 2) 0); dlia.
Qed.

Lemma parent_left i : parent_of (left_of i) = i.
Proof. unfold parent_of, left_of. dlia. Qed.
Lemma parent_right i : parent_of (right_of i) = i.
Proof. unfold parent_of, right_of. dlia. Qed.
Lemma buddy_left i : buddy_of (left_of i) = right_of i.
Proof. unfold buddy_of, left_of, right_of. destruct (Z.eqb_spec ((2 * i + 1) mod 2) 0); dlia. Qed.
Lemma buddy_right i : buddy_of (right_of i) = left_of i.
Proof. unfold buddy_of, left_of, right_of. destruct (Z.eqb_spec ((2 * i + 2) mod 2) 0); dlia. Qed.
Lemma parent_range i : 0 < i -> 0 <= parent_of i < i.
Proof. unfold parent_of. dlia. Qed.

Lemma depth_left i : 0 <= i -> depth (left_of i) = depth i + 1.
Proof.
  intros. unfold depth, left_of. replace (2 * i + 1 + 1) with (2 * (i + 1)) by lia.
  rewrite Z.log2_double by lia. lia.
Qed.
Lemma depth_right i : 0 <= i -> depth (right_of i) = depth i + 1.
Proof.
  intros. unfold depth, right_of. replace (2 * i + 2 + 1) with (2 * (i + 1) + 1) by lia.
  rewrite Z.log2_succ_double by lia. lia.
Qed.
Lemma depth_nonneg i : 0 <= depth i.
Proof. apply Z.log2_nonneg. Qed.
Lemma depth_parent i : 0 < i -> depth (parent_of i) = depth i - 1.
Proof.
  intros Hi. destruct (index_cases i Hi) as (p & Hp & -> & [[-> _]|[-> _]]).
  - rewrite depth_left; lia.
  - rewrite depth_right; lia.
Qed.
Lemma depth_buddy i : 0 < i -> depth (buddy_of i) = depth i.
Proof.
  intros Hi. destruct (index_cases i Hi) as (p & Hp & _ & [[-> ->]|[-> ->]]);
    rewrite depth_left, depth_right; lia.
Qed.
Lemma depth_bound i n : 0 <= i -> 0 <= n -> depth i < n <-> i < 2 ^ n - 1.
Proof. intros Hi Hn. unfold depth. rewrite <- Z.log2_lt_pow2 by lia. lia. Qed.

#[export] Hint Rewrite parent_left parent_right buddy_left buddy_right : kernel_rw.

(** ** The tree invariant *)

Section tree.
(** [height] is the depth of the smallest blocks. *)
Context (height : Z).

Implicit Types V F : Z -> bool.

(** [V]: the [valid] flags, [F]: the [available] flags. *)
Record tree_inv (V F : Z -> bool) : Prop := {
  ti_root : V 0 = true;
  ti_range i : V i = true -> 0 <= i /\ depth i <= height;
  ti_parent i : V i = true -> 0 < i -> V (parent_of i) = true /\ F (parent_of i) = false;
  ti_buddy i : V i = true -> 0 < i -> V (buddy_of i) = true;
  ti_coalesced i : V i = true -> F i = true -> 0 < i -> F (buddy_of i) = false
}.

(** Block [i] is handed out. *)
Definition allocated V F (i : Z) : Prop :=
  V i = true /\ F i = false /\ V (left_of i) = false.

(** Block [i] is free. *)
Definition free V F (i : Z) : Prop := V i = true /\ F i = true.

#[export] Instance tree_inv_proper :
  Proper (pointwise_relation Z eq ==> pointwise_relation Z eq ==> iff) tree_inv.
Proof.
  assert (Hmono : forall V V' F F', pointwise_relation Z eq V V' ->
    pointwise_relation Z eq F F' -> tree_inv V F -> tree_inv V' F').
  { intros V V' F F' HV HF [H1 H2 H3 H4 H5].
    split; intros *; rewrite <- ?HV, <- ?HF; eauto. }
  intros V V' HV F F' HF. split; apply Hmono; try done; by symmetry.
Qed.

#[export] Instance allocated_proper :
  Proper (pointwise_relation Z eq ==> pointwise_relation Z eq ==> eq ==> iff) allocated.
Proof. intros V V' HV F F' HF i ? <-. unfold allocated. by rewrite !HV, HF. Qed.

Section inv.
Context V F (I : tree_inv V F).

Lemma valid_children i : 0 <= i -> V (left_of i) = true <-> V (right_of i) = true.
Proof.
  intros Hi. split; intros H; apply (ti_buddy _ _ I) in H.
  - by rewrite buddy_left in H.
  - unfold left_of in *; lia.
  - by rewrite buddy_right in H.
  - unfold right_of in *; lia.
Qed.

(** A child is valid only below a block that is not available. *)
Lemma no_children_of_free i : free V F i -> V (left_of i) = false /\ V (right_of i) = false.
Proof.
  intros [HV HF]. pose proof (ti_range _ _ I _ HV) as [? _].
  assert (V (left_of i) = false) as Hl.
  { destruct (V (left_of i)) eqn:E; [|done].
    apply (ti_parent _ _ I) in E; [|unfold left_of; lia]. rewrite parent_left in E. destruct E; congruence. }
  split; [done|]. destruct (V (right_of i)) eqn:E; [|done]. apply valid_children in E; [congruence|done].
Qed.

Lemma no_children_of_allocated i :
  allocated V F i -> V (left_of i) = false /\ V (right_of i) = false.
Proof.
  intros (HV & _ & Hl). pose proof (ti_range _ _ I _ HV) as [? _]. split; [done|].
  destruct (V (right_of i)) eqn:E; [|done]. apply valid_children in E; [congruence|done].
Qed.

(** A valid block is free, handed out or split, and only one of them. *)
Lemma block_cases i : V i = true ->
  free V F i \/ allocated V F i \/ (F i = false /\ V (left_of i) = true /\ V (right_of i) = true).
Proof.
  intros HV. destruct (F i) eqn:E; [by left|right].
  destruct (V (left_of i)) eqn:E2; [right|left; by split_and!].
  split_and!; try done. apply valid_children; [|done]. by apply (ti_range _ _ I).
Qed.
End inv.

(** ** The four changes the allocator makes to the flags *)

(** The constructor leaves one valid, available root. *)
Lemma tree_inv_init V F :
  0 <= height -> (forall i, V i = true <-> i = 0) -> F 0 = true -> tree_inv V F.
Proof.
  intros Hh HV HF. split; intros *; rewrite ?HV; try lia.
  intros ->. change (depth 0) with 0. lia.
Qed.

(** Taking a free block out of its list. *)
Section take.
Context V F (I : tree_inv V F) (b : Z) (Hb : free V F b).

Lemma take_inv : tree_inv V (<[b := false]> F).
Proof.
  destruct I as [H1 H2 H3 H4 H5]. split; intros *; unfold insert, fn_insert; repeat case_decide; subst; naive_solver.
Qed.

Lemma take_allocated i : allocated V (<[b := false]> F) i <-> allocated V F i \/ i = b.
Proof.
  destruct (no_children_of_free _ _ I _ Hb) as [Hl _]. destruct Hb as [HV HF].
  unfold allocated, insert, fn_insert. case_decide; subst; naive_solver congruence.
Qed.
End take.

(** Splitting a block that was just taken. *)
Section split.
Context V F (I : tree_inv V F) (p : Z) (Hp : allocated V F p) (Hd : depth p < height).
Let V' := <[right_of p := true]> (<[left_of p := true]> V).
Let F' := <[right_of p := true]> (<[left_of p := false]> F).

Lemma split_inv : tree_inv V' F'.
Proof.
  destruct (no_children_of_allocated _ _ I _ Hp) as [Hl Hr]. destruct Hp as (HV & HF & _).
  destruct (ti_range _ _ I _ HV) as [Hp0 _].
  pose proof (depth_left p Hp0) as HdL. pose proof (depth_right p Hp0) as HdR.
  destruct I as [H1 H2 H3 H4 H5].
  assert (Hodd : forall i, V i = true -> parent_of i <> left_of p /\ parent_of i <> right_of p \/ i <= 0).
  { intros i Hi. destruct (decide (i <= 0)); [by right|left].
    destruct (H3 i Hi) as [Hi' _]; [lia|]. split; intros E; rewrite E in Hi'; congruence. }
  assert (Hbud : forall i, i <> left_of p -> i <> right_of p -> 0 < i ->
    buddy_of i <> left_of p /\ buddy_of i <> right_of p).
  { intros i ???. destruct (index_cases i) as (q & ? & ? & [[-> ->]|[-> ->]]); [done|..];
      unfold left_of, right_of in *; lia. }
  split; unfold V', F', insert, fn_insert.
  - by repeat case_decide.
  - intros i. repeat case_decide; subst; try lia; eauto; unfold left_of, right_of in *; lia.
  - intros i Hi Hpos. destruct (decide (right_of p = i)) as [<-|]; [|destruct (decide (left_of p = i)) as [<-|]].
    + rewrite parent_right. repeat case_decide; subst; auto; unfold left_of, right_of in *; lia.
    + rewrite parent_left. repeat case_decide; subst; auto; unfold left_of, right_of in *; lia.
    + destruct (Hodd i Hi) as [[? ?]|?]; [|lia].
      rewrite !decide_False by congruence. auto.
  - intros i Hi Hpos. destruct (decide (right_of p = i)) as [<-|]; [|destruct (decide (left_of p = i)) as [<-|]].
    + rewrite buddy_right. by repeat case_decide.
    + rewrite buddy_left. by repeat case_decide.
    + destruct (Hbud i) as [? ?]; [congruence..|done|].
      rewrite !decide_False by congruence. auto.
  - intros i Hi Hf Hpos. destruct (decide (right_of p = i)) as [<-|]; [|destruct (decide (left_of p = i)) as [<-|]].
    + rewrite buddy_right. rewrite decide_False, decide_True; unfold left_of, right_of in *; lia || done.
    + done.
    + destruct (Hbud i) as [? ?]; [congruence..|done|].
      rewrite !decide_False by congruence. auto.
Qed.

Lemma split_allocated i : allocated V' F' i <-> (allocated V F i /\ i <> p) \/ i = left_of p.
Proof.
  destruct (no_children_of_allocated _ _ I _ Hp) as [Hl Hr]. destruct Hp as (HV & HF & _).
  destruct (ti_range _ _ I _ HV) as [Hp0 _].
  assert (V (left_of (left_of p)) = false) as Hll.
  { destruct (V (left_of (left_of p))) eqn:E; [|done].
    apply (ti_parent _ _ I) in E; [|unfold left_of; lia]. rewrite parent_left in E. destruct E. congruence. }
  unfold allocated, V', F', insert, fn_insert.
  destruct (decide (right_of p = i)) as [<-|]; [|destruct (decide (left_of p = i)) as [<-|]].
  - rewrite Hr. split; [intros (_ & ? & _); done|].
    intros [[(? & _) _]|E]; [done|unfold left_of, right_of in E; lia].
  - rewrite !decide_False by (unfold left_of, right_of; lia). rewrite Hll. naive_solver.
  - destruct (decide (left_of p = left_of i)) as [E|].
    + assert (i = p) as -> by (unfold left_of in E; lia). case_decide; naive_solver.
    + rewrite decide_False by (unfold left_of, right_of; lia).
      assert (i <> p) by congruence. naive_solver.
Qed.
End split.

(** Only the flags of valid blocks matter. *)
Lemma tree_inv_ext V F F' :
  (forall i, V i = true -> F i = F' i) -> tree_inv V F -> tree_inv V F'.
Proof.
  intros HF [H1 H2 H3 H4 H5]. split; try done.
  - intros i Hi Hpos. destruct (H3 i Hi Hpos). rewrite <- HF by done. done.
  - intros i Hi Hf Hpos. rewrite <- !HF in * by eauto. eauto.
Qed.

Lemma allocated_ext V F F' i :
  (forall i, V i = true -> F i = F' i) -> allocated V F i <-> allocated V F' i.
Proof. unfold allocated. intros HF. split; intros (H1 & H2 & H3); specialize (HF _ H1); split_and!; congruence. Qed.

(** Merging a block in hand with its free buddy; the parent is then in hand. *)
Section merge.
Context V F (I : tree_inv V F) (c : Z) (Hc : allocated V F c) (Hpos : 0 < c)
  (Hbud : F (buddy_of c) = true).
Let V' := <[c := false]> (<[buddy_of c := false]> V).

Lemma merge_children q : parent_of c = q ->
  0 <= q /\ V q = true /\ F q = false /\
  V (left_of (left_of q)) = false /\ V (right_of (left_of q)) = false /\
  V (left_of (right_of q)) = false /\ V (right_of (right_of q)) = false /\
  (forall i, V' i = V i && negb (bool_decide (i = left_of q)) && negb (bool_decide (i = right_of q))).
Proof.
  intros Hq. pose proof Hc as (HV & HF & _).
  destruct (ti_parent _ _ I c HV Hpos) as [Hpv Hpf]. rewrite Hq in *.
  assert (free V F (buddy_of c)) as Hfree by (split; [by apply (ti_buddy _ _ I)|done]).
  destruct (no_children_of_allocated _ _ I _ Hc) as [Ha Hb].
  destruct (no_children_of_free _ _ I _ Hfree) as [Hd He].
  split; [by apply (ti_range _ _ I)|]. do 2 (split; [done|]).
  destruct (index_cases c Hpos) as (p & Hp & Hpq & Hcase). rewrite Hq in Hpq. subst p.
  assert (HV' : forall i, V' i = V i && negb (bool_decide (i = c)) && negb (bool_decide (i = buddy_of c))).
  { intros i. unfold V', insert, fn_insert. repeat case_decide; repeat case_bool_decide; subst;
      rewrite ?andb_true_r, ?andb_false_r; congruence || done. }
  destruct Hcase as [[E1 E2]|[E1 E2]]; rewrite E2 in *; subst c; split_and!; try done.
  intros i. rewrite HV'. rewrite <- !andb_assoc. f_equal. apply andb_comm.
Qed.

Lemma merge_inv : tree_inv V' F.
Proof.
  destruct (merge_children _ eq_refl) as (Hq & HVq & HFq & H1 & H2 & H3 & H4 & HV').
  set (q := parent_of c) in *. clearbody q.
  assert (Hin : forall i, V' i = true <-> V i = true /\ i <> left_of q /\ i <> right_of q).
  { intros i. rewrite HV', !andb_true_iff, !negb_true_iff, !bool_decide_eq_false. naive_solver. }
  split.
  - apply Hin. split; [apply I|]. unfold left_of, right_of. lia.
  - intros i [Hi _]%Hin. by apply (ti_range _ _ I).
  - intros i (Hi & Hl & Hr)%Hin Hi0. destruct (ti_parent _ _ I i Hi Hi0) as [Ha Hb].
    split; [|done]. apply Hin. split; [done|].
    destruct (index_cases i Hi0) as (p & Hp & -> & [[E _]|[E _]]); subst i; split; intros ->; congruence.
  - intros i (Hi & Hl & Hr)%Hin Hi0. apply Hin. split; [by apply (ti_buddy _ _ I)|].
    destruct (index_cases i Hi0) as (p & Hp & _ & [[E ->]|[E ->]]); subst i;
      unfold left_of, right_of in *; lia.
  - intros i [Hi _]%Hin. by apply (ti_coalesced _ _ I).
Qed.

Lemma merge_allocated i : allocated V' F i <-> (allocated V F i /\ i <> c) \/ i = parent_of c.
Proof.
  destruct (merge_children _ eq_refl) as (Hq & HVq & HFq & H1 & H2 & H3 & H4 & HV').
  destruct (index_cases c Hpos) as (p & _ & Hpq & Hcase). rewrite Hpq in *. clear Hpq.
  assert (F c = false) as HFc by apply Hc.
  assert (Hcc : forall j, (j <> left_of p /\ j <> right_of p) <-> (j <> c /\ j <> buddy_of c)).
  { intros j. destruct Hcase as [[-> ->]|[-> ->]]; tauto. }
  assert (Hin : forall j, V' j = true <-> V j = true /\ (j <> c /\ j <> buddy_of c)).
  { intros j. rewrite HV', !andb_true_iff, !negb_true_iff, !bool_decide_eq_false, <- Hcc. naive_solver. }
  unfold allocated. rewrite Hin, <- !not_true_iff_false, Hin. destruct (decide (i = p)) as [->|Hne].
  - assert (left_of p = c \/ left_of p = buddy_of c) as Hlp
      by (destruct Hcase as [[-> ->]|[-> ->]]; auto).
    assert (p <> c /\ p <> buddy_of c) by (apply Hcc; unfold left_of, right_of; lia).
    rewrite HFq. naive_solver.
  - assert (left_of i <> c /\ left_of i <> buddy_of c) as Hli
      by (apply Hcc; unfold left_of, right_of; lia).
    split; [naive_solver|]. intros [[(Ha & Hb & Hd) Hi]|?]; [|done].
    split_and!; naive_solver congruence.
Qed.
End merge.

(** Returning a block in hand to its free list. *)
Section give.
Context V F (I : tree_inv V F) (m : Z) (Hm : allocated V F m)
  (Hbud : 0 < m -> F (buddy_of m) = false).

Lemma give_inv : tree_inv V (<[m := true]> F).
Proof.
  destruct (no_children_of_allocated _ _ I _ Hm) as [Hl Hr].
  split; unfold insert, fn_insert.
  - apply I.
  - apply I.
  - intros i Hi Hi0. destruct (ti_parent _ _ I i Hi Hi0) as [Ha Hb]. case_decide; [|done].
    destruct (index_cases i Hi0) as (p & Hp & Hpp & [[E _]|[E _]]); rewrite Hpp in *; subst; congruence.
  - apply I.
  - intros i Hi Hf Hi0. destruct (decide (m = i)) as [->|].
    + rewrite decide_False; [auto|]. unfold buddy_of. case_match; lia.
    + destruct (decide (m = buddy_of i)) as [Hmi|].
      * assert (buddy_of m = i) as Hbm.
        { rewrite Hmi. destruct (index_cases i Hi0) as (p & Hp & _ & [[-> ->]|[-> ->]]);
            by autorewrite with kernel_rw. }
        rewrite Hbm in Hbud. rewrite Hbud in Hf; [done|].
        destruct (ti_range _ _ I m) as [? _]; [apply Hm|].
        destruct (index_cases i Hi0) as (p & Hp & _ & [[-> E2]|[-> E2]]); rewrite E2 in Hmi;
          unfold left_of, right_of in Hmi; lia.
      * by apply (ti_coalesced _ _ I).
Qed.

Lemma give_allocated i : allocated V (<[m := true]> F) i <-> allocated V F i /\ i <> m.
Proof using Type. unfold allocated, insert, fn_insert. clear. case_decide; naive_solver. Qed.
End give.

(** ** Subtrees, and what the invariant says about them *)

(** [below a d]: block [d] lies in the subtree of block [a]. *)
Inductive below (a : Z) : Z -> Prop :=
  | below_refl : below a a
  | below_step d : 0 < d -> below a (parent_of d) -> below a d.

Lemma below_trans a b d : below a b -> below b d -> below a d.
Proof. intros H. induction 1; [done|by constructor]. Qed.

Lemma below_root d : 0 <= d -> below 0 d.
Proof.
  remember (Z.to_nat d) as n eqn:Hn. revert d Hn. induction n as [n IH] using lt_wf_ind. intros d Hn Hd.
  destruct (Z.eq_dec d 0) as [->|Hne]; [constructor|]. pose proof (parent_range d ltac:(lia)).
  apply below_step; [lia|]. apply (IH (Z.to_nat (parent_of d))); lia.
Qed.

Lemma below_children a d : 0 <= a -> below a d -> d = a \/ below (left_of a) d \/ below (right_of a) d.
Proof.
  intros Ha. induction 1 as [|d Hd Hb IH]; [by left|]. right. destruct IH as [IH|[IH|IH]].
  - destruct (index_cases d Hd) as (p & Hp & E & [[-> _]|[-> _]]); rewrite IH in E; subst p;
      [left|right]; constructor.
  - left. by constructor.
  - right. by constructor.
Qed.

Lemma below_ge a d : 0 <= a -> below a d -> 0 <= d /\ depth a <= depth d.
Proof.
  intros Ha. induction 1 as [|d Hd Hb IH]; [lia|]. rewrite (depth_parent d Hd) in IH. lia.
Qed.

(** Two blocks whose subtrees share a block are nested. *)
Lemma below_total a b d : below a d -> below b d -> below a b \/ below b a.
Proof.
  induction 1 as [|d Hd Ha IH]; [by right|]. inversion 1 as [|? ? Hb]; subst.
  - left. by constructor.
  - auto.
Qed.

Section canonical.
Context V F (I : tree_inv V F).

Lemma below_valid a d : below a d -> V d = true -> V a = true.
Proof. induction 1 as [|d Hd Hb IH]; intros HV; [done|]. apply IH, (ti_parent _ _ I); done. Qed.

(** Everything above a valid block is split. *)
Lemma below_split a d : 0 <= a -> below a d -> V d = true -> d = a \/ V (left_of a) = true.
Proof.
  intros Ha Hb HV. destruct (below_children a d Ha Hb) as [?|[H|H]]; [by left|right..].
  - by apply (below_valid _ d).
  - apply (valid_children _ _ I a Ha). by apply (below_valid _ d).
Qed.

(** A block that is in use has a handed-out block below it. *)
Lemma allocated_below i : V i = true -> F i = false -> exists d, below i d /\ allocated V F d.
Proof.
  remember (Z.to_nat (height - depth i)) as n eqn:Hn. revert i Hn.
  induction n as [|n IH]; intros i Hn HV HF; destruct (ti_range _ _ I i HV) as [Hi Hd];
    destruct (block_cases _ _ I i HV) as [[_ ?]|[?|(_ & Hl & Hr)]]; try congruence;
    try (exists i; by split; [constructor|]).
  - apply (ti_range _ _ I) in Hl. rewrite depth_left in Hl; lia.
  - pose proof (depth_left i Hi) as HdL. pose proof (depth_right i Hi) as HdR.
    assert (left_of i > 0) by (unfold left_of; lia).
    assert (F (left_of i) = false \/ F (right_of i) = false) as [E|E].
    { destruct (F (left_of i)) eqn:E; [right|by left].
      apply (ti_coalesced _ _ I) in E; [by rewrite buddy_left in E|done|lia]. }
    + destruct (IH (left_of i)) as (d & Hb & ?); [lia|done..|].
      exists d. split; [|done]. apply (below_trans _ (left_of i)); [|done].
      constructor; [lia|]. rewrite parent_left. constructor.
    + destruct (IH (right_of i)) as (d & Hb & ?); [lia|done..|].
      exists d. split; [|done]. apply (below_trans _ (right_of i)); [|done].
      constructor; [unfold right_of; lia|]. rewrite parent_right. constructor.
Qed.

Lemma valid_spec i : V i = true <->
  i = 0 \/ (0 < i /\ exists d, allocated V F d /\ below (parent_of i) d /\ d <> parent_of i).
Proof.
  split.
  - intros HV. destruct (decide (i = 0)) as [|Hne]; [by left|right].
    destruct (ti_range _ _ I i HV) as [Hi _]. assert (0 < i) as Hpos by lia. split; [done|].
    destruct (ti_parent _ _ I i HV Hpos) as [HVp HFp].
    destruct (allocated_below _ HVp HFp) as (d & Hb & Hd). exists d. split_and!; [done..|].
    intros ->. pose proof (proj2 (proj2 Hd)) as Hl. pose proof (ti_buddy _ _ I i HV Hpos) as HB.
    destruct (index_cases i Hpos) as (p & Hp & Hpp & [[Ea Eb]|[Ea Eb]]); rewrite Hpp in Hl; congruence.
  - intros [->|(Hpos & d & (HVd & HFd & _) & Hb & Hne)]; [apply I|].
    destruct (parent_range i Hpos) as [Hp0 _].
    destruct (below_split _ _ Hp0 Hb HVd) as [?|Hl]; [done|].
    destruct (index_cases i Hpos) as (p & Hp & Hpp & [[-> _]|[-> _]]); rewrite Hpp in *; [done|].
    by apply (valid_children _ _ I p).
Qed.

Lemma free_spec i : free V F i <-> V i = true /\ forall d, below i d -> ~ allocated V F d.
Proof.
  split.
  - intros Hf. split; [apply Hf|]. intros d Hb (HVd & HFd & _).
    destruct (no_children_of_free _ _ I _ Hf) as [Hl _].
    destruct (ti_range _ _ I i) as [Hi _]; [apply Hf|].
    destruct (below_split i d Hi Hb HVd) as [->|?]; [|congruence]. destruct Hf; congruence.
  - intros [HV Hno]. split; [done|]. destruct (F i) eqn:E; [done|].
    destruct (allocated_below i HV E) as (d & Hb & Hd). by destruct (Hno d Hb).
Qed.

(** [b] is a leaf of the tree of valid blocks. *)
Abbreviation leaf b := (free V F b \/ allocated V F b).

(** Nothing valid lies strictly below a leaf. *)
Lemma leaf_below b b' : leaf b -> below b b' -> V b' = true -> b' = b.
Proof.
  intros Hb Hbb HV'. assert (V b = true) as HVb by (destruct Hb as [[??]|[??]]; done).
  destruct (ti_range _ _ I b HVb) as [Hb0 _].
  destruct (below_split b b' Hb0 Hbb HV') as [?|Hl]; [done|].
  destruct Hb as [[?]%(no_children_of_free _ _ I)|[?]%(no_children_of_allocated _ _ I)]; congruence.
Qed.

(** Walking up from a block without valid children reaches a leaf. *)
Lemma leaf_above y : 0 <= y -> V (left_of y) = false -> exists b, below b y /\ leaf b.
Proof.
  intros Hy0. remember (Z.to_nat y) as n eqn:Hn. revert y Hy0 Hn.
  induction n as [n IH] using lt_wf_ind. intros y Hy0 Hn Hl. destruct (V y) eqn:HV.
  - exists y. split; [constructor|]. destruct (block_cases _ _ I y HV) as [?|[?|(_ & ? & _)]]; auto; congruence.
  - assert (0 < y) as Hy.
    { destruct (decide (y = 0)) as [->|]; [|lia]. pose proof (ti_root _ _ I). congruence. }
    destruct (parent_range y Hy) as [Hp Hlt].
    destruct (IH (Z.to_nat (parent_of y)) ltac:(lia) (parent_of y)) as (b & Hb & Hleaf); [lia|lia|..].
    + destruct (index_cases y Hy) as (p & Hp0 & -> & [[-> Hbd]|[-> Hbd]]); [done|].
      destruct (V (left_of p)) eqn:E; [|done]. apply (valid_children _ _ I) in E; [congruence|done].
    + exists b. split; [by constructor|done].
Qed.

(** The blocks that are free or handed out partition the managed region:
    every smallest block has exactly one of them above it. *)
Lemma leaf_partition x : 0 <= x -> depth x = height -> exists! b, below b x /\ leaf b.
Proof.
  intros Hx Hdx. destruct (leaf_above x Hx) as (b & Hb & Hs).
  { destruct (V (left_of x)) eqn:E; [|done].
    apply (ti_range _ _ I) in E. rewrite depth_left in E; lia. }
  exists b. split; [done|]. intros b' [Hb' Hs'].
  assert (V b = true /\ V b' = true) as [??] by (destruct Hs as [[]|[]], Hs' as [[]|[]]; done).
  destruct (below_total b b' x Hb Hb') as [Hn|Hn]; [symmetry|]; by eapply leaf_below.
Qed.
End canonical.

(** The free blocks are determined by the handed-out ones. *)
Lemma free_canonical V F V' F' :
  tree_inv V F -> tree_inv V' F' -> (forall i, allocated V F i <-> allocated V' F' i) ->
  forall i, free V F i <-> free V' F' i.
Proof.
  intros I I' HA i. rewrite (free_spec _ _ I), (free_spec _ _ I'), (valid_spec _ _ I), (valid_spec _ _ I').
  setoid_rewrite HA. done.
Qed.
End tree.
