(* ===== verification/CircList.v ===== *)
(** * Circular doubly linked lists

    The free lists of mm/page_alloc.cpp are circular: the [next] of the last
    block is the first one and the [prev] of the first block is the last one.
    [cyc nx pv l] says that following [nx] from the head of [l] visits exactly
    [l] and returns to its head, and that [pv] is the way back. *)
From S2P Require Import Prelude.

Section circ.
Implicit Types (nx pv : Z -> option Z) (l : list Z).

(** Consecutive elements are linked both ways. *)
Fixpoint chain nx pv l : Prop :=
  match l with
  | a :: ((b :: _) as t) => nx a = Some b /\ pv b = Some a /\ chain nx pv t
  | _ => True
  end.

Definition cyc nx pv l : Prop :=
  match l with [] => True | x :: _ => chain nx pv (l ++ [x]) end.

Lemma chain_app nx pv l1 a l2 :
  chain nx pv (l1 ++ a :: l2) <-> chain nx pv (l1 ++ [a]) /\ chain nx pv (a :: l2).
Proof.
  induction l1 as [|x l1 IH]; [simpl; tauto|].
  destruct l1 as [|y l1]; simpl in *; [destruct l2; tauto|]. rewrite IH. tauto.
Qed.

Lemma chain_snoc nx pv l a b :
  chain nx pv (l ++ [a; b]) <-> chain nx pv (l ++ [a]) /\ nx a = Some b /\ pv b = Some a.
Proof. rewrite chain_app. simpl. tauto. Qed.

(** Only the [next] of the elements before the last one and the [prev] of the
    elements after the first one matter. *)
Lemma chain_ext nx pv nx' pv' l a z :
  (forall x, x ∈ a :: l -> nx x = nx' x) -> (forall x, x ∈ l ++ [z] -> pv x = pv' x) ->
  chain nx pv (a :: l ++ [z]) <-> chain nx' pv' (a :: l ++ [z]).
Proof.
  revert a. induction l as [|b l IH]; intros a Hn Hp; simpl.
  - rewrite Hn, Hp by set_solver. done.
  - rewrite (Hn a), (Hp b) by set_solver. simpl in IH. rewrite IH; [done|set_solver..].
Qed.

Lemma cyc_ext nx pv nx' pv' l :
  (forall x, x ∈ l -> nx x = nx' x /\ pv x = pv' x) -> cyc nx pv l <-> cyc nx' pv' l.
Proof.
  intros H. destruct l as [|a l]; [done|]. apply chain_ext; set_solver.
Qed.

(** The list can be entered at any of its elements. *)
Lemma cyc_rotate nx pv l1 l2 : cyc nx pv (l1 ++ l2) <-> cyc nx pv (l2 ++ l1).
Proof.
  destruct l1 as [|a l1], l2 as [|b l2]; rewrite ?app_nil_r; try done.
  cbn [cyc app]. rewrite <- !app_assoc, !app_comm_cons. cbn [app]. rewrite (chain_app _ _ (a :: l1) b (l2 ++ [a])).
  rewrite (chain_app _ _ (b :: l2) a (l1 ++ [b])). tauto.
Qed.

Lemma cyc_last nx pv x l : cyc nx pv (x :: l) -> exists w, last (x :: l) = Some w /\ pv x = Some w /\ nx w = Some x.
Proof.
  intros H. destruct (exists_last (l := x :: l) ltac:(done)) as (r & w & E). exists w.
  unfold cyc in H. rewrite E in *. rewrite last_snoc, <- app_assoc in *. simpl in H.
  apply chain_snoc in H. naive_solver.
Qed.

Lemma cyc_next nx pv x y l : cyc nx pv (x :: y :: l) -> nx x = Some y /\ pv y = Some x.
Proof. simpl. naive_solver. Qed.

Lemma cyc_single nx pv x : cyc nx pv [x] <-> nx x = Some x /\ pv x = Some x.
Proof. simpl. naive_solver. Qed.

(** Appending [y] before the head [x], between the last element and [x]. *)
Lemma cyc_append nx pv x l w y :
  cyc nx pv (x :: l) -> NoDup (x :: l) -> y ∉ x :: l -> pv x = Some w ->
  cyc (<[y := Some x]> (<[w := Some y]> nx)) (<[y := Some w]> (<[x := Some y]> pv)) (x :: l ++ [y]).
Proof.
  intros Hc Hnd Hy Hw. destruct (cyc_last _ _ _ _ Hc) as (w' & Hl & Hw' & _).
  assert (w' = w) as -> by congruence. clear Hw'.
  destruct (exists_last (l := x :: l) ltac:(done)) as (r & w' & E).
  rewrite E, last_snoc in Hl. injection Hl as ->.
  unfold cyc in *. rewrite !app_comm_cons, E in *. rewrite <- !app_assoc in *. simpl in *.
  apply chain_snoc in Hc as [Hc _].
  rewrite (chain_app _ _ r w [y; x]). split.
  - destruct r as [|a r]; [done|]. simpl. simpl in *.
    assert (a = x) as -> by (by injection E). apply NoDup_cons in Hnd as [Hx Hnd].
    apply NoDup_app in Hnd as (_ & Hrw & _).
    eapply chain_ext; [..|exact Hc]; intros z Hz; unfold insert, fn_insert; repeat case_decide; subst; set_solver.
  - assert (y <> w) by set_solver. assert (x ∈ r ++ [w]) by (rewrite <- E; set_solver).
    assert (y <> x) by set_solver.
    simpl. unfold insert, fn_insert. repeat case_decide; subst; congruence || done.
Qed.

(** Unlinking the head [y] of a list of at least two elements. *)
Lemma cyc_unlink_head nx pv y z r w :
  cyc nx pv (y :: z :: r) -> NoDup (y :: z :: r) -> pv y = Some w ->
  cyc (<[w := Some z]> nx) (<[z := Some w]> pv) (z :: r).
Proof.
  intros Hc Hnd Hw. destruct (cyc_last _ _ _ _ Hc) as (w' & Hl & Hw' & _).
  assert (w' = w) as -> by congruence. clear Hw'.
  destruct (exists_last (l := z :: r) ltac:(done)) as (r' & w' & E).
  change (y :: z :: r) with ([y] ++ (z :: r)) in Hl. rewrite E, app_assoc, last_snoc in Hl.
  injection Hl as ->. unfold cyc in *. destruct Hc as (_ & _ & Hc).
  change (chain nx pv ((z :: r) ++ [y])) in Hc.
  apply NoDup_cons in Hnd as [Hy Hnd]. rewrite E in *. rewrite <- app_assoc in *. simpl in *.
  apply chain_snoc in Hc as [Hc _]. apply chain_snoc. split.
  - destruct r' as [|a r']; [done|]. simpl in *. assert (a = z) as -> by (by injection E).
    apply NoDup_cons in Hnd as [Hz Hnd]. apply NoDup_app in Hnd as (_ & Hrw & _).
    eapply chain_ext; [..|exact Hc]; intros u Hu; unfold insert, fn_insert; case_decide; subst; set_solver.
  - unfold insert, fn_insert. by rewrite !decide_True.
Qed.
End circ.
