(* ===== verification/Buddy.v ===== *)
(** * mm/page_alloc.cpp: the buddy allocator

    A [Block *] of the source always points into the array [blocks] or is null;
    it is modelled as an optional index.  Dereferencing null or an index outside
    [0, max_blocks), and indexing [buckets] outside its 17 entries, is [Fault].
    The array of blocks is a finite map in which an absent index holds the value
    the static initialiser gives every block. *)
From S2P Require Import Prelude LibUtils CpuDefs.

Module Buddy.
Import Utils.

Record Block := mkBlock {
  valid : bool;
  available : bool;
  prev : option Z;
  next : option Z
}.

(** [Block() = default] and [Block(u8 available)]. *)
Definition Block_default : Block := mkBlock false true None None.
Definition Block_new (available : bool) : Block := mkBlock false available None None.

Definition set_valid (v : bool) (b : Block) : Block := mkBlock v (available b) (prev b) (next b).
Definition set_available (a : bool) (b : Block) : Block := mkBlock (valid b) a (prev b) (next b).
Definition set_prev (p : option Z) (b : Block) : Block := mkBlock (valid b) (available b) p (next b).
Definition set_next (n : option Z) (b : Block) : Block := mkBlock (valid b) (available b) (prev b) n.

Record Bucket := mkBucket {
  log2size : Z;
  allocated_blocks : Z;
  available_blocks : Z;
  first_block : option Z
}.

Definition set_allocated_blocks (n : Z) (b : Bucket) : Bucket :=
  mkBucket (log2size b) n (available_blocks b) (first_block b).
Definition set_available_blocks (n : Z) (b : Bucket) : Bucket :=
  mkBucket (log2size b) (allocated_blocks b) n (first_block b).
Definition set_first_block (p : option Z) (b : Bucket) : Bucket :=
  mkBucket (log2size b) (allocated_blocks b) (available_blocks b) p.

Definition BlockSize : Z := 16 * PAGE_SIZE.
Definition MaxBlocks : Z := 4 * 1024 * 1024 * 1024 / BlockSize.

Record BuddyAllocator := mkBuddy {
  phy_start : Z;
  root_log2size : Z;
  blocks : gmap Z Block;
  max_blocks : Z;
  buckets : list Bucket
}.

Definition with_blocks (bs : gmap Z Block) (s : BuddyAllocator) : BuddyAllocator :=
  mkBuddy (phy_start s) (root_log2size s) bs (max_blocks s) (buckets s).
Definition with_buckets (bs : list Bucket) (s : BuddyAllocator) : BuddyAllocator :=
  mkBuddy (phy_start s) (root_log2size s) (blocks s) (max_blocks s) bs.

Abbreviation M := (ST BuddyAllocator).

(** ** Memory accesses *)

Definition blk (s : BuddyAllocator) (i : Z) : Block := default Block_default (blocks s !! i).

(** [*p] *)
Definition load (p : option Z) : M Block := fun s =>
  match p with
  | Some i => if (0 <=? i) && (i <? max_blocks s) then Ret (blk s i, s) else Fault
  | None => Fault
  end.

(** [p->field = ...] *)
Definition store (p : option Z) (f : Block -> Block) : M unit := fun s =>
  match p with
  | Some i =>
      if (0 <=? i) && (i <? max_blocks s)
      then Ret (tt, with_blocks (<[i := f (blk s i)]> (blocks s)) s)
      else Fault
  | None => Fault
  end.

(** [buckets[i]] *)
Definition bucket_at (i : Z) : M Bucket := fun s =>
  match (if 0 <=? i then buckets s !! Z.to_nat i else None) with
  | Some b => Ret (b, s)
  | None => Fault
  end.

Definition update_bucket (i : Z) (f : Bucket -> Bucket) : M unit := fun s =>
  match (if 0 <=? i then buckets s !! Z.to_nat i else None) with
  | Some b => Ret (tt, with_buckets (<[Z.to_nat i := f b]> (buckets s)) s)
  | None => Fault
  end.

(** ** Tree navigation *)

Definition get_left (s : BuddyAllocator) (offset : Z) : option Z :=
  let l := wrap64 (2 * offset + 1) in
  if max_blocks s <=? l then None else Some l.

Definition get_right (s : BuddyAllocator) (offset : Z) : option Z :=
  let r := wrap64 (2 * offset + 2) in
  if max_blocks s <=? r then None else Some r.

Definition get_parent (offset : Z) : option Z :=
  if offset =? 0 then None else Some ((offset - 1) / 2).

Definition get_buddy (offset : Z) : option Z :=
  if offset =? 0 then None
  else if offset mod 2 =? 0 then Some (offset - 1)
  else Some (offset + 1).

Definition block_log2size (s : BuddyAllocator) (block : Z) : Z :=
  wrap64 (root_log2size s - log2 (wrap64 (block + 1))).

Definition get_block_phy_addr (s : BuddyAllocator) (block : Z) : Z :=
  wrap64 (phy_start s + block * BlockSize).

(** [get_bucket] is an index computation. *)
Definition get_bucket (log2size : Z) : Z := wrap64 (log2size - Log2MinSize).

(** ** The free lists *)

Definition remove_from_available_list (block : Z) : M unit :=
  s ← get;
  let bucket := wrap64 (block_log2size s block - Log2MinSize) in
  bk ← bucket_at bucket;
  b ← load (Some block);
  (if bool_decide (first_block bk = Some block) then
     if bool_decide (next b = Some block) then update_bucket bucket (set_first_block None)
     else update_bucket bucket (set_first_block (next b))
   else mret tt);;
  b ← load (Some block);
  (match prev b with Some p => store (Some p) (set_next (next b)) | None => mret tt end);;
  (match next b with Some n => store (Some n) (set_prev (prev b)) | None => mret tt end);;
  update_bucket bucket (fun bk => set_available_blocks (wrap64 (available_blocks bk - 1)) bk).

Definition add_to_available_list (block : Z) : M unit :=
  s ← get;
  let bucket := wrap64 (block_log2size s block - Log2MinSize) in
  bk ← bucket_at bucket;
  (match first_block bk with
   | None =>
       store (Some block) (set_next (Some block));;
       store (Some block) (set_prev (Some block));;
       update_bucket bucket (set_first_block (Some block))
   | Some first =>
       f ← load (Some first);
       let last := prev f in
       store (Some first) (set_prev (Some block));;
       store last (set_next (Some block));;
       store (Some block) (set_next (Some first));;
       store (Some block) (set_prev last)
   end);;
  update_bucket bucket (fun bk => set_available_blocks (wrap64 (available_blocks bk + 1)) bk).

(** ** Allocation *)

(** Lines 204-214 of [alloc_block_size]: halve the block the recursion returned,
    keep the left half and list the right one. *)
Definition split_block (parent_block : Z) : M (option Z) :=
  s ← get;
  let left := get_left s parent_block in
  let right := get_right s parent_block in
  store left (set_available false);;
  store left (set_valid true);;
  store right (set_available true);;
  store right (set_valid true);;
  match right with Some r => add_to_available_list r | None => fault end;;
  mret left.

(** The recursion climbs from [log2size] to at most [root_log2size]. *)
Fixpoint alloc_block_size_fuel (fuel : nat) (log2size : Z) : M (option Z) :=
  match fuel with
  | O => out_of_fuel
  | S fuel =>
      s ← get;
      if root_log2size s <? log2size then mret None
      else
        bk ← bucket_at (wrap64 (log2size - Log2MinSize));
        match first_block bk with
        | None =>
            parent ← alloc_block_size_fuel fuel (wrap64 (log2size + 1));
            match parent with
            | None => mret None
            | Some parent_block => split_block parent_block
            end
        | Some first =>
            store (Some first) (set_available false);;
            remove_from_available_list first;;
            mret (Some first)
        end
  end.

Definition alloc_block_size (log2size : Z) : M (option Z) :=
  s ← get;
  alloc_block_size_fuel (S (Z.to_nat (root_log2size s + 1 - log2size))) log2size.

Definition allocate_pages (log2size : Z) : M Z :=
  if log2size <? Log2MinSize
  then panic "Failed to allocate pages, log2size < Log2MinSize"
  else
    block ← alloc_block_size log2size;
    match block with
    | None => mret 0
    | Some b =>
        update_bucket (get_bucket log2size)
          (fun bk => set_allocated_blocks (wrap64 (allocated_blocks bk + 1)) bk);;
        gets (fun s => get_block_phy_addr s b)
    end.

(** ** Release *)

(** Lines 253-260 of [try_merge_with_buddy]: the buddy is available. *)
Definition merge_round (block buddy parent : Z) : M unit :=
  remove_from_available_list buddy;;
  store (Some buddy) (set_valid false);;
  p ← load (Some parent);
  do_assert (negb (available p)) "inconsistent data structure, parent should not be available";;
  p ← load (Some parent);
  do_assert (valid p) "inconsistent data structure, parent should be valid";;
  store (Some parent) (set_available true);;
  store (Some block) (set_valid false).

(** The recursion climbs to the parent, so the depth of the block bounds it. *)
Fixpoint try_merge_with_buddy_fuel (fuel : nat) (block : Z) : M Z :=
  match fuel with
  | O => out_of_fuel
  | S fuel =>
      match get_parent block with
      | None => mret block
      | Some parent =>
          match get_buddy block with
          | None => mret block
          | Some buddy =>
              bd ← load (Some buddy);
              if negb (available bd) then mret block
              else
                merge_round block buddy parent;;
                try_merge_with_buddy_fuel fuel parent
          end
      end
  end.

Definition try_merge_with_buddy (block : Z) : M Z :=
  try_merge_with_buddy_fuel (S (Z.to_nat (Z.log2 (block + 1)))) block.

Definition free_pages (addr : Z) : M unit :=
  s ← get;
  let block := wrap64 (addr - phy_start s) / BlockSize in
  do_assert (wrap64 (addr - phy_start s) mod BlockSize =? 0) "Failed to free pages, addr is not aligned";;
  b ← load (Some block);
  do_assert (negb (available b)) "Cannot free available pages";;
  merged_block ← try_merge_with_buddy block;
  store (Some merged_block) (set_available true);;
  add_to_available_list merged_block;;
  s ← get;
  update_bucket (get_bucket (block_log2size s block))
    (fun bk => set_allocated_blocks (wrap64 (allocated_blocks bk - 1)) bk).

(** ** Construction *)

(** [BuddyAllocator(addr, log2size, base, max_blocks)] on a block array with
    contents [base]. *)
Definition BuddyAllocator_new (addr log2size : Z) (base : gmap Z Block) (max_blocks : Z)
    : outcome BuddyAllocator :=
  let root := set_prev (Some 0) (set_next (Some 0) (set_valid true (Block_new true))) in
  let bks := (fun i => mkBucket (Log2MinSize + Z.of_nat i) 0 0 None)
               <$> seq 0 (Z.to_nat (Log2MaxSize - Log2MinSize + 1)) in
  let s := mkBuddy addr log2size (<[0 := root]> base) max_blocks bks in
  match update_bucket (wrap64 (log2size - Log2MinSize)) (set_first_block (Some 0)) s with
  | Ret (_, s) => Ret s
  | Panic m => Panic m | Halt => Halt | Fault => Fault | OutOfFuel => OutOfFuel
  end.

(** [preallocated_blocks] is statically initialised. *)
Definition preallocated_blocks : gmap Z Block := ∅.

End Buddy.
