(* ===== verification/BuddyInv.v ===== *)
(** * The invariant of the buddy allocator: free lists

    This file relates the linked lists in the [blocks] array to mathematical
    lists and proves what [add_to_available_list] and
    [remove_from_available_list] do to them.  The set of blocks that are on a
    free list is a parameter [P]; BuddyProofs.v instantiates it with the free
    blocks of the buddy tree. *)
From S2P Require Import Prelude LibUtils CpuDefs BuddyTree CircList Buddy.
Import Utils Buddy.

(** ** Observations of a state *)

Definition V (s : BuddyAllocator) (i : Z) : bool := valid (blk s i).
Definition A (s : BuddyAllocator) (i : Z) : bool := available (blk s i).
Definition nx (s : BuddyAllocator) (i : Z) : option Z := next (blk s i).
Definition pv (s : BuddyAllocator) (i : Z) : option Z := prev (blk s i).

(** The size class of block [i]. *)
Definition level (s : BuddyAllocator) (i : Z) : Z := root_log2size s - depth i.

(** [i] is a block of the managed region. *)
Definition in_region (s : BuddyAllocator) (i : Z) : Prop := 0 <= i /\ Log2MinSize <= level s i.

(** The array holds every block of the region, and indices do not overflow. *)
Record params (s : BuddyAllocator) : Prop := {
  pr_root : Log2MinSize <= root_log2size s <= Log2MaxSize;
  pr_max : 2 ^ (root_log2size s - Log2MinSize + 1) - 1 <= max_blocks s <= 2 ^ 32;
  pr_buckets : length (buckets s) = 17%nat
}.

(** What no operation changes. *)
Definition same_config (s s' : BuddyAllocator) : Prop :=
  phy_start s' = phy_start s /\ root_log2size s' = root_log2size s /\
  max_blocks s' = max_blocks s /\ length (buckets s') = length (buckets s).

#[export] Instance same_config_equiv : Equivalence same_config.
Proof.
  split; [by repeat split|by intros s1 s2 (?&?&?&?)|].
  intros s1 s2 s3 (?&?&?&?) (?&?&?&?). repeat split; congruence.
Qed.

Lemma params_config s s' : same_config s s' -> params s -> params s'.
Proof. intros (_ & Hr & Hm & Hl) [H1 H2 H3]. split; rewrite ?Hr, ?Hm, ?Hl; done. Qed.

Lemma level_config s s' i : same_config s s' -> level s' i = level s i.
Proof. intros (_ & Hr & _). unfold level. by rewrite Hr. Qed.

Lemma in_region_config s s' i : same_config s s' -> in_region s' i <-> in_region s i.
Proof. intros Hc. unfold in_region. by rewrite (level_config _ _ _ Hc). Qed.

(** ** Primitive accesses on blocks of the region *)

Definition st (s : BuddyAllocator) (i : Z) (f : Block -> Block) : BuddyAllocator :=
  with_blocks (<[i := f (blk s i)]> (blocks s)) s.
Definition ub (s : BuddyAllocator) (n : nat) (b : Bucket) : BuddyAllocator :=
  with_buckets (<[n := b]> (buckets s)) s.

Lemma in_region_index s i : params s -> in_region s i -> 0 <= i < max_blocks s.
Proof.
  intros [H1 H2 _] [Hi Hl]. split; [done|]. unfold level in Hl.
  assert (i < 2 ^ (root_log2size s - Log2MinSize + 1) - 1); [|lia].
  apply depth_bound; unfold Log2MinSize in *; lia.
Qed.

Lemma in_region_small s i : params s -> in_region s i -> 0 <= i < 2 ^ 32.
Proof. intros Hp Hi. pose proof (in_region_index s i Hp Hi). destruct Hp. lia. Qed.

Lemma load_ok s i : 0 <= i < max_blocks s -> load (Some i) s = Ret (blk s i, s).
Proof.
  intros H. unfold load. by rewrite (proj2 (Z.leb_le _ _)), (proj2 (Z.ltb_lt _ _)) by lia.
Qed.
Lemma store_ok s i f : 0 <= i < max_blocks s -> store (Some i) f s = Ret (tt, st s i f).
Proof.
  intros H. unfold store. by rewrite (proj2 (Z.leb_le _ _)), (proj2 (Z.ltb_lt _ _)) by lia.
Qed.
Lemma bucket_at_ok s i b : 0 <= i -> buckets s !! Z.to_nat i = Some b -> bucket_at i s = Ret (b, s).
Proof. intros H E. unfold bucket_at. by rewrite (proj2 (Z.leb_le _ _)), E by lia. Qed.
Lemma update_bucket_ok s i f b :
  0 <= i -> buckets s !! Z.to_nat i = Some b -> update_bucket i f s = Ret (tt, ub s (Z.to_nat i) (f b)).
Proof. intros H E. unfold update_bucket. by rewrite (proj2 (Z.leb_le _ _)), E by lia. Qed.

Lemma blk_st s i f j : blk (st s i f) j = if decide (i = j) then f (blk s i) else blk s j.
Proof. unfold blk, st. simpl. rewrite lookup_insert. by case_decide. Qed.
Lemma blk_ub s n b j : blk (ub s n b) j = blk s j.
Proof. done. Qed.
Lemma buckets_st s i f : buckets (st s i f) = buckets s.
Proof. done. Qed.
Lemma config_st s i f : same_config s (st s i f).
Proof. by repeat split. Qed.
Lemma config_ub s n b : same_config s (ub s n b).
Proof. repeat split; simpl. by rewrite length_insert. Qed.

#[export] Hint Resolve config_st config_ub : kernel.
#[export] Hint Rewrite blk_ub buckets_st : kernel_rw.

(** The size class of a block of the region, and the index of its bucket. *)
Lemma block_log2size_eq s i : params s -> in_region s i -> block_log2size s i = level s i.
Proof.
  intros Hp Hi. pose proof (in_region_small s i Hp Hi) as Hs. destruct Hp as [Hr _ _].
  destruct Hi as [Hi Hl]. unfold block_log2size.
  rewrite (wrap_small 64 (i + 1)) by (unfold uint; lia). rewrite log2_eq by lia.
  pose proof (depth_nonneg i) as Hd. unfold level, depth in *.
  apply wrap_small. unfold uint, Log2MinSize, Log2MaxSize in *. lia.
Qed.

Lemma bucket_index_eq k : Log2MinSize <= k <= Log2MaxSize -> wrap64 (k - Log2MinSize) = k - Log2MinSize.
Proof. intros H. apply wrap_small. unfold uint, Log2MinSize, Log2MaxSize in *. lia. Qed.

Lemma level_range s i : params s -> in_region s i -> Log2MinSize <= level s i <= Log2MaxSize.
Proof. intros [Hr _ _] [_ Hl]. pose proof (depth_nonneg i). unfold level in *. lia. Qed.

(** ** The free lists *)

(** The bucket of size class [k] heads the circular list [l], which holds the
    blocks of [P] of that class.  The counter [available_blocks] misses one in
    the root's bucket, because the constructor links the root without counting
    it. *)
Record list_ok (s : BuddyAllocator) (P : Z -> Prop) (k : Z) (l : list Z) : Prop := {
  lo_nodup : NoDup l;
  lo_cyc : cyc (nx s) (pv s) l;
  lo_elem i : i ∈ l <-> P i /\ level s i = k;
  lo_bucket : exists bk, buckets s !! Z.to_nat (k - Log2MinSize) = Some bk /\
    first_block bk = head l /\
    available_blocks bk = wrap64 (Z.of_nat (length l) - if decide (k = root_log2size s) then 1 else 0)
}.

Record lists (s : BuddyAllocator) (P : Z -> Prop) : Prop := {
  ls_region i : P i -> in_region s i;
  ls_list k : Log2MinSize <= k <= Log2MaxSize -> exists l, list_ok s P k l
}.

(** Replacing the list of one size class. *)
Lemma lists_update s s' (P P' : Z -> Prop) k l' :
  same_config s s' -> lists s P -> (forall i, P' i -> in_region s i) ->
  (forall i, level s i <> k -> (P' i <-> P i)) -> list_ok s' P' k l' ->
  (forall i, P i -> level s i <> k -> nx s' i = nx s i /\ pv s' i = pv s i) ->
  (forall n, n <> Z.to_nat (k - Log2MinSize) -> buckets s' !! n = buckets s !! n) ->
  Log2MinSize <= k -> lists s' P'.
Proof.
  intros Hc [Hreg Hlist] Hreg' HP Hl' Hlinks Hbk Hk. split.
  - intros i Hi. apply (in_region_config _ _ _ Hc). auto.
  - intros k' Hk'. destruct (decide (k' = k)) as [->|Hne]; [eauto|].
    destruct (Hlist k' Hk') as (l & [H1 H2 H3 (bk & H4 & H5 & H6)]). exists l. split.
    + done.
    + eapply cyc_ext; [|exact H2]. intros i [Hi E]%H3. by apply Hlinks; [|congruence].
    + intros i. rewrite H3, (level_config _ _ _ Hc). split; intros [? E]; (split; [|done]); apply HP; congruence.
    + exists bk. rewrite Hbk by lia. destruct Hc as (_ & -> & _). done.
Qed.

(** Changing flags only. *)
Lemma lists_flags s s' (P P' : Z -> Prop) :
  same_config s s' -> (forall i, nx s' i = nx s i /\ pv s' i = pv s i) -> buckets s' = buckets s ->
  (forall i, P' i <-> P i) -> lists s P -> lists s' P'.
Proof.
  intros Hc Hlinks Hbk HP [Hreg Hlist]. split.
  - intros i Hi. apply (in_region_config _ _ _ Hc), Hreg. by apply HP.
  - intros k Hk. destruct (Hlist k Hk) as (l & [H1 H2 H3 (bk & H4 & H5 & H6)]). exists l. split.
    + done.
    + eapply cyc_ext; [|exact H2]. auto.
    + intros i. rewrite H3, (level_config _ _ _ Hc), HP. done.
    + exists bk. rewrite Hbk. destruct Hc as (_ & -> & _). done.
Qed.

(** The effect of an operation on everything but the free lists. *)
Definition same_flags (s s' : BuddyAllocator) : Prop :=
  same_config s s' /\ (forall i, V s' i = V s i /\ A s' i = A s i) /\
  (forall n, allocated_blocks <$> buckets s' !! n = allocated_blocks <$> buckets s !! n).

#[export] Instance same_flags_preorder : PreOrder same_flags.
Proof.
  split; [by repeat split|]. intros s1 s2 s3 (H1&H2&H3) (H4&H5&H6). split; [by transitivity s2|].
  split; [|intros n; by rewrite H6, H3]. intros i. destruct (H2 i), (H5 i). split; congruence.
Qed.

Lemma same_flags_st s i f :
  (forall b, valid (f b) = valid b /\ available (f b) = available b) -> same_flags s (st s i f).
Proof.
  intros Hf. split_and!; [auto with kernel|..|done]. intros j. unfold V, A. rewrite blk_st.
  case_decide; [subst; apply Hf|done].
Qed.

Lemma same_flags_ub s n b0 b :
  buckets s !! n = Some b0 -> allocated_blocks b = allocated_blocks b0 -> same_flags s (ub s n b).
Proof.
  intros E Ha. split_and!; [auto with kernel|done|]. intros m. simpl.
  destruct (decide (n = m)) as [<-|]; [|by rewrite list_lookup_insert_ne].
  rewrite list_lookup_insert_eq by (by eapply lookup_lt_Some). rewrite E. simpl. congruence.
Qed.

Lemma lookup_ub_eq s n b0 b : buckets s !! n = Some b0 -> buckets (ub s n b) !! n = Some b.
Proof. intros E. simpl. apply list_lookup_insert_eq. by eapply lookup_lt_Some. Qed.
Lemma lookup_ub_ne s n m b : m <> n -> buckets (ub s n b) !! m = buckets s !! m.
Proof. intros E. simpl. by apply list_lookup_insert_ne. Qed.

(** A counter that lags the length of its list by [d] keeps doing so. *)
Lemma counter_succ n d : wrap64 (wrap64 (Z.of_nat n - d) + 1) = wrap64 (Z.of_nat (S n) - d).
Proof. rewrite wrap_add_l. f_equal. lia. Qed.
Lemma counter_pred n d : wrap64 (wrap64 (Z.of_nat (S n) - d) - 1) = wrap64 (Z.of_nat n - d).
Proof. rewrite wrap_sub_l. f_equal. lia. Qed.

(** Both list operations end by adjusting the counter of the bucket: what has to
    hold just before that for the list of class [k] to be replaced by [l']. *)
Lemma lists_finish s s1 (P P' : Z -> Prop) k l l' d bk bk1 :
  let n := Z.to_nat (k - Log2MinSize) in
  lists s P -> list_ok s P k l -> Log2MinSize <= k -> same_flags s s1 ->
  (forall m, m <> n -> buckets s1 !! m = buckets s !! m) ->
  buckets s !! n = Some bk -> buckets s1 !! n = Some bk1 ->
  first_block bk1 = head l' -> allocated_blocks bk1 = allocated_blocks bk ->
  wrap64 (Z.of_nat (length l') - if decide (k = root_log2size s) then 1 else 0) = d ->
  NoDup l' -> cyc (nx s1) (pv s1) l' ->
  (forall i, i ∈ l' <-> P' i /\ level s i = k) ->
  (forall i, P' i -> in_region s i) -> (forall i, level s i <> k -> (P' i <-> P i)) ->
  (forall i, P i -> level s i <> k -> nx s1 i = nx s i /\ pv s1 i = pv s i) ->
  let s' := ub s1 n (set_available_blocks d bk1) in
  same_flags s s' /\ lists s' P'.
Proof.
  intros n HL [_ _ Hel _] Hk Hsf Hoth Hbk Hbk1 Hf1 Ha1 Hd Hnd' Hcyc' Hel' Hreg HP Hlinks s'.
  assert (same_flags s s') as Hsf'.
  { etransitivity; [exact Hsf|]. by eapply same_flags_ub. }
  split; [done|]. destruct Hsf' as [Hc _].
  eapply (lists_update s _ P _ k l'); try done.
  - split; [done|done|..].
    + intros i. by rewrite Hel', (level_config _ _ _ Hc).
    + eexists. split; [by eapply lookup_ub_eq|]. split; [done|].
      cbn [available_blocks set_available_blocks]. rewrite (proj1 (proj2 Hc)). done.
  - intros m Hm. unfold s'. rewrite lookup_ub_ne by done. auto.
Qed.

(** How each store changes each observation. *)
Section observe.
Context (s : BuddyAllocator) (i j : Z).
Ltac obs := unfold nx, pv, V, A; rewrite blk_st; case_decide; subst; done.
Lemma nx_set_next v : nx (st s i (set_next v)) j = if decide (i = j) then v else nx s j. Proof. obs. Qed.
Lemma nx_set_prev v : nx (st s i (set_prev v)) j = nx s j. Proof. obs. Qed.
Lemma pv_set_prev v : pv (st s i (set_prev v)) j = if decide (i = j) then v else pv s j. Proof. obs. Qed.
Lemma pv_set_next v : pv (st s i (set_next v)) j = pv s j. Proof. obs. Qed.
Lemma nx_set_valid v : nx (st s i (set_valid v)) j = nx s j. Proof. obs. Qed.
Lemma pv_set_valid v : pv (st s i (set_valid v)) j = pv s j. Proof. obs. Qed.
Lemma nx_set_available v : nx (st s i (set_available v)) j = nx s j. Proof. obs. Qed.
Lemma pv_set_available v : pv (st s i (set_available v)) j = pv s j. Proof. obs. Qed.
Lemma V_set_valid v : V (st s i (set_valid v)) j = if decide (i = j) then v else V s j. Proof. obs. Qed.
Lemma A_set_valid v : A (st s i (set_valid v)) j = A s j. Proof. obs. Qed.
Lemma V_set_available v : V (st s i (set_available v)) j = V s j. Proof. obs. Qed.
Lemma A_set_available v : A (st s i (set_available v)) j = if decide (i = j) then v else A s j. Proof. obs. Qed.
Lemma nx_ub n b : nx (ub s n b) j = nx s j. Proof. done. Qed.
Lemma pv_ub n b : pv (ub s n b) j = pv s j. Proof. done. Qed.
Lemma V_ub n b : V (ub s n b) j = V s j. Proof. done. Qed.
Lemma A_ub n b : A (ub s n b) j = A s j. Proof. done. Qed.
End observe.

#[export] Hint Rewrite nx_set_next nx_set_prev pv_set_prev pv_set_next nx_set_valid pv_set_valid
  nx_set_available pv_set_available V_set_valid A_set_valid V_set_available A_set_available
  nx_ub pv_ub V_ub A_ub : kernel_rw.

(** Evaluate the observations of an updated state. *)
Ltac observe := autorewrite with kernel_rw.

Ltac solve_flags :=
  first [ reflexivity
        | etransitivity; [|apply same_flags_st; done]; solve_flags
        | etransitivity; [|eapply same_flags_ub; done]; solve_flags ].

Section add.
Context (s : BuddyAllocator) (P : Z -> Prop) (b : Z).
Context (Hp : params s) (HL : lists s P) (Hb : in_region s b) (Hnew : ~ P b).

(** [add_to_available_list] appends the block to the list of its class. *)
Lemma add_ok : exists s', add_to_available_list b s = Ret (tt, s') /\
  same_flags s s' /\ lists s' (fun i => P i \/ i = b).
Proof using All.
  pose proof (level_range s b Hp Hb) as Hk. pose proof (in_region_index s b Hp Hb) as Hbi.
  destruct (ls_list _ _ HL _ Hk) as (l & Hl). pose proof Hl as [Hnd Hcyc Hel (bk & Hbk & Hfirst & Hcnt)].
  assert (Hbl : b ∉ l) by (rewrite Hel; naive_solver).
  assert (Hreg : forall i, P i \/ i = b -> in_region s i)
    by (intros i [?| ->]; [by apply (ls_region _ _ HL)|done]).
  assert (HP : forall i, level s i <> level s b -> (P i \/ i = b <-> P i)).
  { intros i Hi. split; [intros [?| ->]; done|by left]. }
  assert (HPl : forall i, i ∈ l ++ [b] <-> (P i \/ i = b) /\ level s i = level s b).
  { intros i. rewrite elem_of_app, list_elem_of_singleton, Hel. naive_solver. }
  unfold add_to_available_list. step_with (eq_refl (get s)).
  rewrite (block_log2size_eq s b Hp Hb), (bucket_index_eq _ Hk).
  step_with (bucket_at_ok s _ bk); [|lia|done]. rewrite Hfirst.
  assert (Hcnt' : wrap64 (Z.of_nat (length (l ++ [b])) - if decide (level s b = root_log2size s) then 1 else 0)
    = wrap64 (available_blocks bk + 1)).
  { rewrite Hcnt, counter_succ, length_app, Nat.add_1_r. done. }
  assert (Hnd' : NoDup (l ++ [b])).
  { apply NoDup_app. split_and!; [done|set_solver|apply NoDup_singleton]. }
  destruct l as [|x l]; cbn [head hd_error].
  - step_with (store_ok s b); [|done]. step_with store_ok; [|done].
    step_with (update_bucket_ok _ _ _ bk); [|lia|done].
    eexists. split; [eapply update_bucket_ok; [lia|]; by eapply lookup_ub_eq|].
    eapply (lists_finish s _ P _ (level s b) [] [b]); try done.
    + lia.
    + solve_flags.
    + intros m Hm. by rewrite lookup_ub_ne.
    + by eapply lookup_ub_eq.
    + apply cyc_single. observe. by rewrite !decide_True.
    + intros i HPi Hi. observe. by rewrite !decide_False by (intros ->; done).
  - destruct (cyc_last _ _ _ _ Hcyc) as (w & Hw & Hpw & Hnw).
    assert (Hin : forall i, i ∈ x :: l -> 0 <= i < max_blocks s).
    { intros i [Hi _]%Hel. by apply (in_region_index s i Hp), (ls_region _ _ HL). }
    assert (Hwl : w ∈ x :: l) by (by apply last_Some_elem_of).
    step_with (load_ok s x); [|apply Hin; set_solver].
    change (prev (blk s x)) with (pv s x). rewrite Hpw.
    step_with (store_ok s x); [|apply Hin; set_solver].
    step_with store_ok; [|by apply Hin]. step_with store_ok; [|done]. step_with store_ok; [|done].
    eexists. split; [apply (update_bucket_ok _ _ _ bk); [lia|done]|].
    eapply (lists_finish s _ P _ (level s b) (x :: l) (x :: l ++ [b])); try done.
    + lia.
    + solve_flags.
    + eapply cyc_ext; [|apply (cyc_append (nx s) (pv s) x l w b); done].
      intros i Hi. observe. unfold insert, fn_insert. done.
    + intros i HPi Hi. observe. rewrite !decide_False; [done|intros ->..]; try done.
      all: (destruct Hi; by apply Hel) || (destruct Hi; apply Hel; set_solver).
Qed.
End add.

Lemma ub_id s n b : buckets s !! n = Some b -> ub s n b = s.
Proof. intros H. unfold ub, with_buckets. rewrite list_insert_id by done. by destruct s. Qed.

(** The head of the bucket after unlinking [b] from [l1 ++ b :: l2]. *)
Lemma unlink_first s i b bk l1 l2 z :
  0 <= i -> buckets s !! Z.to_nat i = Some bk -> first_block bk = head (l1 ++ b :: l2) ->
  b ∉ l1 -> head (l2 ++ l1 ++ [b]) = Some z -> (l1 ++ l2 = [] \/ z <> b) ->
  (if bool_decide (first_block bk = Some b) then
     if bool_decide (Some z = Some b) then update_bucket i (set_first_block None)
     else update_bucket i (set_first_block (Some z))
   else mret tt) s = Ret (tt, ub s (Z.to_nat i) (set_first_block (head (l1 ++ l2)) bk)).
Proof.
  intros Hi Hbk Hf Hb1 Hz Hzb. rewrite Hf. destruct l1 as [|x l1]; cbn [head hd_error app] in *.
  - rewrite bool_decide_eq_true_2 by done. destruct l2 as [|y l2]; cbn [head hd_error app] in *.
    + rewrite bool_decide_eq_true_2 by congruence. by rewrite (update_bucket_ok _ _ _ bk).
    + rewrite bool_decide_eq_false_2 by naive_solver. rewrite (update_bucket_ok _ _ _ bk) by done. by injection Hz as ->.
  - rewrite bool_decide_eq_false_2 by set_solver. unfold mret, st_ret.
    replace (set_first_block (Some x) bk) with bk by (destruct bk; unfold set_first_block; simpl in *; congruence).
    by rewrite ub_id.
Qed.

(** The two link updates of [remove_from_available_list]. *)
Lemma unlink_links s b w z (c : M unit) :
  0 <= b < max_blocks s -> 0 <= w < max_blocks s -> 0 <= z < max_blocks s ->
  nx s b = Some z -> pv s b = Some w ->
  (b0 ← load (Some b);
   (match prev b0 with Some p => store (Some p) (set_next (next b0)) | None => mret tt end);;
   (match next b0 with Some n => store (Some n) (set_prev (prev b0)) | None => mret tt end);;
   c) s = c (st (st s w (set_next (Some z))) z (set_prev (Some w))).
Proof.
  intros Hb Hw Hz Hn Hpr. step_with load_ok; [|done].
  unfold nx, pv in Hn, Hpr. rewrite Hn, Hpr. step_with store_ok; [|done]. by step_with store_ok; [|done].
Qed.

(** Unlinking the head of a circular list of any length. *)
Lemma cyc_unlink (n p n' p' : Z -> option Z) b r w z :
  cyc n p (b :: r) -> NoDup (b :: r) -> n b = Some z -> p b = Some w ->
  (forall i, i <> b -> n' i = (<[w := Some z]> n) i /\ p' i = (<[z := Some w]> p) i) -> cyc n' p' r.
Proof.
  intros Hc Hnd Hn Hp Hext. destruct r as [|z' r]; [done|].
  assert (z' = z) as -> by (destruct (cyc_next _ _ _ _ _ Hc); congruence).
  eapply cyc_ext; [|apply (cyc_unlink_head n p b z r w); done].
  intros i Hi. apply Hext. intros ->. by apply NoDup_cons in Hnd as [? _].
Qed.

Section remove.
Context (s : BuddyAllocator) (P : Z -> Prop) (b : Z).
Context (Hp : params s) (HL : lists s P) (Hb : P b).

(** [remove_from_available_list] unlinks the block from the list of its class. *)
Lemma remove_ok : exists s', remove_from_available_list b s = Ret (tt, s') /\
  same_flags s s' /\ lists s' (fun i => P i /\ i <> b).
Proof using All.
  pose proof (ls_region _ _ HL b Hb) as Hbr. pose proof (level_range s b Hp Hbr) as Hk.
  destruct (ls_list _ _ HL _ Hk) as (l & Hl). pose proof Hl as [Hnd Hcyc Hel (bk & Hbk & Hfirst & Hcnt)].
  assert (Hbl : b ∈ l) by (by apply Hel).
  assert (Hin : forall i, i ∈ l -> 0 <= i < max_blocks s).
  { intros i [Hi _]%Hel. by apply (in_region_index s i Hp), (ls_region _ _ HL). }
  apply list_elem_of_split in Hbl as (l1 & l2 & El). rewrite El in Hnd, Hcyc, Hcnt, Hfirst.
  apply (cyc_rotate _ _ l1 (b :: l2)) in Hcyc. simpl app in Hcyc.
  assert (Hnd2 : NoDup (b :: l2 ++ l1)) by (rewrite app_comm_cons, (Permutation_app_comm (b :: l2)); done).
  pose proof Hnd2 as [Hb12 Hnd3]%NoDup_cons. rewrite Permutation_app_comm in Hnd3.
  assert (exists w z, nx s b = Some z /\ pv s b = Some w /\ w ∈ l /\ z ∈ l /\
    head (l2 ++ l1 ++ [b]) = Some z) as (w & z & Hz & Hw & Hwl & Hzl & Hhd).
  { destruct (cyc_last _ _ _ _ Hcyc) as (w & Hlast & Hw & _). apply last_Some_elem_of in Hlast.
    exists w. destruct (l2 ++ l1) as [|z r] eqn:Er; rewrite app_assoc, Er.
    - exists b. apply cyc_single in Hcyc. split_and!; [naive_solver|done|set_solver..|done].
    - exists z. apply cyc_next in Hcyc. assert (z ∈ l2 ++ l1) by (rewrite Er; set_solver).
      rewrite <- Er in Hlast. split_and!; [naive_solver|done|set_solver..|done]. }
  unfold remove_from_available_list. step_with (eq_refl (get s)).
  rewrite (block_log2size_eq s b Hp Hbr), (bucket_index_eq _ Hk).
  step_with (bucket_at_ok s _ bk); [|lia|done].
  step_with (load_ok s b); [|apply Hin; set_solver]. change (next (blk s b)) with (nx s b). rewrite Hz.
  step_with (unlink_first s _ b bk l1 l2 z); [|lia|done|done|set_solver|done|].
  2:{ destruct (decide (z = b)) as [->|]; [left|by right].
      destruct l2 as [|y l2]; [destruct l1 as [|y l1]|]; simpl in Hhd; [done|..]; simplify_eq; set_solver. }
  rewrite (unlink_links _ b w z) by (try apply Hin; try done; set_solver).
  eexists. split; [eapply update_bucket_ok; [lia|]; by eapply lookup_ub_eq|].
  eapply (lists_finish s _ P _ (level s b) l (l1 ++ l2)); try done.
  - lia.
  - solve_flags.
  - intros m Hm. rewrite !buckets_st. by rewrite lookup_ub_ne.
  - rewrite !buckets_st. by eapply lookup_ub_eq.
  - cbn [available_blocks set_first_block]. rewrite Hcnt, !length_app. cbn [length].
    by rewrite Nat.add_succ_r, counter_pred.
  - apply cyc_rotate. eapply (cyc_unlink _ _ _ _ b); try done. intros i Hi. observe. done.
  - intros i. transitivity (i ∈ l /\ i <> b); [rewrite El; set_solver|rewrite Hel; naive_solver].
  - intros i [? _]. by apply (ls_region _ _ HL).
  - naive_solver congruence.
  - intros i HPi Hi. observe. rewrite !decide_False; [done|intros ->; apply Hi; by apply Hel..].
Qed.
End remove.
