(* ===== verification/BuddyProofs.v ===== *)
(** * The buddy allocator keeps its invariant

    The free blocks of the buddy tree are exactly the blocks on the free lists,
    each on the list of its size class; the tree is coalesced.  Allocation and
    release are proved total under this invariant: no null dereference, no
    access outside the arrays, no failing assertion, no exhausted recursion. *)
From S2P Require Import Prelude LibUtils CpuDefs BuddyTree CircList Buddy BuddyInv.
Import Utils Buddy.

(** Depth of the smallest blocks. *)
Definition height (s : BuddyAllocator) : Z := root_log2size s - Log2MinSize.

(** The invariant, for availability flags [F] that may differ from those in
    memory at one block the running operation has in hand. *)
Record binv (s : BuddyAllocator) (F : Z -> bool) : Prop := {
  bi_params : params s;
  bi_tree : tree_inv (height s) (V s) F;
  bi_lists : lists s (free (V s) F)
}.

Definition inv (s : BuddyAllocator) : Prop := binv s (A s).

(** Block [i] is handed out in state [s]; block [i] is free in state [s]. *)
Definition is_allocated (s : BuddyAllocator) (i : Z) : Prop := allocated (V s) (A s) i.
Definition is_free (s : BuddyAllocator) (i : Z) : Prop := free (V s) (A s) i.

(** The counters of handed-out blocks, per bucket. *)
Definition counts (s : BuddyAllocator) (n : nat) : option Z := allocated_blocks <$> buckets s !! n.

Lemma valid_in_region s F i : binv s F -> V s i = true -> in_region s i.
Proof.
  intros [_ HT _] HV. destruct (ti_range _ _ _ HT i HV) as [? Hd].
  split; [done|]. unfold level, height in *. lia.
Qed.

Lemma height_config s s' : same_config s s' -> height s' = height s.
Proof. intros (_ & Hr & _). unfold height. by rewrite Hr. Qed.

(** Establishing the invariant of [s'] from flags known pointwise. *)
Lemma binv_intro s s' (P : Z -> Prop) (V0 F : Z -> bool) :
  params s -> same_config s s' -> (forall i, V s' i = V0 i) -> lists s' P ->
  tree_inv (height s) V0 F -> (forall i, P i <-> free V0 F i) -> binv s' F.
Proof.
  intros Hp Hc HV HL HT HP. split.
  - by apply (params_config s).
  - rewrite (height_config _ _ Hc). by rewrite (HV : pointwise_relation Z eq (V s') V0).
  - eapply (lists_flags s'); [reflexivity|done|done| |exact HL].
    intros i. rewrite HP. unfold free. by rewrite HV.
Qed.

(** Only the flags of valid blocks matter. *)
Lemma binv_ext s F F' : (forall i, V s i = true -> F i = F' i) -> binv s F -> binv s F'.
Proof.
  intros HF [Hp HT HL]. split; [done|by eapply tree_inv_ext|].
  eapply (lists_flags s); [reflexivity|done|done| |exact HL].
  intros i. unfold free. split; intros [HV E]; specialize (HF i HV); split; congruence.
Qed.

(** A state change that touches no link and no bucket. *)
Lemma lists_store s i f (P : Z -> Prop) :
  (forall b, next (f b) = next b /\ prev (f b) = prev b) -> lists s P -> lists (st s i f) P.
Proof.
  intros Hf HL. eapply (lists_flags s); [auto with kernel|..|done|done|done].
  intros j. unfold nx, pv. rewrite blk_st. case_decide; subst; [|done]. by split; apply Hf.
Qed.

(** The children of a block that is not of the smallest class exist. *)
Lemma get_children_ok s p :
  params s -> 0 <= p -> in_region s (right_of p) ->
  get_left s p = Some (left_of p) /\ get_right s p = Some (right_of p).
Proof.
  intros Hp Hp0 Hr. pose proof (in_region_index s _ Hp Hr). pose proof (in_region_small s _ Hp Hr).
  unfold get_left, get_right, left_of, right_of in *.
  rewrite !wrap_small by (unfold uint; lia). split; case_match; done || lia.
Qed.

Section alloc.
Context (s : BuddyAllocator) (Hinv : inv s).

(** Taking a listed block. *)
Lemma take_ok b : is_free s b -> exists s',
  (store (Some b) (set_available false);; remove_from_available_list b;; mret (Some b)) s = Ret (Some b, s') /\
  inv s' /\ same_config s s' /\ (forall n, counts s' n = counts s n) /\
  (forall i, is_allocated s' i <-> is_allocated s i \/ i = b).
Proof using All.
  intros Hb. destruct Hinv as [Hp HT HL].
  pose proof (in_region_index s b Hp (ls_region _ _ HL b Hb)) as Hbi.
  assert (Hc1 : same_config s (st s b (set_available false))) by auto with kernel.
  destruct (remove_ok (st s b (set_available false)) (free (V s) (A s)) b) as (s' & Hrem & Hsf & HL').
  { by apply (params_config s). }
  { by apply lists_store. }
  { done. }
  exists s'. split.
  { step_with store_ok; [|done]. step_with Hrem. done. }
  assert (HA : forall i, A s' i = (<[b := false]> (A s)) i).
  { intros i. destruct Hsf as (_ & Hf & _). rewrite (proj2 (Hf i)). observe. done. }
  assert (HV : forall i, V s' i = V s i).
  { intros i. destruct Hsf as (_ & Hf & _). rewrite (proj1 (Hf i)). by observe. }
  split_and!.
  - apply (binv_ext _ (<[b := false]> (A s))); [done|].
    eapply (binv_intro s _ _ (V s)); [done| |done|exact HL'|by apply take_inv|].
    + by etransitivity; [|apply Hsf].
    + intros i. unfold free, insert, fn_insert. case_decide; naive_solver.
  - by etransitivity; [|apply Hsf].
  - intros n. destruct Hsf as (_ & _ & Hn). apply Hn.
  - intros i. unfold is_allocated. rewrite <- (take_allocated _ _ _ HT b Hb i).
    by apply allocated_proper.
Qed.

(** Splitting a block in hand: the left half is in hand, the right half listed. *)
Lemma split_ok p : is_allocated s p -> Log2MinSize < level s p -> exists s',
  split_block p s = Ret (Some (left_of p), s') /\
  inv s' /\ same_config s s' /\ (forall n, counts s' n = counts s n) /\
  (forall i, is_allocated s' i <-> (is_allocated s i /\ i <> p) \/ i = left_of p).
Proof using All.
  intros Hpa Hlev. pose proof Hinv as [Hp HT HL].
  pose proof (valid_in_region s _ p Hinv (proj1 Hpa)) as [Hp0 _].
  destruct (no_children_of_allocated _ _ _ HT p Hpa) as [HVl HVr].
  assert (Hl : in_region s (left_of p))
    by (split; [unfold left_of; lia|unfold level in *; rewrite depth_left; lia]).
  assert (Hr : in_region s (right_of p))
    by (split; [unfold right_of; lia|unfold level in *; rewrite depth_right; lia]).
  pose proof (in_region_index s _ Hp Hl) as Hli. pose proof (in_region_index s _ Hp Hr) as Hri.
  destruct (get_children_ok s p Hp Hp0 Hr) as [El Er].
  set (s4 := st (st (st (st s (left_of p) (set_available false)) (left_of p) (set_valid true))
    (right_of p) (set_available true)) (right_of p) (set_valid true)).
  assert (Hc4 : same_config s s4) by (by repeat split).
  destruct (add_ok s4 (free (V s) (A s)) (right_of p)) as (s' & Hadd & Hsf & HL').
  { by apply (params_config s). }
  { unfold s4. repeat apply lists_store; done. }
  { by apply (in_region_config s s4). }
  { intros [? _]. congruence. }
  exists s'. split.
  { unfold split_block. step_with (eq_refl (get s)). rewrite El, Er.
    do 4 (step_with store_ok; [|done]). step_with Hadd. done. }
  assert (Hne : left_of p <> right_of p) by (unfold left_of, right_of; lia).
  set (V' := <[right_of p := true]> (<[left_of p := true]> (V s))).
  set (F' := <[right_of p := true]> (<[left_of p := false]> (A s))).
  assert (HV : forall i, V s' i = V' i).
  { intros i. destruct Hsf as (_ & Hf & _). rewrite (proj1 (Hf i)). unfold s4. by observe. }
  assert (HA : forall i, A s' i = F' i).
  { intros i. destruct Hsf as (_ & Hf & _). rewrite (proj2 (Hf i)). unfold s4. by observe. }
  assert (Hc : same_config s s') by (by etransitivity; [|apply Hsf]).
  assert (Hd : depth p < height s) by (unfold level, height in *; lia).
  split_and!; [|done|..].
  - apply (binv_ext _ F'); [done|].
    eapply (binv_intro s _ _ V'); [done|done|done|exact HL'|by apply split_inv|].
    intros i. unfold free, V', F', insert, fn_insert. repeat case_decide; naive_solver congruence.
  - intros n. destruct Hsf as (_ & _ & Hn). apply Hn.
  - intros i. unfold is_allocated. rewrite <- (split_allocated _ _ _ HT p Hpa i).
    by apply allocated_proper.
Qed.

End alloc.

(** What a successful allocation of class [k] does. *)
Definition alloc_spec (s : BuddyAllocator) (k b : Z) (s' : BuddyAllocator) : Prop :=
  inv s' /\ same_config s s' /\ (forall n, counts s' n = counts s n) /\
  level s b = k /\ ~ is_allocated s b /\
  (forall i, is_allocated s' i <-> is_allocated s i \/ i = b).

Lemma alloc_fuel_ok fuel k s :
  inv s -> Log2MinSize <= k -> (Z.to_nat (root_log2size s + 1 - k) < fuel)%nat ->
  (alloc_block_size_fuel fuel k s = Ret (None, s) /\ forall i, is_free s i -> level s i < k) \/
  (exists b s', alloc_block_size_fuel fuel k s = Ret (Some b, s') /\ alloc_spec s k b s').
Proof.
  revert k. induction fuel as [|fuel IH]; intros k Hinv Hk Hfuel; [lia|].
  pose proof Hinv as [Hp HT HL]. pose proof (pr_root _ Hp) as Hroot.
  cbn [alloc_block_size_fuel]. step_with (eq_refl (get s)).
  destruct (Z.ltb_spec (root_log2size s) k) as [Hgt|Hle].
  { left. split; [done|]. intros i Hi. pose proof (depth_nonneg i). unfold level. lia. }
  assert (Hkr : Log2MinSize <= k <= Log2MaxSize) by lia.
  destruct (ls_list _ _ HL k Hkr) as (l & [_ _ Hel (bk & Hbk & Hfirst & _)]).
  rewrite (bucket_index_eq k Hkr). step_with (bucket_at_ok s _ bk); [|lia|done]. rewrite Hfirst.
  destruct l as [|first l]; cbn [head hd_error].
  - rewrite wrap_small by (unfold uint, Log2MinSize, Log2MaxSize in *; lia).
    destruct (IH (k + 1) Hinv ltac:(lia) ltac:(lia)) as [(Hnone & Hno)|(p & s1 & Hsome & Hspec)].
    + left. step_with Hnone. split; [done|]. intros i Hi. specialize (Hno i Hi).
      assert (level s i <> k); [|lia]. intros E. apply (not_elem_of_nil i), Hel. by split.
    + right. destruct Hspec as (Hinv1 & Hc1 & Hn1 & Hlev & Hnew & Hall).
      assert (Hpa : is_allocated s1 p) by (apply Hall; by right).
      destruct (split_ok s1 Hinv1 p Hpa) as (s' & Hsplit & Hinv' & Hc' & Hn' & Hall').
      { rewrite (level_config s s1 p Hc1). lia. }
      exists (left_of p), s'. split; [step_with Hsome; exact Hsplit|].
      assert (0 <= p) as Hp0 by apply (valid_in_region s1 _ p Hinv1 (proj1 Hpa)).
      split_and!; [done|by etransitivity|intros n; by rewrite Hn', Hn1|..].
      * unfold level in *. rewrite depth_left by done. lia.
      * intros Ha. pose proof (proj2 (Hall (left_of p)) (or_introl Ha)) as [HV _].
        destruct Hpa as (_ & _ & HVl). congruence.
      * intros i. rewrite Hall', Hall. naive_solver.
  - right. destruct (proj1 (Hel first)) as [Hfree Hlev]; [set_solver|].
    destruct (take_ok s Hinv first Hfree) as (s' & Htake & Hinv' & Hc' & Hn' & Hall').
    exists first, s'. split; [exact Htake|]. split_and!; try done.
    intros (_ & HF & _). destruct Hfree. congruence.
Qed.

Lemma alloc_ok k s :
  inv s -> Log2MinSize <= k ->
  (alloc_block_size k s = Ret (None, s) /\ forall i, is_free s i -> level s i < k) \/
  (exists b s', alloc_block_size k s = Ret (Some b, s') /\ alloc_spec s k b s').
Proof. intros Hinv Hk. unfold alloc_block_size. step_with (eq_refl (get s)). apply alloc_fuel_ok; [done..|lia]. Qed.

(** ** Release *)

(** Availability with block [c] in hand. *)
Definition in_hand (s : BuddyAllocator) (c : Z) : Z -> bool := <[c := false]> (A s).

Lemma in_hand_ne s c i : i <> c -> in_hand s c i = A s i.
Proof. intros. unfold in_hand. by rewrite fn_lookup_insert_ne. Qed.

Lemma buddy_ne i : 0 < i -> buddy_of i <> i.
Proof. intros Hi. destruct (index_cases i Hi) as (p & _ & _ & [[-> ->]|[-> ->]]); unfold left_of, right_of; lia. Qed.
Lemma parent_ne i : 0 < i -> parent_of i <> i /\ parent_of i <> buddy_of i.
Proof. intros Hi. destruct (index_cases i Hi) as (p & ? & -> & [[-> ->]|[-> ->]]); unfold left_of, right_of; lia. Qed.

(** One round of [try_merge_with_buddy] with an available buddy. *)
Lemma merge_round_ok s c :
  binv s (in_hand s c) -> allocated (V s) (in_hand s c) c -> 0 < c -> A s (buddy_of c) = true ->
  exists s', merge_round c (buddy_of c) (parent_of c) s = Ret (tt, s') /\
    binv s' (in_hand s' (parent_of c)) /\ same_config s s' /\ (forall n, counts s' n = counts s n) /\
    (forall i, allocated (V s') (in_hand s' (parent_of c)) i <->
       (allocated (V s) (in_hand s c) i /\ i <> c) \/ i = parent_of c).
Proof.
  intros Hinv Hc Hpos Hbud. pose proof Hinv as [Hp HT HL].
  pose proof (buddy_ne c Hpos) as Hbc. destruct (parent_ne c Hpos) as [Hpc Hpb].
  assert (Hbud' : in_hand s c (buddy_of c) = true) by (by rewrite in_hand_ne).
  pose proof (ti_buddy _ _ _ HT c (proj1 Hc) Hpos) as HVb.
  destruct (ti_parent _ _ _ HT c (proj1 Hc) Hpos) as [HVp HFp]. rewrite in_hand_ne in HFp by done.
  assert (Hreg : forall i, V s i = true -> 0 <= i < max_blocks s).
  { intros i Hi. apply in_region_index; [done|]. by eapply valid_in_region. }
  destruct (remove_ok s (free (V s) (in_hand s c)) (buddy_of c)) as (s1 & Hrem & Hsf & HL1);
    [done|done|done|].
  pose proof Hsf as (Hc1 & Hf1 & Hn1). pose proof Hc1 as (_ & _ & Hm1 & _).
  set (s4 := st (st (st s1 (buddy_of c) (set_valid false)) (parent_of c) (set_available true)) c (set_valid false)).
  exists s4. split.
  { unfold merge_round. step_with Hrem. rewrite <- Hm1 in Hreg.
    step_with store_ok; [|by apply Hreg]. step_with load_ok; [|by apply Hreg].
    change (available (blk ?s ?i)) with (A s i). observe. rewrite (proj2 (Hf1 _)), HFp. simpl negb.
    step_with (eq_refl (Ret (tt, _))). step_with load_ok; [|by apply Hreg].
    change (valid (blk ?s ?i)) with (V s i). observe. rewrite decide_False by done.
    rewrite (proj1 (Hf1 _)), HVp. step_with (eq_refl (Ret (tt, _))).
    step_with store_ok; [|by apply Hreg]. apply store_ok. apply Hreg. apply Hc. }
  set (V' := <[c := false]> (<[buddy_of c := false]> (V s))).
  assert (HV : forall i, V s4 i = V' i).
  { intros i. unfold s4. observe. by rewrite (proj1 (Hf1 i)). }
  assert (HA : forall i, V' i = true -> in_hand s c i = in_hand s4 (parent_of c) i).
  { intros i. unfold V', in_hand, s4, insert, fn_insert. observe. rewrite (proj2 (Hf1 i)).
    repeat case_decide; subst; congruence. }
  assert (Hc4 : same_config s s4) by (by etransitivity; [exact Hc1|]).
  split_and!; [|done|done|].
  - apply (binv_ext _ (in_hand s c)); [intros i; rewrite HV; apply HA|].
    eapply (binv_intro s _ _ V'); [done|done|done|..|by apply merge_inv|].
    + unfold s4. repeat apply lists_store; [done..|exact HL1].
    + intros i. unfold free, V', insert, fn_insert. destruct Hc as (_ & HFc & _).
      repeat case_decide; subst; naive_solver congruence.
  - intros i. rewrite <- (merge_allocated _ _ _ HT c Hc Hpos Hbud' i).
    transitivity (allocated V' (in_hand s4 (parent_of c)) i); [by apply allocated_proper|].
    symmetry. by apply allocated_ext.
Qed.

(** What merging a block in hand does. *)
Definition merge_spec (s : BuddyAllocator) (c m : Z) (s' : BuddyAllocator) : Prop :=
  binv s' (in_hand s' m) /\ same_config s s' /\ (forall n, counts s' n = counts s n) /\
  (0 < m -> A s' (buddy_of m) = false) /\ below m c /\
  (forall i, allocated (V s') (in_hand s' m) i <->
     (allocated (V s) (in_hand s c) i /\ i <> c) \/ i = m).

Lemma get_parent_buddy c : 0 < c ->
  get_parent c = Some (parent_of c) /\ get_buddy c = Some (buddy_of c).
Proof.
  intros Hc. unfold get_parent, get_buddy, parent_of, buddy_of.
  rewrite (proj2 (Z.eqb_neq c 0)) by lia. split; [done|]. by case_match.
Qed.

Lemma merge_fuel_ok fuel s c :
  binv s (in_hand s c) -> allocated (V s) (in_hand s c) c -> (Z.to_nat (depth c) < fuel)%nat ->
  exists m s', try_merge_with_buddy_fuel fuel c s = Ret (m, s') /\ merge_spec s c m s'.
Proof.
  revert s c. induction fuel as [|fuel IH]; intros s c Hinv Hc Hfuel; [lia|].
  assert (Hret : (0 < c -> A s (buddy_of c) = false) -> merge_spec s c c s).
  { intros Hb. split_and!; try done; [constructor|]. intros i. destruct (decide (i = c)) as [->|]; naive_solver. }
  destruct (valid_in_region _ _ _ Hinv (proj1 Hc)) as [Hc0 _]. cbn [try_merge_with_buddy_fuel].
  destruct (decide (c = 0)) as [->|Hne].
  { exists 0, s. split; [done|]. apply Hret. lia. }
  assert (0 < c) as Hpos by lia. destruct (get_parent_buddy c Hpos) as [-> ->].
  assert (0 <= buddy_of c < max_blocks s) as Hbi.
  { apply in_region_index; [apply Hinv|]. eapply valid_in_region; [done|]. by apply (ti_buddy _ _ _ (bi_tree _ _ Hinv)), Hpos; apply Hc. }
  step_with load_ok; [|done]. change (available (blk s (buddy_of c))) with (A s (buddy_of c)).
  destruct (A s (buddy_of c)) eqn:Hbud.
  2:{ exists c, s. split; [done|]. by apply Hret. }
  destruct (merge_round_ok s c Hinv Hc Hpos Hbud) as (s1 & Hround & Hinv1 & Hc1 & Hn1 & Hall1).
  destruct (IH s1 (parent_of c) Hinv1) as (m & s' & Hrun & Hinv' & Hc' & Hn' & Hb' & Hbel & Hall').
  { apply Hall1. by right. }
  { rewrite depth_parent by done. pose proof (depth_nonneg (parent_of c)) as Hd. rewrite depth_parent in Hd by done. lia. }
  exists m, s'. split.
  { cbn [negb]. by step_with Hround. }
  split_and!; [done|by etransitivity|intros n; by rewrite Hn', Hn1|done|by constructor|].
  intros i. rewrite Hall', Hall1. destruct (parent_ne c Hpos) as [Hpc _].
  destruct (decide (i = m)) as [->|]; [naive_solver|].
  split; [intros [[[?|?] ?]|?]; naive_solver|]. intros [[Hi Hic]|?]; [|done]. left. split; [by left|].
  intros ->. assert (allocated (V s) (in_hand s c) (parent_of c)) as Hpa by done.
  destruct Hpa as (_ & _ & Hl). pose proof (ti_buddy _ _ _ (bi_tree _ _ Hinv) c (proj1 Hc) Hpos) as HB.
  destruct (index_cases c Hpos) as (p & _ & Hpp & [[-> E]|[-> E]]); rewrite Hpp in Hl; destruct Hc; congruence.
Qed.

(** Putting the block in hand back on its list. *)
Lemma give_ok s m :
  binv s (in_hand s m) -> allocated (V s) (in_hand s m) m -> (0 < m -> A s (buddy_of m) = false) ->
  exists s', (forall (c : M unit), (store (Some m) (set_available true);; add_to_available_list m;; c) s = c s') /\
    inv s' /\ same_config s s' /\ (forall n, counts s' n = counts s n) /\
    (forall i, is_allocated s' i <-> allocated (V s) (in_hand s m) i /\ i <> m).
Proof.
  intros Hinv Hm Hbud. pose proof Hinv as [Hp HT HL].
  pose proof (valid_in_region _ _ _ Hinv (proj1 Hm)) as Hreg.
  assert (Hc1 : same_config s (st s m (set_available true))) by auto with kernel.
  destruct (add_ok (st s m (set_available true)) (free (V s) (in_hand s m)) m) as (s' & Hadd & Hsf & HL').
  { by apply (params_config s). }
  { by apply lists_store. }
  { by apply (in_region_config s). }
  { intros [_ HF]. destruct Hm as (_ & HF' & _). congruence. }
  assert (HA : forall i, A s' i = (<[m := true]> (in_hand s m)) i).
  { intros i. destruct Hsf as (_ & Hf & _). rewrite (proj2 (Hf i)). observe.
    unfold in_hand, insert, fn_insert. by case_decide. }
  assert (HV : forall i, V s' i = V s i).
  { intros i. destruct Hsf as (_ & Hf & _). rewrite (proj1 (Hf i)). by observe. }
  exists s'. split.
  { intros c. step_with store_ok; [|by apply in_region_index]. by step_with Hadd. }
  split_and!.
  - apply (binv_ext _ (<[m := true]> (in_hand s m))); [done|].
    eapply (binv_intro s _ _ (V s)); [done| |done|exact HL'|apply give_inv; try done|].
    + by etransitivity; [|apply Hsf].
    + intros Hpos. rewrite in_hand_ne by (by apply buddy_ne). auto.
    + intros i. destruct Hm as (HVm & _). unfold free, insert, fn_insert. case_decide; naive_solver.
  - by etransitivity; [|apply Hsf].
  - intros n. apply Hsf.
  - intros i. unfold is_allocated. rewrite <- give_allocated. by apply allocated_proper.
Qed.
