(* ===== verification/BuddySpec.v ===== *)
(** * Allocation and release of pages: the contract of the buddy allocator

    [Inv] is the invariant of every reachable allocator.  [spec_step] is an
    abstract allocator whose state is only the set of blocks handed out, and the
    refinement theorem says that [allocate_pages] and [free_pages] implement it:
    a block handed out overlaps no other one, and an allocation fails only when
    every block of the requested size overlaps one that is handed out. *)
From S2P Require Import Prelude LibUtils CpuDefs BuddyTree CircList Buddy BuddyInv BuddyProofs.
Import Utils Buddy.

(** ** The counters of handed-out blocks *)

#[export] Instance allocated_dec V F i : Decision (allocated V F i).
Proof. unfold allocated. apply _. Defined.
#[export] Instance is_allocated_dec s i : Decision (is_allocated s i).
Proof. unfold is_allocated. apply _. Defined.

(** The blocks of size class [k] that are handed out. *)
Definition allocated_at (s : BuddyAllocator) (k : Z) : gset Z :=
  filter (fun i => is_allocated s i /\ level s i = k) (list_to_set (seqZ 0 (max_blocks s))).

(** The invariant: tree, lists and counters. *)
Record Inv (s : BuddyAllocator) : Prop := {
  Inv_inv : inv s;
  Inv_counts k : Log2MinSize <= k <= Log2MaxSize ->
    counts s (Z.to_nat (k - Log2MinSize)) = Some (Z.of_nat (size (allocated_at s k)))
}.

Lemma allocated_in_region s i : inv s -> is_allocated s i -> in_region s i.
Proof. intros Hinv [HV _]. by apply (valid_in_region s (A s)). Qed.

Lemma elem_of_allocated_at s k i : inv s -> i ∈ allocated_at s k <-> is_allocated s i /\ level s i = k.
Proof.
  intros Hinv. unfold allocated_at. rewrite elem_of_filter, elem_of_list_to_set, elem_of_seqZ.
  split; [naive_solver|]. intros [Ha Hl]. split; [done|].
  pose proof (in_region_index s i (bi_params _ _ Hinv) (allocated_in_region s i Hinv Ha)). lia.
Qed.

Lemma allocated_at_bound s k : inv s -> Z.of_nat (size (allocated_at s k)) <= 2 ^ 32.
Proof.
  intros [[_ Hm _] _ _].
  assert (size (allocated_at s k) <= size (list_to_set (seqZ 0 (max_blocks s)) : gset Z))%nat as Hle
    by (apply subseteq_size; unfold allocated_at; set_solver).
  rewrite size_list_to_set, length_seqZ in Hle by apply NoDup_seqZ. lia.
Qed.

(** Adjusting the counter of class [k0] keeps the rest of the invariant. *)
Lemma inv_counter s n b0 b :
  inv s -> buckets s !! n = Some b0 -> first_block b = first_block b0 ->
  available_blocks b = available_blocks b0 -> inv (ub s n b).
Proof.
  intros [Hp HT HL] Hb Hf Ha. split.
  - by apply (params_config s); [auto with kernel|].
  - done.
  - destruct HL as [Hreg Hlist]. split; [done|]. intros k Hk. destruct (Hlist k Hk) as (l & [H1 H2 H3 (bk & H4 & H5 & H6)]).
    exists l. split; [done..|]. destruct (decide (Z.to_nat (k - Log2MinSize) = n)) as [<-|].
    + exists b. split; [by eapply lookup_ub_eq|]. by simplify_eq; rewrite Hf, Ha.
    + exists bk. split; [by rewrite lookup_ub_ne|]. done.
Qed.

Lemma is_allocated_ub s n b i : is_allocated (ub s n b) i <-> is_allocated s i.
Proof. done. Qed.

(** Counters after one block joined or left class [k0]. *)
Lemma Inv_update s s1 k0 c f :
  Inv s -> inv s1 -> same_config s s1 -> (forall n, counts s1 n = counts s n) ->
  Log2MinSize <= k0 <= Log2MaxSize ->
  (forall k, k <> k0 -> allocated_at s1 k = allocated_at s k) ->
  Z.of_nat (size (allocated_at s1 k0)) = c ->
  (forall bk, allocated_blocks bk = Z.of_nat (size (allocated_at s k0)) -> f bk = set_allocated_blocks c bk) ->
  exists s', update_bucket (k0 - Log2MinSize) f s1 = Ret (tt, s') /\ Inv s' /\ same_config s1 s' /\
    (forall i, V s' i = V s1 i /\ A s' i = A s1 i).
Proof.
  intros [Hinv Hcnt] Hinv1 Hc Hn Hk0 Hoth <- Hf.
  pose proof (Hcnt k0 Hk0) as Hc0. rewrite <- Hn in Hc0. unfold counts in Hc0.
  destruct (buckets s1 !! Z.to_nat (k0 - Log2MinSize)) as [bk|] eqn:Hbk; [|done].
  eexists. split; [apply (update_bucket_ok _ _ _ bk); [lia|done]|].
  rewrite Hf by (simpl in Hc0; congruence).
  split_and!; [|auto with kernel|done]. split; [by eapply inv_counter|].
  intros k Hk. change (allocated_at (ub s1 ?n ?b) k) with (allocated_at s1 k). unfold counts.
  destruct (decide (k = k0)) as [->|Hne].
  - erewrite lookup_ub_eq by done. done.
  - rewrite lookup_ub_ne by lia. rewrite Hoth by done. fold (counts s1 (Z.to_nat (k - Log2MinSize))).
    rewrite Hn. by apply Hcnt.
Qed.

(** ** Allocation *)

Lemma allocated_at_add s s1 b :
  inv s -> inv s1 -> same_config s s1 -> ~ is_allocated s b ->
  (forall i, is_allocated s1 i <-> is_allocated s i \/ i = b) ->
  (forall k, k <> level s b -> allocated_at s1 k = allocated_at s k) /\
  Z.of_nat (size (allocated_at s1 (level s b))) = Z.of_nat (size (allocated_at s (level s b))) + 1.
Proof.
  intros Hinv Hinv1 Hc Hnew Hall. split.
  - intros k Hk. apply leibniz_equiv. intros i. rewrite !elem_of_allocated_at, (level_config s s1 i Hc), Hall by done.
    naive_solver.
  - assert (allocated_at s1 (level s b) = {[b]} ∪ allocated_at s (level s b)) as ->.
    { apply leibniz_equiv. intros i.
      rewrite elem_of_union, elem_of_singleton, !elem_of_allocated_at, (level_config s s1 i Hc), Hall by done.
      naive_solver. }
    rewrite size_union, size_singleton; [lia|]. apply disjoint_singleton_l.
    rewrite elem_of_allocated_at by done. naive_solver.
Qed.

(** What [allocate_pages] does when it succeeds. *)
Definition allocate_spec (s : BuddyAllocator) (k b : Z) (s' : BuddyAllocator) : Prop :=
  Inv s' /\ same_config s s' /\ level s b = k /\ in_region s b /\ ~ is_allocated s b /\
  (forall i, is_allocated s' i <-> is_allocated s i \/ i = b).

Lemma allocate_pages_cases s k :
  Inv s -> Log2MinSize <= k ->
  (allocate_pages k s = Ret (0, s) /\ forall i, is_free s i -> level s i < k) \/
  (exists b s', allocate_pages k s = Ret (get_block_phy_addr s b, s') /\ allocate_spec s k b s').
Proof.
  intros HI Hk. pose proof (Inv_inv _ HI) as Hinv. unfold allocate_pages.
  rewrite (proj2 (Z.ltb_ge k Log2MinSize)) by lia.
  destruct (alloc_ok k s Hinv Hk) as [(Hrun & Hno)|(b & s1 & Hrun & Hinv1 & Hc1 & Hn1 & Hlev & Hnew & Hall)].
  { left. step_with Hrun. done. }
  right. destruct (allocated_at_add s s1 b Hinv Hinv1 Hc1 Hnew Hall) as [Hoth Hsz]. rewrite Hlev in *.
  assert (Hreg : in_region s b).
  { apply (in_region_config s s1 b Hc1), allocated_in_region; [done|]. apply Hall. by right. }
  pose proof (level_range s b (bi_params _ _ Hinv) Hreg) as Hkr. rewrite Hlev in Hkr.
  pose proof (allocated_at_bound s k Hinv) as Hbound.
  destruct (Inv_update s s1 k (Z.of_nat (size (allocated_at s k)) + 1)
    (fun bk => set_allocated_blocks (wrap64 (allocated_blocks bk + 1)) bk)) as (s' & Hup & HI' & Hc' & Hf'); try done.
  { intros bk ->. by rewrite wrap_small by (unfold uint; lia). }
  exists b, s'. split.
  { step_with Hrun. unfold get_bucket. rewrite (bucket_index_eq k Hkr). step_with Hup.
    unfold gets, get_block_phy_addr. by rewrite (proj1 Hc'), (proj1 Hc1). }
  split_and!; [done|by etransitivity|done|done|done|].
  intros i. rewrite <- Hall. unfold is_allocated. apply allocated_proper; [|intros j; apply Hf'|done].
  intros j; apply Hf'.
Qed.

(** ** Release *)

Lemma phy_addr_offset s b :
  0 <= b < 2 ^ 32 -> wrap64 (get_block_phy_addr s b - phy_start s) = b * BlockSize.
Proof.
  intros Hb. unfold get_block_phy_addr. rewrite wrap_sub_l.
  replace (phy_start s + b * BlockSize - phy_start s) with (b * BlockSize) by lia.
  apply wrap_small. unfold uint, BlockSize, PAGE_SIZE. lia.
Qed.

Lemma allocated_at_del s s1 b :
  inv s -> inv s1 -> same_config s s1 -> is_allocated s b ->
  (forall i, is_allocated s1 i <-> is_allocated s i /\ i <> b) ->
  (forall k, k <> level s b -> allocated_at s1 k = allocated_at s k) /\
  Z.of_nat (size (allocated_at s1 (level s b))) = Z.of_nat (size (allocated_at s (level s b))) - 1.
Proof.
  intros Hinv Hinv1 Hc Hb Hall.
  assert (level s1 b = level s b) as Hlev by (by apply level_config).
  destruct (allocated_at_add s1 s b) as [Hoth Hsz]; try done.
  - naive_solver.
  - intros i. rewrite Hall. destruct (decide (i = b)); naive_solver.
  - rewrite Hlev in *. split; [|lia]. intros k Hk. symmetry. by apply Hoth.
Qed.

(** [free_pages] on the address of a handed-out block. *)
Lemma free_pages_ok s b :
  Inv s -> is_allocated s b -> exists s', free_pages (get_block_phy_addr s b) s = Ret (tt, s') /\
    Inv s' /\ same_config s s' /\ (forall i, is_allocated s' i <-> is_allocated s i /\ i <> b).
Proof.
  intros HI Hb. pose proof (Inv_inv _ HI) as Hinv. pose proof Hinv as [Hp HT HL].
  pose proof (allocated_in_region s b Hinv Hb) as Hreg.
  pose proof (in_region_small s b Hp Hreg) as Hsmall.
  assert (Hhand : forall i, in_hand s b i = A s i).
  { intros i. destruct (decide (i = b)) as [->|]; [|by apply in_hand_ne].
    destruct Hb as (_ & HF & _). unfold in_hand. by rewrite fn_lookup_insert. }
  assert (Hallh : forall i, allocated (V s) (in_hand s b) i <-> is_allocated s i).
  { intros i. by apply allocated_ext. }
  destruct (merge_fuel_ok (S (Z.to_nat (Z.log2 (b + 1)))) s b) as (m & s1 & Hrun & Hinv1 & Hc1 & Hn1 & Hbud & Hbel & Hall1).
  { by apply (binv_ext _ (A s)). }
  { by apply Hallh. }
  { unfold depth. lia. }
  destruct (give_ok s1 m Hinv1) as (s2 & Hgive & Hinv2 & Hc2 & Hn2 & Hall2).
  { apply Hall1. by right. }
  { done. }
  assert (Hc12 : same_config s s2) by (by etransitivity).
  assert (Hall : forall i, is_allocated s2 i <-> is_allocated s i /\ i <> b).
  { intros i. rewrite Hall2, Hall1, Hallh. split; [naive_solver|]. intros [Hi Hne]. split; [by left|].
    intros ->. destruct Hne. symmetry. apply (leaf_below _ _ _ HT m b); [by right|done|apply Hb]. }
  destruct (allocated_at_del s s2 b Hinv Hinv2 Hc12 Hb Hall) as [Hoth Hsz].
  pose proof (level_range s b Hp Hreg) as Hkr. pose proof (allocated_at_bound s (level s b) Hinv).
  destruct (Inv_update s s2 (level s b) (Z.of_nat (size (allocated_at s (level s b))) - 1)
    (fun bk => set_allocated_blocks (wrap64 (allocated_blocks bk - 1)) bk)) as (s' & Hup & HI' & Hc' & Hf'); try done.
  { intros n. by rewrite Hn2, Hn1. }
  { intros bk ->. by rewrite wrap_small by (unfold uint; lia). }
  exists s'. split; [|split_and!; [done|by etransitivity|]].
  2:{ intros i. rewrite <- Hall. apply allocated_proper; [intros j; apply Hf'..|done]. }
  unfold free_pages. step_with (eq_refl (get s)). rewrite (phy_addr_offset s b Hsmall).
  unfold BlockSize, PAGE_SIZE. rewrite Z.div_mul, Z.mod_mul by lia. rewrite Z.eqb_refl.
  step_with (eq_refl (Ret (tt, s))). step_with load_ok; [|by apply in_region_index].
  change (available (blk s b)) with (A s b). rewrite (proj1 (proj2 Hb)).
  step_with (eq_refl (Ret (tt, s))). step_with Hrun. rewrite Hgive.
  step_with (eq_refl (get s2)). unfold get_bucket.
  rewrite block_log2size_eq; [|by apply (params_config s)|by apply (in_region_config s)].
  rewrite (level_config s s2 b Hc12), (bucket_index_eq _ Hkr). exact Hup.
Qed.

(** ** Construction *)

Section init.
Context (addr k : Z) (base : gmap Z Block) (mb : Z).
Context (Hk : Log2MinSize <= k <= Log2MaxSize) (Hmb : 2 ^ (k - Log2MinSize + 1) - 1 <= mb <= 2 ^ 32).
Context (Hbase : forall i, valid (default Block_default (base !! i)) = false).

(** The state the constructor builds. *)
Let root : Block := mkBlock true true (Some 0) (Some 0).
Let bks : list Bucket := (fun i => mkBucket (Log2MinSize + Z.of_nat i) 0 0 None) <$> seq 0 17.
Let n0 := Z.to_nat (k - Log2MinSize).
Let s : BuddyAllocator :=
  ub (mkBuddy addr k (<[0 := root]> base) mb bks) n0 (mkBucket (Log2MinSize + Z.of_nat n0) 0 0 (Some 0)).

Lemma init_bks n : (n < 17)%nat -> bks !! n = Some (mkBucket (Log2MinSize + Z.of_nat n) 0 0 None).
Proof using All. intros Hn. unfold bks. by rewrite list_lookup_fmap, lookup_seq_lt. Qed.

Lemma init_index k' : Log2MinSize <= k' <= Log2MaxSize -> (Z.to_nat (k' - Log2MinSize) < 17)%nat.
Proof using Type. clear. unfold Log2MinSize, Log2MaxSize. lia. Qed.

Lemma new_eq : BuddyAllocator_new addr k base mb = Ret s.
Proof using All.
  unfold BuddyAllocator_new. rewrite (bucket_index_eq k Hk).
  erewrite update_bucket_ok; [|lia|apply init_bks, init_index, Hk]. done.
Qed.

Lemma init_bucket k' : Log2MinSize <= k' <= Log2MaxSize ->
  buckets s !! Z.to_nat (k' - Log2MinSize) =
  Some (mkBucket k' 0 0 (if decide (k' = k) then Some 0 else None)).
Proof using All.
  intros Hk'. case_decide as E.
  - subst k'. unfold s. erewrite lookup_ub_eq by (apply init_bks, init_index, Hk).
    do 2 f_equal. unfold n0. lia.
  - unfold s. rewrite lookup_ub_ne by (unfold n0; lia). simpl buckets.
    rewrite init_bks by (by apply init_index). do 2 f_equal. lia.
Qed.

Lemma init_blk i : blk s i = if decide (0 = i) then root else default Block_default (base !! i).
Proof using All. unfold blk, s. simpl blocks. rewrite lookup_insert. by case_decide. Qed.

Lemma init_valid i : V s i = true <-> i = 0.
Proof using All. unfold V. rewrite init_blk. case_decide as E; [naive_solver|]. rewrite Hbase. naive_solver. Qed.

Lemma init_free i : is_free s i <-> i = 0.
Proof using All.
  unfold is_free, free. rewrite init_valid. split; [naive_solver|]. intros ->.
  split; [done|]. unfold A. by rewrite init_blk.
Qed.

Lemma init_level : level s 0 = k.
Proof using Type. unfold level. change (depth 0) with 0. simpl. apply Z.sub_0_r. Qed.

Lemma init_lists : lists s (free (V s) (A s)).
Proof using All.
  split.
  { intros i Hi. apply init_free in Hi as ->. split; [done|]. rewrite init_level. lia. }
  intros k' Hk'. change (root_log2size s) with k. exists (if decide (k' = k) then [0] else []).
  split.
  - case_decide; [apply NoDup_singleton|apply NoDup_nil_2].
  - case_decide; [|done]. apply cyc_single. unfold nx, pv. by rewrite init_blk.
  - intros i. fold (is_free s i). rewrite init_free. case_decide.
    + rewrite list_elem_of_singleton. split; [intros ->; by rewrite init_level|naive_solver].
    + rewrite elem_of_nil. split; [done|]. intros [-> E]. rewrite init_level in E. done.
  - rewrite (init_bucket k' Hk'). eexists. split; [done|]. change (root_log2size s) with k.
    by case_decide.
Qed.

Lemma init_inv : inv s.
Proof using All.
  split; [split; [done|done|]|apply tree_inv_init|apply init_lists].
  - simpl. by rewrite length_insert.
  - unfold height. simpl. lia.
  - apply init_valid.
  - apply init_free. done.
Qed.

Lemma new_ok : exists s, BuddyAllocator_new addr k base mb = Ret s /\ Inv s /\ phy_start s = addr /\
  root_log2size s = k /\ max_blocks s = mb /\ (forall i, ~ is_allocated s i) /\
  (forall i, is_free s i <-> i = 0).
Proof using All.
  exists s. split; [apply new_eq|].
  assert (Hnone : forall i, ~ is_allocated s i).
  { intros i (Hv & Ha & _). apply init_valid in Hv as ->. destruct (proj2 (init_free 0) eq_refl). congruence. }
  split_and!; try done; [|apply init_free]. split; [apply init_inv|]. intros k' Hk'.
  assert (allocated_at s k' = ∅) as ->.
  { apply leibniz_equiv. intros i. rewrite elem_of_allocated_at by apply init_inv. set_solver. }
  unfold counts. by rewrite (init_bucket k' Hk').
Qed.
End init.
