(* ===== verification/BuddyCount.v ===== *)
(** * Counting blocks of the buddy tree

    Every byte of the managed region belongs to exactly one free or handed-out
    block, so the sizes of these blocks add up to the size of the region.  The
    proof counts valid blocks level by level, from the smallest blocks up. *)
From S2P Require Import Prelude LibUtils CpuDefs BuddyTree CircList Buddy BuddyInv BuddyProofs BuddySpec.
Import Utils Buddy.

Section count.
Context (height : Z) (V F : Z -> bool) (I : tree_inv height V F).

(** The blocks that satisfy [P] at [i] levels above the smallest ones. *)
Definition at_level (P : Z -> bool) (i : Z) : gset Z :=
  filter (fun b => P b = true /\ depth b = height - i) (list_to_set (seqZ 0 (2 ^ (height + 1)))).

Definition split_flag (b : Z) : bool := V b && V (left_of b).
Definition leaf_flag (b : Z) : bool := V b && negb (V (left_of b)).

Lemma elem_of_at_level P i b :
  (forall b, P b = true -> V b = true) -> b ∈ at_level P i <-> P b = true /\ depth b = height - i.
Proof using I.
  intros HP. unfold at_level. rewrite elem_of_filter, elem_of_list_to_set, elem_of_seqZ.
  split; [naive_solver|]. intros [Hb Hd]. split; [done|].
  destruct (ti_range _ _ _ I b (HP b Hb)) as [H0 H1].
  pose proof (depth_nonneg b). pose proof (proj1 (depth_bound b (height + 1) H0 ltac:(lia)) ltac:(lia)). lia.
Qed.

Lemma split_valid b : split_flag b = true -> V b = true.
Proof using Type. unfold split_flag. by intros [? _]%andb_true_iff. Qed.
Lemma leaf_valid b : leaf_flag b = true -> V b = true.
Proof using Type. unfold leaf_flag. by intros [? _]%andb_true_iff. Qed.

Lemma elem_of_split_at i b :
  b ∈ at_level split_flag i <-> (V b = true /\ V (left_of b) = true) /\ depth b = height - i.
Proof using I. rewrite elem_of_at_level by apply split_valid. unfold split_flag. by rewrite andb_true_iff. Qed.

(** A valid block is split or a leaf. *)
Lemma size_valid_at i : size (at_level V i) = (size (at_level split_flag i) + size (at_level leaf_flag i))%nat.
Proof using I.
  rewrite <- size_union.
  - f_equal. apply set_eq. intros b.
    rewrite elem_of_union, !elem_of_at_level by eauto using split_valid, leaf_valid.
    unfold split_flag, leaf_flag. destruct (V b), (V (left_of b)); naive_solver.
  - intros b. rewrite !elem_of_at_level by eauto using split_valid, leaf_valid.
    unfold split_flag, leaf_flag. destruct (V b), (V (left_of b)); naive_solver.
Qed.

(** The valid blocks of a level are the children of the split blocks above. *)
Lemma valid_at_children i : i < height ->
  at_level V i = set_map left_of (at_level split_flag (i + 1)) ∪ set_map right_of (at_level split_flag (i + 1)).
Proof using I.
  intros Hi. apply set_eq. intros b.
  rewrite elem_of_union, !elem_of_map, elem_of_at_level by done.
  setoid_rewrite elem_of_split_at. split.
  - intros [HV Hd]. destruct (ti_range _ _ _ I b HV) as [Hb0 _].
    assert (0 < b) as Hb. { destruct (Z.eq_dec b 0) as [->|]; [change (depth 0) with 0 in Hd; lia|lia]. }
    destruct (ti_parent _ _ _ I b HV Hb) as [HVp _]. pose proof (ti_buddy _ _ _ I b HV Hb) as HVb.
    pose proof (depth_parent b Hb) as Hdp.
    destruct (index_cases b Hb) as (p & Hp & E & Hcase). rewrite E in *.
    destruct Hcase as [[-> Eb]|[-> Eb]]; [left|right]; exists p; rewrite Eb in HVb; split_and!; try done; lia.
  - intros [(p & -> & [[HVp HVl] Hd])|(p & -> & [[HVp HVl] Hd])]; destruct (ti_range _ _ _ I p HVp) as [Hp _].
    + rewrite depth_left by done. split; [done|lia].
    + rewrite depth_right by done. split; [|lia]. by apply (valid_children _ _ _ I).
Qed.

#[local] Instance left_of_inj : Inj eq eq left_of.
Proof using Type. intros a b. unfold left_of. lia. Qed.
#[local] Instance right_of_inj : Inj eq eq right_of.
Proof using Type. intros a b. unfold right_of. lia. Qed.

Lemma size_valid_children i : i < height -> size (at_level V i) = (2 * size (at_level split_flag (i + 1)))%nat.
Proof using I.
  intros Hi. rewrite (valid_at_children i Hi), size_union.
  - rewrite !size_set_map_inj by apply _. lia.
  - intros b. rewrite !elem_of_map. intros (p & -> & _) (q & E & _). unfold left_of, right_of in E. lia.
Qed.

(** The smallest blocks are never split. *)
Lemma no_split_at_bottom : size (at_level split_flag 0) = 0%nat.
Proof using I.
  apply size_empty_iff, elem_of_equiv_empty. intros b. rewrite elem_of_split_at. intros [[HV HVl] Hd].
  destruct (ti_range _ _ _ I b HV) as [Hb _]. destruct (ti_range _ _ _ I _ HVl) as [_ Hl].
  rewrite depth_left in Hl by done. lia.
Qed.

Lemma root_level : size (at_level V height) = 1%nat.
Proof using I.
  replace (at_level V height) with ({[0]} : gset Z); [apply size_singleton|].
  apply set_eq. intros b. rewrite elem_of_singleton, elem_of_at_level by done. split.
  - intros ->. split; [apply (ti_root _ _ _ I)|]. change (depth 0) with 0. lia.
  - intros [HV Hd]. destruct (ti_range _ _ _ I b HV) as [Hb _]. destruct (depth_bound b 1) as [H _]; lia.
Qed.

(** The leaves up to level [n] cover as much as the valid blocks of level [n]. *)
Lemma leaves_cover n : Z.of_nat n <= height ->
  sum_to (fun i => Z.of_nat (size (at_level leaf_flag (Z.of_nat i))) * 2 ^ Z.of_nat i) (S n) =
  Z.of_nat (size (at_level V (Z.of_nat n))) * 2 ^ Z.of_nat n.
Proof using I.
  induction n as [|n IH]; intros Hn.
  - cbn [sum_to]. change (Z.of_nat 0) with 0. rewrite (size_valid_at 0), no_split_at_bottom. lia.
  - cbn [sum_to] in *. rewrite IH by lia. rewrite (size_valid_children (Z.of_nat n)) by lia.
    rewrite (size_valid_at (Z.of_nat (S n))). replace (Z.of_nat n + 1) with (Z.of_nat (S n)) by lia.
    rewrite (Nat2Z.inj_succ n), Z.pow_succ_r by lia. nia.
Qed.

Lemma leaves_total : 0 <= height ->
  sum_to (fun i => Z.of_nat (size (at_level leaf_flag (Z.of_nat i))) * 2 ^ Z.of_nat i) (S (Z.to_nat height)) = 2 ^ height.
Proof using I. intros Hh. rewrite leaves_cover by lia. rewrite Z2Nat.id by done. rewrite root_level. lia. Qed.

End count.

(** ** In the allocator *)

#[export] Instance is_free_dec s i : Decision (is_free s i).
Proof. unfold is_free, free. apply _. Defined.

(** The blocks of size class [k] that are free. *)
Definition free_at (s : BuddyAllocator) (k : Z) : gset Z :=
  filter (fun i => is_free s i /\ level s i = k) (list_to_set (seqZ 0 (max_blocks s))).

Lemma elem_of_free_at s k i : inv s -> i ∈ free_at s k <-> is_free s i /\ level s i = k.
Proof.
  intros Hinv. unfold free_at. rewrite elem_of_filter, elem_of_list_to_set, elem_of_seqZ.
  split; [naive_solver|]. intros [Ha Hl]. split; [done|].
  pose proof (in_region_index s i (bi_params _ _ Hinv) (ls_region _ _ (bi_lists _ _ Hinv) i Ha)). lia.
Qed.

Lemma size_leaf_level s i : inv s ->
  size (at_level (height s) (leaf_flag (V s)) i) =
  (size (free_at s (Log2MinSize + i)) + size (allocated_at s (Log2MinSize + i)))%nat.
Proof.
  intros Hinv. pose proof (bi_tree _ _ Hinv) as HT. rewrite <- size_union.
  - f_equal. apply set_eq. intros b.
    rewrite elem_of_union, (elem_of_at_level _ _ _ HT), elem_of_free_at, elem_of_allocated_at by eauto using leaf_valid.
    assert (depth b = height s - i <-> level s b = Log2MinSize + i) as -> by (unfold level, height; lia).
    unfold leaf_flag, is_free, is_allocated. split.
    + intros [[HV Hl%negb_true_iff]%andb_true_iff Hd].
      destruct (block_cases _ _ _ HT b HV) as [Hf|[Ha|(_ & E & _)]]; [by left|by right|congruence].
    + intros [[Hf Hd]|[Ha Hd]]; (split; [|done]).
      * destruct (no_children_of_free _ _ _ HT b Hf) as [-> _]. by rewrite (proj1 Hf).
      * destruct Ha as (-> & _ & ->). done.
  - intros b. rewrite elem_of_free_at, elem_of_allocated_at by done.
    intros [[_ H1] _] [(_ & H2 & _) _]. congruence.
Qed.

(** Bytes in free blocks and in handed-out blocks, per size class. *)
Definition free_bytes (s : BuddyAllocator) (i : nat) : Z :=
  Z.of_nat (size (free_at s (Log2MinSize + Z.of_nat i))) * 2 ^ (Log2MinSize + Z.of_nat i).
Definition used_bytes (s : BuddyAllocator) (i : nat) : Z :=
  Z.of_nat (size (allocated_at s (Log2MinSize + Z.of_nat i))) * 2 ^ (Log2MinSize + Z.of_nat i).

Definition total_free (s : BuddyAllocator) : Z := sum_to (free_bytes s) (S (Z.to_nat (height s))).
Definition total_used (s : BuddyAllocator) : Z := sum_to (used_bytes s) (S (Z.to_nat (height s))).

Lemma bytes_conserved s : inv s -> total_free s + total_used s = 2 ^ root_log2size s.
Proof.
  intros Hinv. pose proof (bi_tree _ _ Hinv) as HT. pose proof (pr_root _ (bi_params _ _ Hinv)) as Hr.
  assert (0 <= height s) as Hh by (unfold height; lia).
  pose proof (leaves_total _ _ _ HT Hh) as Hsum. unfold total_free, total_used. rewrite <- sum_to_add.
  replace (2 ^ root_log2size s) with (2 ^ Log2MinSize * 2 ^ height s)
    by (rewrite <- Z.pow_add_r by (unfold Log2MinSize, height in *; lia); f_equal; unfold height; lia).
  rewrite <- Hsum. generalize (S (Z.to_nat (height s))) as n. induction n as [|n IH]; [cbn; lia|].
  cbn [sum_to]. rewrite IH, (size_leaf_level s (Z.of_nat n) Hinv). unfold free_bytes, used_bytes.
  rewrite Z.pow_add_r by (unfold Log2MinSize; lia). lia.
Qed.

Lemma free_bytes_nonneg s i : 0 <= free_bytes s i.
Proof. unfold free_bytes. pose proof (Z.pow_nonneg 2 (Log2MinSize + Z.of_nat i)). nia. Qed.
Lemma used_bytes_nonneg s i : 0 <= used_bytes s i.
Proof. unfold used_bytes. pose proof (Z.pow_nonneg 2 (Log2MinSize + Z.of_nat i)). nia. Qed.
#[export] Hint Resolve free_bytes_nonneg used_bytes_nonneg : kernel.

Lemma total_free_bound s : inv s -> 0 <= total_free s <= 2 ^ root_log2size s /\ 2 ^ root_log2size s <= 2 ^ 32.
Proof.
  intros Hinv. pose proof (bytes_conserved s Hinv) as Hc. pose proof (pr_root _ (bi_params _ _ Hinv)) as Hr.
  assert (0 <= total_free s) by (apply sum_to_nonneg; auto with kernel).
  assert (0 <= total_used s) by (apply sum_to_nonneg; auto with kernel).
  split; [lia|]. apply Z.pow_le_mono_r; unfold Log2MaxSize in *; lia.
Qed.

Lemma free_class_bound s i : inv s -> (i <= Z.to_nat (height s))%nat -> free_bytes s i <= 2 ^ 32.
Proof.
  intros Hinv Hi. pose proof (total_free_bound s Hinv) as Hb.
  pose proof (sum_to_elem (free_bytes s) (S (Z.to_nat (height s))) i). unfold total_free in Hb.
  specialize (H (free_bytes_nonneg s) ltac:(lia)). lia.
Qed.
