(* ===== verification/BuddyThms.v ===== *)
(** * Theorems about the buddy allocator *)
From S2P Require Import Prelude LibUtils CpuDefs BuddyTree CircList Buddy BuddyInv BuddyProofs BuddySpec.
Import Utils Buddy.

(** ** The abstract allocator *)

(** What a client of the allocator observes. *)
Inductive event :=
  | EvAlloc (log2size addr : Z)
  | EvFree (addr : Z).

(** Two blocks overlap when one lies in the subtree of the other. *)
Definition overlap (a b : Z) : Prop := below a b \/ below b a.

(** The address the allocator uses as the name of block [b]. *)
Definition addr_of (phy b : Z) : Z := phy + b * BlockSize.

(** The state is the set of blocks handed out. *)
Inductive spec_step (phy root : Z) : gset Z -> event -> gset Z -> Prop :=
  | spec_alloc X k b :
      0 <= b -> depth b = root - k -> (forall a, a ∈ X -> ~ overlap a b) ->
      spec_step phy root X (EvAlloc k (addr_of phy b)) ({[b]} ∪ X)
  | spec_full X k :
      (forall b, 0 <= b -> depth b = root - k -> exists a, a ∈ X /\ overlap a b) ->
      spec_step phy root X (EvAlloc k 0) X
  | spec_free X b :
      b ∈ X -> spec_step phy root X (EvFree (addr_of phy b)) (X ∖ {[b]}).

Inductive spec_run (phy root : Z) : gset Z -> list event -> gset Z -> Prop :=
  | spec_nil X : spec_run phy root X [] X
  | spec_cons X e X1 es X2 :
      spec_step phy root X e X1 -> spec_run phy root X1 es X2 -> spec_run phy root X (e :: es) X2.

(** ** Runs of the allocator *)

(** The client asks for at least [Log2MinSize] and releases only what it was given. *)
Inductive step : BuddyAllocator -> event -> BuddyAllocator -> Prop :=
  | step_alloc s k a s' :
      Log2MinSize <= k -> allocate_pages k s = Ret (a, s') -> step s (EvAlloc k a) s'
  | step_free s b s' :
      is_allocated s b -> free_pages (get_block_phy_addr s b) s = Ret (tt, s') ->
      step s (EvFree (get_block_phy_addr s b)) s'.

Inductive run : BuddyAllocator -> list event -> BuddyAllocator -> Prop :=
  | run_nil s : run s [] s
  | run_cons s e s1 es s2 : step s e s1 -> run s1 es s2 -> run s (e :: es) s2.

(** The parameters the kernel constructs the allocator with: at most [MaxBlocks]
    blocks, at a physical address that is not null and does not overflow. *)
Definition boot_params (phy k : Z) : Prop := 0 < phy < 2 ^ 63 /\ Log2MinSize <= k < Log2MaxSize.

(** A state the kernel can reach. *)
Definition reachable (phy k : Z) (es : list event) (s : BuddyAllocator) : Prop :=
  exists s0, BuddyAllocator_new phy k preallocated_blocks MaxBlocks = Ret s0 /\ run s0 es s.

(** ** Simulation *)

(** The concrete state implements the abstract one. *)
Record sim (phy k : Z) (s : BuddyAllocator) (X : gset Z) : Prop := {
  sim_inv : Inv s;
  sim_phy : phy_start s = phy;
  sim_root : root_log2size s = k;
  sim_max : max_blocks s = MaxBlocks;
  sim_set i : i ∈ X <-> is_allocated s i
}.

Lemma addr_of_eq phy k s X b :
  boot_params phy k -> sim phy k s X -> in_region s b -> get_block_phy_addr s b = addr_of phy b /\ 0 < addr_of phy b.
Proof.
  intros [Hphy _] [HI Hp _ Hm _] Hb.
  pose proof (in_region_index s b (bi_params _ _ (Inv_inv _ HI)) Hb) as Hi. rewrite Hm in Hi.
  unfold MaxBlocks, BlockSize, PAGE_SIZE in Hi. change (_ / _) with 65536 in Hi.
  unfold get_block_phy_addr, addr_of, BlockSize, PAGE_SIZE. rewrite Hp.
  split; [|lia]. apply wrap_small. unfold uint. lia.
Qed.

(** Handed-out blocks do not overlap. *)
Lemma allocated_disjoint s a b : inv s -> is_allocated s a -> is_allocated s b -> overlap a b -> a = b.
Proof.
  intros [_ HT _] Ha Hb [H|H].
  - symmetry. apply (leaf_below _ _ _ HT a b); [by right|done|apply Hb].
  - apply (leaf_below _ _ _ HT b a); [by right|done|apply Ha].
Qed.

(** When no free block is large enough, every block of the class is taken. *)
Lemma no_free_full s k b :
  inv s -> (forall i, is_free s i -> level s i < k) -> 0 <= b -> level s b = k ->
  exists a, is_allocated s a /\ overlap a b.
Proof.
  intros Hinv Hno Hb Hlev. pose proof Hinv as [_ HT _]. destruct (V s b) eqn:HV.
  - destruct (A s b) eqn:HA.
    + specialize (Hno b (conj HV HA)). lia.
    + destruct (allocated_below _ _ _ HT b HV HA) as (d & Hbd & Hd). exists d. split; [done|by right].
  - destruct (leaf_above _ _ _ HT b Hb) as (a & Hab & Hleaf).
    { destruct (V s (left_of b)) eqn:E; [|done].
      apply (ti_parent _ _ _ HT) in E as [E _]; [|unfold left_of; lia]. rewrite parent_left in E. congruence. }
    destruct Hleaf as [Hf|Ha]; [|exists a; split; [done|by left]].
    specialize (Hno a Hf). assert (0 <= a) as Ha0 by apply (valid_in_region _ _ _ Hinv (proj1 Hf)).
    destruct (below_ge a b Ha0 Hab) as [_ Hd]. unfold level in *. lia.
Qed.

Lemma simulation phy k s X e s' :
  boot_params phy k -> sim phy k s X -> step s e s' ->
  exists X', spec_step phy k X e X' /\ sim phy k s' X'.
Proof.
  intros Hboot Hsim Hstep. pose proof Hsim as [HI Hp Hr Hm HX]. pose proof (Inv_inv _ HI) as Hinv.
  destruct Hstep as [s k' a s' Hk' Hrun|s b s' Hb Hrun].
  - destruct (allocate_pages_cases s k' HI Hk')
      as [[Hrun' Hno]|(b & s1 & Hrun' & HI1 & Hc1 & Hlev & Hreg & Hnew & Hall)].
    + assert (a = 0 /\ s' = s) as [-> ->] by (rewrite Hrun in Hrun'; naive_solver).
      exists X. split; [|done]. constructor. intros b Hb0 Hd.
      destruct (no_free_full s k' b Hinv Hno Hb0) as (c & Hc & Ho); [unfold level; lia|].
      exists c. split; [by apply HX|done].
    + destruct (addr_of_eq phy k s X b Hboot Hsim Hreg) as [Ha _].
      assert (a = addr_of phy b /\ s' = s1) as [-> ->] by (rewrite Hrun, Ha in Hrun'; naive_solver).
      exists ({[b]} ∪ X). split.
      * constructor; [apply Hreg|unfold level in Hlev; lia|]. intros c Hc Ho. apply HX in Hc.
        assert (c = b) as ->; [|done].
        apply (allocated_disjoint s1); [apply HI1|apply Hall; by left|apply Hall; by right|done].
      * destruct Hc1 as (H1 & H2 & H3 & _). split; [done|congruence..|].
        intros i. rewrite elem_of_union, elem_of_singleton, HX, Hall. naive_solver.
  - destruct (free_pages_ok s b HI Hb) as (s1 & Hrun' & HI1 & Hc1 & Hall).
    assert (s' = s1) as -> by (rewrite Hrun in Hrun'; naive_solver).
    destruct (addr_of_eq phy k s X b Hboot Hsim) as [Ha _]; [by apply allocated_in_region|].
    rewrite Ha. exists (X ∖ {[b]}). split; [constructor; by apply HX|].
    destruct Hc1 as (H1 & H2 & H3 & _). split; [done|congruence..|].
    intros i. rewrite elem_of_difference, elem_of_singleton, HX, Hall. done.
Qed.

Lemma sim_new phy k s :
  boot_params phy k -> BuddyAllocator_new phy k preallocated_blocks MaxBlocks = Ret s -> sim phy k s ∅.
Proof.
  intros [Hphy Hk] Hnew.
  destruct (new_ok phy k preallocated_blocks MaxBlocks) as (s' & Hnew' & HI & H1 & H2 & H3 & Hno & _).
  - lia.
  - assert (2 ^ (k - Log2MinSize + 1) <= 2 ^ 16) by (apply Z.pow_le_mono_r; unfold Log2MinSize, Log2MaxSize in *; lia).
    change MaxBlocks with 65536. lia.
  - intros i. unfold preallocated_blocks. by rewrite lookup_empty.
  - assert (s = s') as -> by (rewrite Hnew in Hnew'; naive_solver). split; [done..|].
    intros i. set_solver.
Qed.

Lemma run_refines phy k s X es s' :
  boot_params phy k -> sim phy k s X -> run s es s' ->
  exists X', spec_run phy k X es X' /\ sim phy k s' X'.
Proof.
  intros Hboot Hsim Hrun. revert X Hsim. induction Hrun as [s|s e s1 es s2 Hstep Hrun IH]; intros X Hsim.
  - exists X. split; [constructor|done].
  - destruct (simulation phy k s X e s1 Hboot Hsim Hstep) as (X1 & Hs1 & Hsim1).
    destruct (IH X1 Hsim1) as (X2 & Hs2 & Hsim2). exists X2. split; [by econstructor|done].
Qed.

Lemma reachable_sim phy k es s :
  boot_params phy k -> reachable phy k es s -> exists X, spec_run phy k ∅ es X /\ sim phy k s X.
Proof. intros Hboot (s0 & Hnew & Hrun). eapply run_refines; [done|by apply sim_new|done]. Qed.

(** ** Properties *)

(** C1: every run of the kernel's allocator, from its constructor, is a run of the
    abstract allocator: a block handed out overlaps no block already handed out,
    an allocation fails only when every block of that size overlaps one that is
    handed out, and a release returns exactly the released block. *)
Theorem buddy_refinement phy k es s :
  boot_params phy k -> reachable phy k es s ->
  exists X, spec_run phy k ∅ es X /\ (forall i, i ∈ X <-> is_allocated s i).
Proof.
  intros Hboot Hreach. destruct (reachable_sim phy k es s Hboot Hreach) as (X & Hrun & Hsim).
  exists X. split; [done|apply Hsim].
Qed.

(** C2: in every reachable state, an allocation of any size class from
    [Log2MinSize] up and the release of any handed-out block return normally: no
    null dereference, no index outside an array, no failing assertion, no
    unbounded recursion. *)
Theorem buddy_total phy k es s :
  boot_params phy k -> reachable phy k es s ->
  (forall k', Log2MinSize <= k' -> exists a s', allocate_pages k' s = Ret (a, s')) /\
  (forall b, is_allocated s b -> exists s', free_pages (get_block_phy_addr s b) s = Ret (tt, s')).
Proof.
  intros Hboot Hreach. destruct (reachable_sim phy k es s Hboot Hreach) as (X & _ & Hsim).
  pose proof (sim_inv _ _ _ _ Hsim) as HI. split.
  - intros k' Hk'. destruct (allocate_pages_cases s k' HI Hk') as [[H _]|(b & s' & H & _)]; eauto.
  - intros b Hb. destruct (free_pages_ok s b HI Hb) as (s' & H & _); eauto.
Qed.

(** C3: releasing what was just allocated restores the set of free blocks (all
    the halves split off on the way are merged back) and the set of handed-out
    blocks. *)
Theorem alloc_free_roundtrip phy k es s k' a s1 :
  boot_params phy k -> reachable phy k es s -> Log2MinSize <= k' ->
  allocate_pages k' s = Ret (a, s1) -> a <> 0 ->
  exists s2, free_pages a s1 = Ret (tt, s2) /\
    (forall i, is_free s2 i <-> is_free s i) /\ (forall i, is_allocated s2 i <-> is_allocated s i).
Proof.
  intros Hboot Hreach Hk' Hrun Hne. destruct (reachable_sim phy k es s Hboot Hreach) as (X & _ & Hsim).
  pose proof (sim_inv _ _ _ _ Hsim) as HI.
  destruct (allocate_pages_cases s k' HI Hk')
    as [[Hrun' _]|(b & s' & Hrun' & HI' & Hc' & Hlev & Hreg & Hnew & Hall)].
  { rewrite Hrun in Hrun'. naive_solver. }
  assert (a = get_block_phy_addr s b /\ s1 = s') as [-> ->] by (rewrite Hrun in Hrun'; naive_solver).
  destruct (free_pages_ok s' b HI') as (s2 & Hfree & HI2 & Hc2 & Hall2); [apply Hall; by right|].
  exists s2. split.
  { rewrite <- Hfree. unfold get_block_phy_addr. by rewrite (proj1 Hc'). }
  assert (HA : forall i, is_allocated s2 i <-> is_allocated s i).
  { intros i. rewrite Hall2, Hall. naive_solver. }
  split; [|done]. pose proof (bi_tree _ _ (Inv_inv _ HI2)) as HT2.
  rewrite (height_config s s2) in HT2 by (by etransitivity).
  by apply (free_canonical _ _ _ _ _ HT2 (bi_tree _ _ (Inv_inv _ HI))).
Qed.

(** C4: in every reachable state the free blocks and the handed-out blocks
    partition the managed region: each block of the smallest size lies below
    exactly one of them. *)
Theorem buddy_partition phy k es s x :
  boot_params phy k -> reachable phy k es s -> 0 <= x -> level s x = Log2MinSize ->
  exists! b, below b x /\ (is_free s b \/ is_allocated s b).
Proof.
  intros Hboot Hreach Hx Hlev. destruct (reachable_sim phy k es s Hboot Hreach) as (X & _ & Hsim).
  pose proof (Inv_inv _ (sim_inv _ _ _ _ Hsim)) as Hinv.
  apply (leaf_partition _ _ _ (bi_tree _ _ Hinv) x Hx). unfold level, height in *. lia.
Qed.

(** The [available_blocks] counter of the root's bucket is one less than the
    length of its list, modulo 2^64, because the constructor links the root block
    without counting it: as soon as the root is split or handed out the counter
    reads 2^64 - 1. *)
Theorem available_blocks_underflow phy k es s :
  boot_params phy k -> reachable phy k es s -> ~ is_free s 0 ->
  exists bk, buckets s !! Z.to_nat (k - Log2MinSize) = Some bk /\ first_block bk = None /\
    available_blocks bk = 2 ^ 64 - 1.
Proof.
  intros Hboot Hreach Hroot. destruct (reachable_sim phy k es s Hboot Hreach) as (X & _ & Hsim).
  pose proof Hsim as [HI _ Hr _ _]. pose proof (Inv_inv _ HI) as Hinv. destruct Hboot as [_ Hk].
  destruct (ls_list _ _ (bi_lists _ _ Hinv) k) as (l & [_ _ Hel (bk & Hbk & Hf & Hc)]); [lia|].
  destruct l as [|i l].
  - exists bk. split; [done|]. split; [done|]. rewrite Hc, Hr, decide_True by done. done.
  - destruct (proj1 (Hel i)) as [Hfree Hlev]; [set_solver|]. destruct Hroot.
    assert (i = 0) as ->; [|done].
    assert (0 <= i) as Hi by apply (valid_in_region _ _ _ Hinv (proj1 Hfree)).
    apply Z.le_antisymm; [|done]. assert (i < 2 ^ 1 - 1); [|lia].
    apply depth_bound; [done|done|]. unfold level in Hlev. lia.
Qed.

(** ** Concrete runs *)

(** The state after a computation, and the value it returned. *)
Definition exec {S A} (c : ST S A) (s : S) : S := match c s with Ret (_, s') => s' | _ => s end.
Definition value {S A} (d : A) (c : ST S A) (s : S) : A := match c s with Ret (a, _) => a | _ => d end.

(** The allocator as [page_allocator_init] sets it up: 1 GiB from 64 MiB. *)
Definition boot : BuddyAllocator :=
  match BuddyAllocator_new 0x4000000 30 preallocated_blocks MaxBlocks with Ret s => s | _ => mkBuddy 0 0 ∅ 0 [] end.
Definition boot1 : BuddyAllocator := exec (allocate_pages 24) boot.
Definition boot2 : BuddyAllocator := exec (allocate_pages 24) boot1.
Definition boot3 : BuddyAllocator := exec (free_pages 71237632) boot2.
Definition boot_events : list event := [EvAlloc 24 71237632; EvAlloc 24 71303168; EvFree 71237632].

Lemma boot_params_ok : boot_params 0x4000000 30.
Proof. unfold boot_params, Log2MinSize, Log2MaxSize. lia. Qed.

Lemma boot1_reachable : reachable 0x4000000 30 [EvAlloc 24 71237632] boot1.
Proof.
  exists boot. split; [by vm_compute|]. econstructor; [|constructor].
  constructor; [done|]. by vm_compute.
Qed.

Lemma boot3_reachable : reachable 0x4000000 30 boot_events boot3.
Proof.
  exists boot. split; [by vm_compute|]. unfold boot_events.
  apply (run_cons _ _ boot1); [constructor; [done|by vm_compute]|].
  apply (run_cons _ _ boot2); [constructor; [done|by vm_compute]|].
  apply (run_cons _ _ boot3); [|constructor].
  apply (step_free boot2 63); [split_and!; by vm_compute|by vm_compute].
Qed.

Lemma buddy_refinement_witness :
  exists X, spec_run 0x4000000 30 ∅ boot_events X /\ (forall i, i ∈ X <-> is_allocated boot3 i).
Proof. exact (buddy_refinement _ _ _ _ boot_params_ok boot3_reachable). Defined.

Lemma buddy_total_witness :
  (forall k', Log2MinSize <= k' -> exists a s', allocate_pages k' boot3 = Ret (a, s')) /\
  (forall b, is_allocated boot3 b -> exists s', free_pages (get_block_phy_addr boot3 b) boot3 = Ret (tt, s')).
Proof. exact (buddy_total _ _ _ _ boot_params_ok boot3_reachable). Defined.

Lemma alloc_free_roundtrip_witness :
  exists s2, free_pages (value 0 (allocate_pages 16) boot3) (exec (allocate_pages 16) boot3) = Ret (tt, s2) /\
    (forall i, is_free s2 i <-> is_free boot3 i) /\ (forall i, is_allocated s2 i <-> is_allocated boot3 i).
Proof.
  apply (alloc_free_roundtrip 0x4000000 30 boot_events boot3 16).
  - exact boot_params_ok.
  - exact boot3_reachable.
  - done.
  - by vm_compute.
  - vm_compute. done.
Defined.

Lemma buddy_partition_witness :
  exists! b, below b 20000 /\ (is_free boot3 b \/ is_allocated boot3 b).
Proof.
  apply (buddy_partition 0x4000000 30 boot_events boot3 20000).
  - exact boot_params_ok.
  - exact boot3_reachable.
  - done.
  - by vm_compute.
Defined.

Lemma available_blocks_underflow_witness :
  exists bk, buckets boot1 !! Z.to_nat (30 - Log2MinSize) = Some bk /\ first_block bk = None /\
    available_blocks bk = 2 ^ 64 - 1.
Proof.
  apply (available_blocks_underflow 0x4000000 30 [EvAlloc 24 71237632] boot1).
  - exact boot_params_ok.
  - exact boot1_reachable.
  - intros [_ H]. vm_compute in H. discriminate.
Defined.

(** The physical ranges the allocator hands out overlap.  It computes the
    address of a block as [phy_start] plus its tree index times 64 KiB, not from
    its position in its size class: two 16 MiB allocations on the booted
    allocator return addresses 64 KiB apart, and an allocation of the smallest
    class is placed beyond the 1 GiB region the allocator was given. *)
Theorem allocations_overlap :
  exists a1 a2 a3 s1 s2 s3,
    allocate_pages 24 boot = Ret (a1, s1) /\ allocate_pages 24 s1 = Ret (a2, s2) /\
    allocate_pages 16 s2 = Ret (a3, s3) /\
    a1 < a2 < a1 + 2 ^ 24 /\ phy_start boot + 2 ^ root_log2size boot < a3.
Proof.
  exists 71237632, 71303168, (value 0 (allocate_pages 16) boot2), boot1, boot2, (exec (allocate_pages 16) boot2).
  split; [by vm_compute|]. split; [by vm_compute|]. split; [by vm_compute|].
  split; [lia|]. vm_compute. done.
Qed.
