(* ===== verification/PageAlloc.v ===== *)
(** * mm/page_alloc.cpp: initialisation, the page and byte interface, statistics

    The functions around the class [BuddyAllocator].  What they print is the
    list of values they send to the serial port; the text around them is
    omitted. *)
From S2P Require Import Prelude LibUtils CpuDefs SmallVec Buddy.

Module PageAlloc.
Import Utils Buddy SmallVec.

(** [struct PageRegion] *)
Record PageRegion := mkRegion {
  type : Z;
  region_phy_start : Z;
  virt_start : Z;
  region_size : Z;
  attr : Z
}.

(** Untouched static storage is zero. *)
Definition zero_region : PageRegion := mkRegion 0 0 0 0 0.
Definition max_regions : Z := 1024.

(** ** Statistics *)

(** The do-while of [print_bucket_usage] around the circular list that starts
    at [first]; a list holds at most [max_blocks] blocks, so that many rounds
    are enough. *)
Fixpoint count_free_loop (fuel : nat) (first : option Z) (block : option Z) (free : Z) : M Z :=
  match fuel with
  | O => out_of_fuel
  | S fuel =>
      b ← load block;
      let free := if available b then wrap64 (free + 1) else free in
      if bool_decide (next b = first) then mret free
      else count_free_loop fuel first (next b) free
  end.

Definition print_bucket_usage (bucket : Bucket) : M (Z * Z * Z * Z) :=
  let bucket_size := wrap64 (Z.shiftl 1 (Buddy.log2size bucket)) in
  s ← get;
  free ← (match first_block bucket with
          | None => mret 0
          | Some first => count_free_loop (Z.to_nat (max_blocks s)) (Some first) (Some first) 0
          end);
  mret (0, wrap64 (free * bucket_size), allocated_blocks bucket, available_blocks bucket).

(** The running totals of [print_usage]: free bytes, available blocks, allocated
    blocks. *)
Fixpoint usage_loop (n : nat) (i : Z) (acc : Z * Z * Z) : M (Z * Z * Z) :=
  match n with
  | O => mret acc
  | S n =>
      bk ← bucket_at (get_bucket i);
      r ← print_bucket_usage bk;
      let '(_, free, alloc, avail) := r in
      let '(total_free, total_available, total_allocated) := acc in
      usage_loop n (i + 1)
        (wrap64 (total_free + free), wrap64 (total_available + avail), wrap64 (total_allocated + alloc))
  end.

(** [print_usage] prints used bytes, free bytes, the percentage in use, and the
    numbers of allocated and available blocks. *)
Definition print_usage : M (Z * Z * Z * Z * Z) :=
  s ← get;
  let total := wrap64 (Z.shiftl 1 (root_log2size s)) in
  r ← usage_loop (Z.to_nat (root_log2size s + 1 - Log2MinSize)) Log2MinSize (0, 0, 0);
  let '(total_free, total_available_blocks, total_allocated_blocks) := r in
  if total =? 0 then fault
  else mret (wrap64 (total - total_free), total_free, wrap64 (wrap64 (total - total_free) * 100) / total,
             total_allocated_blocks, total_available_blocks).

Definition buddy_allocator_usage : M (Z * Z * Z * Z * Z) := print_usage.

(** [print_bucket] prints, per block of the list: id, address, buddy, parent and
    the two flags. *)
Fixpoint print_bucket_loop (fuel : nat) (first : option Z) (block : Z)
    : M (list (Z * Z * option Z * option Z * bool * bool)) :=
  match fuel with
  | O => out_of_fuel
  | S fuel =>
      s ← get;
      b ← load (Some block);
      let line := (block, get_block_phy_addr s block, get_buddy block, get_parent block, available b, valid b) in
      if bool_decide (next b = first) then mret [line]
      else match next b with
           | None => fault
           | Some n => rest ← print_bucket_loop fuel first n; mret (line :: rest)
           end
  end.

Definition print_bucket (bucket : Bucket) : M (list (Z * Z * option Z * option Z * bool * bool)) :=
  s ← get;
  match first_block bucket with
  | None => mret []
  | Some first => print_bucket_loop (Z.to_nat (max_blocks s)) (Some first) first
  end.

Fixpoint print_loop (n : nat) (i : Z) : M (list (list (Z * Z * option Z * option Z * bool * bool))) :=
  match n with
  | O => mret []
  | S n =>
      bk ← bucket_at (get_bucket i);
      line ← print_bucket bk;
      rest ← print_loop n (i + 1);
      mret (line :: rest)
  end.

Definition print : M (list (list (Z * Z * option Z * option Z * bool * bool))) :=
  s ← get;
  print_loop (Z.to_nat (root_log2size s + 1 - Log2MinSize)) Log2MinSize.

(** ** Initialisation *)

(** The check of [buddy_allocator_init] on bucket [i]. *)
Definition bucket_passes (i : nat) : M bool :=
  s ← get;
  bk ← bucket_at (Z.of_nat i);
  if Z.of_nat i + Log2MinSize =? root_log2size s then
    match first_block bk with
    | None => mret false
    | Some first => b ← load (Some first); mret (bool_decide (next b = Some first))
    end
  else mret (bool_decide (first_block bk = None)).

Fixpoint passed_loop (ids : list nat) (passed : bool) : M bool :=
  match ids with
  | [] => mret passed
  | i :: ids => ok ← bucket_passes i; passed_loop ids (passed && ok)
  end.

(** The self test on the freshly constructed allocator. *)
Definition self_test : M unit :=
  _ ← print;
  addr1 ← allocate_pages 24;
  addr2 ← allocate_pages 16;
  free_pages addr1;;
  free_pages addr2;;
  s ← get;
  passed ← passed_loop (seq 0 (length (buckets s))) true;
  do_assert passed "Buddy allocator test failed".

Definition lift_outcome {S A} (o : outcome A) (k : A -> outcome S) : outcome S :=
  match o with
  | Ret a => k a | Panic m => Panic m | Halt => Halt | Fault => Fault | OutOfFuel => OutOfFuel
  end.

Definition buddy_allocator_init (max_pages_addr log2size : Z) : outcome BuddyAllocator :=
  lift_outcome (BuddyAllocator_new max_pages_addr log2size preallocated_blocks MaxBlocks) (fun s =>
  lift_outcome (self_test s) (fun r => Ret (snd r))).

(** The search loop of [page_allocator_init]; [regions[i]] is the non-const
    subscript, because the parameter is a non-const reference. *)
Fixpoint largest_loop (n : nat) (i : Z) (max_pages max_pages_addr : Z) : ST (SmallVec PageRegion) (Z * Z) :=
  match n with
  | O => mret (max_pages, max_pages_addr)
  | S n =>
      r ← at_mut zero_region max_regions i;
      let n_pages := region_size r / PAGE_SIZE in
      if max_pages <? n_pages then
        r ← at_mut zero_region max_regions i;
        if region_phy_start r <? 0x100000000 then
          r ← at_mut zero_region max_regions i;
          largest_loop n (i + 1) n_pages (region_phy_start r)
        else largest_loop n (i + 1) max_pages max_pages_addr
      else largest_loop n (i + 1) max_pages max_pages_addr
  end.

(** Address and logarithm of the size of the region handed to the allocator. *)
Definition clip_region (max_pages max_pages_addr : Z) : Z * Z :=
  let '(max_pages, max_pages_addr) :=
    if max_pages_addr <? IDENTITY_MAP_PHY_START then
      let unusable := IDENTITY_MAP_PHY_START - max_pages_addr in
      (wrap64 (max_pages - unusable / PAGE_SIZE), IDENTITY_MAP_PHY_START)
    else (max_pages, max_pages_addr) in
  let max_pages :=
    if 1024 * 1024 * 1024 / PAGE_SIZE <? max_pages then 1024 * 1024 * 1024 / PAGE_SIZE else max_pages in
  (max_pages_addr, log2 (wrap64 (max_pages * PAGE_SIZE))).

Definition page_allocator_init (regions : SmallVec PageRegion) : outcome BuddyAllocator :=
  lift_outcome (largest_loop (Z.to_nat (size regions)) 0 0 0 regions) (fun '((max_pages, max_pages_addr), _) =>
  let '(max_pages_addr, log2size) := clip_region max_pages max_pages_addr in
  if negb (IDENTITY_MAP_PHY_START <=? max_pages_addr) then Panic "region out of identity map region"
  else if negb (wrap64 (max_pages_addr + wrap64 (Z.shiftl 1 log2size)) <=? IDENTITY_MAP_PHY_END)
  then Panic "region out of identity map region"
  else buddy_allocator_init max_pages_addr log2size).

(** ** The page and byte interface *)

Definition kernel_page_alloc (i : Z) : M Z :=
  phy_addr ← allocate_pages i;
  mret (wrap64 (KERNEL_START + phy_addr)).

Definition kernel_page_free (vaddr : Z) : M unit := free_pages (wrap64 (vaddr - KERNEL_START)).
Definition physical_page_alloc (i : Z) : M Z := allocate_pages i.
Definition physical_page_release (paddr : Z) : M unit := free_pages paddr.
Definition kfree (p : Z) : M unit := kernel_page_free p.

Definition kmalloc (size : Z) : M Z :=
  let log2size := log2_ceil size in
  let log2size := if log2size <? Log2MinSize then Log2MinSize else log2size in
  kernel_page_alloc log2size.

End PageAlloc.
