(* ===== verification/PageAllocProofs.v ===== *)
(** * Lemmas about the functions around the buddy allocator *)
From S2P Require Import Prelude LibUtils CpuDefs SmallVec BuddyTree CircList Buddy BuddyInv BuddyProofs BuddySpec BuddyCount PageAlloc.
Import Utils Buddy PageAlloc.

(** ** The size recorded in a bucket *)

(** Bucket [n] serves blocks of [2^(Log2MinSize + n)] bytes. *)
Definition sizes_ok (s : BuddyAllocator) : Prop :=
  forall n bk, buckets s !! n = Some bk -> Buddy.log2size bk = Log2MinSize + Z.of_nat n.

Lemma preserves_load p : preserves sizes_ok (load p).
Proof. intros s b s'. unfold load. destruct p; [|done]. case_match; naive_solver. Qed.
Lemma preserves_store p f : preserves sizes_ok (store p f).
Proof. intros s b s'. unfold store. destruct p; [|done]. case_match; [|done]. by intros [= _ <-]. Qed.
Lemma preserves_bucket_at i : preserves sizes_ok (bucket_at i).
Proof. intros s b s'. unfold bucket_at. destruct (0 <=? i); [|done]. case_match; naive_solver. Qed.
Lemma preserves_update_bucket i f :
  (forall bk, Buddy.log2size (f bk) = Buddy.log2size bk) -> preserves sizes_ok (update_bucket i f).
Proof.
  intros Hf s b s'. unfold update_bucket. destruct (0 <=? i); [|done].
  destruct (buckets s !! Z.to_nat i) as [bk|] eqn:E; [|done]. intros [= _ <-] Hs n bk'. simpl.
  rewrite list_lookup_insert. case_decide as Hd; [|apply Hs]. intros [= <-]. rewrite Hf. apply Hs. naive_solver.
Qed.
#[export] Hint Resolve preserves_load preserves_store preserves_bucket_at : preserves.
#[export] Hint Extern 1 (preserves sizes_ok (update_bucket _ _)) => (by apply preserves_update_bucket) : preserves.

Lemma preserves_remove b : preserves sizes_ok (remove_from_available_list b).
Proof. unfold remove_from_available_list. preserve. Qed.
Lemma preserves_add b : preserves sizes_ok (add_to_available_list b).
Proof. unfold add_to_available_list. preserve. Qed.
#[export] Hint Resolve preserves_remove preserves_add : preserves.

Lemma preserves_alloc fuel k : preserves sizes_ok (alloc_block_size_fuel fuel k).
Proof. revert k. induction fuel as [|fuel IH]; intros k; cbn [alloc_block_size_fuel]; unfold split_block; preserve. Qed.
Lemma preserves_merge fuel b : preserves sizes_ok (try_merge_with_buddy_fuel fuel b).
Proof. revert b. induction fuel as [|fuel IH]; intros b; cbn [try_merge_with_buddy_fuel]; unfold merge_round; preserve. Qed.
#[export] Hint Resolve preserves_alloc preserves_merge : preserves.

Lemma preserves_allocate_pages k : preserves sizes_ok (allocate_pages k).
Proof. unfold allocate_pages, alloc_block_size. preserve. Qed.
Lemma preserves_free_pages a : preserves sizes_ok (free_pages a).
Proof. unfold free_pages, try_merge_with_buddy. preserve. Qed.

Lemma sizes_new addr k base mb s : BuddyAllocator_new addr k base mb = Ret s -> sizes_ok s.
Proof.
  unfold BuddyAllocator_new. destruct (update_bucket _ _ _) as [[u s1]| | | |] eqn:E; try done. intros [= <-].
  eapply preserves_update_bucket; [|exact E|]; [done|].
  intros n bk. cbn [buckets]. rewrite list_lookup_fmap. intros (m & [-> _]%lookup_seq & ->)%fmap_Some. reflexivity.
Qed.

(** ** Walking a free list *)

Lemma count_free_loop_ok s first fuel block l n :
  chain (nx s) (pv s) (block :: l ++ [first]) -> first ∉ l ->
  (forall i, i ∈ block :: l -> 0 <= i < max_blocks s /\ A s i = true) ->
  (length l < fuel)%nat -> 0 <= n -> n + Z.of_nat (length l) + 1 < 2 ^ 64 ->
  count_free_loop fuel (Some first) (Some block) n s = Ret (n + 1 + Z.of_nat (length l), s).
Proof.
  revert block l n. induction fuel as [|fuel IH]; intros block l n Hch Hnin Hel Hf Hn Hb; [lia|].
  cbn [count_free_loop]. destruct (Hel block) as [Hr Ha]; [set_solver|].
  step_with load_ok; [|done]. unfold A in Ha. rewrite Ha. rewrite wrap_small by (unfold uint; lia).
  destruct l as [|y l].
  - destruct Hch as [Hnx _]. unfold nx in Hnx. rewrite Hnx, bool_decide_true by done. simpl length.
    unfold mret, st_ret. do 2 f_equal; lia.
  - destruct Hch as (Hnx & _ & Hch). unfold nx in Hnx. rewrite Hnx, bool_decide_false by set_solver.
    cbn [length] in *. rewrite (IH y l (n + 1)); [do 2 f_equal; lia|exact Hch|set_solver|set_solver|lia..].
Qed.

(** The list of class [k] holds the free blocks of that class. *)
Lemma free_list_size s k l : inv s -> list_ok s (free (V s) (A s)) k l -> size (free_at s k) = length l.
Proof.
  intros Hinv [Hnd _ Hel _]. rewrite <- (size_list_to_set (C := gset Z)) by done. f_equal. apply set_eq. intros i.
  rewrite elem_of_free_at, elem_of_list_to_set by done. symmetry. apply Hel.
Qed.

Lemma free_list_elem s k l i : inv s -> list_ok s (free (V s) (A s)) k l -> i ∈ l -> 0 <= i < max_blocks s /\ A s i = true.
Proof.
  intros Hinv Hl Hi. apply (lo_elem _ _ _ _ Hl) in Hi as [Hf _]. split; [|apply Hf].
  apply in_region_index; [apply Hinv|]. by apply (ls_region _ _ (bi_lists _ _ Hinv)).
Qed.

(** A list without repetitions of indices below [n] has at most [n] elements. *)
Lemma nodup_length (l : list Z) n : 0 <= n -> NoDup l -> (forall i, i ∈ l -> 0 <= i < n) -> (length l <= Z.to_nat n)%nat.
Proof.
  intros Hn Hnd Hb. rewrite <- (length_seqZ 0 n). apply submseteq_length, NoDup_submseteq; [done|].
  intros i Hi. apply elem_of_seqZ. specialize (Hb i Hi). lia.
Qed.

Lemma free_list_length s k l : inv s -> list_ok s (free (V s) (A s)) k l ->
  (length l <= Z.to_nat (max_blocks s))%nat /\ max_blocks s <= 2 ^ 32.
Proof.
  intros Hinv Hl. pose proof (pr_max _ (bi_params _ _ Hinv)) as Hm.
  pose proof (pr_root _ (bi_params _ _ Hinv)).
  assert (0 < 2 ^ (root_log2size s - Log2MinSize + 1)) by (apply Z.pow_pos_nonneg; lia).
  split; [|lia]. apply nodup_length; [lia|apply Hl|]. intros i Hi. by eapply free_list_elem.
Qed.

Lemma shift_class k : Log2MinSize <= k <= Log2MaxSize -> wrap64 (Z.shiftl 1 k) = 2 ^ k /\ 0 < 2 ^ k <= 2 ^ 32.
Proof.
  unfold Log2MinSize, Log2MaxSize. intros Hk. rewrite Z.shiftl_1_l.
  assert (0 < 2 ^ k <= 2 ^ 32) by (split; [apply Z.pow_pos_nonneg; lia|apply Z.pow_le_mono_r; lia]).
  split; [|done]. apply wrap_small. unfold uint. lia.
Qed.

Lemma print_bucket_usage_ok s k : Inv s -> sizes_ok s -> Log2MinSize <= k <= root_log2size s ->
  exists bk, buckets s !! Z.to_nat (k - Log2MinSize) = Some bk /\
    print_bucket_usage bk s =
      Ret ((0, Z.of_nat (size (free_at s k)) * 2 ^ k, Z.of_nat (size (allocated_at s k)),
            wrap64 (Z.of_nat (size (free_at s k)) - if decide (k = root_log2size s) then 1 else 0)), s).
Proof.
  intros HI Hsz Hk. pose proof (Inv_inv _ HI) as Hinv. pose proof (pr_root _ (bi_params _ _ Hinv)) as Hr.
  destruct (ls_list _ _ (bi_lists _ _ Hinv) k) as (l & Hl); [lia|].
  destruct (lo_bucket _ _ _ _ Hl) as (bk & Hbk & Hf & Hav). exists bk. split; [done|].
  pose proof (Inv_counts _ HI k ltac:(lia)) as Hc. unfold counts in Hc. rewrite Hbk in Hc. simpl in Hc.
  destruct (free_list_length s k l Hinv Hl) as [Hlen Hm]. destruct (shift_class k ltac:(lia)) as [Hsh Hp].
  unfold print_bucket_usage. step_with (eq_refl (get s)). rewrite (Hsz _ _ Hbk), Hf.
  replace (Log2MinSize + Z.of_nat (Z.to_nat (k - Log2MinSize))) with k by lia. rewrite Hsh.
  erewrite (free_list_size s k l) by done.
  erewrite (bind_ret _ _ s (Z.of_nat (length l)) s).
  { injection Hc as ->. rewrite Hav. unfold mret, st_ret. repeat f_equal. apply wrap_small.
    pose proof (free_class_bound s (Z.to_nat (k - Log2MinSize)) Hinv ltac:(unfold height; lia)) as Hb.
    unfold free_bytes in Hb. replace (Log2MinSize + Z.of_nat (Z.to_nat (k - Log2MinSize))) with k in Hb by lia.
    erewrite (free_list_size s k l) in Hb by done. unfold uint. nia. }
  destruct l as [|x l]; [done|]. cbn [head].
  rewrite (count_free_loop_ok s x _ x l 0); [simpl length; do 2 f_equal; lia|apply Hl|..].
  - by apply NoDup_cons, Hl.
  - intros i Hi. by eapply free_list_elem.
  - simpl in Hlen. lia.
  - done.
  - simpl in Hlen. lia.
Qed.

(** ** The usage report *)

Definition free_count (s : BuddyAllocator) (i : nat) : Z := Z.of_nat (size (free_at s (Log2MinSize + Z.of_nat i))).
Definition used_count (s : BuddyAllocator) (i : nat) : Z := Z.of_nat (size (allocated_at s (Log2MinSize + Z.of_nat i))).

Lemma count_le_bytes c k : 0 <= c -> 0 <= k -> c <= c * 2 ^ k.
Proof. intros. assert (0 < 2 ^ k) by (apply Z.pow_pos_nonneg; lia). nia. Qed.

Lemma counts_bound s n : inv s -> (n <= S (Z.to_nat (height s)))%nat ->
  0 <= sum_to (free_bytes s) n <= 2 ^ 32 /\ 0 <= sum_to (used_count s) n <= 2 ^ 32.
Proof.
  intros Hinv Hn. pose proof (total_free_bound s Hinv) as Hb. pose proof (bytes_conserved s Hinv) as Hc.
  pose proof (sum_to_mono (free_bytes s) n (S (Z.to_nat (height s)))) as H1.
  pose proof (sum_to_mono (used_bytes s) n (S (Z.to_nat (height s)))) as H2.
  pose proof (sum_to_nonneg (free_bytes s) n) as H3. pose proof (sum_to_nonneg (used_count s) n) as H4.
  assert (forall m, sum_to (used_count s) m <= sum_to (used_bytes s) m) as H5.
  { induction m as [|m IH]; [done|]. cbn.
    pose proof (count_le_bytes (used_count s m) (Log2MinSize + Z.of_nat m)). unfold used_bytes, used_count, Log2MinSize in *. lia. }
  specialize (H5 n). unfold total_free, total_used in *.
  specialize (H1 (free_bytes_nonneg s) Hn). specialize (H2 (used_bytes_nonneg s) Hn).
  specialize (H3 (free_bytes_nonneg s)).
  assert (forall i, 0 <= used_count s i) as H6 by (unfold used_count; lia). specialize (H4 H6). lia.
Qed.

Lemma usage_loop_ok s n i : Inv s -> sizes_ok s -> (i + S n = S (Z.to_nat (height s)))%nat ->
  usage_loop (S n) (Log2MinSize + Z.of_nat i)
    (sum_to (free_bytes s) i, wrap64 (sum_to (free_count s) i), sum_to (used_count s) i) s =
  Ret ((total_free s, wrap64 (sum_to (free_count s) (S (Z.to_nat (height s))) - 1),
        sum_to (used_count s) (S (Z.to_nat (height s)))), s).
Proof.
  intros HI Hsz. pose proof (Inv_inv _ HI) as Hinv. pose proof (pr_root _ (bi_params _ _ Hinv)) as Hr.
  revert i. induction n as [|n IH]; intros i Hn; cbn [usage_loop].
  all: set (k := Log2MinSize + Z.of_nat i).
  all: assert (Log2MinSize <= k <= root_log2size s) as Hk by (unfold k, height in *; lia).
  all: destruct (print_bucket_usage_ok s k HI Hsz Hk) as (bk & Hbk & Hpr).
  all: unfold get_bucket; rewrite (bucket_index_eq k) by lia.
  all: step_with bucket_at_ok; [|lia|exact Hbk].
  all: step_with Hpr.
  all: change (Z.of_nat (size (free_at s k)) * 2 ^ k) with (free_bytes s i).
  all: change (Z.of_nat (size (free_at s k))) with (free_count s i).
  all: change (Z.of_nat (size (allocated_at s k))) with (used_count s i).
  all: pose proof (counts_bound s (S i) Hinv ltac:(lia)) as [Hb1 Hb2]; cbn [sum_to] in Hb1, Hb2.
  all: rewrite (wrap_small 64 (sum_to (free_bytes s) i + _)) by (unfold uint; lia).
  all: rewrite (wrap_small 64 (sum_to (used_count s) i + _)) by (unfold uint; lia).
  - unfold mret, st_ret, total_free. replace (Z.to_nat (height s)) with i by lia. cbn [sum_to].
    rewrite decide_True by (unfold k, height in *; lia). do 4 f_equal.
    rewrite Z.add_comm, wrap_add_l. autorewrite with kernel_rw.
    replace (free_count s i - 1 + wrap64 _) with (wrap64 (sum_to (free_count s) i) + (free_count s i - 1)) by lia.
    rewrite wrap_add_l. f_equal. lia.
  - rewrite decide_False by (unfold k, height in *; lia). rewrite Z.sub_0_r.
    assert (0 <= free_count s i <= 2 ^ 32) as Hfc.
    { unfold free_count. pose proof (free_class_bound s i Hinv ltac:(lia)) as Hfb. unfold free_bytes in Hfb.
      fold k in Hfb |- *. pose proof (count_le_bytes (Z.of_nat (size (free_at s k))) k). unfold Log2MinSize in *. lia. }
    rewrite (wrap_small 64 (free_count s i)) by (unfold uint; lia). rewrite wrap_add_l.
    replace (k + 1) with (Log2MinSize + Z.of_nat (S i)) by (unfold k; lia). exact (IH (S i) ltac:(lia)).
Qed.

Lemma print_usage_ok s : Inv s -> sizes_ok s ->
  print_usage s = Ret ((total_used s, total_free s, total_used s * 100 / 2 ^ root_log2size s,
                        sum_to (used_count s) (S (Z.to_nat (height s))),
                        wrap64 (sum_to (free_count s) (S (Z.to_nat (height s))) - 1)), s).
Proof.
  intros HI Hsz. pose proof (Inv_inv _ HI) as Hinv. pose proof (pr_root _ (bi_params _ _ Hinv)) as Hr.
  destruct (shift_class (root_log2size s) ltac:(lia)) as [Hsh Hp].
  pose proof (bytes_conserved s Hinv) as Hc. destruct (total_free_bound s Hinv) as [Hb1 Hb2].
  unfold print_usage. step_with (eq_refl (get s)). rewrite Hsh.
  replace (Z.to_nat (root_log2size s + 1 - Log2MinSize)) with (S (Z.to_nat (height s))) by (unfold height; lia).
  step_with (usage_loop_ok s (Z.to_nat (height s)) 0 HI Hsz); [|lia].
  rewrite (proj2 (Z.eqb_neq _ _)) by lia.
  replace (2 ^ root_log2size s - total_free s) with (total_used s) by lia.
  rewrite (wrap_small 64 (total_used s)) by (unfold uint; lia).
  rewrite (wrap_small 64 (total_used s * 100)) by (unfold uint; lia). done.
Qed.

(** ** Printing the lists *)

Lemma print_bucket_loop_ok s first fuel block l :
  chain (nx s) (pv s) (block :: l ++ [first]) -> first ∉ l ->
  (forall i, i ∈ block :: l -> 0 <= i < max_blocks s) -> (length l < fuel)%nat ->
  exists lines, print_bucket_loop fuel (Some first) block s = Ret (lines, s).
Proof.
  revert block l. induction fuel as [|fuel IH]; intros block l Hch Hnin Hel Hf; [lia|].
  cbn [print_bucket_loop]. step_with (eq_refl (get s)). step_with load_ok; [|apply Hel; set_solver].
  destruct l as [|y l].
  - destruct Hch as [Hnx _]. unfold nx in Hnx. rewrite Hnx, bool_decide_true by done. by eexists.
  - destruct Hch as (Hnx & _ & Hch). unfold nx in Hnx. rewrite Hnx, bool_decide_false by set_solver.
    cbn [length] in *. destruct (IH y l) as (lines & Hl); [exact Hch|set_solver|set_solver|lia|].
    step_with Hl. by eexists.
Qed.

Lemma print_loop_ok s n i : inv s -> (i + n <= S (Z.to_nat (height s)))%nat ->
  exists r, print_loop n (Log2MinSize + Z.of_nat i) s = Ret (r, s).
Proof.
  intros Hinv. pose proof (pr_root _ (bi_params _ _ Hinv)) as Hr.
  revert i. induction n as [|n IH]; intros i Hn; cbn [print_loop]; [by eexists|].
  set (k := Log2MinSize + Z.of_nat i). assert (Log2MinSize <= k <= Log2MaxSize) as Hk by (unfold k, height in *; lia).
  destruct (ls_list _ _ (bi_lists _ _ Hinv) k Hk) as (l & Hl).
  destruct (lo_bucket _ _ _ _ Hl) as (bk & Hbk & Hf & _). destruct (free_list_length s k l Hinv Hl) as [Hlen _].
  unfold get_bucket. rewrite (bucket_index_eq k Hk). step_with bucket_at_ok; [|lia|exact Hbk].
  assert (exists lines, print_bucket bk s = Ret (lines, s)) as (lines & Hp).
  { unfold print_bucket. step_with (eq_refl (get s)). rewrite Hf. destruct l as [|x l]; [by eexists|]. cbn [head].
    apply (print_bucket_loop_ok s x _ x l); [apply Hl|by apply NoDup_cons, Hl| |simpl in Hlen; lia].
    intros j Hj. by eapply free_list_elem. }
  step_with Hp. destruct (IH (S i) ltac:(lia)) as (r & Hr'). replace (k + 1) with (Log2MinSize + Z.of_nat (S i)) by (unfold k; lia).
  step_with Hr'. by eexists.
Qed.

Lemma print_ok s : inv s -> exists r, print s = Ret (r, s).
Proof.
  intros Hinv. pose proof (pr_root _ (bi_params _ _ Hinv)) as Hr. unfold print. step_with (eq_refl (get s)).
  change Log2MinSize with (Log2MinSize + Z.of_nat 0) at 2. apply print_loop_ok; [done|]. unfold height. lia.
Qed.

(** ** The self test *)

(** With nothing handed out, the whole region is one free block. *)
Lemma nothing_allocated s : inv s -> (forall i, ~ is_allocated s i) -> forall i, is_free s i <-> i = 0.
Proof.
  intros Hinv Hno i. pose proof (bi_tree _ _ Hinv) as HT.
  assert (is_free s 0) as H0.
  { apply (free_spec _ _ _ HT). split; [apply (ti_root _ _ _ HT)|]. intros d _. apply Hno. }
  split; [|by intros ->]. intros [HV HF].
  apply (valid_spec _ _ _ HT) in HV as [?|(_ & d & Hd & _)]; [done|]. by destruct (Hno d).
Qed.

Lemma bucket_passes_ok s i : inv s -> (i < 17)%nat -> (forall j, is_free s j <-> j = 0) ->
  bucket_passes i s = Ret (true, s).
Proof.
  intros Hinv Hi Hfree. pose proof (pr_root _ (bi_params _ _ Hinv)) as Hr.
  set (k := Z.of_nat i + Log2MinSize).
  assert (Log2MinSize <= k <= Log2MaxSize) as Hk by (unfold k, Log2MinSize, Log2MaxSize; lia).
  destruct (ls_list _ _ (bi_lists _ _ Hinv) k Hk) as (l & Hl).
  destruct (lo_bucket _ _ _ _ Hl) as (bk & Hbk & Hf & _).
  assert (forall j, j ∈ l <-> j = 0 /\ k = root_log2size s) as Hel.
  { intros j. rewrite (lo_elem _ _ _ _ Hl). change (free (V s) (A s) j) with (is_free s j). rewrite Hfree.
    split; intros [-> E]; (split; [done|]); unfold level in *; change (depth 0) with 0 in *; lia. }
  unfold bucket_passes. step_with (eq_refl (get s)).
  replace (Z.to_nat (k - Log2MinSize)) with (Z.to_nat (Z.of_nat i)) in Hbk by (unfold k; lia).
  step_with bucket_at_ok; [|lia|exact Hbk]. fold k. rewrite Hf.
  destruct (Z.eqb_spec k (root_log2size s)) as [E|E].
  - assert (l = [0]) as ->.
    { destruct l as [|x [|y l]].
      - pose proof (proj2 (Hel 0) (conj eq_refl E)). set_solver.
      - destruct (proj1 (Hel x)) as [-> _]; [set_solver|done].
      - destruct (proj1 (Hel x)) as [-> _]; [set_solver|]. destruct (proj1 (Hel y)) as [-> _]; [set_solver|].
        pose proof (lo_nodup _ _ _ _ Hl) as [Hn _]%NoDup_cons. set_solver. }
    cbn [head]. step_with load_ok; [|by apply (free_list_elem s k [0] 0 Hinv Hl); set_solver].
    pose proof (lo_cyc _ _ _ _ Hl) as [Hnx _]%cyc_single. unfold nx in Hnx. by rewrite Hnx, bool_decide_true.
  - destruct l as [|x l]; [done|]. destruct (proj1 (Hel x)) as [_ ?]; [set_solver|done].
Qed.

Lemma passed_loop_ok s ids : (forall i, i ∈ ids -> bucket_passes i s = Ret (true, s)) -> passed_loop ids true s = Ret (true, s).
Proof.
  induction ids as [|i ids IH]; intros H; cbn [passed_loop]; [done|].
  step_with (H i ltac:(set_solver)). apply IH. set_solver.
Qed.

(** Releasing address 0 never succeeds: 0 is what a failed allocation returns. *)
Lemma free_pages_null s u : 0 < phy_start s < 2 ^ 63 -> max_blocks s <= 2 ^ 32 -> free_pages 0 s <> Ret u.
Proof.
  intros Hp Hm. unfold free_pages. step_with (eq_refl (get s)).
  assert (wrap64 (0 - phy_start s) = 2 ^ 64 - phy_start s) as ->.
  { unfold wrap. rewrite <- (Z.mod_unique (0 - phy_start s) (2 ^ 64) (-1) (2 ^ 64 - phy_start s)); lia. }
  destruct (_ =? 0); [|done]. cbn [do_assert]. rewrite bind_mret_l. unfold mbind at 1, st_bind at 1, load.
  rewrite (proj2 (Z.ltb_ge _ _)).
  - by rewrite andb_false_r.
  - unfold BlockSize, PAGE_SIZE in *. change (16 * 4096) with 65536 in *. dlia.
Qed.
