(* ===== verification/PageAllocThms.v ===== *)
(** * Theorems about initialisation, kmalloc and the usage report *)
From S2P Require Import Prelude LibUtils CpuDefs SmallVec BuddyTree CircList Buddy BuddyInv BuddyProofs BuddySpec BuddyCount BuddyThms PageAlloc PageAllocProofs.
Import Utils Buddy SmallVec PageAlloc.

Lemma preserves_run s es s' : run s es s' -> sizes_ok s -> sizes_ok s'.
Proof.
  induction 1 as [s|s e s1 es s2 Hstep Hrun IH]; [done|]. intros Hs. apply IH.
  destruct Hstep as [s k a s1 _ H|s b s1 _ H]; [by eapply preserves_allocate_pages|by eapply preserves_free_pages].
Qed.

(** The invariants of a reachable allocator, with its parameters. *)
Lemma reachable_inv phy k es s : boot_params phy k -> reachable phy k es s ->
  Inv s /\ sizes_ok s /\ phy_start s = phy /\ root_log2size s = k.
Proof.
  intros Hboot Hreach. destruct (reachable_sim phy k es s Hboot Hreach) as (X & _ & [HI Hp Hr _ _]).
  split; [done|]. split; [|done]. destruct Hreach as (s0 & Hnew & Hrun).
  eapply preserves_run; [done|]. by eapply sizes_new.
Qed.

(** In every reachable state the usage report accounts for every byte of the
    region: the bytes reported free are those of the free blocks, the bytes
    reported used are those of the handed-out blocks, and together they are the
    region; only the number of available blocks is off, by one. *)
Theorem usage_report phy k es s :
  boot_params phy k -> reachable phy k es s ->
  exists pct, buddy_allocator_usage s =
    Ret ((total_used s, total_free s, pct, sum_to (used_count s) (S (Z.to_nat (height s))),
          wrap64 (sum_to (free_count s) (S (Z.to_nat (height s))) - 1)), s) /\
    total_used s + total_free s = 2 ^ k /\ 0 <= pct <= 100.
Proof.
  intros Hboot Hreach. destruct (reachable_inv phy k es s Hboot Hreach) as (HI & Hsz & _ & <-).
  eexists. split; [by apply print_usage_ok|]. pose proof (bytes_conserved s (Inv_inv _ HI)) as Hc.
  destruct (total_free_bound s (Inv_inv _ HI)) as [Hb _]. split; [lia|].
  assert (0 < 2 ^ root_log2size s) by (destruct (pr_root _ (bi_params _ _ (Inv_inv _ HI))); apply Z.pow_pos_nonneg; unfold Log2MinSize in *; lia).
  assert (0 <= total_used s) by (apply sum_to_nonneg; auto with kernel).
  split; [apply Z.div_pos; lia|]. apply Z.div_le_upper_bound; nia.
Qed.

(** ** The self test *)

(** The two allocations of the self test on a fresh allocator of at least 2^25 bytes. *)
Lemma self_test_allocs s : Inv s -> 25 <= root_log2size s -> (forall i, ~ is_allocated s i) ->
  exists b1 s1 b2 s2,
    allocate_pages 24 s = Ret (get_block_phy_addr s b1, s1) /\ Inv s1 /\ same_config s s1 /\
    allocate_pages 16 s1 = Ret (get_block_phy_addr s b2, s2) /\ Inv s2 /\ same_config s s2 /\
    b1 <> b2 /\ (forall i, is_allocated s2 i <-> i = b1 \/ i = b2).
Proof.
  intros HI Hr Hno. pose proof (Inv_inv _ HI) as Hinv.
  destruct (allocate_pages_cases s 24 HI ltac:(done)) as [[_ Hall]|(b1 & s1 & Ha1 & HI1 & Hc1 & Hl1 & _ & _ & Hal1)].
  { specialize (Hall 0 (proj2 (nothing_allocated s Hinv Hno 0) eq_refl)). unfold level in Hall.
    change (depth 0) with 0 in Hall. lia. }
  pose proof (Inv_inv _ HI1) as Hinv1. pose proof (bi_tree _ _ Hinv1) as HT1.
  assert (is_allocated s1 b1) as Hb1 by (apply Hal1; by right).
  assert (0 <= b1) as Hb0 by apply (allocated_in_region s1 b1 Hinv1 Hb1).
  assert (0 < b1) as Hpos.
  { destruct (Z.eq_dec b1 0) as [->|]; [|lia]. unfold level in Hl1. change (depth 0) with 0 in Hl1. lia. }
  assert (is_free s1 (buddy_of b1)) as Hfr.
  { apply (free_spec _ _ _ HT1). split; [by apply (ti_buddy _ _ _ HT1); [apply Hb1|]|].
    intros d Hd Had. apply Hal1 in Had as [Had| ->]; [by apply (Hno d)|].
    apply (buddy_ne b1 Hpos). inversion Hd as [E|d Hd0 Hbp E]; [congruence|].
    assert (0 <= buddy_of b1) as Hge by (destruct (index_cases b1 Hpos) as (p & Hp & _ & [[_ ->]|[_ ->]]); unfold left_of, right_of; lia).
    apply below_ge in Hbp as [_ Hdep]; [|done]. rewrite depth_buddy, depth_parent in Hdep by done. lia. }
  destruct (allocate_pages_cases s1 16 HI1 ltac:(done)) as [[_ Hall]|(b2 & s2 & Ha2 & HI2 & Hc2 & Hl2 & _ & Hn2 & Hal2)].
  { specialize (Hall _ Hfr). unfold level in Hall. rewrite depth_buddy in Hall by done.
    destruct Hc1 as (_ & E & _). rewrite E in Hall. unfold level in Hl1. lia. }
  exists b1, s1, b2, s2. split_and!; try done.
  - rewrite Ha2. unfold get_block_phy_addr. by rewrite (proj1 Hc1).
  - by etransitivity.
  - intros ->. done.
  - intros i. rewrite Hal2, Hal1. specialize (Hno i). naive_solver.
Qed.

Lemma phy_addr_config s s' b : same_config s s' -> get_block_phy_addr s' b = get_block_phy_addr s b.
Proof. intros (E & _). unfold get_block_phy_addr. by rewrite E. Qed.

Lemma self_test_passes s : Inv s -> 25 <= root_log2size s -> (forall i, ~ is_allocated s i) ->
  exists s', self_test s = Ret (tt, s') /\ Inv s' /\ same_config s s' /\ (forall i, ~ is_allocated s' i).
Proof.
  intros HI Hr Hno. destruct (self_test_allocs s HI Hr Hno) as (b1 & s1 & b2 & s2 & Ha1 & HI1 & Hc1 & Ha2 & HI2 & Hc2 & Hne & Hal).
  destruct (free_pages_ok s2 b1 HI2) as (s3 & Hf1 & HI3 & Hc3 & Hal3); [apply Hal; by left|].
  destruct (free_pages_ok s3 b2 HI3) as (s4 & Hf2 & HI4 & Hc4 & Hal4); [apply Hal3; split; [apply Hal; by right|done]|].
  assert (forall i, ~ is_allocated s4 i) as Hno4 by (intros i; rewrite Hal4, Hal3, Hal; naive_solver).
  rewrite (phy_addr_config s s2) in Hf1 by done.
  rewrite (phy_addr_config s s3) in Hf2 by (by etransitivity).
  exists s4. split; [|split; [done|split; [by do 2 (etransitivity; [done|])|done]]].
  unfold self_test. destruct (print_ok s (Inv_inv _ HI)) as (r & Hp). step_with Hp.
  step_with Ha1. step_with Ha2. step_with Hf1. step_with Hf2. step_with (eq_refl (get s4)).
  step_with passed_loop_ok; [done|]. intros i Hi%elem_of_seq.
  rewrite (pr_buckets _ (bi_params _ _ (Inv_inv _ HI4))) in Hi.
  apply bucket_passes_ok; [apply HI4|lia|]. apply nothing_allocated; [apply HI4|done].
Qed.

(** On a smaller region an allocation of the self test fails, and its release
    of address 0 does not return. *)
Lemma self_test_fails s r : Inv s -> root_log2size s < 25 -> 0 < phy_start s < 2 ^ 63 ->
  (forall i, ~ is_allocated s i) -> self_test s <> Ret r.
Proof.
  intros HI Hr Hphy Hno. unfold self_test. destruct (print_ok s (Inv_inv _ HI)) as (q & Hp). step_with Hp.
  assert (forall s', same_config s s' -> 0 < phy_start s' < 2 ^ 63 /\ max_blocks s' <= 2 ^ 32) as Hcfg.
  { intros s' (-> & _ & -> & _). split; [done|]. apply (pr_max _ (bi_params _ _ (Inv_inv _ HI))). }
  assert (forall (s' : BuddyAllocator) (k : unit -> M unit), same_config s s' -> (free_pages 0 ≫= k) s' <> Ret r) as Hnull.
  { intros s' k Hc. destruct (Hcfg s' Hc). unfold mbind, st_bind. pose proof (free_pages_null s') as Hf.
    destruct (free_pages 0 s') as [u| | | |]; try done. by destruct (Hf u). }
  destruct (allocate_pages_cases s 24 HI ltac:(done)) as [[Ha1 _]|(b1 & s1 & Ha1 & HI1 & Hc1 & Hl1 & Hreg1 & _ & Hal1)].
  - step_with Ha1.
    destruct (allocate_pages_cases s 16 HI ltac:(done)) as [[Ha2 _]|(b2 & s2 & Ha2 & _ & Hc2 & _)]; step_with Ha2; by apply Hnull.
  - step_with Ha1. destruct (allocate_pages_cases s1 16 HI1 ltac:(done)) as [[Ha2 _]|(b2 & s2 & Ha2 & HI2 & Hc2 & Hl2 & Hreg2 & Hn2 & Hal2)]; step_with Ha2.
    + destruct (free_pages_ok s1 b1 HI1) as (s3 & Hf1 & HI3 & Hc3 & _); [apply Hal1; by right|].
      rewrite (phy_addr_config s s1) in Hf1 by done. step_with Hf1. apply Hnull. by etransitivity.
    + exfalso. assert (b1 = 0) as ->.
      { destruct Hreg1 as [Hb0 _]. unfold level in Hl1. apply Z.le_antisymm; [|done].
        assert (b1 < 2 ^ 1 - 1); [|lia]. apply depth_bound; [done|lia|lia]. }
      assert (b2 = 0) as ->; [|by apply Hn2, Hal1; right].
      symmetry. apply (allocated_disjoint s2 0 b2); [apply HI2|apply Hal2; left; apply Hal1; by right|apply Hal2; by right|].
      left. destruct Hreg2 as [Hb2 _]. revert Hb2. clear. intros Hb. apply (below_root b2 Hb).
Qed.

(** C14: [buddy_allocator_init] returns exactly when the region has at least 2^25
    bytes; then its self test has passed and the allocator it leaves behind has
    one free block, the whole region.  On a smaller region it never returns. *)
Theorem buddy_init_self_test phy k :
  boot_params phy k ->
  (25 <= k -> exists s, buddy_allocator_init phy k = Ret s /\ Inv s /\ phy_start s = phy /\ root_log2size s = k /\
     (forall i, ~ is_allocated s i) /\ (forall i, is_free s i <-> i = 0)) /\
  (k < 25 -> forall s, buddy_allocator_init phy k <> Ret s).
Proof.
  intros Hboot. pose proof Hboot as [Hphy Hk]. unfold buddy_allocator_init.
  destruct (BuddyAllocator_new phy k preallocated_blocks MaxBlocks) as [s0| | | |] eqn:Hnew.
  2-5: destruct (new_ok phy k preallocated_blocks MaxBlocks) as (s' & Hnew' & _); [lia| | |congruence].
  2,4,6,8: (assert (2 ^ (k - Log2MinSize + 1) <= 2 ^ 16) by (apply Z.pow_le_mono_r; unfold Log2MinSize, Log2MaxSize in *; lia);
            change MaxBlocks with 65536; lia).
  2-5: (intros i; unfold preallocated_blocks; by rewrite lookup_empty).
  cbn [lift_outcome]. pose proof (sim_new phy k s0 Hboot Hnew) as [HI Hp Hr _ HX].
  assert (forall i, ~ is_allocated s0 i) as Hno by (intros i Hi%HX; set_solver). split.
  - intros H25. destruct (self_test_passes s0 HI) as (s & Hst & HIs & Hc & Hnos); [lia|done|].
    exists s. rewrite Hst. cbn [lift_outcome]. destruct Hc as (E1 & E2 & _).
    split_and!; try done; [congruence..|]. apply nothing_allocated; [apply HIs|done].
  - intros H25 s. pose proof (self_test_fails s0) as Hf.
    destruct (self_test s0) as [r| | | |]; cbn [lift_outcome]; try done.
    by destruct (Hf r HI ltac:(lia) ltac:(lia) Hno).
Qed.

(** The search loop on a vector whose next free cell was never written. *)
Lemma largest_loop_zero v n i : wf max_regions v -> size_ v < max_regions -> buf_ v !! size_ v = None ->
  largest_loop n i 0 0 v = Ret ((0, 0), v).
Proof.
  intros [H0 _] Hs Hb. revert i. induction n as [|n IH]; intros i; cbn [largest_loop]; [done|].
  assert (at_mut zero_region max_regions i v = Ret (zero_region, v)) as Hat.
  { unfold at_mut. step_with (eq_refl (gets size_ v)). rewrite get_buf_ok by done. unfold cell. by rewrite Hb. }
  step_with Hat. exact (IH (i + 1)).
Qed.

(** The allocator that results when the region past the end is zero. *)
Lemma init_without_map (regions : SmallVec PageRegion) :
  wf max_regions regions -> size_ regions < max_regions -> buf_ regions !! size_ regions = None ->
  exists s, page_allocator_init regions = Ret s /\ phy_start s = 0x4000000 /\ root_log2size s = 30 /\
    Inv s /\ (forall i, is_free s i <-> i = 0).
Proof.
  intros Hwf Hs Hb. unfold page_allocator_init. rewrite largest_loop_zero by done. cbn [lift_outcome].
  change (clip_region 0 0) with (0x4000000, 30). cbv iota beta zeta.
  change (negb (IDENTITY_MAP_PHY_START <=? 0x4000000)) with false.
  change (negb (wrap64 (0x4000000 + wrap64 (Z.shiftl 1 30)) <=? IDENTITY_MAP_PHY_END)) with false. cbv iota.
  unfold buddy_allocator_init.
  destruct (BuddyAllocator_new 0x4000000 30 preallocated_blocks MaxBlocks) as [s0| | | |] eqn:Hnew; try done.
  cbn [lift_outcome]. pose proof (sim_new _ _ s0 boot_params_ok Hnew) as [HI Hp Hr _ HX].
  assert (forall i, ~ is_allocated s0 i) as Hno by (intros i Hi%HX; set_solver).
  destruct (self_test_passes s0 HI) as (s & Hst & HIs & Hc & Hnos); [lia|done|].
  exists s. rewrite Hst. destruct Hc as (E1 & E2 & _). split_and!; try done; [congruence..|].
  apply nothing_allocated; [apply HIs|done].
Qed.

(** [page_allocator_init] does not look at the memory map: on every vector of
    regions with a free cell it sets up the allocator on 1 GiB from 64 MiB,
    whatever the regions are, because its subscript reads past the end. *)
Theorem page_allocator_init_ignores_map (regions : SmallVec PageRegion) :
  wf max_regions regions -> size_ regions < max_regions -> buf_ regions !! size_ regions = None ->
  exists s, page_allocator_init regions = Ret s /\ phy_start s = 0x4000000 /\ root_log2size s = 30 /\
    Inv s /\ (forall i, is_free s i <-> i = 0).
Proof. apply init_without_map. Qed.

(** ** kmalloc and kfree *)

(** The size class [kmalloc] asks for. *)
Definition class_of (size : Z) : Z := Z.max Log2MinSize (Z.log2_up size).

Lemma kmalloc_eq size s : 0 < size < 2 ^ 64 -> kmalloc size s = kernel_page_alloc (class_of size) s.
Proof.
  intros Hs. unfold kmalloc, class_of. rewrite log2_ceil_eq by done.
  destruct (Z.ltb_spec (Z.log2_up size) Log2MinSize); by rewrite ?Z.max_l, ?Z.max_r by lia.
Qed.

Lemma class_of_spec size : 0 < size -> size <= 2 ^ class_of size /\ (2 ^ class_of size < 2 * size \/ class_of size = Log2MinSize).
Proof.
  intros Hs. unfold class_of. pose proof (Z.log2_up_nonneg size).
  destruct (Z.eq_dec size 1) as [->|Hne]; [change (Z.log2_up 1) with 0; unfold Log2MinSize; lia|].
  pose proof (Z.log2_up_spec size ltac:(lia)) as [H1 H2].
  assert (2 ^ Z.log2_up size = 2 * 2 ^ Z.pred (Z.log2_up size)) as E.
  { rewrite <- Z.pow_succ_r; [f_equal; lia|]. pose proof (Z.log2_up_pos size). lia. }
  destruct (Z.max_spec Log2MinSize (Z.log2_up size)) as [[? ->]|[? ->]]; [lia|]. split; [|by right].
  etransitivity; [exact H2|]. apply Z.pow_le_mono_r; lia.
Qed.

(** Kernel addresses of handed-out blocks. *)
Definition kaddr (phy b : Z) : Z := KERNEL_START + addr_of phy b.

Lemma kernel_addr phy k es s b : boot_params phy k -> reachable phy k es s -> in_region s b -> phy < 2 ^ 32 ->
  wrap64 (KERNEL_START + get_block_phy_addr s b) = kaddr phy b /\ wrap64 (kaddr phy b - KERNEL_START) = get_block_phy_addr s b.
Proof.
  intros Hboot Hreach Hb Hphy. destruct (reachable_sim phy k es s Hboot Hreach) as (X & _ & Hsim).
  destruct (addr_of_eq phy k s X b Hboot Hsim Hb) as [E Hpos]. rewrite E. unfold kaddr.
  destruct Hsim as [HI _ _ Hm _].
  pose proof (in_region_index s b (bi_params _ _ (Inv_inv _ HI)) Hb) as Hi. rewrite Hm in Hi.
  unfold MaxBlocks, BlockSize, PAGE_SIZE in Hi. change (_ / _) with 65536 in Hi.
  unfold addr_of, BlockSize, PAGE_SIZE, KERNEL_START in *.
  split; [apply wrap_small; unfold uint; lia|].
  replace (18446603336221196288 + (phy + b * (16 * 4096)) - 18446603336221196288) with (phy + b * (16 * 4096)) by lia.
  apply wrap_small. unfold uint. lia.
Qed.

(** C8: [kmalloc] of a positive size either hands out a block of at least that
    many bytes, less than twice as many unless it is of the smallest class, that
    overlaps no block in use, and [kfree] of the address restores the set of
    handed-out blocks; or it hands out nothing and returns [KERNEL_START]. *)
Theorem kmalloc_kfree phy k es s size :
  boot_params phy k -> phy < 2 ^ 32 -> reachable phy k es s -> 0 < size < 2 ^ 64 ->
  (kmalloc size s = Ret (KERNEL_START, s) /\ forall i, is_free s i -> 2 ^ level s i < size \/ level s i < Log2MinSize) \/
  (exists b s', kmalloc size s = Ret (kaddr phy b, s') /\
     size <= 2 ^ level s b /\ (2 ^ level s b < 2 * size \/ level s b = Log2MinSize) /\
     (forall a, is_allocated s a -> ~ overlap a b) /\
     (forall i, is_allocated s' i <-> is_allocated s i \/ i = b) /\
     exists s'', kfree (kaddr phy b) s' = Ret (tt, s'') /\ (forall i, is_allocated s'' i <-> is_allocated s i)).
Proof.
  intros Hboot Hphy Hreach Hsize. destruct (reachable_inv phy k es s Hboot Hreach) as (HI & _ & Hp & Hr).
  pose proof (class_of_spec size ltac:(lia)) as Hcls. set (c := class_of size) in *.
  assert (Log2MinSize <= c) as Hc by (unfold c, class_of; lia).
  rewrite kmalloc_eq by done. fold c. unfold kernel_page_alloc.
  destruct (allocate_pages_cases s c HI Hc) as [[Ha Hno]|(b & s' & Ha & HI' & Hcfg & Hl & Hreg & Hn & Hal)].
  - left. split; [by step_with Ha|]. intros i Hi. specialize (Hno i Hi).
    destruct (Z.lt_ge_cases (level s i) Log2MinSize) as [?|Hge]; [by right|left].
    unfold c, class_of in Hno. assert (level s i < Z.log2_up size) as Hlt by lia.
    apply Z.log2_up_lt_pow2 in Hlt; [done|lia].
  - right. exists b, s'. destruct (kernel_addr phy k es s b Hboot Hreach Hreg Hphy) as [E1 E2].
    split; [step_with Ha; by rewrite E1|]. rewrite Hl. split; [apply Hcls|]. split; [apply Hcls|]. split.
    { intros a Haa Ho. assert (a = b) as ->; [|done].
      apply (allocated_disjoint s'); [apply HI'|apply Hal; by left|apply Hal; by right|done]. }
    split; [done|]. unfold kfree, kernel_page_free. rewrite E2.
    destruct (free_pages_ok s' b HI') as (s'' & Hf & _ & _ & Hal'); [apply Hal; by right|].
    rewrite (phy_addr_config s s' b Hcfg) in Hf. exists s''. split; [done|].
    intros i. rewrite Hal', Hal. naive_solver.
Qed.

(** A kernel page allocation never returns the null pointer: when it fails it
    returns [KERNEL_START], a mapped kernel address, so a null check after it
    never fires. *)
Theorem kernel_page_alloc_failure phy k es s k' :
  boot_params phy k -> reachable phy k es s -> k < k' ->
  kernel_page_alloc k' s = Ret (KERNEL_START, s) /\ KERNEL_START <> 0.
Proof.
  intros Hboot Hreach Hk'. split; [|done]. destruct (reachable_inv phy k es s Hboot Hreach) as (HI & _ & _ & Hr).
  destruct Hboot as [_ Hk]. unfold kernel_page_alloc.
  destruct (allocate_pages_cases s k' HI ltac:(lia)) as [[Ha _]|(b & s' & _ & _ & _ & Hl & _)]; [by step_with Ha|].
  pose proof (depth_nonneg b). unfold level in Hl. lia.
Qed.

(** ** Concrete runs *)

Lemma usage_report_witness :
  exists pct, buddy_allocator_usage boot3 =
    Ret ((total_used boot3, total_free boot3, pct, sum_to (used_count boot3) (S (Z.to_nat (height boot3))),
          wrap64 (sum_to (free_count boot3) (S (Z.to_nat (height boot3))) - 1)), boot3) /\
    total_used boot3 + total_free boot3 = 2 ^ 30 /\ 0 <= pct <= 100.
Proof. exact (usage_report _ _ _ _ boot_params_ok boot3_reachable). Defined.

Lemma buddy_init_self_test_witness :
  (25 <= 30 -> exists s, buddy_allocator_init 0x4000000 30 = Ret s /\ Inv s /\ phy_start s = 0x4000000 /\
     root_log2size s = 30 /\ (forall i, ~ is_allocated s i) /\ (forall i, is_free s i <-> i = 0)) /\
  (30 < 25 -> forall s, buddy_allocator_init 0x4000000 30 <> Ret s).
Proof. exact (buddy_init_self_test _ _ boot_params_ok). Defined.

(** A memory map with one region of 512 MiB at 1 MiB. *)
Definition one_region : SmallVec PageRegion := mkVec (<[0 := mkRegion 7 0x100000 0 0x20000000 0]> ∅) 1.

Lemma page_allocator_init_ignores_map_witness :
  exists s, page_allocator_init one_region = Ret s /\ phy_start s = 0x4000000 /\ root_log2size s = 30 /\
    Inv s /\ (forall i, is_free s i <-> i = 0).
Proof. apply (page_allocator_init_ignores_map one_region); [unfold wf, max_regions; simpl; lia|done|done]. Defined.

Lemma kmalloc_kfree_witness :
  (kmalloc 100000 boot3 = Ret (KERNEL_START, boot3) /\
   forall i, is_free boot3 i -> 2 ^ level boot3 i < 100000 \/ level boot3 i < Log2MinSize) \/
  (exists b s', kmalloc 100000 boot3 = Ret (kaddr 0x4000000 b, s') /\
     100000 <= 2 ^ level boot3 b /\ (2 ^ level boot3 b < 2 * 100000 \/ level boot3 b = Log2MinSize) /\
     (forall a, is_allocated boot3 a -> ~ overlap a b) /\
     (forall i, is_allocated s' i <-> is_allocated boot3 i \/ i = b) /\
     exists s'', kfree (kaddr 0x4000000 b) s' = Ret (tt, s'') /\ (forall i, is_allocated s'' i <-> is_allocated boot3 i)).
Proof. apply (kmalloc_kfree 0x4000000 30 boot_events boot3 100000); [exact boot_params_ok|lia|exact boot3_reachable|lia]. Defined.

Lemma kernel_page_alloc_failure_witness : kernel_page_alloc 31 boot3 = Ret (KERNEL_START, boot3) /\ KERNEL_START <> 0.
Proof. apply (kernel_page_alloc_failure 0x4000000 30 boot_events boot3 31); [exact boot_params_ok|exact boot3_reachable|lia]. Defined.
