(* ===== verification/Process.v ===== *)
(** * process.cpp and include/process.h: processes, their address spaces, the scheduler

    The kernel state of this component: the page allocator, the array
    [processes] (a slot that was never filled is null), [next_pid],
    [current_pid], and the physical address of the kernel's page directory
    pointers.  A process owns the page tables its [pts] points to; they are kept
    in the process as a table of words.  Objects and tables of different processes
    do not alias here; [objects_apart] says when that is so in memory.  Bytes of
    memory a constructor does not write are an argument of it. *)
From S2P Require Import Prelude LibUtils CpuDefs Paging Buddy PageAlloc.

Module Process.
Import Utils Paging.

Definition MAX_PROCESS : Z := 1024.
Definition THREAD_KERNEL_STACK_SIZE : Z := 16 * PAGE_SIZE.
Definition PROCESS_MAX_USER_PAGES : Z := 512 * 512.
Definition USER_STACK_SIZE : Z := 1024 * 1024.
Definition USER_IMAGE_START : Z := 1 * 1024 * 1024.
Definition USER_IMAGE_SIZE : Z := 8 * 1024 * 1024.
Definition USER_BRK_START : Z := 16 * 1024 * 1024.
Definition USER_BRK_SIZE : Z := 16 * 1024 * 1024.

Record Context := mkContext {
  ds : Z; es : Z; fs : Z; gs : Z;
  cr3 : Z;
  r15 : Z; r14 : Z; r13 : Z; r12 : Z; r11 : Z; r10 : Z; r9 : Z; r8 : Z;
  rbp : Z; rsi : Z; rdi : Z; rbx : Z; rdx : Z; rcx : Z; rax : Z;
  reserved1 : Z * Z;
  rip : Z; cs : Z; rflags : Z; rsp : Z; ss : Z
}.

Definition sizeof_Context : Z := 27 * 8.

Inductive ProcessState := Wait | Running.

#[export] Instance ProcessState_eq_dec : EqDecision ProcessState.
Proof. solve_decision. Defined.

(** ** struct PageTabletSructures *)

Definition upml4t_word (i : Z) : Z := i.
Definition updpt_word (i : Z) : Z := PAGES_PER_TABLE + i.
Definition updt_word (i : Z) : Z := 2 * PAGES_PER_TABLE + i.
Definition upt_word (i : Z) : Z := 3 * PAGES_PER_TABLE + i.
Definition sizeof_PageTabletSructures : Z := 8 * upt_word PROCESS_MAX_USER_PAGES.

(** [this] is the address of the object, [code_t] addresses of functions are
    numbers, 0 for null. *)
Record Process := mkProcess {
  this : Z;
  id : Z;
  state : ProcessState;
  name : string;
  start_phy : Z;
  jiffies : Z;
  max_jiffies : Z;
  pts : table;
  pts_paddr : Z;
  context : Context;
  user_image_phy_addr : Z;
  user_image : Z;
  user_image_size : Z;
  user_stack_phy_addr : Z;
  user_stack : Z;
  user_stack_size : Z;
  brk_start : Z;
  brk_end : Z;
  cookie : Z;
  tmp_start : Z;
  syscall_ : Z
}.

(** [kstring] is [std::basic_string]: a pointer, a length and a local buffer. *)
Definition sizeof_kstring : Z := 32.
Definition sizeof_Process : Z :=
  8 + 8 + sizeof_kstring + 8 + 8 + 8 + 8 + THREAD_KERNEL_STACK_SIZE + sizeof_Context + 3 * 8 + 3 * 8 + 2 * 8 + 3 * 8.
Definition sizeof_Syscall : Z := 16.

(** Offset of [kernel_stack_bottom] in the object. *)
Definition kernel_stack_bottom (p : Z) : Z :=
  wrap64 (p + (8 + 8 + sizeof_kstring + 8 + 8 + 8 + 8 + THREAD_KERNEL_STACK_SIZE)).

Record Kernel := mkKernel {
  allocator : Buddy.BuddyAllocator;
  processes : gmap Z Process;
  next_pid : Z;
  current_pid : Z;
  kernel_pdpt : Z
}.

Abbreviation M := (ST Kernel).

Definition with_allocator (a : Buddy.BuddyAllocator) (k : Kernel) : Kernel :=
  mkKernel a (processes k) (next_pid k) (current_pid k) (kernel_pdpt k).
Definition with_processes (ps : gmap Z Process) (k : Kernel) : Kernel :=
  mkKernel (allocator k) ps (next_pid k) (current_pid k) (kernel_pdpt k).
Definition with_next_pid (n : Z) (k : Kernel) : Kernel :=
  mkKernel (allocator k) (processes k) n (current_pid k) (kernel_pdpt k).
Definition with_current_pid (n : Z) (k : Kernel) : Kernel :=
  mkKernel (allocator k) (processes k) (next_pid k) n (kernel_pdpt k).

(** Calls into the page allocator. *)
Definition page_alloc {A} (c : ST Buddy.BuddyAllocator A) : M A := fun k =>
  match c (allocator k) with
  | Ret (a, al) => Ret (a, with_allocator al k)
  | Panic m => Panic m | Halt => Halt | Fault => Fault | OutOfFuel => OutOfFuel
  end.

(** [processes[pid]], a null slot included. *)
Definition slot (pid : Z) : M (option Process) := fun k =>
  if (0 <=? pid) && (pid <? MAX_PROCESS) then Ret (processes k !! pid, k) else Fault.

(** [*processes[pid]] and an assignment to members of it. *)
Definition process_at (pid : Z) : M Process :=
  p ← slot pid;
  match p with Some p => mret p | None => fault end.
Definition update_process (pid : Z) (f : Process -> Process) : M unit :=
  p ← process_at pid;
  modify (fun k => with_processes (<[pid := f p]> (processes k)) k).

Definition set_state (st : ProcessState) (p : Process) : Process :=
  mkProcess (this p) (id p) st (name p) (start_phy p) (jiffies p) (max_jiffies p) (pts p) (pts_paddr p) (context p)
    (user_image_phy_addr p) (user_image p) (user_image_size p) (user_stack_phy_addr p) (user_stack p) (user_stack_size p)
    (brk_start p) (brk_end p) (cookie p) (tmp_start p) (syscall_ p).
Definition set_start (start : Z) (nm : string) (ck : Z) (p : Process) : Process :=
  mkProcess (this p) (id p) (state p) nm (start_phy p) (jiffies p) (max_jiffies p) (pts p) (pts_paddr p) (context p)
    (user_image_phy_addr p) (user_image p) (user_image_size p) (user_stack_phy_addr p) (user_stack p) (user_stack_size p)
    (brk_start p) (brk_end p) ck start (syscall_ p).
Definition set_context (c : Context) (p : Process) : Process :=
  mkProcess (this p) (id p) (state p) (name p) (start_phy p) (jiffies p) (max_jiffies p) (pts p) (pts_paddr p) c
    (user_image_phy_addr p) (user_image p) (user_image_size p) (user_stack_phy_addr p) (user_stack p) (user_stack_size p)
    (brk_start p) (brk_end p) (cookie p) (tmp_start p) (syscall_ p).
Definition set_brk_pts (brk : Z) (t : table) (p : Process) : Process :=
  mkProcess (this p) (id p) (state p) (name p) (start_phy p) (jiffies p) (max_jiffies p) t (pts_paddr p) (context p)
    (user_image_phy_addr p) (user_image p) (user_image_size p) (user_stack_phy_addr p) (user_stack p) (user_stack_size p)
    brk (brk_end p) (cookie p) (tmp_start p) (syscall_ p).

(** ** Address spaces *)

(** One round of [map_user_addr]. *)
Definition map_page (vpage ppage : Z) (t : table) : table :=
  set_member PTE (upt_word vpage) "base_addr" ppage
    (set_member PTE (upt_word vpage) "us" 1
      (set_member PTE (upt_word vpage) "rw" 1 (set_member PTE (upt_word vpage) "p" 1 t))).

(** Writing past the array [pt] is [Fault]. *)
Fixpoint map_loop (n : nat) (i vaddr paddr : Z) (t : table) : outcome table :=
  match n with
  | O => Ret t
  | S n =>
      let vpage := wrap64 (Z.shiftr vaddr 12 + i) in
      let ppage := wrap64 (Z.shiftr paddr 12 + i) in
      if vpage <? PROCESS_MAX_USER_PAGES
      then map_loop n (i + 1) vaddr paddr (map_page vpage ppage t)
      else Fault
  end.

Definition map_user_addr (vaddr paddr n_pages : Z) (t : table) : outcome table :=
  map_loop (Z.to_nat n_pages) 0 vaddr paddr t.

(** The upper levels the constructor writes into the zeroed tables. *)
Definition pts_frame (pts_paddr k : Z) : Z := Z.shiftr (wrap64 (pts_paddr + 8 * k)) 12.

Definition link_kernel (kernel_pdpt : Z) (t : table) : table :=
  set_member PML4E (upml4t_word 256) "base_addr" (Z.shiftr kernel_pdpt 12)
    (set_member PML4E (upml4t_word 256) "rw" 1 (set_member PML4E (upml4t_word 256) "p" 1 t)).

Definition link_user (l : layout) (k target pts_paddr : Z) (t : table) : table :=
  set_member l k "base_addr" (pts_frame pts_paddr target)
    (set_member l k "us" 1 (set_member l k "rw" 1 (set_member l k "p" 1 t))).

Definition init_pts (kernel_pdpt pts_paddr : Z) : table :=
  let t := ∅ in
  let t := link_kernel kernel_pdpt t in
  let t := link_user PML4E (upml4t_word 0) (updpt_word 0) pts_paddr t in
  let t := link_user PDPE (updpt_word 0) (updt_word 0) pts_paddr t in
  for_loop (Z.to_nat PAGES_PER_TABLE) 0
    (fun i => link_user PDE (updt_word i) (upt_word (i * PAGES_PER_TABLE)) pts_paddr) t.

Definition lift_pure {A} (o : outcome A) : M A := fun k =>
  match o with
  | Ret a => Ret (a, k)
  | Panic m => Panic m | Halt => Halt | Fault => Fault | OutOfFuel => OutOfFuel
  end.

(** The registers a new process starts with; [raw] is what memory held before. *)
Definition initial_context (raw : Context) (p pts_paddr process_entrypoint : Z) : Context :=
  mkContext KERNEL_DATA_SELECTOR KERNEL_DATA_SELECTOR KERNEL_DATA_SELECTOR KERNEL_DATA_SELECTOR pts_paddr
    (r15 raw) (r14 raw) (r13 raw) (r12 raw) (r11 raw) (r10 raw) (r9 raw) (r8 raw)
    (rbp raw) (rsi raw) p (rbx raw) (rdx raw) (rcx raw) (rax raw) (reserved1 raw)
    process_entrypoint KERNEL_CODE_SELECTOR 0x200 (kernel_stack_bottom p) KERNEL_DATA_SELECTOR.

Section with_image.
(** [process_entrypoint] is the address of the function of that name, [raw_context]
    and [raw_cookie] are the contents of fresh memory. *)
Context (process_entrypoint : Z) (raw_context : Context) (raw_cookie : Z).

(** [Process::Process(id, start_phy)] at address [p]. *)
Definition Process_new (p id start_phy : Z) : M Process :=
  sys ← page_alloc (PageAlloc.kmalloc (sizeof_Syscall + 8));
  pts ← page_alloc (PageAlloc.kernel_page_alloc (log2 sizeof_PageTabletSructures + 1));
  let pts_paddr := kernel2phy pts in
  k ← get;
  let t := init_pts (kernel_pdpt k) pts_paddr in
  user_image_phy_addr ← page_alloc (PageAlloc.physical_page_alloc (log2 USER_IMAGE_SIZE));
  t ← lift_pure (map_user_addr USER_IMAGE_START user_image_phy_addr (USER_IMAGE_SIZE / PAGE_SIZE) t);
  let user_stack := 33 * 1024 * 1024 in
  user_stack_phy_addr ← page_alloc (PageAlloc.physical_page_alloc (log2 USER_STACK_SIZE));
  t ← lift_pure (map_user_addr user_stack user_stack_phy_addr (USER_STACK_SIZE / PAGE_SIZE) t);
  mret (mkProcess p id Wait "" start_phy 0 10 t pts_paddr
          (initial_context raw_context p pts_paddr process_entrypoint)
          user_image_phy_addr USER_IMAGE_START USER_IMAGE_SIZE
          user_stack_phy_addr user_stack USER_STACK_SIZE
          USER_BRK_START (wrap64 (USER_BRK_START + USER_BRK_SIZE)) raw_cookie 0 sys).

Definition create_process : M Z :=
  pid ← gets next_pid;
  modify (fun k => with_next_pid (wrap64 (pid + 1)) k);;
  let log2size := log2 sizeof_Process + 1 in
  let log2size := if log2size <? Log2MinSize then Log2MinSize else log2size in
  process_mem ← page_alloc (PageAlloc.kernel_page_alloc log2size);
  let phy_start := kernel2phy process_mem in
  process ← Process_new process_mem pid phy_start;
  old ← slot pid;
  do_assert (bool_decide (old = None)) "Process already created";;
  modify (fun k => with_processes (<[pid := process]> (processes k)) k);;
  mret pid.

Definition create_kthread (nm : string) (start ck : Z) : M Z :=
  pid ← create_process;
  update_process pid (set_start start nm ck);;
  mret pid.

(** [process_init]: process 1 starts in [main_start]. *)
Definition process_init (main_start : Z) : M unit :=
  modify (fun k => with_current_pid 1 (with_next_pid 1 (with_processes ∅ k)));;
  create_process;;
  p ← process_at 1;
  update_process 1 (set_start main_start (name p) (cookie p)).

End with_image.

(** ** Scheduling *)

Definition current : M (option Process) :=
  pid ← gets current_pid;
  slot pid.

(** The loop of [schedule] visits every pid from 1 to [next_pid] at most once
    before it is back at the process that was running, so [next_pid + 1] rounds
    are enough. *)
Fixpoint schedule_loop (fuel : nat) : M unit :=
  match fuel with
  | O => out_of_fuel
  | S fuel =>
      k ← get;
      let pid := if current_pid k =? next_pid k then 1 else wrap64 (current_pid k + 1) in
      put (with_current_pid pid k);;
      process ← slot pid;
      match process with
      | Some p =>
          if negb (id p =? 0) && bool_decide (state p = Wait)
          then update_process pid (set_state Running)
          else schedule_loop fuel
      | None => schedule_loop fuel
      end
  end.

Definition schedule : M unit :=
  k ← get;
  update_process (current_pid k) (set_state Wait);;
  schedule_loop (S (Z.to_nat (next_pid k))).

(** The context switch of the interrupt stubs. *)
Definition store_current_thread_context (c : Context) : M unit :=
  pid ← gets current_pid;
  update_process pid (set_context c).
Definition current_context : M Context :=
  pid ← gets current_pid;
  p ← process_at pid;
  mret (context p).

(** ** Where the process objects are *)

Definition object_addresses (k : Kernel) : gmap Z Z := this <$> processes k.

(** No two process objects share memory.  [Process] records do not alias, so they
    stand for the objects in memory only then. *)
Definition objects_apart (ps : gmap Z Z) : Prop :=
  map_Forall (fun pid a => map_Forall (fun q b => pid = q \/ a + sizeof_Process <= b \/ b + sizeof_Process <= a) ps) ps.

End Process.
