(* ===== verification/ProcessProofs.v ===== *)
(** * The scheduler and the creation of processes *)
From S2P Require Import Prelude LibUtils CpuDefs Paging PagingProofs BuddyTree Buddy BuddyInv BuddyProofs BuddySpec BuddyThms PageAlloc PageAllocThms Process.
Import Utils Paging Process.

(** ** The invariant of the process table *)

(** Exactly the pids from 1 to [next_pid - 1] are in use, each slot knows its
    pid, and no process but the current one is marked running. *)
Record sched_inv (k : Kernel) : Prop := {
  si_current : 1 <= current_pid k < next_pid k;
  si_next : next_pid k <= MAX_PROCESS;
  si_used pid : is_Some (processes k !! pid) <-> 1 <= pid < next_pid k;
  si_id pid p : processes k !! pid = Some p -> id p = pid;
  si_running pid p : processes k !! pid = Some p -> state p = Running -> pid = current_pid k
}.

Lemma slot_ok k pid : 0 <= pid < MAX_PROCESS -> slot pid k = Ret (processes k !! pid, k).
Proof. intros. unfold slot. by rewrite (proj2 (Z.leb_le _ _)), (proj2 (Z.ltb_lt _ _)) by lia. Qed.

Lemma update_process_ok k pid f p : 0 <= pid < MAX_PROCESS -> processes k !! pid = Some p ->
  update_process pid f k = Ret (tt, with_processes (<[pid := f p]> (processes k)) k).
Proof.
  intros Hr Hp. unfold update_process, process_at. step_with slot_ok; [|done]. rewrite Hp.
  by rewrite bind_mret_l.
Qed.

(** The pid after [pid] in the rotation. *)
Definition succ_pid (next pid : Z) : Z := if decide (pid + 1 < next) then pid + 1 else 1.

(** The state after the current process is preempted in favour of [n]. *)
Definition switched (k k' : Kernel) (n : Z) : Prop :=
  current_pid k' = n /\ next_pid k' = next_pid k /\ allocator k' = allocator k /\ kernel_pdpt k' = kernel_pdpt k /\
  (forall pid, processes k' !! pid = set_state (if decide (pid = n) then Running else Wait) <$> processes k !! pid).

Lemma set_state_id s p : state p = s -> set_state s p = p.
Proof. intros <-. by destruct p. Qed.

(** Once every process waits, the loop takes the first one it meets. *)
Lemma schedule_take fuel k n p :
  1 <= n < next_pid k -> next_pid k <= MAX_PROCESS ->
  (if current_pid k =? next_pid k then 1 else wrap64 (current_pid k + 1)) = n ->
  processes k !! n = Some p -> id p = n -> state p = Wait ->
  schedule_loop (S fuel) k = Ret (tt, with_processes (<[n := set_state Running p]> (processes k)) (with_current_pid n k)).
Proof.
  intros Hn Hmax Hpid Hp Hid Hw. unfold MAX_PROCESS in *. cbn [schedule_loop]. step_with (eq_refl (get k)). rewrite Hpid.
  step_with (eq_refl (put (with_current_pid n k) k)). step_with slot_ok; [|unfold MAX_PROCESS; lia].
  cbn [processes with_current_pid]. rewrite Hp, Hid, Hw. rewrite (proj2 (Z.eqb_neq _ _)) by lia. cbn [negb andb bool_decide].
  rewrite bool_decide_true by done. erewrite update_process_ok; [|unfold MAX_PROCESS; lia|exact Hp]. done.
Qed.

(** A null slot is skipped. *)
Lemma schedule_skip fuel k n :
  0 <= n < MAX_PROCESS -> (if current_pid k =? next_pid k then 1 else wrap64 (current_pid k + 1)) = n ->
  processes k !! n = None -> schedule_loop (S fuel) k = schedule_loop fuel (with_current_pid n k).
Proof.
  intros Hn Hpid Hp. cbn [schedule_loop]. step_with (eq_refl (get k)). rewrite Hpid.
  step_with (eq_refl (put (with_current_pid n k) k)). step_with slot_ok; [|done].
  cbn [processes with_current_pid]. by rewrite Hp.
Qed.

(** Preempting the current process leaves every process waiting. *)
Lemma preempt k pc : sched_inv k -> processes k !! current_pid k = Some pc ->
  forall pid, <[current_pid k := set_state Wait pc]> (processes k) !! pid = set_state Wait <$> processes k !! pid.
Proof.
  intros [_ _ _ _ Hr] Hpc pid. rewrite lookup_insert. case_decide as E; [by rewrite <- E, Hpc|].
  destruct (processes k !! pid) as [p|] eqn:Hp; [|done]. simpl. f_equal. symmetry. apply set_state_id.
  destruct (state p) eqn:Es; [done|]. destruct E. symmetry. by eapply Hr.
Qed.

(** The loop then stops at the next pid in the rotation. *)
Lemma schedule_loop_ok k n p :
  1 <= current_pid k < next_pid k -> next_pid k <= MAX_PROCESS -> (next_pid k < MAX_PROCESS \/ current_pid k + 1 < next_pid k) ->
  (forall pid, is_Some (processes k !! pid) <-> 1 <= pid < next_pid k) ->
  n = succ_pid (next_pid k) (current_pid k) -> processes k !! n = Some p -> id p = n -> state p = Wait ->
  schedule_loop (S (Z.to_nat (next_pid k))) k =
    Ret (tt, with_processes (<[n := set_state Running p]> (processes k)) (with_current_pid n k)).
Proof.
  intros Hc Hm Hlt Hu En Hp Hid Hw. unfold MAX_PROCESS in *.
  assert (1 <= n < next_pid k) as Hnr by (apply Hu; eauto).
  unfold succ_pid in En. case_decide as Hd.
  - apply schedule_take; try done.
    rewrite (proj2 (Z.eqb_neq _ _)) by lia. rewrite En. apply wrap_small. unfold uint. lia.
  - rewrite (schedule_skip _ k (next_pid k)).
    + destruct (Z.to_nat (next_pid k)) as [|m] eqn:Em; [lia|].
      rewrite (schedule_take m (with_current_pid (next_pid k) k) n p); try done. simpl. by rewrite Z.eqb_refl.
    + unfold MAX_PROCESS. lia.
    + rewrite (proj2 (Z.eqb_neq _ _)) by lia. rewrite wrap_small; [lia|unfold uint; lia].
    + apply eq_None_not_Some. rewrite Hu. lia.
Qed.

Lemma schedule_ok k : sched_inv k -> next_pid k < MAX_PROCESS \/ current_pid k + 1 < next_pid k ->
  exists k', schedule k = Ret (tt, k') /\ switched k k' (succ_pid (next_pid k) (current_pid k)).
Proof.
  intros Hinv Hlt. pose proof Hinv as [Hc Hn Hu Hid Hr].
  destruct (proj2 (Hu (current_pid k)) Hc) as [pc Hpc]. set (n := succ_pid (next_pid k) (current_pid k)).
  assert (1 <= n < next_pid k) as Hnr by (unfold n, succ_pid; case_decide; lia).
  destruct (proj2 (Hu n) Hnr) as [pn Hpn]. pose proof (preempt k pc Hinv Hpc) as Hpre.
  set (k1 := with_processes (<[current_pid k := set_state Wait pc]> (processes k)) k).
  assert (processes k1 !! n = Some (set_state Wait pn)) as Hp1 by (unfold k1; simpl; by rewrite Hpre, Hpn).
  eexists. split.
  - unfold schedule. step_with (eq_refl (get k)). step_with update_process_ok; [|unfold MAX_PROCESS in *; lia|exact Hpc].
    fold k1. apply (schedule_loop_ok k1 n (set_state Wait pn)); try done.
    + intros pid. unfold k1. simpl. by rewrite Hpre, fmap_is_Some.
    + simpl. by apply Hid.
  - repeat (split; [done|]). intros pid. unfold k1. simpl. rewrite lookup_insert.
    destruct (decide (n = pid)) as [<-|Hne]; [by rewrite decide_True, Hpn by done|].
    rewrite decide_False by done. apply Hpre.
Qed.

Lemma switched_inv k k' n : sched_inv k -> switched k k' n -> 1 <= n < next_pid k -> sched_inv k'.
Proof.
  intros [Hc Hn Hu Hid Hr] (E1 & E2 & _ & _ & E5) Hnr. split.
  - by rewrite E1, E2.
  - by rewrite E2.
  - intros pid. rewrite E5, E2, fmap_is_Some. apply Hu.
  - intros pid p. rewrite E5. intros H. apply fmap_Some in H as (q & Hq & ->). simpl. by apply Hid.
  - intros pid p. rewrite E5, E1. intros H Hst. apply fmap_Some in H as (q & Hq & ->). simpl in Hst. by case_decide.
Qed.

Lemma succ_pid_range next pid : 1 <= pid < next -> 1 <= succ_pid next pid < next.
Proof. intros. unfold succ_pid. case_decide; lia. Qed.

(** A pid outside the array faults. *)
Lemma schedule_fault fuel k n :
  MAX_PROCESS <= n -> (if current_pid k =? next_pid k then 1 else wrap64 (current_pid k + 1)) = n ->
  schedule_loop (S fuel) k = Fault.
Proof.
  intros Hn Hpid. cbn [schedule_loop]. step_with (eq_refl (get k)). rewrite Hpid.
  step_with (eq_refl (put (with_current_pid n k) k)). unfold mbind, st_bind, slot.
  rewrite (proj2 (Z.ltb_ge n MAX_PROCESS)) by done. by rewrite andb_false_r.
Qed.

(** Scheduling from the last slot when every slot is in use reads past the array. *)
Lemma schedule_past_end k : sched_inv k -> next_pid k = MAX_PROCESS -> current_pid k = MAX_PROCESS - 1 ->
  schedule k = Fault.
Proof.
  intros Hinv Hn Hcur. pose proof Hinv as [Hc _ Hu Hid Hr]. destruct (proj2 (Hu (current_pid k)) Hc) as [pc Hpc].
  unfold schedule. step_with (eq_refl (get k)). step_with update_process_ok; [|unfold MAX_PROCESS in *; lia|exact Hpc].
  apply (schedule_fault _ _ MAX_PROCESS); [done|]. cbn [current_pid next_pid with_processes].
  rewrite Hn, Hcur. unfold MAX_PROCESS. rewrite (proj2 (Z.eqb_neq _ _)) by lia. apply wrap_small. unfold uint. lia.
Qed.

(** ** Page table words of a process *)

Definition user_leaf (ppage w : Z) : Z :=
  write_field PTE "base_addr" ppage (write_field PTE "us" 1 (write_field PTE "rw" 1 (write_field PTE "p" 1 w))).

Lemma map_page_update vpage ppage t : map_page vpage ppage t = update (upt_word vpage) (user_leaf ppage) t.
Proof. unfold map_page. by rewrite set_members4. Qed.

Lemma for_loop_shift {S} n i (f : Z -> S -> S) s : for_loop n i f s = for_loop n 0 (fun j => f (i + j)) s.
Proof.
  assert (forall a, for_loop n (i + a) f s = for_loop n a (fun j => f (i + j)) s) as H.
  { revert s. induction n as [|n IH]; intros s a; [done|]. cbn. rewrite <- IH. f_equal. lia. }
  rewrite <- H. f_equal. lia.
Qed.

(** [map_user_addr] inside the array writes the entries of its pages. *)
Lemma map_user_addr_ok vaddr paddr n t :
  0 <= vaddr -> 0 <= paddr < 2 ^ 52 -> 0 <= n -> vaddr / 4096 + n <= PROCESS_MAX_USER_PAGES ->
  exists t', map_user_addr vaddr paddr n t = Ret t' /\
    forall k, word t' k = if decide (upt_word (vaddr / 4096) <= k < upt_word (vaddr / 4096) + n)
                          then user_leaf (paddr / 4096 + (k - upt_word (vaddr / 4096))) (word t k) else word t k.
Proof.
  intros Hv Hp Hn Hb. unfold PROCESS_MAX_USER_PAGES in Hb. unfold map_user_addr.
  assert (forall m i t, 0 <= i -> i + Z.of_nat m <= n -> map_loop m i vaddr paddr t =
    Ret (for_loop m i (fun j => update (upt_word (vaddr / 4096 + j)) (user_leaf (paddr / 4096 + j))) t)) as H.
  { induction m as [|m IH]; intros i t0 Hi Hm; [done|]. cbn [map_loop for_loop].
    rewrite !Z.shiftr_div_pow2 by lia. change (2 ^ 12) with 4096.
    rewrite !wrap_small by (unfold uint; dlia).
    rewrite (proj2 (Z.ltb_lt _ _)) by (unfold PROCESS_MAX_USER_PAGES; lia). rewrite map_page_update. apply IH; lia. }
  eexists. split; [apply H; lia|]. intros k.
  rewrite (for_loop_ext _ _ _ (fun i => update (upt_word (vaddr / 4096) + i) (user_leaf (paddr / 4096 + i)))).
  - by rewrite word_for_loop, Z2Nat.id by lia.
  - intros j s. f_equal. unfold upt_word. lia.
Qed.

Definition user_link (l : layout) (fr w : Z) : Z :=
  write_field l "base_addr" fr (write_field l "us" 1 (write_field l "rw" 1 (write_field l "p" 1 w))).

Lemma link_user_update l k tgt pa t : link_user l k tgt pa t = update k (user_link l (pts_frame pa tgt)) t.
Proof. unfold link_user. by rewrite set_members4. Qed.

Definition pts_words (kpdpt pa k : Z) : Z :=
  let w0 := if decide (k = 256) then link_word PML4E (Z.shiftr kpdpt 12) 0 else 0 in
  let w1 := if decide (k = 0) then user_link PML4E (pts_frame pa (updpt_word 0)) w0 else w0 in
  let w2 := if decide (k = updpt_word 0) then user_link PDPE (pts_frame pa (updt_word 0)) w1 else w1 in
  if decide (updt_word 0 <= k < updt_word 0 + 512)
  then user_link PDE (pts_frame pa (upt_word ((k - updt_word 0) * 512))) w2 else w2.

Lemma init_pts_words kpdpt pa k : word (init_pts kpdpt pa) k = pts_words kpdpt pa k.
Proof.
  unfold init_pts, link_kernel. rewrite set_members3, !link_user_update.
  rewrite (for_loop_ext _ _ _ (fun i => update (updt_word 0 + i) (user_link PDE (pts_frame pa (upt_word (i * 512)))))).
  2: { intros j s. by rewrite link_user_update. }
  rewrite word_for_loop, !word_update. change (Z.of_nat (Z.to_nat PAGES_PER_TABLE)) with 512.
  unfold pts_words. change (word ∅ k) with 0. unfold upml4t_word. repeat case_decide; subst; done.
Qed.

(** The tables a constructor leaves: image and stack mapped. *)
Definition user_tables (kpdpt pa img stk : Z) (t : table) : Prop :=
  exists t1, map_user_addr USER_IMAGE_START img (USER_IMAGE_SIZE / PAGE_SIZE) (init_pts kpdpt pa) = Ret t1 /\
    map_user_addr (33 * 1024 * 1024) stk (USER_STACK_SIZE / PAGE_SIZE) t1 = Ret t.

(** ** The allocator under process creation *)

(** A page-aligned region at the addresses the machine has. *)
Record alloc_ready (s : Buddy.BuddyAllocator) : Prop := {
  ar_inv : Inv s;
  ar_align : Buddy.phy_start s mod 4096 = 0;
  ar_range : 0 <= Buddy.phy_start s < 2 ^ 48
}.

(** A page-aligned physical address. *)
Definition good_frame (a : Z) : Prop := a mod 4096 = 0 /\ 0 <= a < 2 ^ 50.

(** [s'] has all blocks of [s]. *)
Definition extends (s s' : Buddy.BuddyAllocator) : Prop := same_config s s' /\ forall b, is_allocated s b -> is_allocated s' b.

#[export] Instance extends_preorder : PreOrder extends.
Proof. split; [by intros s|]. intros s1 s2 s3 [C1 A1] [C2 A2]. split; [by etransitivity|auto]. Qed.

(** [a] is the physical address of a block of [2^i] bytes that is handed out in
    [s'] and was not in [s], or 0, which stands for the lack of one. *)
Definition taken (s s' : Buddy.BuddyAllocator) (i a : Z) : Prop :=
  a = 0 \/ exists b, is_allocated s' b /\ ~ is_allocated s b /\ level s b = i /\ a = Buddy.get_block_phy_addr s b.

Lemma taken_mono s0 s s' s1 i a : extends s0 s -> extends s' s1 -> taken s s' i a -> taken s0 s1 i a.
Proof.
  intros [(E1 & E2 & _) A1] [_ A2] [->|(b & H1 & H2 & H3 & ->)]; [by left|]. right. exists b. split; [auto|]. split; [auto|].
  unfold level, Buddy.get_block_phy_addr in *. by rewrite <- E1, <- E2.
Qed.

Lemma allocate_ready s i : alloc_ready s -> Log2MinSize <= i ->
  exists a s', Buddy.allocate_pages i s = Ret (a, s') /\ alloc_ready s' /\ good_frame a /\ extends s s' /\ taken s s' i a.
Proof.
  intros [HI Ha Hr] Hi. destruct (allocate_pages_cases s i HI Hi) as [[H _]|(b & s' & H & HI' & Hc & Hl & Hreg & Hn & Hall)].
  - exists 0, s. split; [done|]. split; [by split|]. split; [by split; [|lia]|]. split; [done|by left].
  - exists (Buddy.get_block_phy_addr s b), s'. split; [done|]. pose proof Hc as (E & _).
    split; [split; [done|by rewrite E..]|].
    split; [|split; [split; [done|intros j Hj; apply Hall; by left]|right; exists b; split; [apply Hall; by right|done]]].
    pose proof (in_region_small s b (bi_params _ _ (Inv_inv _ HI)) Hreg) as Hb.
    unfold Buddy.get_block_phy_addr, Buddy.BlockSize, PAGE_SIZE. rewrite wrap_small by (unfold uint; lia).
    split; [dlia|lia].
Qed.

Lemma page_alloc_ok {A} (c : ST Buddy.BuddyAllocator A) k a al : c (allocator k) = Ret (a, al) -> page_alloc c k = Ret (a, with_allocator al k).
Proof. intros H. unfold page_alloc. by rewrite H. Qed.

Lemma kernel_alloc_ready k i : alloc_ready (allocator k) -> Log2MinSize <= i ->
  exists a al, page_alloc (PageAlloc.kernel_page_alloc i) k = Ret (a, with_allocator al k) /\ alloc_ready al /\ good_frame (kernel2phy a) /\
    extends (allocator k) al /\ taken (allocator k) al i (kernel2phy a).
Proof.
  intros Hr Hi. destruct (allocate_ready (allocator k) i Hr Hi) as (a & al & H & Hr' & Hg & Ht).
  exists (wrap64 (KERNEL_START + a)), al. split; [|split; [done|]].
  - apply page_alloc_ok. unfold PageAlloc.kernel_page_alloc. by step_with H.
  - unfold kernel2phy. rewrite wrap_sub_l. replace (KERNEL_START + a - KERNEL_START) with a by lia.
    rewrite wrap_small by (destruct Hg as [H1 H2]; unfold uint; lia). done.
Qed.

Lemma physical_alloc_ready k i : alloc_ready (allocator k) -> Log2MinSize <= i ->
  exists a al, page_alloc (PageAlloc.physical_page_alloc i) k = Ret (a, with_allocator al k) /\ alloc_ready al /\ good_frame a /\
    extends (allocator k) al /\ taken (allocator k) al i a.
Proof.
  intros Hr Hi. destruct (allocate_ready (allocator k) i Hr Hi) as (a & al & H & Hr' & Hg).
  exists a, al. split; [by apply page_alloc_ok|done].
Qed.

Lemma lift_pure_ok {A} (o : outcome A) a k : o = Ret a -> lift_pure o k = Ret (a, k).
Proof. by intros ->. Qed.

Section create.
Context (entry : Z) (raw : Context) (ck : Z).

(** The blocks behind a process: its tables, image and stack. *)
Definition backed (s s' : Buddy.BuddyAllocator) (p : Process) : Prop :=
  extends s s' /\ taken s s' (log2 sizeof_PageTabletSructures + 1) (pts_paddr p) /\
  taken s s' (log2 USER_IMAGE_SIZE) (user_image_phy_addr p) /\ taken s s' (log2 USER_STACK_SIZE) (user_stack_phy_addr p).

(** What [create_process] adds to the kernel. *)
Definition created (k k' : Kernel) (p : Process) : Prop :=
  processes k' = <[next_pid k := p]> (processes k) /\ next_pid k' = next_pid k + 1 /\
  current_pid k' = current_pid k /\ kernel_pdpt k' = kernel_pdpt k /\ alloc_ready (allocator k') /\
  id p = next_pid k /\ state p = Wait /\
  user_tables (kernel_pdpt k) (pts_paddr p) (user_image_phy_addr p) (user_stack_phy_addr p) (pts p) /\
  good_frame (pts_paddr p) /\ good_frame (user_image_phy_addr p) /\ good_frame (user_stack_phy_addr p) /\
  backed (allocator k) (allocator k') p.

Lemma Process_new_ok k a pid phy : alloc_ready (allocator k) ->
  exists p al, Process_new entry raw ck a pid phy k = Ret (p, with_allocator al k) /\ alloc_ready al /\
    this p = a /\ id p = pid /\ state p = Wait /\
    user_tables (kernel_pdpt k) (pts_paddr p) (user_image_phy_addr p) (user_stack_phy_addr p) (pts p) /\
    good_frame (pts_paddr p) /\ good_frame (user_image_phy_addr p) /\ good_frame (user_stack_phy_addr p) /\
    backed (allocator k) al p.
Proof using Type.
  intros Hr. unfold Process_new.
  destruct (kernel_alloc_ready k 16 Hr ltac:(done)) as (sys & al1 & H1 & Hr1 & _ & X1 & _).
  change (PageAlloc.kmalloc (sizeof_Syscall + 8)) with (PageAlloc.kernel_page_alloc 16). step_with H1.
  destruct (kernel_alloc_ready (with_allocator al1 k) 22 Hr1 ltac:(done)) as (pp & al2 & H2 & Hr2 & Hg2 & X2 & T2).
  change (log2 sizeof_PageTabletSructures + 1) with 22. step_with H2. step_with (eq_refl (get (with_allocator al2 k))).
  destruct (physical_alloc_ready (with_allocator al2 k) 23 Hr2 ltac:(done)) as (img & al3 & H3 & Hr3 & Hg3 & X3 & T3).
  change (log2 USER_IMAGE_SIZE) with 23. step_with H3.
  destruct (map_user_addr_ok USER_IMAGE_START img (USER_IMAGE_SIZE / PAGE_SIZE) (init_pts (kernel_pdpt k) (kernel2phy pp)))
    as (t1 & Ht1 & _); [done|unfold good_frame in Hg3; lia|done|done|].
  step_with (lift_pure_ok _ _ _ Ht1).
  destruct (physical_alloc_ready (with_allocator al3 k) 20 Hr3 ltac:(done)) as (stk & al4 & H4 & Hr4 & Hg4 & X4 & T4).
  change (log2 USER_STACK_SIZE) with 20. step_with H4.
  destruct (map_user_addr_ok (33 * 1024 * 1024) stk (USER_STACK_SIZE / PAGE_SIZE) t1)
    as (t2 & Ht2 & _); [done|unfold good_frame in Hg4; lia|done|done|].
  step_with (lift_pure_ok _ _ _ Ht2).
  eexists _, al4. split; [reflexivity|]. split; [done|]. split; [done|]. split; [done|]. split; [done|].
  split; [exists t1; exact (conj Ht1 Ht2)|]. split; [done|]. split; [done|]. split; [done|].
  cbn [allocator with_allocator] in *. split; [transitivity al1; [exact X1|]; transitivity al2; [exact X2|]; transitivity al3; [exact X3|exact X4]|].
  split; [|split].
  - apply (taken_mono _ al1 al2); [exact X1| |exact T2]. transitivity al3; [exact X3|exact X4].
  - apply (taken_mono _ al2 al3); [|exact X4|exact T3]. transitivity al1; [exact X1|exact X2].
  - apply (taken_mono _ al3 al4); [|reflexivity|exact T4]. transitivity al2; [|exact X3]. transitivity al1; [exact X1|exact X2].
Qed.

Lemma create_process_ok k : alloc_ready (allocator k) -> 1 <= next_pid k < MAX_PROCESS ->
  processes k !! next_pid k = None ->
  exists p k', create_process entry raw ck k = Ret (next_pid k, k') /\ created k k' p.
Proof using Type.
  intros Hr Hn Hnone. unfold create_process. step_with (eq_refl (gets next_pid k)).
  step_with (eq_refl (modify (fun k0 => with_next_pid (wrap64 (next_pid k + 1)) k0) k)).
  rewrite wrap_small by (unfold uint, MAX_PROCESS in *; lia).
  set (k1 := with_next_pid (next_pid k + 1) k).
  change (if log2 sizeof_Process + 1 <? Log2MinSize then Log2MinSize else log2 sizeof_Process + 1) with 17. cbv zeta.
  destruct (kernel_alloc_ready k1 17 Hr ltac:(done)) as (a & al1 & H1 & Hr1 & _ & X1 & _). step_with H1.
  destruct (Process_new_ok (with_allocator al1 k1) a (next_pid k) (kernel2phy a) Hr1) as (p & al2 & H2 & Hr2 & Hp).
  step_with H2. step_with slot_ok; [|lia]. cbn [processes with_allocator k1 with_next_pid]. rewrite Hnone.
  rewrite bool_decide_true by done. cbn [do_assert]. rewrite bind_mret_l.
  eexists p, _. split; [reflexivity|]. unfold created. cbn. destruct Hp as (_ & ? & ? & ? & ? & ? & ? & X2 & T1 & T2 & T3).
  do 11 (split; [done|]). cbn [allocator with_allocator k1 with_next_pid] in *. split; [transitivity al1; [exact X1|exact X2]|].
  split; [|split]; (eapply (taken_mono _ al1 al2); [exact X1|reflexivity|]); [exact T1|exact T2|exact T3].
Qed.

(** Without a free slot [create_process] does not return. *)
Lemma create_process_full k r : alloc_ready (allocator k) -> next_pid k = MAX_PROCESS -> create_process entry raw ck k <> Ret r.
Proof using Type.
  intros Hr Hn. unfold create_process. step_with (eq_refl (gets next_pid k)).
  step_with (eq_refl (modify (fun k0 => with_next_pid (wrap64 (next_pid k + 1)) k0) k)).
  set (k1 := with_next_pid (wrap64 (next_pid k + 1)) k).
  change (if log2 sizeof_Process + 1 <? Log2MinSize then Log2MinSize else log2 sizeof_Process + 1) with 17. cbv zeta.
  destruct (kernel_alloc_ready k1 17 Hr ltac:(done)) as (a & al1 & H1 & Hr1 & _). step_with H1.
  destruct (Process_new_ok (with_allocator al1 k1) a (next_pid k) (kernel2phy a) Hr1) as (p & al2 & H2 & Hr2 & Hp).
  step_with H2. unfold mbind at 1, st_bind at 1, slot. rewrite Hn. done.
Qed.

(** Creation keeps the process table well formed. *)
Lemma created_inv k k' p : sched_inv k -> next_pid k < MAX_PROCESS -> created k k' p -> sched_inv k'.
Proof using Type.
  intros [Hc Hn Hu Hid Hr] Hlt (E1 & E2 & E3 & _ & _ & Ei & Es & _). split.
  - rewrite E2, E3. lia.
  - rewrite E2. lia.
  - intros pid. rewrite E1, E2, lookup_insert_is_Some'. rewrite Hu. lia.
  - intros pid q. rewrite E1, lookup_insert. case_decide; [|by apply Hid]. intros [= <-]. congruence.
  - intros pid q. rewrite E1, E3, lookup_insert. case_decide; [|by apply Hr]. intros [= <-]. congruence.
Qed.

End create.
