(* ===== verification/AllocChain.v ===== *)
(** * Sequences of allocations by a driver

    Drivers allocate their objects and buffers one after the other and never free
    them.  Here: blocks handed out stay handed out, what is handed out next is a
    different block, and a sequence of allocations returns, each result being a
    new block or the address that stands for failure. *)
From S2P Require Import Prelude LibUtils CpuDefs BuddyTree Buddy BuddyInv BuddyProofs BuddySpec BuddyThms PageAlloc PageAllocThms Process ProcessProofs.
Import Utils Process.

(** [s] has everything allocated that [s0] had, and is consistent. *)
Definition grown (s0 s : Buddy.BuddyAllocator) : Prop :=
  Inv s /\ same_config s0 s /\ (forall i, is_allocated s0 i -> is_allocated s i).

Lemma grown_refl s : Inv s -> grown s s.
Proof. intros H. by split_and!. Qed.
Lemma grown_trans s0 s1 s2 : grown s0 s1 -> grown s1 s2 -> grown s0 s2.
Proof. intros (_ & C1 & A1) (I2 & C2 & A2). split_and!; [done|by etransitivity|auto]. Qed.

(** The kernel address of block [b]. *)
Definition block_vaddr (s : Buddy.BuddyAllocator) (b : Z) : Z := wrap64 (KERNEL_START + Buddy.get_block_phy_addr s b).

(** [a] is the address of a block that is handed out. *)
Definition owned (s : Buddy.BuddyAllocator) (a : Z) : Prop := exists b, is_allocated s b /\ in_region s b /\ a = block_vaddr s b.

Lemma block_vaddr_config s s' b : same_config s s' -> block_vaddr s' b = block_vaddr s b.
Proof. intros (E & _). unfold block_vaddr, Buddy.get_block_phy_addr. by rewrite E. Qed.

Lemma owned_grown s s' a : grown s s' -> owned s a -> owned s' a.
Proof.
  intros (_ & C & A) (b & H1 & H2 & ->). exists b. split_and!; [auto|by apply (in_region_config s s')|].
  by rewrite (block_vaddr_config s s').
Qed.

Lemma block_vaddr_inj s b c : params s -> in_region s b -> in_region s c -> block_vaddr s b = block_vaddr s c -> b = c.
Proof.
  intros Hp Hb Hc E. pose proof (in_region_small s b Hp Hb). pose proof (in_region_small s c Hp Hc).
  unfold block_vaddr, Buddy.get_block_phy_addr, Buddy.BlockSize, PAGE_SIZE, wrap, KERNEL_START in E. Z.div_mod_to_equations. lia.
Qed.

(** An allocation fails and changes nothing, for want of a free block of the size,
    or hands out a new block. *)
Lemma kernel_page_alloc_result s i : Inv s -> Log2MinSize <= i ->
  exists a s', PageAlloc.kernel_page_alloc i s = Ret (a, s') /\ grown s s' /\
    (a = KERNEL_START /\ (forall j, is_free s j -> level s j < i) \/ owned s' a /\ ~ owned s a).
Proof.
  intros HI Hi. unfold PageAlloc.kernel_page_alloc.
  destruct (allocate_pages_cases s i HI Hi) as [[H Hno]|(b & s' & H & HI' & Hc & _ & Hreg & Hnew & Hall)].
  - exists KERNEL_START, s. split; [by step_with H|]. split; [by apply grown_refl|by left].
  - exists (block_vaddr s b), s'. split; [by step_with H|].
    assert (grown s s') as Hg by (split_and!; [done..|intros j Hj; apply Hall; by left]). split; [done|]. right. split.
    + exists b. split_and!; [apply Hall; by right|by apply (in_region_config s s')|]. by rewrite (block_vaddr_config s s').
    + intros (c & H1 & H2 & E). apply Hnew. apply block_vaddr_inj in E; [by subst c|apply Inv_inv, HI|done|done].
Qed.

Lemma kernel_page_alloc_fresh s i : Inv s -> Log2MinSize <= i ->
  exists a s', PageAlloc.kernel_page_alloc i s = Ret (a, s') /\ grown s s' /\ (a = KERNEL_START \/ owned s' a /\ ~ owned s a).
Proof.
  intros HI Hi. destruct (kernel_page_alloc_result s i HI Hi) as (a & s' & H & Hg & Ha). exists a, s'. split; [done|]. split; [done|].
  destruct Ha as [[-> _]|Ha]; [by left|by right].
Qed.

Lemma kmalloc_fresh s n : Inv s -> 0 < n < 2 ^ 64 ->
  exists a s', PageAlloc.kmalloc n s = Ret (a, s') /\ grown s s' /\ (a = KERNEL_START \/ owned s' a /\ ~ owned s a).
Proof. intros HI Hn. rewrite kmalloc_eq by done. apply kernel_page_alloc_fresh; [done|]. unfold class_of. lia. Qed.

(** ** Room for small blocks *)

(** At least [n] smallest blocks that no handed-out block overlaps. *)
Definition room (n : nat) (s : Buddy.BuddyAllocator) : Prop := exists X : gset Z, (n <= size X)%nat /\
  forall b, b ∈ X -> 0 <= b /\ level s b = Log2MinSize /\ forall a, is_allocated s a -> ~ overlap a b.

Lemma overlap_same_level s a b : 0 <= a -> 0 <= b -> level s a = level s b -> overlap a b -> a = b.
Proof.
  assert (forall a b, 0 <= a -> depth a = depth b -> below a b -> a = b) as Hw.
  { intros x y Hx E Hb. destruct Hb as [|d Hd Hb]; [done|]. destruct (below_ge x _ Hx Hb) as [_ Hle]. pose proof (depth_parent d Hd). lia. }
  intros Ha Hb E [H|H]; [|symmetry]; apply Hw; try done; unfold level in E; lia.
Qed.

(** With room, an allocation of a smallest block succeeds. *)
Lemma room_alloc n s : Inv s -> room (S n) s -> exists b s', PageAlloc.kernel_page_alloc Log2MinSize s = Ret (block_vaddr s b, s') /\
  grown s s' /\ room n s' /\ in_region s b /\ is_allocated s' b /\ ~ is_allocated s b.
Proof.
  intros HI (X & Hn & Hr). unfold PageAlloc.kernel_page_alloc.
  destruct (allocate_pages_cases s Log2MinSize HI) as [[H Hno]|(b & s' & H & HI' & Hc & Hlev & Hreg & Hnew & Hall)]; [done|..].
  { destruct (size_pos_elem_of X ltac:(lia)) as [b HbX]. destruct (Hr b HbX) as (Hb & Hlev & Hov).
    destruct (no_free_full s Log2MinSize b (Inv_inv _ HI) Hno Hb Hlev) as (a & Ha & Ho). by destruct (Hov a Ha). }
  exists b, s'. split; [by step_with H|].
  split; [by split_and!; [..|intros j Hj; apply Hall; by left]|]. split; [|split; [done|split; [apply Hall; by right|done]]].
  exists (X ∖ {[b]}). split.
  { pose proof (size_union_alt {[b]} X) as Eu. rewrite size_singleton in Eu. pose proof (subseteq_size X ({[b]} ∪ X)) as Hle. specialize (Hle ltac:(set_solver)). lia. }
  intros c [Hc1 Hc2]%elem_of_difference.
  destruct (Hr c Hc1) as (Hc0 & Hcl & Hov). rewrite (level_config s s') by done. split; [done|]. split; [done|].
  intros a [Ha| ->]%Hall Ho; [by apply (Hov a)|]. apply Hc2, elem_of_singleton. symmetry.
  apply (overlap_same_level s); [apply Hreg|done|congruence|done].
Qed.

(** Giving back a block keeps the room. *)
Lemma room_free n s a : Inv s -> room n s -> owned s a -> exists s', PageAlloc.kfree a s = Ret (tt, s') /\ Inv s' /\ same_config s s' /\ room n s' /\
  (forall c, owned s c -> c <> a -> owned s' c).
Proof.
  intros HI (X & Hn & Hr) (b & Hb & Hreg & ->). destruct (free_pages_ok s b HI Hb) as (s' & H & HI' & Hc & Hall).
  exists s'. unfold PageAlloc.kfree, PageAlloc.kernel_page_free. assert (wrap64 (block_vaddr s b - KERNEL_START) = Buddy.get_block_phy_addr s b) as ->.
  { unfold block_vaddr, Buddy.get_block_phy_addr, wrap, KERNEL_START. dlia. }
  split; [done|]. split; [done|]. split; [done|]. split.
  - exists X. split; [done|]. intros c Hc'. destruct (Hr c Hc') as (H1 & H2 & H3). rewrite (level_config s s') by done.
    split; [done|]. split; [done|]. intros x [Hx _]%Hall. by apply H3.
  - intros c (d & Hd & Hdr & ->) Hne. exists d. rewrite (block_vaddr_config s s') by done. split_and!; [|by apply (in_region_config s s')|done].
    apply Hall. split; [done|]. by intros ->.
Qed.

(** The physical address of a block of the allocator, or 0. *)
Lemma page_phys al a : alloc_ready al -> a = KERNEL_START \/ owned al a ->
  let p := wrap64 (a - KERNEL_START) in 0 <= p /\ p + 8192 < 2 ^ 64 /\ Z.even p = true.
Proof.
  intros [HI Ha Hp] [->|(b & Hb & Hreg & ->)].
  - rewrite Z.sub_diag. by vm_compute.
  - pose proof (in_region_small al b (bi_params _ _ (Inv_inv _ HI)) Hreg) as Hs.
    assert (wrap64 (block_vaddr al b - KERNEL_START) = Buddy.phy_start al + 65536 * b) as ->.
    { unfold block_vaddr, Buddy.get_block_phy_addr, Buddy.BlockSize, PAGE_SIZE, wrap, KERNEL_START. dlia. }
    split; [lia|]. split; [lia|]. apply Z.even_spec. exists (2048 * (Buddy.phy_start al / 4096) + 32768 * b). dlia.
Qed.

(** ** In the kernel *)

(** [n] times the same computation. *)
Fixpoint repeatM {S A} (n : nat) (c : ST S A) : ST S (list A) :=
  match n with
  | O => mret []
  | S n => a ← c; l ← repeatM n c; mret (a :: l)
  end.

(** A computation that allocates blocks and returns the addresses [f] of its
    result: each of them is new, and they differ from each other. *)
Definition new_blocks (s s' : Buddy.BuddyAllocator) (l : list Z) : Prop :=
  Forall (fun a => a <> KERNEL_START) l -> NoDup l /\ Forall (fun a => owned s' a /\ ~ owned s a) l.

Lemma new_blocks_nil s : new_blocks s s [].
Proof. intros _. split; [constructor|constructor]. Qed.

Lemma new_blocks_app s s1 s2 l l' : grown s s1 -> grown s1 s2 -> new_blocks s s1 l -> new_blocks s1 s2 l' -> new_blocks s s2 (l ++ l').
Proof.
  intros G1 G2 N1 N2 [H1 H2]%Forall_app. destruct (N1 H1) as [D1 F1], (N2 H2) as [D2 F2].
  rewrite Forall_forall in F1, F2. split.
  - apply NoDup_app. split_and!; [done| |done]. intros a Ha Ha'. apply (proj2 (F2 a Ha')), F1, Ha.
  - apply Forall_app. split; apply Forall_forall; intros a Ha.
    + destruct (F1 a Ha). split; [by eapply owned_grown|done].
    + destruct (F2 a Ha) as [? Hn]. split; [done|]. intros Ho. apply Hn. by eapply owned_grown.
Qed.

Lemma new_blocks_one s s' a : (a = KERNEL_START \/ owned s' a /\ ~ owned s a) -> new_blocks s s' [a].
Proof. intros [->|H] Hf; [by inversion Hf|]. split; [apply NoDup_singleton|by apply Forall_singleton]. Qed.

(** Running an allocation inside the kernel. *)
Lemma page_alloc_kmalloc k n : Inv (allocator k) -> 0 < n < 2 ^ 64 ->
  exists a al, page_alloc (PageAlloc.kmalloc n) k = Ret (a, with_allocator al k) /\ grown (allocator k) al /\ new_blocks (allocator k) al [a].
Proof.
  intros HI Hn. destruct (kmalloc_fresh _ n HI Hn) as (a & al & H & Hg & Hf). exists a, al.
  split; [by apply page_alloc_ok|]. split; [done|by apply new_blocks_one].
Qed.
Lemma page_alloc_kernel k i : Inv (allocator k) -> Log2MinSize <= i ->
  exists a al, page_alloc (PageAlloc.kernel_page_alloc i) k = Ret (a, with_allocator al k) /\ grown (allocator k) al /\ new_blocks (allocator k) al [a].
Proof.
  intros HI Hi. destruct (kernel_page_alloc_fresh _ i HI Hi) as (a & al & H & Hg & Hf). exists a, al.
  split; [by apply page_alloc_ok|]. split; [done|by apply new_blocks_one].
Qed.

Lemma repeat_kmalloc m k n : Inv (allocator k) -> 0 < n < 2 ^ 64 ->
  exists l al, repeatM m (page_alloc (PageAlloc.kmalloc n)) k = Ret (l, with_allocator al k) /\ length l = m /\
    grown (allocator k) al /\ new_blocks (allocator k) al l.
Proof.
  intros HI Hn. revert k HI. induction m as [|m IH]; intros k HI; cbn [repeatM].
  - exists [], (allocator k). split; [by destruct k|]. split; [done|]. split; [by apply grown_refl|apply new_blocks_nil].
  - destruct (page_alloc_kmalloc k n HI Hn) as (a & al & H & Hg & Hb). step_with H.
    destruct (IH (with_allocator al k)) as (l & al' & H' & Hl & Hg' & Hb'); [apply Hg|]. step_with H'.
    exists (a :: l), al'. split; [done|]. split; [by rewrite <- Hl|]. split; [by eapply grown_trans|].
    by apply (new_blocks_app _ al _ [a]).
Qed.

(** Creating a process only allocates. *)
Lemma page_alloc_preserves {A} s0 (c : ST Buddy.BuddyAllocator A) : preserves (grown s0) c -> preserves (fun k => grown s0 (allocator k)) (page_alloc c).
Proof.
  intros Hc k a k' H Hg. unfold page_alloc in H. destruct (c (allocator k)) as [[x al]| | | |] eqn:E; try done.
  injection H as <- <-. by eapply Hc.
Qed.
Lemma kernel_page_alloc_preserves s0 i : Log2MinSize <= i -> preserves (grown s0) (PageAlloc.kernel_page_alloc i).
Proof.
  intros Hi s a s' H Hg. destruct (kernel_page_alloc_fresh s i) as (a' & s1 & H1 & Hg1 & _); [apply Hg|done|].
  rewrite H in H1. injection H1 as -> ->. by eapply grown_trans.
Qed.
Lemma kmalloc_preserves s0 n : 0 < n < 2 ^ 64 -> preserves (grown s0) (PageAlloc.kmalloc n).
Proof. intros Hn s a s' H. rewrite kmalloc_eq in H by done. revert H. apply kernel_page_alloc_preserves. unfold class_of. lia. Qed.
Lemma physical_page_alloc_preserves s0 i : Log2MinSize <= i -> preserves (grown s0) (PageAlloc.physical_page_alloc i).
Proof.
  intros Hi s a s' H Hg. pose proof (kernel_page_alloc_preserves s0 i Hi s (wrap64 (KERNEL_START + a)) s') as K.
  apply K; [|done]. unfold PageAlloc.kernel_page_alloc. by step_with H.
Qed.

Lemma update_process_preserves s0 pid f : preserves (fun k => grown s0 (allocator k)) (update_process pid f).
Proof.
  intros k a k' H Hg. unfold update_process in H. apply bind_inv in H as (p & k1 & H1 & H2).
  unfold process_at in H1. apply bind_inv in H1 as (o & k2 & H3 & H4). unfold slot in H3.
  destruct (_ && _); [|done]. injection H3 as <- <-. destruct (processes k !! pid); [|done]. injection H4 as <- <-.
  injection H2 as <- <-. exact Hg.
Qed.

Lemma lift_pure_preserves {A} s0 (o : outcome A) : preserves (fun k => grown s0 (allocator k)) (lift_pure o).
Proof. intros k a k' H Hg. unfold lift_pure in H. destruct o; try done. by injection H as <- <-. Qed.
Lemma slot_preserves s0 pid : preserves (fun k => grown s0 (allocator k)) (slot pid).
Proof. intros k a k' H Hg. unfold slot in H. destruct (_ && _); [|done]. by injection H as <- <-. Qed.
Lemma modify_preserves s0 f : (forall k, allocator (f k) = allocator k) -> preserves (fun k => grown s0 (allocator k)) (modify f).
Proof. intros Hf k a k' [= _ <-] Hg. by rewrite Hf. Qed.

(** Step through a computation that allocates. *)
Ltac allocates :=
  repeat (apply preserves_bind;
    [first
       [ simple apply preserves_get | simple apply preserves_gets | simple apply lift_pure_preserves | simple apply slot_preserves
       | simple apply preserves_assert | simple apply update_process_preserves
       | simple apply modify_preserves; intros; reflexivity
       | simple apply page_alloc_preserves;
         first [simple apply kernel_page_alloc_preserves|simple apply physical_page_alloc_preserves|simple apply kmalloc_preserves]; done
       | idtac ]
    |intros ?; cbv beta zeta]).

Section grown.
Context (entry : Z) (raw : Context) (ck : Z).

Lemma create_kthread_grown nm start c k pid k' : Inv (allocator k) ->
  create_kthread entry raw ck nm start c k = Ret (pid, k') -> grown (allocator k) (allocator k').
Proof using Type.
  intros HI H. assert (preserves (fun k1 => grown (allocator k) (allocator k1)) (create_kthread entry raw ck nm start c)) as Hp.
  { unfold create_kthread. allocates; apply preserves_mret. }
  apply (Hp k pid k' H). by apply grown_refl.
Qed.

End grown.
