(* ===== verification/UserSpace.v ===== *)
(** * The address space of a user process *)
From S2P Require Import Prelude LibUtils CpuDefs Paging PagingProofs Buddy Process ProcessProofs.
Import Utils Paging Process.

Section user_space.
Context (kpdpt pa img stk : Z) (t : table).
Context (Hk : good_frame kpdpt) (Hpa : good_frame pa) (Himg : good_frame img) (Hstk : good_frame stk).
Context (Ht : user_tables kpdpt pa img stk t).

Ltac uwords_lia := unfold upml4t_word, updpt_word, updt_word, upt_word, PAGES_PER_TABLE, PROCESS_MAX_USER_PAGES in *; try lia.

Lemma user_words k : word t k =
  if decide (1536 + 8448 <= k < 1536 + 8704) then user_leaf (stk / 4096 + (k - (1536 + 8448))) (pts_words kpdpt pa k)
  else if decide (1536 + 256 <= k < 1536 + 2304) then user_leaf (img / 4096 + (k - (1536 + 256))) (pts_words kpdpt pa k)
  else pts_words kpdpt pa k.
Proof using Ht Himg Hstk.
  destruct Ht as (t1 & H1 & H2).
  destruct (map_user_addr_ok USER_IMAGE_START img (USER_IMAGE_SIZE / PAGE_SIZE) (init_pts kpdpt pa))
    as (t1' & H1' & W1); [done|unfold good_frame in Himg; lia|done|done|].
  assert (t1' = t1) as -> by congruence.
  destruct (map_user_addr_ok (33 * 1024 * 1024) stk (USER_STACK_SIZE / PAGE_SIZE) t1)
    as (t2 & H2' & W2); [done|unfold good_frame in Hstk; lia|done|done|].
  assert (t2 = t) as -> by congruence. rewrite W2, W1, init_pts_words.
  change (upt_word (33 * 1024 * 1024 / 4096)) with (1536 + 8448). change (USER_STACK_SIZE / PAGE_SIZE) with 256.
  change (upt_word (USER_IMAGE_START / 4096)) with (1536 + 256). change (USER_IMAGE_SIZE / PAGE_SIZE) with 2048.
  change (1536 + 256 + 2048) with (1536 + 2304). change (1536 + 8448 + 256) with (1536 + 8704).
  repeat case_decide; first [reflexivity|exfalso; lia].
Qed.

Ltac pick_user := rewrite user_words; unfold pts_words; cbv zeta; repeat (case_decide; try solve [exfalso; uwords_lia]).

Lemma user_link_entry l k : (l = PML4E \/ l = PDPE \/ l = PDE) -> 0 <= k < 2 ^ 19 -> k mod 512 = 0 ->
  entry_of (user_link l (pts_frame pa k) 0) true true true false (pa + 8 * k).
Proof using Hpa.
  intros Hl Hk0 Hk5. destruct Hpa as [Ha1 Ha2].
  assert (0 <= pts_frame pa k < 2 ^ 40 /\ pts_frame pa k * 4096 = pa + 8 * k) as [Hr E].
  { unfold pts_frame. rewrite wrap_small, Z.shiftr_div_pow2 by (unfold uint; lia). change (2 ^ 12) with 4096. dlia. }
  destruct Hl as [->|[->| ->]]; unfold user_link; entry_solve; split_and!; done.
Qed.

Lemma user_pml4 : entry_of (word t 0) true true true false (pa + 8 * updpt_word 0).
Proof using All. pick_user. apply user_link_entry; [by left|done..]. Qed.

Lemma user_pdpt : entry_of (word t (updpt_word 0)) true true true false (pa + 8 * updt_word 0).
Proof using All. pick_user. apply user_link_entry; [by right; left|done..]. Qed.

Lemma user_pdpt_rest i : 1 <= i < 512 -> present (word t (updpt_word i)) = false.
Proof using All. intros Hi. pick_user. done. Qed.

Lemma user_pdt i : 0 <= i < 512 -> entry_of (word t (updt_word i)) true true true false (pa + 8 * upt_word (i * 512)).
Proof using All.
  intros Hi. pick_user. replace (updt_word i - updt_word 0) with i by uwords_lia.
  apply user_link_entry; [by right; right|uwords_lia..]. dlia.
Qed.

(** Frame of a user page, when it is mapped. *)
Definition user_frame (i : Z) : option Z :=
  if decide (256 <= i < 2304) then Some (img + (i - 256) * 4096)
  else if decide (8448 <= i < 8704) then Some (stk + (i - 8448) * 4096) else None.

Lemma user_leaf_entry base i : good_frame base -> 0 <= i < 2048 ->
  entry_of (user_leaf (base / 4096 + i) 0) true true true false ((base + i * 4096) mod 2 ^ 52).
Proof using Type.
  clear. intros [H1 H2] Hi. unfold user_leaf. unfold entry_of, present, writable, user, large.
  rewrite !testbit_bit, frame_bits by lia. fields. split_and!; try done.
  rewrite <- (Z.mul_mod_distr_r _ (2 ^ 40) 4096) by lia. f_equal. dlia.
Qed.

Lemma user_pt i : 0 <= i < PROCESS_MAX_USER_PAGES ->
  match user_frame i with
  | Some fr => entry_of (word t (upt_word i)) true true true false fr
  | None => present (word t (upt_word i)) = false
  end.
Proof using All.
  intros Hi. unfold user_frame. destruct Himg as [Hi2 Hi3], Hstk as [Hs2 Hs3]. rewrite user_words.
  assert (pts_words kpdpt pa (upt_word i) = 0) as -> by (unfold pts_words; cbv zeta; repeat (case_decide; try solve [exfalso; uwords_lia]); done).
  unfold upt_word, PAGES_PER_TABLE in *. repeat case_decide; try solve [exfalso; lia].
  - replace (3 * 512 + i - (1536 + 256)) with (i - 256) by lia.
    pose proof (user_leaf_entry img (i - 256) Himg ltac:(lia)) as H'. rewrite (Z.mod_small _ (2 ^ 52)) in H' by lia. done.
  - replace (3 * 512 + i - (1536 + 8448)) with (i - 8448) by lia.
    pose proof (user_leaf_entry stk (i - 8448) Hstk ltac:(lia)) as H'. rewrite (Z.mod_small _ (2 ^ 52)) in H' by lia. done.
  - done.
Qed.

(** Physical memory holds the tables. *)
Context (mem : Z -> Z) (Hmem : forall k, 0 <= k < upt_word PROCESS_MAX_USER_PAGES -> mem (pa + 8 * k) = word t k).

Lemma mem_word a k : 0 <= k < upt_word PROCESS_MAX_USER_PAGES -> a = pa + 8 * k -> mem a = word t k.
Proof using Hmem. intros Hr ->. by apply Hmem. Qed.

Lemma pa_frame : frame pa = pa.
Proof using Hpa. destruct Hpa as [H1 H2]. rewrite frame_bits, get_bits_eq by lia. change (2 ^ 12) with 4096. dlia. Qed.

Lemma walk_user va : 0 <= va < 2 ^ 39 ->
  walk mem pa va = (fun fr => mkMapping (fr + va mod 4096) true true) <$>
    (if decide (va < 2 ^ 30) then user_frame (va / 4096) else None).
Proof using All.
  intros Hva. unfold walk. rewrite pa_frame, !index_eq by lia. change 0xfff with (Z.ones 12). rewrite low_bits by lia.
  assert (mem (pa + 8 * ((va / 2 ^ 39) mod 512)) = word t 0) as -> by (apply mem_word; [uwords_lia|dlia]).
  destruct user_pml4 as (-> & -> & -> & _ & ->). cbn [negb].
  assert (mem (pa + 8 * updpt_word 0 + 8 * ((va / 2 ^ 30) mod 512)) = word t (updpt_word (va / 2 ^ 30))) as ->
    by (apply mem_word; uwords_lia; dlia).
  destruct (decide (va < 2 ^ 30)) as [Hlt|Hge].
  2: { rewrite user_pdpt_rest by dlia. done. }
  replace (va / 2 ^ 30) with 0 by dlia. destruct user_pdpt as (-> & -> & -> & -> & ->). cbn [negb].
  assert (mem (pa + 8 * updt_word 0 + 8 * ((va / 2 ^ 21) mod 512)) = word t (updt_word (va / 2 ^ 21))) as ->
    by (apply mem_word; uwords_lia; dlia).
  destruct (user_pdt (va / 2 ^ 21) ltac:(dlia)) as (-> & -> & -> & -> & ->). cbn [negb].
  assert (mem (pa + 8 * upt_word (va / 2 ^ 21 * 512) + 8 * ((va / 2 ^ 12) mod 512)) = word t (upt_word (va / 4096))) as ->
    by (apply mem_word; uwords_lia; dlia).
  pose proof (user_pt (va / 4096) ltac:(uwords_lia; dlia)) as He. destruct (user_frame (va / 4096)) as [fr|].
  - destruct He as (-> & -> & -> & _ & ->). done.
  - by rewrite He.
Qed.

(** Nothing in the kernel half is accessible from user mode. *)
Lemma walk_kernel_half va m : index 39 va = 256 -> walk mem pa va = Some m -> us m = false.
Proof using All.
  intros Hi. unfold walk. rewrite pa_frame, Hi, (mem_word (pa + 8 * 256) 256) by uwords_lia.
  assert (user (word t 256) = false) as ->.
  { pick_user. unfold user. rewrite testbit_bit by lia. unfold link_word. by fields. }
  cbn [andb]. repeat case_match; try done; by intros [= <-].
Qed.

(** An index other than 0 and 256 is not present. *)
Lemma walk_elsewhere va : index 39 va <> 0 -> index 39 va <> 256 -> 0 <= index 39 va < 512 -> walk mem pa va = None.
Proof using All.
  intros H0 H1 Hr. unfold walk. rewrite pa_frame, (mem_word _ (index 39 va)) by uwords_lia.
  assert (present (word t (index 39 va)) = false) as ->; [|done].
  rewrite user_words. unfold pts_words. cbv zeta. repeat (case_decide; try solve [exfalso; uwords_lia]). done.
Qed.

End user_space.
