(* ===== verification/ProcessThms.v ===== *)
(** * Theorems about processes and the scheduler *)
From S2P Require Import Prelude LibUtils CpuDefs Paging PagingProofs BuddyTree Buddy BuddyInv BuddyProofs BuddySpec BuddyThms PageAlloc PageAllocThms Process ProcessProofs UserSpace.
Import Utils Paging Process.

Section system.
Context (entry main_start : Z) (raw : Context) (raw_cookie : Z).

(** Changing the start routine of a process keeps the table well formed. *)
Lemma set_start_inv k pid p start nm ck : sched_inv k -> processes k !! pid = Some p ->
  sched_inv (with_processes (<[pid := set_start start nm ck p]> (processes k)) k).
Proof using Type.
  intros [Hc Hn Hu Hid Hr] Hp. split; try done.
  - intros q. simpl. rewrite lookup_insert_is_Some'. rewrite Hu. split; [|by right].
    intros [<-|]; [|done]. apply Hu. eauto.
  - intros q r. simpl. rewrite lookup_insert. case_decide; [|by apply Hid]. intros [= <-]. subst. simpl. by apply Hid.
  - intros q r. simpl. rewrite lookup_insert. case_decide; [|by apply Hr]. intros [= <-]. subst. simpl. by apply Hr.
Qed.

Lemma process_init_ok k : alloc_ready (allocator k) ->
  exists k', process_init entry raw raw_cookie main_start k = Ret (tt, k') /\ sched_inv k' /\
    alloc_ready (allocator k') /\ next_pid k' = 2 /\ current_pid k' = 1 /\ kernel_pdpt k' = kernel_pdpt k.
Proof using Type.
  intros Hr. unfold process_init. set (k0 := with_current_pid 1 (with_next_pid 1 (with_processes ∅ k))).
  step_with (eq_refl (modify (fun k => with_current_pid 1 (with_next_pid 1 (with_processes ∅ k))) k)). fold k0.
  destruct (create_process_ok entry raw raw_cookie k0 Hr) as (p & k1 & H1 & E1 & E2 & E3 & E4 & Hr1 & Hid & Hst & _); [done|done|].
  step_with H1. simpl in E1, E2, E3. assert (processes k1 !! 1 = Some p) as Hp by (rewrite E1; by rewrite lookup_insert_eq).
  unfold process_at at 1. step_with slot_ok; [|done]. rewrite Hp, bind_mret_l.
  erewrite update_process_ok; [|done|exact Hp]. eexists. split; [reflexivity|].
  split; [|split; [exact Hr1|]; split; [exact E2|]; split; [exact E3|exact E4]].
  apply set_start_inv; [|done]. simpl in Hid. split.
  - rewrite E2, E3. lia.
  - rewrite E2. done.
  - intros q. rewrite E1, E2, lookup_insert_is_Some', lookup_empty. split; [intros [<-|[? ?]]; [lia|done]|intros; left; lia].
  - intros q r. rewrite E1, lookup_insert. case_decide; [|done]. intros [= <-]. congruence.
  - intros q r. rewrite E1, lookup_insert. case_decide; [|done]. intros [= <-]. congruence.
Qed.

Lemma create_kthread_ok k nm start ck : sched_inv k -> alloc_ready (allocator k) -> next_pid k < MAX_PROCESS ->
  exists k', create_kthread entry raw raw_cookie nm start ck k = Ret (next_pid k, k') /\ sched_inv k' /\
    alloc_ready (allocator k') /\ next_pid k' = next_pid k + 1 /\ current_pid k' = current_pid k /\
    (exists p, processes k' !! next_pid k = Some p /\ tmp_start p = start /\ name p = nm /\ cookie p = ck /\ state p = Wait).
Proof using Type.
  intros Hinv Hr Hlt. pose proof (si_current _ Hinv) as Hc.
  destruct (create_process_ok entry raw raw_cookie k Hr) as (p & k1 & H1 & Hcr).
  { lia. }
  { apply eq_None_not_Some. rewrite (si_used _ Hinv). lia. }
  pose proof (created_inv k k1 p Hinv Hlt Hcr) as Hinv1. destruct Hcr as (E1 & E2 & E3 & _ & Hr1 & _ & Hst & _).
  assert (processes k1 !! next_pid k = Some p) as Hp by (by rewrite E1, lookup_insert_eq).
  unfold create_kthread. step_with H1. erewrite bind_ret; [|eapply update_process_ok; [|exact Hp]; lia].
  eexists. split; [reflexivity|]. split; [by apply set_start_inv|]. split; [done|]. split; [done|]. split; [done|].
  eexists. split; [simpl; by rewrite lookup_insert_eq|]. done.
Qed.

End system.

(** [schedule] terminates and switches to the next process of the rotation:
    that process is running, every other one waits, and no process is lost. *)
Theorem schedule_round_robin k :
  sched_inv k -> next_pid k < MAX_PROCESS ->
  exists k', schedule k = Ret (tt, k') /\
    current_pid k' = (if decide (current_pid k + 1 < next_pid k) then current_pid k + 1 else 1) /\
    (forall pid p, processes k' !! pid = Some p -> state p = Running <-> pid = current_pid k') /\
    (forall pid, is_Some (processes k' !! pid) <-> is_Some (processes k !! pid)).
Proof.
  intros Hinv Hlt. destruct (schedule_ok k Hinv (or_introl Hlt)) as (k' & Hs & E1 & E2 & _ & _ & E5).
  exists k'. split; [done|]. split; [done|]. split.
  - intros pid p. rewrite E5, E1. intros H. apply fmap_Some in H as (q & _ & ->). simpl. case_decide; naive_solver.
  - intros pid. by rewrite E5, fmap_is_Some.
Qed.

(** [n] context switches in a row. *)
Fixpoint schedule_n (n : nat) : M unit :=
  match n with O => mret tt | S n => schedule;; schedule_n n end.

Lemma schedule_n_ok n k : sched_inv k -> next_pid k < MAX_PROCESS ->
  exists k', schedule_n n k = Ret (tt, k') /\ sched_inv k' /\ next_pid k' = next_pid k /\
    current_pid k' = 1 + (current_pid k - 1 + Z.of_nat n) mod (next_pid k - 1).
Proof.
  revert k. induction n as [|n IH]; intros k Hinv Hlt; pose proof (si_current _ Hinv) as Hc.
  - exists k. split; [done|]. split; [done|]. split; [done|]. rewrite Z.add_0_r, Z.mod_small by lia. lia.
  - destruct (schedule_ok k Hinv (or_introl Hlt)) as (k1 & Hs & Hsw).
    assert (sched_inv k1) as Hinv1 by (eapply switched_inv; [done|done|by apply succ_pid_range]).
    destruct Hsw as (E1 & E2 & _). destruct (IH k1 Hinv1 ltac:(lia)) as (k' & Hn & Hinv' & En & Ec).
    exists k'. split; [cbn [schedule_n]; by step_with Hs|]. split; [done|]. split; [congruence|].
    rewrite Ec, E1, E2. unfold succ_pid. f_equal. case_decide as Hd; [f_equal; lia|].
    replace (current_pid k - 1 + Z.of_nat (S n)) with (1 - 1 + Z.of_nat n + 1 * (next_pid k - 1)) by lia.
    by rewrite Z.mod_add by lia.
Qed.

(** C29: scheduling is fair: among any [next_pid - 1] consecutive context switches
    every process is switched to exactly once. *)
Theorem schedule_fair k pid :
  sched_inv k -> next_pid k < MAX_PROCESS -> 1 <= pid < next_pid k ->
  exists! n, (1 <= n <= Z.to_nat (next_pid k - 1))%nat /\
    exists k', schedule_n n k = Ret (tt, k') /\ current_pid k' = pid.
Proof.
  intros Hinv Hlt Hp. pose proof (si_current _ Hinv) as Hc. set (m := next_pid k - 1).
  assert (forall n, (exists k', schedule_n n k = Ret (tt, k') /\ current_pid k' = pid) <->
    1 + (current_pid k - 1 + Z.of_nat n) mod m = pid) as Hiff.
  { intros n. destruct (schedule_n_ok n k Hinv Hlt) as (k1 & H1 & _ & _ & E1). split.
    - intros (k' & H' & <-). rewrite H1 in H'. by injection H' as <-.
    - intros <-. by exists k1. }
  exists (if decide (current_pid k < pid) then Z.to_nat (pid - current_pid k) else Z.to_nat (m - (current_pid k - pid))).
  split.
  - rewrite Hiff. case_decide; (split; [lia|]); rewrite Z2Nat.id by lia.
    + rewrite Z.mod_small by lia. lia.
    + replace (current_pid k - 1 + (m - (current_pid k - pid))) with (pid - 1 + 1 * m) by lia.
      rewrite Z.mod_add, Z.mod_small by lia. lia.
  - intros n [Hn E]. rewrite Hiff in E. assert ((current_pid k - 1 + Z.of_nat n) mod m = pid - 1) as E' by lia.
    pose proof (Z.div_mod (current_pid k - 1 + Z.of_nat n) m ltac:(lia)) as Hdm. rewrite E' in Hdm.
    assert (0 <= (current_pid k - 1 + Z.of_nat n) / m < 2) as Hq.
    { split; [apply Z.div_pos; lia|apply Z.div_lt_upper_bound; lia]. }
    assert ((current_pid k - 1 + Z.of_nat n) / m = 0 \/ (current_pid k - 1 + Z.of_nat n) / m = 1) as [Eq|Eq] by lia;
      rewrite Eq in Hdm; case_decide; lia.
Qed.

(** With all 1023 usable slots taken, a context switch away from the last
    process reads [processes[1024]], past the end of the array. *)
Theorem schedule_array_overrun k :
  sched_inv k -> next_pid k = MAX_PROCESS -> current_pid k = MAX_PROCESS - 1 -> schedule k = Fault.
Proof. apply schedule_past_end. Qed.

(** C30: a freshly created process sees exactly its image at 1 MiB to 9 MiB and its
    stack at 33 MiB to 34 MiB in the lower half of its address space, each page
    writable and accessible from user mode; every other address of the lower half
    is unmapped, and nothing of the upper half is accessible from user mode.  The
    page tables, the image and the stack are in blocks of their size that the page
    allocator hands out in this call and had not handed out before; where it has
    no such block, the address is 0 and the low frames are used. *)
Theorem process_address_space entry raw ck k mem :
  alloc_ready (allocator k) -> 1 <= next_pid k < MAX_PROCESS -> processes k !! next_pid k = None ->
  good_frame (kernel_pdpt k) ->
  exists p k', create_process entry raw ck k = Ret (next_pid k, k') /\ processes k' !! next_pid k = Some p /\
  backed (allocator k) (allocator k') p /\
  ((forall j, 0 <= j < upt_word PROCESS_MAX_USER_PAGES -> mem (pts_paddr p + 8 * j) = word (pts p) j) ->
   (forall va, 0 <= va < 2 ^ 47 -> walk mem (pts_paddr p) va =
      if decide (USER_IMAGE_START <= va < USER_IMAGE_START + USER_IMAGE_SIZE)
      then Some (mkMapping (user_image_phy_addr p + (va - USER_IMAGE_START)) true true)
      else if decide (33 * 2 ^ 20 <= va < 34 * 2 ^ 20)
      then Some (mkMapping (user_stack_phy_addr p + (va - 33 * 2 ^ 20)) true true) else None) /\
   (forall va m, KERNEL_START <= va < 2 ^ 64 -> walk mem (pts_paddr p) va = Some m -> us m = false)).
Proof.
  intros Hr Hn Hnone Hk. destruct (create_process_ok entry raw ck k Hr Hn Hnone) as (p & k' & H & Hcr).
  exists p, k'. split; [done|]. destruct Hcr as (E1 & _ & _ & _ & _ & _ & _ & Ht & Hg1 & Hg2 & Hg3 & Hb).
  split; [by rewrite E1, lookup_insert_eq|]. split; [exact Hb|]. intros Hmem. split.
  - intros va Hva. destruct (Z.lt_ge_cases va (2 ^ 39)) as [Hlt|Hge].
    2: { assert (0 < index 39 va < 256) as Hi by (rewrite index_eq by lia; dlia).
      rewrite (walk_elsewhere _ _ _ _ _ Hk Hg1 Hg2 Hg3 Ht mem Hmem va) by lia.
      rewrite !decide_False by (unfold USER_IMAGE_START, USER_IMAGE_SIZE; lia). done. }
    rewrite (walk_user _ _ _ _ _ Hk Hg1 Hg2 Hg3 Ht mem Hmem va (conj (proj1 Hva) Hlt)).
    unfold user_frame. change USER_IMAGE_START with 1048576. change USER_IMAGE_SIZE with 8388608.
    repeat case_decide; try solve [exfalso; dlia]; simpl; try done; do 2 f_equal; dlia.
  - intros va m Hva Hw. assert (0 <= index 39 va < 512) as Hi by (rewrite index_eq by lia; apply Z.mod_pos_bound; lia).
    destruct (decide (index 39 va = 256)) as [E|E].
    { by eapply (walk_kernel_half _ _ _ _ _ Hk Hg1 Hg2 Hg3 Ht mem Hmem va). }
    destruct (decide (index 39 va = 0)) as [E0|E0].
    2: { by rewrite (walk_elsewhere _ _ _ _ _ Hk Hg1 Hg2 Hg3 Ht mem Hmem va E0 E Hi) in Hw. }
    exfalso. rewrite index_eq in E0 by lia. unfold KERNEL_START in Hva. dlia.
Qed.

(** ** Concrete kernels *)

Definition zero_context : Context :=
  mkContext 0 0 0 0 0 0 0 0 0 0 0 0 0 0 0 0 0 0 0 0 (0, 0) 0 0 0 0 0.

(** Memory set up as [page_allocator_init] does, no process yet. *)
Definition ex_kernel : Kernel := mkKernel boot ∅ 1 1 0x200000.
Definition ex_entry : Z := KERNEL_START + 0x1000.
Definition ex_main : Z := KERNEL_START + 0x2000.

(** After [process_init]. *)
Definition ex_kernel1 : Kernel := exec (process_init ex_entry zero_context 0 ex_main) ex_kernel.

Lemma ex_ready : alloc_ready (allocator ex_kernel).
Proof.
  split; [|done|done].
  assert (Buddy.BuddyAllocator_new 0x4000000 30 Buddy.preallocated_blocks Buddy.MaxBlocks = Ret boot) as H by (by vm_compute).
  apply (sim_inv _ _ _ _ (sim_new _ _ boot boot_params_ok H)).
Qed.

Lemma ex_init : process_init ex_entry zero_context 0 ex_main ex_kernel = Ret (tt, ex_kernel1) /\
  sched_inv ex_kernel1 /\ next_pid ex_kernel1 = 2.
Proof.
  destruct (process_init_ok ex_entry ex_main zero_context 0 ex_kernel ex_ready) as (k & H & Hi & _ & Hn & _).
  unfold ex_kernel1, exec. rewrite H. exact (conj eq_refl (conj Hi Hn)).
Qed.

Lemma ex_slot : 1 <= next_pid ex_kernel < MAX_PROCESS.
Proof. change (next_pid ex_kernel) with 1. unfold MAX_PROCESS. lia. Qed.
Lemma ex_null : processes ex_kernel !! next_pid ex_kernel = None.
Proof. apply (lookup_empty (M := gmap Z)). Qed.
Lemma ex_pdpt : good_frame (kernel_pdpt ex_kernel).
Proof. change (kernel_pdpt ex_kernel) with 0x200000. split; [done|lia]. Qed.

(** Two bare processes, the first of them running. *)
Definition bare (pid : Z) (st : ProcessState) : Process :=
  mkProcess (KERNEL_START + 0x4000000 + 0x20000 * pid) pid st "" 0 0 10 ∅ 0 zero_context 0 0 0 0 0 0 0 0 0 0 0.
Definition ex_two : Kernel := mkKernel boot (<[1 := bare 1 Running]> (<[2 := bare 2 Wait]> ∅)) 3 1 0.

Lemma ex_two_inv : sched_inv ex_two.
Proof.
  split; simpl.
  - lia.
  - unfold MAX_PROCESS. lia.
  - intros pid. rewrite !lookup_insert_is_Some', lookup_empty. split; [|lia].
    intros [?|[?|[? ?]]]; [lia|lia|done].
  - intros pid p. rewrite !lookup_insert, lookup_empty. repeat case_decide; naive_solver.
  - intros pid p. rewrite !lookup_insert, lookup_empty. repeat case_decide; naive_solver.
Qed.

(** A full table: all processes are bare, the last one runs. *)
Definition full_map : gmap Z Process := list_to_map ((fun pid => (pid, bare pid Wait)) <$> seqZ 1 1023).
Definition ex_full : Kernel := mkKernel boot full_map 1024 1023 0.

Lemma ex_full_lookup pid p : processes ex_full !! pid = Some p <-> 1 <= pid < 1024 /\ p = bare pid Wait.
Proof.
  change (processes ex_full) with full_map. unfold full_map. rewrite <- elem_of_list_to_map.
  - rewrite list_elem_of_fmap. setoid_rewrite elem_of_seqZ. split.
    + intros (q & [= -> ->] & Hq). split; [lia|done].
    + intros [Hq ->]. exists pid. split; [done|lia].
  - rewrite <- list_fmap_compose. apply NoDup_fmap_2; [|apply NoDup_seqZ]. intros a b H. exact H.
Qed.

Lemma ex_full_inv : sched_inv ex_full.
Proof.
  split.
  - change (current_pid ex_full) with 1023. change (next_pid ex_full) with 1024. lia.
  - change (next_pid ex_full) with 1024. unfold MAX_PROCESS. lia.
  - intros pid. change (next_pid ex_full) with 1024. split; [intros [p [Hp _]%ex_full_lookup]; lia|].
    intros Hp. exists (bare pid Wait). by apply ex_full_lookup.
  - by intros pid p [_ ->]%ex_full_lookup.
  - by intros pid p [_ ->]%ex_full_lookup.
Qed.

Lemma schedule_round_robin_witness :
  exists k', schedule ex_two = Ret (tt, k') /\
    current_pid k' = (if decide (1 + 1 < 3) then 1 + 1 else 1) /\
    (forall pid p, processes k' !! pid = Some p -> state p = Running <-> pid = current_pid k') /\
    (forall pid, is_Some (processes k' !! pid) <-> is_Some (processes ex_two !! pid)).
Proof. exact (schedule_round_robin ex_two ex_two_inv eq_refl). Defined.

Lemma schedule_fair_witness :
  exists! n, (1 <= n <= Z.to_nat (3 - 1))%nat /\ exists k', schedule_n n ex_two = Ret (tt, k') /\ current_pid k' = 2.
Proof. apply (schedule_fair ex_two 2 ex_two_inv eq_refl). split; [done|reflexivity]. Defined.

Lemma schedule_array_overrun_witness : schedule ex_full = Fault.
Proof. exact (schedule_array_overrun ex_full ex_full_inv eq_refl eq_refl). Defined.

Lemma process_address_space_witness :
  exists p k', create_process ex_entry zero_context 0 ex_kernel = Ret (1, k') /\ processes k' !! 1 = Some p /\
   walk (fun a => word (pts p) ((a - pts_paddr p) / 8)) (pts_paddr p) 0x100123 =
   Some (mkMapping (user_image_phy_addr p + 0x123) true true).
Proof.
  destruct (process_address_space ex_entry zero_context 0 ex_kernel (fun _ => 0) ex_ready ex_slot ex_null ex_pdpt) as (p & k' & H1 & H2 & _ & _).
  exists p, k'. split; [exact H1|]. split; [exact H2|].
  destruct (process_address_space ex_entry zero_context 0 ex_kernel (fun a => word (pts p) ((a - pts_paddr p) / 8)) ex_ready ex_slot ex_null ex_pdpt)
    as (p' & k'' & H1' & H2' & _ & H3).
  assert (k'' = k') as -> by congruence. assert (p' = p) as -> by congruence.
  rewrite (proj1 (H3 ltac:(intros j _; cbv beta; f_equal; dlia)) 0x100123) by lia.
  change USER_IMAGE_START with 0x100000. change USER_IMAGE_SIZE with 0x800000. rewrite decide_True by lia. done.
Defined.
