(* ===== verification/Elf.v ===== *)
(** * elf.h and Process::load_elf_from_buffer: loading a program *)
From S2P Require Import Prelude CpuDefs LibString Process.

Module Elf.
Import LibString.

Abbreviation M := (ST memory).

(** A little-endian number of [n] bytes at address [a]. *)
Fixpoint le_read (n : nat) (m : memory) (a : Z) : Z :=
  match n with O => 0 | S n => m (wrap64 a) + 256 * le_read n m (a + 1) end.

Definition PT_LOAD : Z := 1.

Definition EI_NIDENT : Z := 16.
Definition Elf64_Ehdr : layout :=
  [("e_ident", 8 * EI_NIDENT); ("e_type", 16); ("e_machine", 16); ("e_version", 32); ("e_entry", 64); ("e_phoff", 64); ("e_shoff", 64);
   ("e_flags", 32); ("e_ehsize", 16); ("e_phentsize", 16); ("e_phnum", 16); ("e_shentsize", 16); ("e_shnum", 16); ("e_shstrndx", 16)]%string.

(** The members of [Elf64_Ehdr] the loader uses, at their offsets. *)
Definition e_entry (m : memory) (ehdr : Z) : Z := le_read 8 m (ehdr + 24).
Definition e_phoff (m : memory) (ehdr : Z) : Z := le_read 8 m (ehdr + 32).
Definition e_phentsize (m : memory) (ehdr : Z) : Z := le_read 2 m (ehdr + 54).
Definition e_phnum (m : memory) (ehdr : Z) : Z := le_read 2 m (ehdr + 56).

Record Elf64_Phdr := mkPhdr {
  p_type : Z;
  p_offset : Z;
  p_vaddr : Z;
  p_filesz : Z;
  p_memsz : Z
}.

Definition read_phdr (m : memory) (a : Z) : Elf64_Phdr :=
  mkPhdr (le_read 4 m a) (le_read 8 m (a + 8)) (le_read 8 m (a + 16)) (le_read 8 m (a + 32)) (le_read 8 m (a + 40)).

(** The offsets and widths are those of the declaration. *)
Lemma ehdr_members : (fun n => (fst (field Elf64_Ehdr n) / 8, snd (field Elf64_Ehdr n) / 8)) <$> ["e_entry"; "e_phoff"; "e_phentsize"; "e_phnum"]%string =
  [(24, 8); (32, 8); (54, 2); (56, 2)].
Proof. by vm_compute. Qed.

(** [ehdr->e_phentsize * i], a product of [int]s. *)
Definition phdr_offset (m : memory) (buffer i : Z) : Z := swrap 32 (e_phentsize m buffer * i).
(** [buffer + ehdr->e_phoff + ehdr->e_phentsize * i] *)
Definition phdr_addr (m : memory) (buffer i : Z) : Z :=
  wrap64 (buffer + e_phoff m buffer + phdr_offset m buffer i).

Definition ElfMagic : list Z := [0x7f; 69; 76; 70].

(** One program header. *)
Definition load_segment (buffer : Z) (ph : Elf64_Phdr) : M unit :=
  if (p_type ph =? PT_LOAD) && (0 <? p_memsz ph) then
    do_assert (0x100000 <=? p_vaddr ph) "Segment is at wrong location";;
    do_assert (wrap64 (p_vaddr ph + p_memsz ph) <=? Process.USER_IMAGE_START + Process.USER_IMAGE_SIZE) "Segment too big";;
    if p_filesz ph <=? p_memsz ph
    then modify (memcpy (p_vaddr ph) (wrap64 (buffer + p_offset ph)) (p_filesz ph))
    else panic "Don't know how to load sections that has filesize > memsize"
  else mret tt.

(** [e_phnum] has 16 bits, so the counter never passes [2^16]. *)
Fixpoint load_loop (fuel : nat) (i buffer : Z) : M unit :=
  match fuel with
  | O => out_of_fuel
  | S fuel =>
      m ← get;
      if i <? e_phnum m buffer then
        load_segment buffer (read_phdr m (phdr_addr m buffer i));;
        load_loop fuel (i + 1) buffer
      else mret tt
  end.

Definition load_elf_from_buffer (buffer size : Z) : M Z :=
  m ← get;
  if negb (forallb (fun j => m (wrap64 (buffer + Z.of_nat j)) =? nth j ElfMagic 0) (seq 0 4))
  then panic "Corrupted ELF file, invalid header magic"
  else
    do_assert (negb (e_phoff m buffer =? 0)) "program header table not found";;
    load_loop (Pos.to_nat 65537) 0 buffer;;
    m ← get;
    mret (e_entry m buffer).

(** [exec_main]: the registers the process enters user mode with. *)
Definition exec_main (proc : Process.Process) (start size : Z) : M Process.Context :=
  start_addr ← load_elf_from_buffer start size;
  let c := Process.context proc in
  mret (Process.mkContext USER_DATA_SELECTOR USER_DATA_SELECTOR 0 0 (Process.cr3 c)
          (Process.r15 c) (Process.r14 c) (Process.r13 c) (Process.r12 c) (Process.r11 c) (Process.r10 c)
          (Process.r9 c) (Process.r8 c) (Process.rbp c) (Process.rsi c) (Process.rdi c) (Process.rbx c)
          (Process.rdx c) (Process.rcx c) (Process.rax c) (Process.reserved1 c)
          start_addr USER_CODE_SELECTOR 0x200
          (wrap64 (Process.user_stack proc + Process.user_stack_size proc)) USER_DATA_SELECTOR).

(** ** What loading does *)

(** The user image. *)
Definition in_image (a : Z) : Prop := 0x100000 <= a < 0x900000.

(** [m'] is [m] except in the user image. *)
Definition same_outside (m m' : memory) : Prop := forall a, ~ in_image a -> m' a = m a.

Lemma le_read_outside n m m' a : same_outside m m' -> 0x900000 <= a -> a + Z.of_nat n <= 2 ^ 64 -> le_read n m' a = le_read n m a.
Proof.
  intros Hs. revert a. induction n as [|n IH]; intros a Ha Hb; [done|]. cbn [le_read].
  rewrite IH by lia. rewrite Hs; [done|]. unfold in_image. rewrite wrap_small by (unfold uint; lia). lia.
Qed.

Lemma le_read_range n m a : (forall x, 0 <= m x < 256) -> 0 <= le_read n m a < 256 ^ Z.of_nat n.
Proof.
  intros Hm. revert a. induction n as [|n IH]; intros a; [cbn; lia|]. cbn [le_read].
  rewrite Nat2Z.inj_succ, Z.pow_succ_r by lia. specialize (IH (a + 1)). specialize (Hm (wrap64 a)). lia.
Qed.

(** Equal bytes at two places. *)
Lemma le_read_shift n m m' a b : (forall x, 0 <= x < Z.of_nat n -> m' (a + x) = m (b + x)) ->
  0 <= a -> a + Z.of_nat n <= 2 ^ 64 -> 0 <= b -> b + Z.of_nat n <= 2 ^ 64 -> le_read n m' a = le_read n m b.
Proof.
  revert a b. induction n as [|n IH]; intros a b H Ha Ha' Hb Hb'; [done|]. cbn [le_read]. rewrite !wrap_small by (unfold uint; lia).
  pose proof (H 0 ltac:(lia)) as H0. rewrite !Z.add_0_r in H0. rewrite H0. rewrite (IH (a + 1) (b + 1)); [done| |lia..].
  intros x Hx. replace (a + 1 + x) with (a + (x + 1)) by lia. replace (b + 1 + x) with (b + (x + 1)) by lia. apply H. lia.
Qed.

Section load.
Context (buffer : Z) (m0 : memory).
Context (Hbytes : forall x, 0 <= m0 x < 256).
Local Abbreviation phnum := (e_phnum m0 buffer).
Local Abbreviation ph i := (read_phdr m0 (phdr_addr m0 buffer i)).

Definition is_load (p : Elf64_Phdr) : bool := (p_type p =? PT_LOAD) && (0 <? p_memsz p).

(** The file is in memory above the user image, and its segments lie inside it. *)
Record wf_elf : Prop := {
  we_buffer : 0x900000 <= buffer /\ buffer + 64 <= 2 ^ 64;
  we_phdrs i : 0 <= i < phnum -> 0x900000 <= buffer + e_phoff m0 buffer + phdr_offset m0 buffer i /\
    buffer + e_phoff m0 buffer + phdr_offset m0 buffer i + 56 <= 2 ^ 64;
  we_segment i : 0 <= i < phnum -> is_load (ph i) = true ->
    0x100000 <= p_vaddr (ph i) /\ p_vaddr (ph i) + p_memsz (ph i) <= 0x900000 /\
    p_filesz (ph i) <= p_memsz (ph i) /\ 0x900000 <= buffer + p_offset (ph i) /\
    buffer + p_offset (ph i) + p_filesz (ph i) < 2 ^ 64
}.

(** The memory after the first [n] program headers. *)
Definition seg_write (p : Elf64_Phdr) (m : memory) : memory := fun a =>
  if decide (p_vaddr p <= a < p_vaddr p + p_filesz p) then m0 (buffer + p_offset p + (a - p_vaddr p)) else m a.
Definition image_after (n : nat) : memory :=
  foldl (fun m i => if is_load (ph (Z.of_nat i)) then seg_write (ph (Z.of_nat i)) m else m) m0 (seq 0 n).

Lemma image_after_S n : image_after (S n) =
  if is_load (ph (Z.of_nat n)) then seg_write (ph (Z.of_nat n)) (image_after n) else image_after n.
Proof using Type. unfold image_after. rewrite seq_S, foldl_app. done. Qed.

Context (Hwf : wf_elf).

Lemma phdr_nonneg i : 0 <= p_filesz (ph i) /\ 0 <= p_offset (ph i).
Proof using Hbytes. split; apply le_read_range; done. Qed.

Lemma image_after_outside n : Z.of_nat n <= phnum -> same_outside m0 (image_after n).
Proof using Hwf Hbytes.
  induction n as [|n IH]; intros Hn a Ha; [done|]. rewrite image_after_S.
  destruct (is_load (ph (Z.of_nat n))) eqn:E; [|apply IH; [lia|done]].
  destruct (we_segment Hwf (Z.of_nat n) ltac:(lia) E) as (H1 & H2 & H3 & _). unfold seg_write, in_image in *.
  rewrite decide_False by lia. apply IH; [lia|done].
Qed.

(** Pointwise equal memories. *)
Definition mem_eq (m m' : memory) : Prop := forall a, m a = m' a.

Lemma read_phdr_outside m i : same_outside m0 m -> 0 <= i < phnum ->
  e_phnum m buffer = phnum /\ read_phdr m (phdr_addr m buffer i) = ph i.
Proof using Hwf.
  intros Hs Hi. destruct Hwf as [Hb Hp _]. specialize (Hp i Hi).
  assert (e_phoff m buffer = e_phoff m0 buffer) as E1 by (apply le_read_outside; [done|lia..]).
  assert (e_phentsize m buffer = e_phentsize m0 buffer) as E2 by (apply le_read_outside; [done|lia..]).
  split; [apply le_read_outside; [done|lia..]|]. unfold phdr_addr, phdr_offset in *. rewrite E1, E2.
  rewrite wrap_small by (unfold uint; lia). unfold read_phdr. f_equal; apply le_read_outside; try done; lia.
Qed.

Lemma load_segment_ok m i : mem_eq m (image_after (Z.to_nat i)) -> 0 <= i < phnum -> exists m',
  load_segment buffer (ph i) m = Ret (tt, m') /\ mem_eq m' (image_after (S (Z.to_nat i))).
Proof using Hwf Hbytes.
  intros Hm Hi. unfold load_segment. fold (is_load (ph i)). destruct (is_load (ph i)) eqn:E.
  2: { exists m. split; [done|]. intros a. rewrite image_after_S, Z2Nat.id, E by lia. apply Hm. }
  destruct (we_segment Hwf i Hi E) as (H1 & H2 & H3 & H4 & H5). destruct (phdr_nonneg i) as [H6 H7].
  rewrite (proj2 (Z.leb_le _ _) H1). cbn [do_assert]. rewrite bind_mret_l.
  assert (0 <= p_memsz (ph i)) as H8 by (apply le_read_range; done).
  rewrite (wrap_small 64 (p_vaddr (ph i) + p_memsz (ph i))) by (unfold uint; lia).
  change (Process.USER_IMAGE_START + Process.USER_IMAGE_SIZE) with 0x900000.
  rewrite (proj2 (Z.leb_le _ _) H2). cbn [do_assert]. rewrite bind_mret_l.
  rewrite (proj2 (Z.leb_le _ _) H3). rewrite wrap_small by (unfold uint; lia).
  eexists. split; [reflexivity|]. intros a. rewrite memcpy_spec by lia.
  rewrite image_after_S, Z2Nat.id, E by lia. unfold seg_write. case_decide; [|apply Hm].
  rewrite Hm. apply image_after_outside; [lia|]. unfold in_image. lia.
Qed.

Lemma load_loop_ok n fuel i m :
  Z.of_nat n = phnum - i -> 0 <= i -> (n < fuel)%nat -> mem_eq m (image_after (Z.to_nat i)) -> exists m',
  load_loop fuel i buffer m = Ret (tt, m') /\ mem_eq m' (image_after (Z.to_nat phnum)).
Proof using Hwf Hbytes.
  revert fuel i m. induction n as [|n IH]; intros fuel i m Hn Hi Hf Hm; (destruct fuel as [|fuel]; [lia|]); cbn [load_loop].
  - step_with (eq_refl (get m)).
    assert (same_outside m0 m) as Hs by (intros a Ha; rewrite Hm; apply image_after_outside; [lia|done]).
    assert (e_phnum m buffer = phnum) as -> by (destruct (we_buffer Hwf); apply le_read_outside; [done|lia..]).
    rewrite (proj2 (Z.ltb_ge _ _)) by lia. exists m. split; [done|]. replace phnum with i by lia. done.
  - step_with (eq_refl (get m)).
    assert (same_outside m0 m) as Hs by (intros a Ha; rewrite Hm; apply image_after_outside; [lia|done]).
    destruct (read_phdr_outside m i Hs ltac:(lia)) as [-> ->]. rewrite (proj2 (Z.ltb_lt _ _)) by lia.
    destruct (load_segment_ok m i Hm ltac:(lia)) as (m1 & H1 & Hm1). step_with H1.
    apply IH; [lia|lia|lia|]. replace (Z.to_nat (i + 1)) with (S (Z.to_nat i)) by lia. done.
Qed.

End load.

(** What loading a well-formed file does. *)
Lemma load_elf_run buffer size m :
  (forall x, 0 <= m x < 256) -> wf_elf buffer m ->
  (forall j, (j < 4)%nat -> m (buffer + Z.of_nat j) = nth j ElfMagic 0) -> e_phoff m buffer <> 0 ->
  exists m', load_elf_from_buffer buffer size m = Ret (e_entry m buffer, m') /\
    (forall a, m' a = image_after buffer m (Z.to_nat (e_phnum m buffer)) a) /\ same_outside m m'.
Proof.
  intros Hbytes Hwf Hmagic Hoff. pose proof (we_buffer _ _ Hwf) as Hb. unfold load_elf_from_buffer. step_with (eq_refl (get m)).
  assert (forallb (fun j => m (wrap64 (buffer + Z.of_nat j)) =? nth j ElfMagic 0) (seq 0 4) = true) as ->.
  { apply forallb_forall. intros j Hj%in_seq. rewrite wrap_small by (unfold uint; lia). apply Z.eqb_eq, Hmagic. lia. }
  cbn [negb]. rewrite (proj2 (Z.eqb_neq _ _) Hoff). cbn [negb do_assert]. rewrite bind_mret_l.
  pose proof (le_read_range 2 m (buffer + 56) Hbytes) as Hr. change (256 ^ Z.of_nat 2) with 65536 in Hr.
  fold (e_phnum m buffer) in Hr.
  destruct (load_loop_ok buffer m Hbytes Hwf (Z.to_nat (e_phnum m buffer)) (Pos.to_nat 65537) 0 m) as (m' & Hl & Hm'); [lia|lia|lia|done|].
  assert (same_outside m m') as Hs by (intros a Ha; rewrite Hm'; apply image_after_outside; [done|done|lia|done]).
  exists m'. split; [|split; [exact Hm'|done]]. step_with Hl. step_with (eq_refl (get m')).
  unfold mret, st_ret. do 2 f_equal. apply le_read_outside; [done|lia..].
Qed.

(** C33: loading a well-formed program returns its entry point with every loadable
    segment copied, in order, from the file to its address, and no byte outside
    the user image changed. *)
Theorem load_elf_ok buffer size m :
  (forall x, 0 <= m x < 256) -> wf_elf buffer m ->
  (forall j, (j < 4)%nat -> m (buffer + Z.of_nat j) = nth j ElfMagic 0) -> e_phoff m buffer <> 0 ->
  exists m', load_elf_from_buffer buffer size m = Ret (e_entry m buffer, m') /\
    (forall a, m' a = image_after buffer m (Z.to_nat (e_phnum m buffer)) a) /\ same_outside m m'.
Proof. apply load_elf_run. Qed.

(** ** Concrete files *)

(** A file of [bytes] at address [buffer], zeros elsewhere. *)
Definition file_at (buffer : Z) (bytes : list Z) : memory := fun a =>
  if (buffer <=? a) && (a <? buffer + Z.of_nat (length bytes)) then nth (Z.to_nat (a - buffer)) bytes 0 else 0.

(** An executable with one loadable segment and 4 bytes of content after the headers. *)
Definition tiny_elf (vaddr memsz filesz : Z) : list Z :=
  ElfMagic ++ repeat 0 12 ++ repeat 0 8 ++ le_bytes 8 0x100000 ++ le_bytes 8 64 ++ repeat 0 8 ++ repeat 0 4 ++
  le_bytes 2 64 ++ le_bytes 2 56 ++ le_bytes 2 1 ++ repeat 0 6 ++
  le_bytes 4 1 ++ repeat 0 4 ++ le_bytes 8 120 ++ le_bytes 8 vaddr ++ repeat 0 8 ++ le_bytes 8 filesz ++ le_bytes 8 memsz ++ repeat 0 8 ++
  [0x90; 0x90; 0xeb; 0xfc].
Definition good_elf : memory := file_at 0x1000000 (tiny_elf 0x100000 16 4).

Lemma file_bytes buffer bytes : Forall (fun b => 0 <= b < 256) bytes -> forall x, 0 <= file_at buffer bytes x < 256.
Proof.
  intros Hf x. unfold file_at. destruct (_ && _); [|lia].
  destruct (nth_in_or_default (Z.to_nat (x - buffer)) bytes 0) as [Hin| ->]; [|lia].
  rewrite Forall_forall in Hf. apply Hf. by apply list_elem_of_In.
Qed.

Lemma good_elf_wf : wf_elf 0x1000000 good_elf.
Proof.
  assert (e_phnum good_elf 0x1000000 = 1) as En by (by vm_compute).
  assert (e_phoff good_elf 0x1000000 = 64 /\ e_phentsize good_elf 0x1000000 = 56) as [Eo Es] by (by vm_compute).
  assert (read_phdr good_elf (phdr_addr good_elf 0x1000000 0) = mkPhdr 1 120 0x100000 4 16) as Ep by (by vm_compute).
  split.
  - lia.
  - intros i Hi. rewrite En in Hi. assert (i = 0) as -> by lia. unfold phdr_offset. rewrite Eo, Es. change (swrap 32 (56 * 0)) with 0. lia.
  - intros i Hi. rewrite En in Hi. assert (i = 0) as -> by lia. rewrite Ep. cbn. lia.
Qed.

Lemma load_elf_ok_witness :
  exists m', load_elf_from_buffer 0x1000000 124 good_elf = Ret (e_entry good_elf 0x1000000, m') /\
    (forall a, m' a = image_after 0x1000000 good_elf (Z.to_nat (e_phnum good_elf 0x1000000)) a) /\ same_outside good_elf m'.
Proof.
  apply (load_elf_ok 0x1000000 124 good_elf).
  - apply file_bytes. repeat constructor; discriminate.
  - exact good_elf_wf.
  - intros j Hj. do 4 (destruct j as [|j]; [by vm_compute|]). lia.
  - by vm_compute.
Defined.

(** The size check of a segment wraps around: a file whose segment claims to
    run from the start of kernel space to the end of the address space passes
    both assertions, and its content is copied over the kernel. *)
Theorem elf_segment_wraps :
  exists bad : memory, (forall x, 0 <= bad x < 256) /\ bad KERNEL_START = 0 /\
  match load_elf_from_buffer 0x1000000 124 bad with
  | Ret (entry, m') => entry = 0x100000 /\ m' KERNEL_START = 0x90
  | _ => False
  end.
Proof.
  exists (file_at 0x1000000 (tiny_elf KERNEL_START (2 ^ 64 - KERNEL_START) 4)). split.
  - apply file_bytes. repeat constructor; discriminate.
  - split; [by vm_compute|]. by vm_compute.
Qed.

End Elf.
