(* ===== verification/Syscall.v ===== *)
(** * syscall.cpp: system calls

    The state adds to the kernel of Process.v the memory that user pointers
    refer to and what was written to the serial port, as pairs of a process id
    and the bytes it wrote.  [handle_syscall] runs on the process [info->pid],
    whose saved registers [info->context] points to.  The calls follow user
    pointers without a check; a pointer that the tables of the process do not map
    in the lower half is [Fault], be it for the page fault of an unmapped page or
    because it names kernel memory, which is not part of [umem]. *)
From S2P Require Import Prelude LibUtils CpuDefs LibString Paging Buddy PageAlloc Process.

Module Syscall.
Import LibString Paging Process.

Definition SYSCALL_NR_NULL : Z := 0.
Definition SYSCALL_NR_READ : Z := 1.
Definition SYSCALL_NR_WRITE : Z := 2.
Definition SYSCALL_NR_OPEN : Z := 3.
Definition SYSCALL_NR_CLOSE : Z := 4.
Definition SYSCALL_NR_EXIT : Z := 5.
Definition SYSCALL_NR_YIELD : Z := 6.
Definition SYSCALL_NR_ANON_ALLOCATE : Z := 7.
Definition SYSCALL_NR_MAX : Z := 8.

Record Sys := mkSys {
  kern : Kernel;
  umem : memory;
  console : list (Z * list Z)
}.
Abbreviation SM := (ST Sys).

(** Computations of the other components. *)
Definition lift_kernel {A} (c : ST Kernel A) : SM A := fun s =>
  match c (kern s) with
  | Ret (a, k) => Ret (a, mkSys k (umem s) (console s))
  | Panic m => Panic m | Halt => Halt | Fault => Fault | OutOfFuel => OutOfFuel
  end.

Definition set_rax (v : Z) (c : Context) : Context :=
  mkContext (ds c) (es c) (fs c) (gs c) (cr3 c) (r15 c) (r14 c) (r13 c) (r12 c) (r11 c) (r10 c) (r9 c) (r8 c)
    (rbp c) (rsi c) (rdi c) (rbx c) (rdx c) (rcx c) v (reserved1 c) (rip c) (cs c) (rflags c) (rsp c) (ss c).

Definition sys_read (pid : Z) : SM Z := mret (-1).
Definition sys_open (pid : Z) : SM Z := mret (-1).
Definition sys_close (pid : Z) : SM Z := mret (-1).
Definition sys_exit (pid : Z) : SM Z := halt.
Definition sys_yield (pid : Z) : SM Z := mret 0.

(** The tables of the process map the byte at [va], or the [size] bytes there. *)
Definition user_byte (t : table) (va : Z) : bool :=
  (va <? PROCESS_MAX_USER_PAGES * PAGE_SIZE) && present (word t (upt_word (Z.shiftr va 12))).
Definition user_range (t : table) (va size : Z) : bool :=
  forallb (fun i => user_byte t (wrap64 (va + Z.of_nat i))) (seq 0 (Z.to_nat size)).

(** The results are of type [int]. *)
Definition sys_write (pid : Z) : SM Z :=
  p ← lift_kernel (process_at pid);
  let c := context p in
  let fd := swrap 32 (rdi c) in
  let data := rsi c in
  let size := rdx c in
  if fd =? 0 then mret (swrap 32 size)
  else if (fd =? 1) || (fd =? 2) then
    (if user_range (pts p) data size then mret tt else fault);;
    modify (fun s => mkSys (kern s) (umem s) (console s ++ [(id p, read_bytes (umem s) data size)]));;
    mret (swrap 32 size)
  else mret (-1).

(** [*ptr = v] for a pointer-sized value. *)
Definition store64 (a v : Z) (m : memory) : memory :=
  for_loop 8 0 (fun i => write (wrap64 (a + i)) (get_bits (8 * i) 8 v)) m.

(** The page-aligned size of a request. *)
Definition aligned_size (size : Z) : Z := wrap64 (wrap64 (size + (PAGE_SIZE - 1)) / PAGE_SIZE * PAGE_SIZE).

Definition sys_anon_allocate (pid : Z) : SM Z :=
  p ← lift_kernel (process_at pid);
  let size := rdi (context p) in
  let ptr := rsi (context p) in
  let aligned := aligned_size size in
  buf ← lift_kernel (page_alloc (PageAlloc.kmalloc aligned));
  let buf_phy := kernel2phy buf in
  let old_brk := brk_start p in
  let new_brk := wrap64 (old_brk + aligned) in
  lift_kernel (update_process pid (set_brk_pts new_brk (pts p)));;
  if brk_end p <? new_brk then mret (-1)
  else
    t ← lift_kernel (lift_pure (map_user_addr old_brk buf_phy (aligned / PAGE_SIZE) (pts p)));
    lift_kernel (update_process pid (set_brk_pts new_brk t));;
    (if user_range t ptr 8 then mret tt else fault);;
    modify (fun s => mkSys (kern s) (store64 ptr old_brk (umem s)) (console s));;
    mret 0.

(** [syscall_table] *)
Definition syscall_table (nr pid : Z) : SM Z :=
  if nr =? SYSCALL_NR_READ then sys_read pid
  else if nr =? SYSCALL_NR_WRITE then sys_write pid
  else if nr =? SYSCALL_NR_OPEN then sys_open pid
  else if nr =? SYSCALL_NR_CLOSE then sys_close pid
  else if nr =? SYSCALL_NR_EXIT then sys_exit pid
  else if nr =? SYSCALL_NR_YIELD then sys_yield pid
  else if nr =? SYSCALL_NR_ANON_ALLOCATE then sys_anon_allocate pid
  else fault.

Definition handle_syscall (pid : Z) : SM unit :=
  p ← lift_kernel (process_at pid);
  let syscall_num := rax (context p) in
  if syscall_num =? SYSCALL_NR_NULL then panic "Invalid null syscall"
  else if SYSCALL_NR_MAX <=? syscall_num then panic "Invalid syscall >= max"
  else
    r ← syscall_table syscall_num pid;
    lift_kernel (update_process pid (fun p => set_context (set_rax (wrap64 r) (context p)) p)).

End Syscall.
