(* ===== verification/SyscallThms.v ===== *)
(** * Theorems about system calls, and the invariant of the process table under them *)
From S2P Require Import Prelude LibUtils CpuDefs LibString Paging PagingProofs BuddyTree Buddy BuddyInv BuddyProofs BuddySpec BuddyThms PageAlloc PageAllocThms Process ProcessProofs AllocChain ProcessThms Syscall.
Import Utils LibString Paging Process Syscall.

(** Process [pid] of [s] is [p]. *)
Definition proc_is (s : Sys) (pid : Z) (p : Process) : Prop :=
  0 <= pid < MAX_PROCESS /\ processes (kern s) !! pid = Some p.

(** [s] with process [pid] replaced. *)
Definition with_process (pid : Z) (p : Process) (s : Sys) : Sys :=
  mkSys (with_processes (<[pid := p]> (processes (kern s))) (kern s)) (umem s) (console s).
Definition with_alloc (al : Buddy.BuddyAllocator) (s : Sys) : Sys := mkSys (with_allocator al (kern s)) (umem s) (console s).

(** The return to the caller with value [v] in [rax]. *)
Definition returns (v : Z) (p : Process) : Process := set_context (set_rax (wrap64 v) (context p)) p.

Lemma lift_process_at s pid p : proc_is s pid p -> lift_kernel (process_at pid) s = Ret (p, s).
Proof.
  intros [Hr Hp]. unfold lift_kernel, process_at. unfold mbind, st_bind. rewrite slot_ok by done. rewrite Hp. by destruct s.
Qed.

Lemma lift_update s pid f p : proc_is s pid p -> lift_kernel (update_process pid f) s = Ret (tt, with_process pid (f p) s).
Proof. intros [Hr Hp]. unfold lift_kernel. by erewrite update_process_ok. Qed.

Lemma lift_pure_sys {A} (a : A) s : lift_kernel (lift_pure (Ret a)) s = Ret (a, s).
Proof. by destruct s. Qed.

Lemma proc_is_with s pid p : 0 <= pid < MAX_PROCESS -> proc_is (with_process pid p s) pid p.
Proof. intros H. split; [done|]. simpl. apply lookup_insert_eq. Qed.

Lemma with_process_twice pid p q s : with_process pid p (with_process pid q s) = with_process pid p s.
Proof. unfold with_process. simpl. unfold with_processes. simpl. by rewrite insert_insert_eq. Qed.

(** A system call that returns [v] and leaves process [q]. *)
Lemma handle_ok s pid p v s1 q :
  proc_is s pid p -> 0 < rax (context p) < SYSCALL_NR_MAX ->
  syscall_table (rax (context p)) pid s = Ret (v, s1) -> proc_is s1 pid q ->
  handle_syscall pid s = Ret (tt, with_process pid (returns v q) s1).
Proof.
  intros Hp Hr Hs Hq. unfold handle_syscall. step_with lift_process_at; [|exact Hp].
  unfold SYSCALL_NR_NULL. rewrite (proj2 (Z.eqb_neq _ _)) by lia. rewrite (proj2 (Z.leb_gt _ _)) by lia.
  step_with Hs. by apply lift_update.
Qed.

(** [write] of a mapped buffer to descriptor 1 or 2 sends exactly the bytes of the
    buffer, tagged with the process id, and returns their number; descriptor 0 accepts and
    drops them; any other descriptor returns -1 and sends nothing. *)
Theorem sys_write_ok s pid p fd :
  proc_is s pid p -> rax (context p) = 2 -> rdi (context p) = fd -> 0 <= fd < 2 ^ 31 -> 0 <= rdx (context p) < 2 ^ 31 ->
  user_range (pts p) (rsi (context p)) (rdx (context p)) = true ->
  handle_syscall pid s =
    let s' v := with_process pid (set_context (set_rax v (context p)) p) s in
    if decide (fd = 0) then Ret (tt, s' (rdx (context p)))
    else if decide (fd = 1 \/ fd = 2) then
      Ret (tt, mkSys (kern (s' (rdx (context p)))) (umem s)
                (console s ++ [(id p, read_bytes (umem s) (rsi (context p)) (rdx (context p)))]))
    else Ret (tt, s' (2 ^ 64 - 1)).
Proof.
  intros Hp Hx Hfd Hf Hs Hu.
  assert (swrap 32 (rdx (context p)) = rdx (context p)) as Es by (unfold swrap; rewrite Z.mod_small by lia; lia).
  assert (swrap 32 fd = fd) as Ef by (unfold swrap; rewrite Z.mod_small by lia; lia).
  assert (wrap64 (rdx (context p)) = rdx (context p)) as Ew by (apply wrap_small; unfold uint; lia).
  cbv zeta. assert (0 < rax (context p) < SYSCALL_NR_MAX) as Hr by (rewrite Hx; unfold SYSCALL_NR_MAX; lia).
  assert (syscall_table (rax (context p)) pid s = sys_write pid s) as Ht by (by rewrite Hx).
  unfold sys_write in Ht. erewrite bind_ret in Ht; [|by apply lift_process_at]. cbv zeta in Ht. rewrite Hfd, Ef, Es, Hu in Ht.
  destruct (decide (fd = 0)) as [->|H0].
  { rewrite (handle_ok s pid p (rdx (context p)) s p Hp Hr Ht Hp). unfold returns. by rewrite Ew. }
  rewrite (proj2 (Z.eqb_neq fd 0) H0) in Ht. destruct (decide (fd = 1 \/ fd = 2)) as [H12|H12].
  - assert ((fd =? 1) || (fd =? 2) = true) as E12 by (destruct H12 as [-> | ->]; done). rewrite E12, bind_mret_l in Ht.
    erewrite (handle_ok s pid p (rdx (context p)) _ p Hp Hr Ht); [|exact Hp]. unfold returns. by rewrite Ew.
  - assert ((fd =? 1) || (fd =? 2) = false) as E12 by (rewrite orb_false_iff, !Z.eqb_neq; lia). rewrite E12 in Ht.
    by rewrite (handle_ok s pid p (-1) s p Hp Hr Ht Hp).
Qed.

(** ** Anonymous memory *)

Lemma aligned_size_spec size : 0 <= size <= 2 ^ 63 ->
  aligned_size size mod 4096 = 0 /\ size <= aligned_size size < size + 4096.
Proof.
  intros Hs. unfold aligned_size, PAGE_SIZE. rewrite (wrap_small 64 (size + _)) by (unfold uint; lia).
  rewrite wrap_small by (unfold uint; dlia). dlia.
Qed.

Lemma kmalloc_ready s size : alloc_ready (allocator (kern s)) -> 0 < size < 2 ^ 64 ->
  exists buf al, PageAlloc.kmalloc size (allocator (kern s)) = Ret (buf, al) /\ alloc_ready al /\ good_frame (kernel2phy buf) /\
    lift_kernel (page_alloc (PageAlloc.kmalloc size)) s = Ret (buf, with_alloc al s).
Proof.
  intros Hr Hs. pose proof (kmalloc_eq size (allocator (kern s)) Hs) as E.
  destruct (kernel_alloc_ready (kern s) (class_of size) Hr) as (buf & al & H & Hr' & Hg & _); [unfold class_of; lia|].
  exists buf, al. unfold page_alloc in H. rewrite <- E in H.
  destruct (PageAlloc.kmalloc size (allocator (kern s))) as [[b a']| | | |] eqn:Ek; try done. injection H as -> ->.
  split; [done|]. split; [done|]. split; [done|]. unfold lift_kernel, page_alloc. by rewrite Ek.
Qed.

(** Mapping more pages keeps what was mapped. *)
Lemma user_range_mono t t' va size (lo n : Z) (f : Z -> Z) :
  (forall k, word t' k = if decide (lo <= k < n) then user_leaf (f k) (word t k) else word t k) ->
  user_range t va size = true -> user_range t' va size = true.
Proof.
  intros Hw. unfold user_range. rewrite !forallb_forall. intros H i Hi. specialize (H i Hi). revert H.
  unfold user_byte. rewrite !andb_true_iff. intros [H1 H2]. split; [done|]. rewrite Hw. case_decide; [|done].
  unfold user_leaf, present. rewrite testbit_bit by lia. fields. done.
Qed.

(** The request fits: pages are mapped and the break moves. *)
Lemma anon_fits s pid p size :
  proc_is s pid p -> rax (context p) = 7 -> rdi (context p) = size -> 0 < size <= 2 ^ 63 ->
  alloc_ready (allocator (kern s)) -> 0 <= brk_start p -> brk_start p + aligned_size size <= brk_end p <= 2 ^ 30 ->
  user_range (pts p) (rsi (context p)) 8 = true ->
  exists buf al t, PageAlloc.kmalloc (aligned_size size) (allocator (kern s)) = Ret (buf, al) /\ alloc_ready al /\
    good_frame (kernel2phy buf) /\
    handle_syscall pid s = Ret (tt, with_process pid (returns 0 (set_brk_pts (brk_start p + aligned_size size) t p))
      (mkSys (with_allocator al (kern s)) (store64 (rsi (context p)) (brk_start p) (umem s)) (console s))) /\
    (forall k, word t k =
      let lo := upt_word (brk_start p / 4096) in
      if decide (lo <= k < lo + aligned_size size / 4096)
      then user_leaf (kernel2phy buf / 4096 + (k - lo)) (word (pts p) k) else word (pts p) k).
Proof.
  intros Hp Hx Hsz Hs Hr Hb Hfit Hu. destruct (aligned_size_spec size ltac:(lia)) as [Hal Hal'].
  set (n := aligned_size size) in *. destruct (kmalloc_ready s n Hr ltac:(lia)) as (buf & al & Hk & Hr' & Hg & Hl).
  destruct (map_user_addr_ok (brk_start p) (kernel2phy buf) (n / PAGE_SIZE) (pts p)) as (t & Ht & Hw).
  { done. } { unfold good_frame in Hg. lia. } { unfold PAGE_SIZE. dlia. } { unfold PAGE_SIZE, PROCESS_MAX_USER_PAGES. dlia. }
  exists buf, al, t. split; [done|]. split; [done|]. split; [done|]. split; [|exact Hw].
  pose proof (proj1 Hp) as Hpid.
  eapply eq_trans; [eapply (handle_ok s pid p 0 _ (set_brk_pts (brk_start p + n) t p) Hp)|].
  - rewrite Hx. unfold SYSCALL_NR_MAX. lia.
  - rewrite Hx. change (syscall_table 7 pid) with (sys_anon_allocate pid). unfold sys_anon_allocate.
    step_with lift_process_at; [|exact Hp]. rewrite Hsz. fold n. cbv zeta. step_with Hl.
    rewrite (wrap_small 64 (brk_start p + n)) by (unfold uint; lia).
    step_with lift_update; [|split; [exact Hpid|exact (proj2 Hp)]]. rewrite (proj2 (Z.ltb_ge _ _)) by lia.
    rewrite Ht. step_with lift_pure_sys.
    step_with lift_update; [|by apply proc_is_with]. rewrite (user_range_mono _ _ _ _ _ _ _ Hw Hu), bind_mret_l. reflexivity.
  - split; [done|]. simpl. apply lookup_insert_eq.
  - f_equal. f_equal. unfold with_process. simpl. unfold with_processes, with_allocator. simpl. by rewrite !insert_insert_eq.
Qed.

(** C32: an anonymous allocation that fits below the break limit, through a pointer
    to eight mapped bytes and while the page allocator has a block for it, returns
    0, moves the break by the page-rounded size, stores the old break through the
    pointer, and maps exactly the pages in between, writable from user mode, to
    the consecutive frames of the block, which was not handed out before. *)
Theorem anon_allocate_ok s pid p size buf al :
  proc_is s pid p -> rax (context p) = 7 -> rdi (context p) = size -> 0 < size <= 2 ^ 63 ->
  alloc_ready (allocator (kern s)) -> 0 <= brk_start p -> brk_start p + aligned_size size <= brk_end p <= 2 ^ 30 ->
  user_range (pts p) (rsi (context p)) 8 = true ->
  PageAlloc.kmalloc (aligned_size size) (allocator (kern s)) = Ret (buf, al) -> buf <> KERNEL_START ->
  exists q s', handle_syscall pid s = Ret (tt, s') /\ proc_is s' pid q /\ allocator (kern s') = al /\
    owned al buf /\ ~ owned (allocator (kern s)) buf /\
    rax (context q) = 0 /\ brk_start q = brk_start p + aligned_size size /\ size <= aligned_size size < size + 4096 /\
    umem s' = store64 (rsi (context p)) (brk_start p) (umem s) /\
    (forall i, 0 <= i < aligned_size size / 4096 ->
       let e := word (pts q) (upt_word (brk_start p / 4096 + i)) in
       present e = true /\ writable e = true /\ user e = true /\ frame e = kernel2phy buf + i * 4096) /\
    (forall k, ~ (upt_word (brk_start p / 4096) <= k < upt_word (brk_start p / 4096) + aligned_size size / 4096) ->
       word (pts q) k = word (pts p) k).
Proof.
  intros Hp Hx Hsz Hs Hr Hb Hfit Hu Hbuf Hne. destruct (anon_fits s pid p size Hp Hx Hsz Hs Hr Hb Hfit Hu) as (buf' & al' & t & Hk & _ & Hg & Hh & Hw).
  assert (buf' = buf /\ al' = al) as [-> ->] by (rewrite Hbuf in Hk; by injection Hk).
  destruct (aligned_size_spec size ltac:(lia)) as [Hal Hal'].
  destruct (kmalloc_fresh (allocator (kern s)) (aligned_size size) (ar_inv _ Hr) ltac:(lia)) as (a & x & Ha & _ & Hf).
  rewrite Hbuf in Ha. injection Ha as <- <-. destruct Hf as [?|[Ho Hno]]; [done|].
  eexists _, _. split; [exact Hh|].
  split; [split; [apply Hp|simpl; apply lookup_insert_eq]|]. split; [done|]. split; [done|]. split; [done|]. split; [done|]. split; [done|]. split; [done|].
  split; [done|]. split.
  - intros i Hi e. unfold e. change (pts (returns 0 (set_brk_pts (brk_start p + aligned_size size) t p))) with t.
    rewrite Hw. cbv zeta. rewrite decide_True by (unfold upt_word; lia).
    replace (upt_word (brk_start p / 4096 + i) - upt_word (brk_start p / 4096)) with i by (unfold upt_word; lia).
    unfold user_leaf, present, writable, user. rewrite !testbit_bit, frame_bits by lia. fields.
    split; [done|]. split; [done|]. split; [done|]. destruct Hg as [Hg1 Hg2]. rewrite Z.mod_small by dlia. dlia.
  - intros k Hk'. change (pts (returns 0 (set_brk_pts (brk_start p + aligned_size size) t p))) with t.
    rewrite Hw. cbv zeta. by rewrite decide_False.
Qed.

(** When the page allocator has no block for the request, the call does not
    fail: it returns 0 and maps the low physical frames, from frame 0 on,
    writable into the user's address space. *)
Theorem anon_allocate_exhausted s pid p size :
  proc_is s pid p -> rax (context p) = 7 -> rdi (context p) = size -> 0 < size <= 2 ^ 63 ->
  alloc_ready (allocator (kern s)) -> 0 <= brk_start p -> brk_start p + aligned_size size <= brk_end p <= 2 ^ 30 ->
  user_range (pts p) (rsi (context p)) 8 = true ->
  (forall i, is_free (allocator (kern s)) i -> level (allocator (kern s)) i < class_of (aligned_size size)) ->
  exists s' q, handle_syscall pid s = Ret (tt, s') /\ proc_is s' pid q /\ rax (context q) = 0 /\
    (forall i, 0 <= i < aligned_size size / 4096 ->
       let e := word (pts q) (upt_word (brk_start p / 4096 + i)) in
       present e = true /\ writable e = true /\ user e = true /\ frame e = i * 4096).
Proof.
  intros Hp Hx Hsz Hs Hr Hb Hfit Hu Hno. destruct (aligned_size_spec size ltac:(lia)) as [Hal Hal'].
  destruct (anon_fits s pid p size Hp Hx Hsz Hs Hr Hb Hfit Hu) as (buf & al & t & Hk & _ & Hg & Hh & Hw).
  assert (kernel2phy buf = 0) as Ebuf.
  { rewrite kmalloc_eq in Hk by lia. unfold PageAlloc.kernel_page_alloc in Hk.
    destruct (allocate_pages_cases (allocator (kern s)) (class_of (aligned_size size)) (ar_inv _ Hr)) as [[Ha _]|(b & s1 & _ & HI1 & _ & Hl & Hreg & Hn & Hall)].
    - unfold class_of. lia.
    - erewrite bind_ret in Hk; [|exact Ha]. by injection Hk as <- _.
    - exfalso. pose proof (Inv_inv _ (ar_inv _ Hr)) as Hinv.
      destruct (no_free_full _ _ b Hinv Hno (proj1 Hreg) Hl) as (a & Ha & Hov).
      apply Hn. rewrite <- (allocated_disjoint s1 a b (Inv_inv _ HI1)); [done|apply Hall; by left|apply Hall; by right|done]. }
  eexists _, _. split; [exact Hh|]. split; [split; [apply Hp|simpl; apply lookup_insert_eq]|]. split; [done|].
  intros i Hi e. unfold e. change (pts (returns 0 (set_brk_pts (brk_start p + aligned_size size) t p))) with t.
  rewrite Hw. cbv zeta. rewrite decide_True by (unfold upt_word; lia). rewrite Ebuf.
  replace (upt_word (brk_start p / 4096 + i) - upt_word (brk_start p / 4096)) with i by (unfold upt_word; lia).
  unfold user_leaf, present, writable, user. rewrite !testbit_bit, frame_bits by lia. fields.
  split; [done|]. split; [done|]. split; [done|]. rewrite Z.mod_small by dlia. dlia.
Qed.

(** An anonymous allocation that does not fit returns -1 but is not undone:
    the break of the process stays beyond its limit, and the block [kmalloc]
    handed out is neither mapped nor released. *)
Theorem anon_allocate_overflow s pid p size :
  proc_is s pid p -> rax (context p) = 7 -> rdi (context p) = size -> 0 < size <= 2 ^ 63 ->
  alloc_ready (allocator (kern s)) -> 0 <= brk_start p < 2 ^ 62 -> brk_end p < brk_start p + aligned_size size ->
  exists buf al q s', PageAlloc.kmalloc (aligned_size size) (allocator (kern s)) = Ret (buf, al) /\
    handle_syscall pid s = Ret (tt, s') /\ proc_is s' pid q /\ allocator (kern s') = al /\
    rax (context q) = 2 ^ 64 - 1 /\ pts q = pts p /\ umem s' = umem s /\
    brk_start q = brk_start p + aligned_size size /\ brk_end q < brk_start q.
Proof.
  intros Hp Hx Hsz Hs Hr Hb Hover. destruct (aligned_size_spec size ltac:(lia)) as [Hal Hal'].
  set (n := aligned_size size) in *. destruct (kmalloc_ready s n Hr ltac:(lia)) as (buf & al & Hk & Hr' & Hg & Hl).
  pose proof (proj1 Hp) as Hpid.
  eexists buf, al, (returns (-1) (set_brk_pts (brk_start p + n) (pts p) p)), _. split; [done|]. split.
  - eapply (handle_ok s pid p (-1) _ (set_brk_pts (brk_start p + n) (pts p) p) Hp).
    + rewrite Hx. unfold SYSCALL_NR_MAX. lia.
    + rewrite Hx. change (syscall_table 7 pid) with (sys_anon_allocate pid). unfold sys_anon_allocate.
      step_with lift_process_at; [|exact Hp]. rewrite Hsz. fold n. cbv zeta. step_with Hl.
      rewrite (wrap_small 64 (brk_start p + n)) by (unfold uint; lia).
      step_with lift_update; [|split; [exact Hpid|exact (proj2 Hp)]]. rewrite (proj2 (Z.ltb_lt _ _)) by lia. reflexivity.
    + by apply proc_is_with.
  - split; [by apply proc_is_with|]. done.
Qed.

(** ** The kernel's state over time *)

(** The process table is well formed, the page allocator consistent, and the
    process objects do not overlap. *)
Record kernel_inv (k : Kernel) : Prop := {
  ki_sched : sched_inv k;
  ki_alloc : alloc_ready (allocator k);
  ki_apart : objects_apart (object_addresses k)
}.

(** A change of a process that leaves its address, pid and state. *)
Definition keeps_object (f : Process -> Process) : Prop := forall p, this (f p) = this p /\ id (f p) = id p /\ state (f p) = state p.

Lemma update_inv k pid p f : keeps_object f -> kernel_inv k -> processes k !! pid = Some p ->
  kernel_inv (with_processes (<[pid := f p]> (processes k)) k).
Proof.
  intros Hf [[Hc Hn Hu Hid Hr] Ha Hap] Hp. destruct (Hf p) as (E1 & E2 & E3). split; [split; try done|done|].
  - intros q. cbn. rewrite lookup_insert_is_Some', Hu. split; [|by right]. intros [<-|]; [|done]. apply Hu. eauto.
  - intros q r. cbn. rewrite lookup_insert. case_decide; [|by apply Hid]. intros [= <-]. subst. rewrite E2. by apply Hid.
  - intros q r. cbn. rewrite lookup_insert. case_decide; [|by apply Hr]. intros [= <-]. subst. rewrite E3. by apply Hr.
  - unfold object_addresses in *. cbn. rewrite fmap_insert, E1, insert_id; [done|]. by rewrite lookup_fmap, Hp.
Qed.

Abbreviation keeps_inv := (preserves (fun s => kernel_inv (kern s))).

Lemma lift_keeps {A} (c : ST Kernel A) : preserves kernel_inv c -> keeps_inv (lift_kernel c).
Proof.
  intros Hc s a s' H Hs. unfold lift_kernel in H. destruct (c (kern s)) as [[x k]| | | |] eqn:E; try done. injection H as <- <-. by eapply Hc.
Qed.
Lemma process_at_keeps pid : preserves kernel_inv (process_at pid).
Proof.
  intros k a k' H Hk. unfold process_at in H. apply bind_inv in H as (o & k1 & H1 & H2). unfold slot in H1. destruct (_ && _); [|done].
  injection H1 as <- <-. destruct (processes k !! pid); [|done]. by injection H2 as _ <-.
Qed.
Lemma update_keeps pid f : keeps_object f -> preserves kernel_inv (update_process pid f).
Proof.
  intros Hf k a k' H Hk. unfold update_process, process_at in H. apply bind_inv in H as (p & k1 & H1 & H2).
  apply bind_inv in H1 as (o & k2 & H3 & H4). unfold slot in H3. destruct (_ && _); [|done]. injection H3 as <- <-.
  destruct (processes k !! pid) as [q|] eqn:E; [|done]. injection H4 as <- <-. injection H2 as _ <-. by apply update_inv.
Qed.
Lemma kernel_alloc_keeps i : Log2MinSize <= i -> preserves kernel_inv (page_alloc (PageAlloc.kernel_page_alloc i)).
Proof.
  intros Hi k a k' H [Hs Hr Hap]. destruct (kernel_alloc_ready k i Hr Hi) as (b & al & H1 & Hr1 & _).
  rewrite H in H1. injection H1 as -> ->. split; [by destruct Hs|exact Hr1|exact Hap].
Qed.
Lemma kmalloc_keeps n : preserves kernel_inv (page_alloc (PageAlloc.kmalloc n)).
Proof. unfold PageAlloc.kmalloc. cbv zeta. apply kernel_alloc_keeps. destruct (Z.ltb_spec (log2_ceil n) Log2MinSize); lia. Qed.
Lemma lift_pure_keeps {A} (o : outcome A) : preserves kernel_inv (lift_pure o).
Proof. intros k a k' H Hk. unfold lift_pure in H. destruct o; try done. by injection H as _ <-. Qed.
Lemma io_keeps (f : Sys -> Sys) : (forall s, kern (f s) = kern s) -> keeps_inv (modify f).
Proof. intros Hf s a s' [= _ <-] Hs. by rewrite Hf. Qed.
#[local] Hint Resolve lift_keeps process_at_keeps kmalloc_keeps lift_pure_keeps : preserves.

(** Every system call keeps the invariant. *)
Lemma syscall_table_keeps nr pid : keeps_inv (syscall_table nr pid).
Proof.
  unfold syscall_table, sys_read, sys_open, sys_close, sys_exit, sys_yield, sys_write, sys_anon_allocate. preserve.
  all: try (by apply io_keeps). all: try (apply lift_keeps, update_keeps; by intros q). by intros s a s' H.
Qed.
Lemma handle_syscall_keeps pid : keeps_inv (handle_syscall pid).
Proof.
  unfold handle_syscall. preserve; [apply syscall_table_keeps|]. apply lift_keeps, update_keeps. by intros q.
Qed.

Section system.
Context (entry main_start : Z) (raw : Context) (raw_cookie : Z).

(** What the kernel does to its state from initialisation on: it creates threads,
    whose objects must not overlap others, allocates memory, saves the registers
    of the interrupted process, serves its system call and switches to another
    process; user programs change their memory. *)
Inductive kreach : Sys -> Prop :=
  | kr_init k k' u out : alloc_ready (allocator k) -> process_init entry raw raw_cookie main_start k = Ret (tt, k') -> kreach (mkSys k' u out)
  | kr_create s s' nm start ck pid : kreach s -> lift_kernel (create_kthread entry raw raw_cookie nm start ck) s = Ret (pid, s') ->
      objects_apart (object_addresses (kern s')) -> kreach s'
  | kr_alloc s s' n a : kreach s -> lift_kernel (page_alloc (PageAlloc.kmalloc n)) s = Ret (a, s') -> kreach s'
  | kr_store s s' c : kreach s -> lift_kernel (store_current_thread_context c) s = Ret (tt, s') -> kreach s'
  | kr_syscall s s' : kreach s -> handle_syscall (current_pid (kern s)) s = Ret (tt, s') -> kreach s'
  | kr_schedule s s' : kreach s -> lift_kernel schedule s = Ret (tt, s') -> kreach s'
  | kr_user s u : kreach s -> kreach (mkSys (kern s) u (console s)).

Lemma schedule_keeps : preserves kernel_inv schedule.
Proof using Type.
  intros k [] k' H [Hi Ha Hap]. pose proof (si_current _ Hi) as Hc. pose proof (si_next _ Hi) as Hn.
  destruct (decide (next_pid k < MAX_PROCESS \/ current_pid k + 1 < next_pid k)) as [Hd|Hd].
  2: { rewrite schedule_past_end in H; [done|done|lia|lia]. }
  destruct (schedule_ok k Hi Hd) as (k1 & H1 & Hsw). rewrite H in H1. injection H1 as <-. split.
  - eapply switched_inv; [done|done|]. by apply succ_pid_range.
  - destruct Hsw as (_ & _ & -> & _). done.
  - destruct Hsw as (_ & _ & _ & _ & E5). assert (object_addresses k' = object_addresses k) as ->; [|done].
    apply map_eq. intros pid. unfold object_addresses. rewrite !lookup_fmap, E5. by destruct (processes k !! pid).
Qed.

Lemma create_kthread_keeps k nm start ck pid k' : sched_inv k -> alloc_ready (allocator k) ->
  create_kthread entry raw raw_cookie nm start ck k = Ret (pid, k') -> sched_inv k' /\ alloc_ready (allocator k').
Proof using Type.
  intros Hi Hr H. destruct (decide (next_pid k < MAX_PROCESS)) as [Hd|Hd].
  - destruct (create_kthread_ok entry raw raw_cookie k nm start ck Hi Hr Hd) as (k1 & H1 & I1 & A1 & _). rewrite H in H1. by injection H1 as _ ->.
  - unfold create_kthread in H. apply bind_inv in H as (q & k1 & H1 & _).
    pose proof (si_next _ Hi). by apply (create_process_full entry raw raw_cookie) in H1; [|done|lia].
Qed.

(** One process does not overlap with itself. *)
Lemma process_init_inv k k' : alloc_ready (allocator k) -> process_init entry raw raw_cookie main_start k = Ret (tt, k') -> kernel_inv k'.
Proof using Type.
  intros Hr H. destruct (process_init_ok entry main_start raw raw_cookie k Hr) as (k1 & H1 & I1 & A1 & N1 & _). rewrite H in H1. injection H1 as <-.
  split; [done|done|]. assert (forall pid a, object_addresses k' !! pid = Some a -> pid = 1) as Hone.
  { intros pid a. unfold object_addresses. rewrite lookup_fmap. intros (p & Hp & _)%fmap_Some. pose proof (proj1 (si_used _ I1 pid) ltac:(eauto)). lia. }
  intros pid a Ha q b Hb. left. rewrite (Hone _ _ Ha), (Hone _ _ Hb). done.
Qed.

(** C25: the process table stays well formed.  From initialisation on, through any
    sequence of thread creations, allocations, saved contexts, system calls,
    context switches and runs of user code, as long as the objects of new threads
    do not overlap those of others: exactly the pids below [next_pid] are in use,
    every process knows its pid, the current pid names a process, no process other
    than the current one is marked running, and the page allocator stays
    consistent. *)
Theorem scheduler_invariant s : kreach s -> sched_inv (kern s) /\ alloc_ready (allocator (kern s)).
Proof using Type.
  intros Hreach. assert (kernel_inv (kern s)) as [? ? _]; [|done].
  induction Hreach as [k k' u out Hr Hrun|s s' nm start ck pid _ [Hi Hr _] Hrun Hap|s s' n a _ IH Hrun|s s' c _ IH Hrun|s s' _ IH Hrun|s s' _ IH Hrun|s u _ IH].
  - by eapply process_init_inv.
  - unfold lift_kernel in Hrun. destruct (create_kthread _ _ _ _ _ _ (kern s)) as [[q k]| | | |] eqn:E; try done. injection Hrun as -> <-.
    destruct (create_kthread_keeps _ _ _ _ _ _ Hi Hr E). by split.
  - by eapply (lift_keeps _ (kmalloc_keeps n)).
  - unfold store_current_thread_context in Hrun. eapply (lift_keeps _); [|exact Hrun|exact IH].
    apply preserves_bind; [apply preserves_gets|]. intros pid. apply update_keeps. by intros q.
  - by eapply handle_syscall_keeps.
  - by eapply (lift_keeps _ schedule_keeps).
  - exact IH.
Qed.

End system.

(** ** Concrete calls *)

(** Registers of a call with number [nr] and arguments, and a process with one page
    at 4096. *)
Definition call (nr a0 a1 a2 : Z) : Context :=
  mkContext 0 0 0 0 0 0 0 0 0 0 0 0 0 0 a1 a0 0 a2 0 nr (0, 0) 0 0 0 0 0.
Definition caller (c : Context) : Process :=
  mkProcess 0 1 Running "" 0 0 10 (map_page 1 0x4100 ∅) 0 c 0 0 0 0 0 0 USER_BRK_START (USER_BRK_START + USER_BRK_SIZE) 0 0 0.

(** One process about to make call [c], with allocator [al]. *)
Definition ex_sys (al : Buddy.BuddyAllocator) (c : Context) : Sys :=
  mkSys (mkKernel al (<[1 := caller c]> ∅) 2 1 0) ex_memory [].

Lemma ex_sys_proc al c : proc_is (ex_sys al c) 1 (caller c).
Proof. split; [unfold MAX_PROCESS; lia|]. apply lookup_insert_eq. Qed.

Lemma boot_ready : alloc_ready boot.
Proof. exact ex_ready. Qed.

(** An allocator of one smallest block. *)
Definition tiny : Buddy.BuddyAllocator :=
  match Buddy.BuddyAllocator_new 0x4000000 16 Buddy.preallocated_blocks Buddy.MaxBlocks with Ret s => s | _ => boot end.

Lemma tiny_ready : alloc_ready tiny /\ Buddy.root_log2size tiny = 16.
Proof.
  assert (Buddy.BuddyAllocator_new 0x4000000 16 Buddy.preallocated_blocks Buddy.MaxBlocks = Ret tiny) as H by (by vm_compute).
  assert (boot_params 0x4000000 16) as Hb by (unfold boot_params, Log2MinSize, Log2MaxSize; lia).
  destruct (sim_new _ _ tiny Hb H) as [HI Hp Hr _ _].
  split; [|done]. split; [done|rewrite Hp; done|rewrite Hp; lia].
Qed.

Lemma sys_write_ok_witness :
  exists s', handle_syscall 1 (ex_sys boot (call 2 1 5000 5)) = Ret (tt, s') /\
    console s' = [(1, read_bytes ex_memory 5000 5)].
Proof.
  rewrite (sys_write_ok (ex_sys boot (call 2 1 5000 5)) 1 (caller (call 2 1 5000 5)) 1 (ex_sys_proc _ _)); try done.
  cbv zeta. rewrite decide_False, decide_True by lia. eexists. split; reflexivity.
Defined.

Lemma ex_aligned : aligned_size 100000 = 102400.
Proof. reflexivity. Qed.

Definition ex_block : outcome (Z * Buddy.BuddyAllocator) := PageAlloc.kmalloc (aligned_size 100000) boot.

Lemma anon_allocate_ok_witness :
  exists q s', handle_syscall 1 (ex_sys boot (call 7 100000 5000 0)) = Ret (tt, s') /\ proc_is s' 1 q /\ rax (context q) = 0 /\
    brk_start q = 16777216 + 102400.
Proof.
  destruct ex_block as [[buf al]| | | |] eqn:Eb; try (exfalso; by vm_compute in Eb).
  destruct (anon_allocate_ok (ex_sys boot (call 7 100000 5000 0)) 1 (caller (call 7 100000 5000 0)) 100000 buf al (ex_sys_proc _ _) eq_refl eq_refl)
    as (q & s' & H1 & H2 & _ & _ & _ & H3 & H4 & _).
  - lia.
  - exact boot_ready.
  - change (brk_start _) with 16777216. lia.
  - rewrite ex_aligned. change (brk_start _) with 16777216. change (brk_end _) with 33554432. lia.
  - reflexivity.
  - exact Eb.
  - intros ->. assert (match ex_block with Ret (b, _) => negb (b =? KERNEL_START) | _ => true end = true) as E by (by vm_compute).
    rewrite Eb in E. by rewrite Z.eqb_refl in E.
  - exists q, s'. exact (conj H1 (conj H2 (conj H3 H4))).
Defined.

Lemma anon_allocate_exhausted_witness :
  exists s' q, handle_syscall 1 (ex_sys tiny (call 7 100000 5000 0)) = Ret (tt, s') /\ proc_is s' 1 q /\ rax (context q) = 0 /\
    (forall i, 0 <= i < aligned_size 100000 / 4096 ->
       let e := word (pts q) (upt_word (16777216 / 4096 + i)) in
       present e = true /\ writable e = true /\ user e = true /\ frame e = i * 4096).
Proof.
  apply (anon_allocate_exhausted (ex_sys tiny (call 7 100000 5000 0)) 1 (caller (call 7 100000 5000 0)) 100000 (ex_sys_proc _ _) eq_refl eq_refl).
  - lia.
  - apply tiny_ready.
  - change (brk_start _) with 16777216. lia.
  - rewrite ex_aligned. change (brk_start _) with 16777216. change (brk_end _) with 33554432. lia.
  - reflexivity.
  - intros i Hi. change (allocator _) with tiny. unfold level. rewrite (proj2 tiny_ready).
    pose proof (depth_nonneg i). rewrite ex_aligned. change (class_of 102400) with 17. lia.
Defined.

Lemma anon_allocate_overflow_witness :
  exists buf al q s', PageAlloc.kmalloc (aligned_size 20000000) boot = Ret (buf, al) /\
    handle_syscall 1 (ex_sys boot (call 7 20000000 5000 0)) = Ret (tt, s') /\ proc_is s' 1 q /\
    rax (context q) = 2 ^ 64 - 1 /\ brk_end q < brk_start q.
Proof.
  destruct (anon_allocate_overflow (ex_sys boot (call 7 20000000 5000 0)) 1 (caller (call 7 20000000 5000 0)) 20000000 (ex_sys_proc _ _) eq_refl eq_refl)
    as (buf & al & q & s' & H1 & H2 & H3 & _ & H4 & _ & _ & _ & H5).
  - lia.
  - exact boot_ready.
  - change (brk_start _) with 16777216. lia.
  - change (aligned_size 20000000) with 20000768. change (brk_start _) with 16777216. change (brk_end _) with 33554432. lia.
  - exists buf, al, q, s'. exact (conj H1 (conj H2 (conj H3 (conj H4 H5)))).
Defined.

(** The kernel after [process_init]: it allocates, saves registers, switches and
    runs user code. *)
Lemma scheduler_invariant_witness :
  exists s, kreach ex_entry ex_main zero_context 0 s /\ sched_inv (kern s) /\ alloc_ready (allocator (kern s)) /\ umem s = ex_memory.
Proof.
  set (s0 := mkSys ex_kernel1 (fun _ => 0) []).
  assert (kreach ex_entry ex_main zero_context 0 s0) as R0 by exact (kr_init _ _ _ _ ex_kernel ex_kernel1 (fun _ => 0) [] ex_ready (proj1 ex_init)).
  destruct ex_init as (_ & Hi & Hn). destruct (schedule_ok (kern s0) Hi) as (k1 & H1 & _); [left; cbn [kern s0]; rewrite Hn; done|].
  assert (kreach ex_entry ex_main zero_context 0 (mkSys k1 (fun _ => 0) [])) as R1.
  { apply (kr_schedule _ _ _ _ s0); [exact R0|]. unfold lift_kernel. by rewrite H1. }
  pose proof (kr_user _ _ _ _ _ ex_memory R1) as R2. eexists. split; [exact R2|].
  destruct (scheduler_invariant ex_entry ex_main zero_context 0 _ R2) as [A B]. split; [exact A|]. split; [exact B|reflexivity].
Defined.
