(* ===== verification/Irq.v ===== *)
(** * irq.cpp and include/irq.hpp: the interrupt descriptor table and interrupt dispatch

    [handler_addr] gives the link address of the stubs of irq.S; a stub is named
    by the interrupt number it pushes.  Registered handlers are computations over
    a state [K]. *)
From S2P Require Import Prelude CpuDefs SmallVec.

Module Irq.
Import SmallVec.

Definition MaxHandlersPerInterrupt : Z := 16.
Definition MaxInterrupts : Z := 256.

(** ** Interrupt descriptors *)

(** The entry points of irq.S. *)
Inductive stub := DefaultStub | Stub (n : Z).

(** The interrupt number a stub passes to [irq_handler]. *)
Definition stub_number (s : stub) : Z := match s with DefaultStub => 0xff | Stub n => n end.

Definition set_idt_offset (desc ptr : Z) (user_mode : bool) : Z :=
  let desc := write_field InterruptDescriptor "offset_lo16" (Z.land ptr 0xffff) desc in
  let desc := write_field InterruptDescriptor "offset_mid16" (Z.land (Z.shiftr ptr 16) 0xffff) desc in
  let desc := write_field InterruptDescriptor "offset_hi32" (Z.land (Z.shiftr ptr 32) 0xffffffff) desc in
  write_field InterruptDescriptor "dpl" (if user_mode then 3 else 0) desc.

(** The calls of [set_idt_offset] in [setup_idt], in order. *)
Definition idt_entries : list (Z * stub * bool) :=
  [(0, Stub 0, false); (1, Stub 1, false); (2, Stub 2, false); (3, Stub 3, true); (4, Stub 4, false);
   (5, Stub 5, false); (6, Stub 6, false); (7, Stub 7, false); (8, Stub 8, false); (10, Stub 10, false);
   (11, Stub 11, false); (12, Stub 12, false); (13, Stub 13, false); (14, Stub 14, false);
   (32, Stub 32, false); (37, Stub 37, false); (42, Stub 42, true);
   (0x40, Stub 0x40, false); (0x41, Stub 0x41, false); (0x42, Stub 0x42, false); (0x43, Stub 0x43, false);
   (0x44, Stub 0x44, false); (0x45, Stub 0x45, false); (0x46, Stub 0x46, false); (0x47, Stub 0x47, false);
   (0x48, Stub 0x48, false); (0x49, Stub 0x49, false); (0x4a, Stub 0x4a, false); (0x4b, Stub 0x4b, false);
   (0x4c, Stub 0x4c, false); (0x4d, Stub 0x4d, false); (0x4e, Stub 0x4e, false); (0x4f, Stub 0x4f, false);
   (0x50, Stub 0x50, false); (0x50, Stub 0x51, false); (0x51, Stub 0x52, false); (0x52, Stub 0x53, false);
   (0x53, Stub 0x54, false); (0x54, Stub 0x55, false); (0x56, Stub 0x56, false); (0x57, Stub 0x57, false)].

Section idt.
Context (handler_addr : stub -> Z).

(** The entry every vector gets first. *)
Definition default_entry (selector : Z) : Z :=
  let e := set_idt_offset 0 (handler_addr DefaultStub) false in
  let e := write_field InterruptDescriptor "selector" selector e in
  let e := write_field InterruptDescriptor "type" (DescriptorType_value LongInterruptGate) e in
  let e := write_field InterruptDescriptor "dpl" 0 e in
  write_field InterruptDescriptor "p" 1 e.

(** [main_idt_[i]] of a table; absent entries are zero after the [memset]. *)
Definition idt_get (t : gmap Z Z) (i : Z) : Z := default 0 (t !! i).

Definition install (t : gmap Z Z) (e : Z * stub * bool) : gmap Z Z :=
  let '(i, s, u) := e in <[i := set_idt_offset (idt_get t i) (handler_addr s) u]> t.

Definition setup_idt (selector : Z) : gmap Z Z :=
  let t := for_loop (Z.to_nat MaxInterrupts) 0 (fun i => <[i := default_entry selector]>) ∅ in
  fold_left install idt_entries t.

End idt.

(** ** Registration and dispatch *)

Record IrqHandlerInfo := mkInfo { irq_num : Z; error_code : Z; info_pid : Z }.

Definition InterruptHandler (K : Type) : Type := IrqHandlerInfo -> ST K unit.

(** The handlers per interrupt; an absent entry is an empty vector. *)
Abbreviation handler_table K := (gmap Z (SmallVec (InterruptHandler K))).

Section dispatch.
Context {K : Type}.

Definition handlers_ (t : handler_table K) (id : Z) : SmallVec (InterruptHandler K) := default (mkVec ∅ 0) (t !! id).

(** [interrupts_[id].handlers_.emplace_back(handler)] *)
Definition Register (id : Z) (h : InterruptHandler K) (t : handler_table K) : outcome (handler_table K) :=
  if (0 <=? id) && (id <? MaxInterrupts) then
    match emplace_back MaxHandlersPerInterrupt h (handlers_ t id) with
    | Ret (_, v) => Ret (<[id := v]> t)
    | Panic m => Panic m | Halt => Halt | Fault => Fault | OutOfFuel => OutOfFuel
    end
  else Fault.

(** [Register(start_id, count, handler)] *)
Fixpoint Register_range (count : nat) (start_id : Z) (h : InterruptHandler K) (t : handler_table K) : outcome (handler_table K) :=
  match count with
  | O => Ret t
  | S count =>
      match Register start_id h t with
      | Ret t => Register_range count (start_id + 1) h t
      | Panic m => Panic m | Halt => Halt | Fault => Fault | OutOfFuel => OutOfFuel
      end
  end.

Fixpoint run_handlers (hs : list (InterruptHandler K)) (info : IrqHandlerInfo) : ST K unit :=
  match hs with
  | [] => mret tt
  | h :: hs => h info;; run_handlers hs info
  end.

(** An unhandled interrupt is reported and the machine halts; [no_handler] is
    what untouched storage holds. *)
Definition HandleInterrupt (no_handler : InterruptHandler K) (t : handler_table K) (irq_num error_code current_pid : Z) : ST K unit :=
  if (0 <=? irq_num) && (irq_num <? MaxInterrupts) then
    if empty (handlers_ t irq_num) then halt
    else run_handlers (contents no_handler (handlers_ t irq_num)) (mkInfo irq_num error_code current_pid)
  else fault.

End dispatch.

(** ** The descriptors the processor sees *)

(** Address of the code a gate transfers to. *)
Definition gate_offset (d : Z) : Z :=
  read_field InterruptDescriptor "offset_lo16" d +
  2 ^ 16 * read_field InterruptDescriptor "offset_mid16" d +
  2 ^ 32 * read_field InterruptDescriptor "offset_hi32" d.

Lemma land_ones_eq z n : 0 <= n -> Z.land z (Z.ones n) = z mod 2 ^ n.
Proof. apply Z.land_ones. Qed.

Lemma gate_offset_set desc ptr u : 0 <= ptr < 2 ^ 64 -> gate_offset (set_idt_offset desc ptr u) = ptr.
Proof.
  intros Hp. unfold gate_offset, set_idt_offset. change 0xffff with (Z.ones 16). change 0xffffffff with (Z.ones 32).
  rewrite !land_ones_eq, !Z.shiftr_div_pow2 by lia. fields. dlia.
Qed.

(** The members [set_idt_offset] does not touch, and the privilege level. *)
Lemma set_idt_offset_other desc ptr u :
  read_field InterruptDescriptor "selector" (set_idt_offset desc ptr u) = read_field InterruptDescriptor "selector" desc /\
  read_field InterruptDescriptor "type" (set_idt_offset desc ptr u) = read_field InterruptDescriptor "type" desc /\
  read_field InterruptDescriptor "p" (set_idt_offset desc ptr u) = read_field InterruptDescriptor "p" desc /\
  read_field InterruptDescriptor "dpl" (set_idt_offset desc ptr u) = if u then 3 else 0.
Proof. unfold set_idt_offset. fields. split_and!; try done. by destruct u. Qed.

(** The stub the table leads to from vector [v], and whether user code may use
    the gate: the last entry for [v], or the default. *)
Definition stub_for (v : Z) : stub * bool :=
  fold_left (fun acc '(i, s, u) => if v =? i then (s, u) else acc) idt_entries (DefaultStub, false).

(** A gate that leads to [s]. *)
Definition gate_ok (handler_addr : stub -> Z) (selector d : Z) (su : stub * bool) : Prop :=
  read_field InterruptDescriptor "p" d = 1 /\
  read_field InterruptDescriptor "type" d = DescriptorType_value LongInterruptGate /\
  read_field InterruptDescriptor "selector" d = selector /\
  read_field InterruptDescriptor "dpl" d = (if snd su then 3 else 0) /\
  gate_offset d = handler_addr (fst su).

Section gates.
Context (handler_addr : stub -> Z) (selector : Z).
Context (Ha : forall s, 0 <= handler_addr s < 2 ^ 64) (Hs : 0 <= selector < 2 ^ 16).

Lemma default_gate : gate_ok handler_addr selector (default_entry handler_addr selector) (DefaultStub, false).
Proof using Ha Hs.
  unfold gate_ok, default_entry. split_and!.
  1-4: unfold set_idt_offset; fields; rewrite ?Z.mod_small by lia; done.
  cbn [fst]. rewrite <- (gate_offset_set 0 (handler_addr DefaultStub) false) at 2 by done.
  unfold gate_offset. fields. done.
Qed.

Lemma install_gate d s u su : gate_ok handler_addr selector d su ->
  gate_ok handler_addr selector (set_idt_offset d (handler_addr s) u) (s, u).
Proof using Ha.
  intros (H1 & H2 & H3 & _ & _). destruct (set_idt_offset_other d (handler_addr s) u) as (E1 & E2 & E3 & E4).
  unfold gate_ok. rewrite E1, E2, E3, E4, gate_offset_set by done. done.
Qed.

Lemma default_table i : 0 <= i < MaxInterrupts ->
  idt_get (for_loop (Z.to_nat MaxInterrupts) 0 (fun i => <[i := default_entry handler_addr selector]>) ∅) i =
  default_entry handler_addr selector.
Proof using Type.
  intros Hi. pose proof (for_loop_ind (fun j (t : gmap Z Z) => forall i, 0 <= i < j -> idt_get t i = default_entry handler_addr selector)
    (Z.to_nat MaxInterrupts) 0 (fun i => <[i := default_entry handler_addr selector]>) ∅) as H.
  rewrite Z.add_0_l, Z2Nat.id in H by done. apply H; [lia| |done].
  intros j t Hj IH x Hx. unfold idt_get. rewrite lookup_insert. case_decide; [done|]. apply IH. lia.
Qed.

(** Folding the installations tracks the folding of the stubs. *)
Lemma installed es t v su :
  gate_ok handler_addr selector (idt_get t v) su ->
  gate_ok handler_addr selector (idt_get (fold_left (install handler_addr) es t) v)
    (fold_left (fun acc '(i, s, u) => if v =? i then (s, u) else acc) es su).
Proof using Ha.
  revert t su. induction es as [|[[i s] u] es IH]; intros t su Hg; [done|]. cbn [fold_left]. apply IH.
  unfold install, idt_get. rewrite lookup_insert. destruct (Z.eqb_spec v i) as [->|Hne].
  - rewrite decide_True by done. by apply (install_gate _ _ _ su).
  - by rewrite decide_False by done.
Qed.

End gates.

(** After [setup_idt] every one of the 256 vectors has a present interrupt
    gate with the kernel's selector that leads to the stub the table assigns to
    it, and only the breakpoint and the system call vectors are open to user
    code. *)
Theorem idt_complete handler_addr selector v :
  (forall s, 0 <= handler_addr s < 2 ^ 64) -> 0 <= selector < 2 ^ 16 -> 0 <= v < MaxInterrupts ->
  gate_ok handler_addr selector (idt_get (setup_idt handler_addr selector) v) (stub_for v) /\
  (snd (stub_for v) = true <-> v = 3 \/ v = 42).
Proof.
  intros Ha Hs Hv. split.
  - unfold setup_idt, stub_for. apply (installed handler_addr selector Ha). rewrite default_table by done. by apply default_gate.
  - assert (forallb (fun v => eqb (snd (stub_for v)) ((v =? 3) || (v =? 42))) (seqZ 0 256) = true) as Hall by (by vm_compute).
    rewrite forallb_forall in Hall. specialize (Hall v). rewrite <- list_elem_of_In, elem_of_seqZ in Hall.
    specialize (Hall ltac:(unfold MaxInterrupts in Hv; lia)). apply eqb_prop in Hall. rewrite Hall, orb_true_iff, !Z.eqb_eq. done.
Qed.

(** The stubs of the exceptions, the timer, the system call and the device
    vectors report the vector they are installed at, except that vectors 0x50 to
    0x54 lead to the stub of the next vector and 0x55 to the default stub. *)
Theorem idt_numbers v :
  0 <= v < MaxInterrupts ->
  stub_number (fst (stub_for v)) =
    if decide (0x50 <= v <= 0x54) then v + 1
    else if decide (v <= 8 \/ 10 <= v <= 14 \/ v = 32 \/ v = 37 \/ v = 42 \/ 0x40 <= v <= 0x4f \/ 0x56 <= v <= 0x57) then v
    else 0xff.
Proof.
  intros Hv.
  assert (forallb (fun v => bool_decide (stub_number (fst (stub_for v)) =
    if decide (0x50 <= v <= 0x54) then v + 1
    else if decide (v <= 8 \/ 10 <= v <= 14 \/ v = 32 \/ v = 37 \/ v = 42 \/ 0x40 <= v <= 0x4f \/ 0x56 <= v <= 0x57) then v
    else 0xff)) (seqZ 0 256) = true) as Hall by (by vm_compute).
  rewrite forallb_forall in Hall. specialize (Hall v). rewrite <- list_elem_of_In, elem_of_seqZ in Hall.
  specialize (Hall ltac:(unfold MaxInterrupts in Hv; lia)). by apply bool_decide_eq_true in Hall.
Qed.

(** ** Dispatch *)

Section dispatch_thms.
Context {K : Type} (no_handler : InterruptHandler K).

(** Every vector of handlers is well formed. *)
Definition table_wf (t : handler_table K) : Prop := forall id, wf MaxHandlersPerInterrupt (handlers_ t id).

(** The handlers of [id], in order of registration. *)
Definition registered (t : handler_table K) (id : Z) : list (InterruptHandler K) := contents no_handler (handlers_ t id).

Lemma handlers_insert t id v j : handlers_ (<[id := v]> t) j = if decide (id = j) then v else @handlers_ K t j.
Proof using Type. unfold handlers_. rewrite lookup_insert. by case_decide. Qed.

Lemma Register_ok id h (t : handler_table K) :
  table_wf t -> 0 <= id < MaxInterrupts -> (length (registered t id) < 16)%nat ->
  exists t', Register id h t = Ret t' /\ table_wf t' /\ registered t' id = registered t id ++ [h] /\
    (forall j, j <> id -> registered t' j = registered t j).
Proof using Type.
  intros Hwf Hid Hlen. unfold Register. rewrite (proj2 (Z.leb_le _ _)), (proj2 (Z.ltb_lt _ _)) by lia. cbn [andb].
  pose proof (Hwf id) as Hw. unfold registered in Hlen. rewrite (length_contents no_handler _ _ Hw) in Hlen.
  destruct (push_back_ok no_handler MaxHandlersPerInterrupt ltac:(done) (handlers_ t id) h Hw) as (v & Hp & Hv & Hc).
  { destruct Hw. unfold MaxHandlersPerInterrupt. lia. }
  assert (emplace_back MaxHandlersPerInterrupt h (handlers_ t id) = Ret (size_ (handlers_ t id), v)) as -> by exact Hp.
  eexists. split; [reflexivity|]. split.
  { intros j. rewrite handlers_insert. by case_decide. }
  split.
  - unfold registered. rewrite handlers_insert, decide_True by done. exact Hc.
  - intros j Hj. unfold registered. by rewrite handlers_insert, decide_False.
Qed.

Fixpoint Register_all (id : Z) (hs : list (InterruptHandler K)) (t : handler_table K) : outcome (handler_table K) :=
  match hs with
  | [] => Ret t
  | h :: hs => match Register id h t with Ret t => Register_all id hs t | o => o end
  end.

Lemma Register_all_ok id hs (t : handler_table K) :
  table_wf t -> 0 <= id < MaxInterrupts -> (length (registered t id) + length hs <= 16)%nat ->
  exists t', Register_all id hs t = Ret t' /\ table_wf t' /\ registered t' id = registered t id ++ hs /\
    (forall j, j <> id -> registered t' j = registered t j).
Proof using Type.
  revert t. induction hs as [|h hs IH]; intros t Hwf Hid Hlen; cbn [Register_all length] in *.
  - exists t. split; [done|]. split; [done|]. by rewrite app_nil_r.
  - destruct (Register_ok id h t Hwf Hid) as (t1 & -> & Hwf1 & E1 & O1); [lia|].
    destruct (IH t1 Hwf1 Hid) as (t' & H' & Hwf' & E' & O').
    { rewrite E1, length_app. cbn. lia. }
    exists t'. split; [done|]. split; [done|]. split.
    + rewrite E', E1, <- app_assoc. done.
    + intros j Hj. by rewrite O', O1.
Qed.

End dispatch_thms.

(** Handlers registered for an interrupt, up to sixteen, are all called when
    it occurs, in the order of registration and with its number, error code and
    the interrupted process; registering them does not affect any other
    interrupt, and an interrupt without handlers halts the machine. *)
Theorem interrupt_dispatch {K} (no_handler : InterruptHandler K) id hs err pid :
  0 <= id < MaxInterrupts -> (0 < length hs <= 16)%nat ->
  exists t, Register_all id hs ∅ = Ret t /\
    (forall s, HandleInterrupt no_handler t id err pid s = run_handlers hs (mkInfo id err pid) s) /\
    (forall j s, 0 <= j < MaxInterrupts -> j <> id -> HandleInterrupt no_handler t j err pid s = Halt).
Proof.
  intros Hid Hlen.
  assert (forall j, registered no_handler ∅ j = []) as E0 by (intros j; unfold registered, handlers_; by rewrite lookup_empty).
  destruct (Register_all_ok no_handler id hs ∅) as (t & Ht & Hwf & E & O); [|done|rewrite E0; cbn; lia|].
  { intros j. unfold handlers_. rewrite lookup_empty. unfold wf. cbn. unfold MaxHandlersPerInterrupt. lia. }
  rewrite E0 in E. exists t. split; [done|]. split.
  - intros s. unfold HandleInterrupt. rewrite (proj2 (Z.leb_le _ _)), (proj2 (Z.ltb_lt _ _)) by lia. cbn [andb].
    pose proof (length_contents no_handler _ _ (Hwf id)) as Hl. unfold registered in E. rewrite E in Hl |- *. cbn [app] in Hl |- *.
    unfold empty, size. rewrite (proj2 (Z.eqb_neq (size_ (handlers_ t id)) 0)) by lia. done.
  - intros j s Hj Hne. unfold HandleInterrupt. rewrite (proj2 (Z.leb_le _ _)), (proj2 (Z.ltb_lt _ _)) by lia. cbn [andb].
    pose proof (length_contents no_handler _ _ (Hwf j)) as Hl. specialize (O j Hne).
    rewrite E0 in O. unfold registered in O. rewrite O in Hl. destruct (Hwf j) as [H0 _].
    unfold empty, size. rewrite (proj2 (Z.eqb_eq _ _)); [done|]. simpl in Hl. lia.
Qed.

(** ** Concrete tables *)

Definition ex_addr (s : stub) : Z := match s with DefaultStub => 0xffff800000001000 | Stub n => 0xffff800000002000 + 64 * (n mod 256) end.

Lemma idt_complete_witness :
  gate_ok ex_addr 16 (idt_get (setup_idt ex_addr 16) 42) (Stub 42, true) /\ (true = true <-> 42 = 3 \/ 42 = 42).
Proof.
  apply (idt_complete ex_addr 16 42).
  - intros [|n]; unfold ex_addr; [lia|]. dlia.
  - lia.
  - unfold MaxInterrupts. lia.
Defined.

Lemma idt_numbers_witness : stub_number (fst (stub_for 0x50)) = 0x51.
Proof. refine (eq_trans (idt_numbers 0x50 _) _); [unfold MaxInterrupts; lia|reflexivity]. Defined.

(** A handler that logs the interrupt number. *)
Definition log_handler (tag : Z) : InterruptHandler (list Z) := fun info s => Ret (tt, s ++ [tag; irq_num info]).

Lemma interrupt_dispatch_witness :
  exists t, Register_all 0x40 [log_handler 1; log_handler 2] ∅ = Ret t /\
    (forall s, HandleInterrupt (log_handler 0) t 0x40 0 1 s = Ret (tt, (s ++ [1; 0x40]) ++ [2; 0x40])) /\
    (forall j s, 0 <= j < MaxInterrupts -> j <> 0x40 -> HandleInterrupt (log_handler 0) t j 0 1 s = Halt).
Proof. apply (interrupt_dispatch (log_handler 0) 0x40 [log_handler 1; log_handler 2] 0 1); [unfold MaxInterrupts; lia|cbn; lia]. Defined.

End Irq.
