(* ===== verification/Cpu.v ===== *)
(** * lib/cpu_utils.cpp and the segment registers

    The registers of the processor that the kernel's start-up reads and writes,
    the instructions it uses, and the functions around them.  A local array of
    ten bytes is the list of its bytes.  That the processor marks descriptors as
    accessed or busy is left out.  A model specific register that the processor
    does not have is [Fault]. *)
From S2P Require Import Prelude LibUtils CpuDefs LibString.

Module Cpu.
Import LibString.

(** [GDTR] and [IDTR] are base and limit; [MSR] are the model-specific registers. *)
Record Cpu := mkCpu {
  GDTR : Z * Z; IDTR : Z * Z; TR : Z;
  MSR : gmap Z Z;
  CR2 : Z; CR3 : Z; RBP : Z;
  CS : Z; DS : Z; ES : Z; SS : Z; FS : Z; GS : Z;
  IF_ : bool
}.
Abbreviation M := (ST Cpu).

Definition with_gdtr (x : Z * Z) (c : Cpu) : Cpu := mkCpu x (IDTR c) (TR c) (MSR c) (CR2 c) (CR3 c) (RBP c) (CS c) (DS c) (ES c) (SS c) (FS c) (GS c) (IF_ c).
Definition with_idtr (x : Z * Z) (c : Cpu) : Cpu := mkCpu (GDTR c) x (TR c) (MSR c) (CR2 c) (CR3 c) (RBP c) (CS c) (DS c) (ES c) (SS c) (FS c) (GS c) (IF_ c).
Definition with_tr (x : Z) (c : Cpu) : Cpu := mkCpu (GDTR c) (IDTR c) x (MSR c) (CR2 c) (CR3 c) (RBP c) (CS c) (DS c) (ES c) (SS c) (FS c) (GS c) (IF_ c).
Definition with_msr (x : gmap Z Z) (c : Cpu) : Cpu := mkCpu (GDTR c) (IDTR c) (TR c) x (CR2 c) (CR3 c) (RBP c) (CS c) (DS c) (ES c) (SS c) (FS c) (GS c) (IF_ c).
Definition with_cr3 (x : Z) (c : Cpu) : Cpu := mkCpu (GDTR c) (IDTR c) (TR c) (MSR c) (CR2 c) x (RBP c) (CS c) (DS c) (ES c) (SS c) (FS c) (GS c) (IF_ c).
Definition with_cs (x : Z) (c : Cpu) : Cpu := mkCpu (GDTR c) (IDTR c) (TR c) (MSR c) (CR2 c) (CR3 c) (RBP c) x (DS c) (ES c) (SS c) (FS c) (GS c) (IF_ c).
Definition with_data (x fs gs : Z) (c : Cpu) : Cpu := mkCpu (GDTR c) (IDTR c) (TR c) (MSR c) (CR2 c) (CR3 c) (RBP c) (CS c) x x x fs gs (IF_ c).
Definition with_if (x : bool) (c : Cpu) : Cpu := mkCpu (GDTR c) (IDTR c) (TR c) (MSR c) (CR2 c) (CR3 c) (RBP c) (CS c) (DS c) (ES c) (SS c) (FS c) (GS c) x.

(** ** Instructions *)

(** The ten bytes [lgdt] and [lidt] load, and [sgdt] and [sidt] store: the limit,
    then the base. *)
Definition pseudo_bytes (x : Z * Z) : list Z := le_bytes 2 (snd x) ++ le_bytes 8 (fst x).
Definition pseudo_value (b : list Z) : Z * Z := (le_value (take 8 (drop 2 b)), le_value (take 2 b)).

Definition lgdt (b : list Z) : M unit := modify (with_gdtr (pseudo_value b)).
Definition lidt (b : list Z) : M unit := modify (with_idtr (pseudo_value b)).
Definition sgdt : M (list Z) := gets (fun c => pseudo_bytes (GDTR c)).
Definition sidt : M (list Z) := gets (fun c => pseudo_bytes (IDTR c)).

(** [rdmsr] and [wrmsr] pass the value in [edx:eax]; a register the processor does
    not have raises a general protection exception.  The checks of reserved bits
    are left out. *)
Definition rdmsr (ecx : Z) : M (Z * Z) := fun c =>
  match MSR c !! ecx with Some v => Ret ((v mod 2 ^ 32, v / 2 ^ 32), c) | None => Fault end.
Definition wrmsr (ecx eax edx : Z) : M unit := fun c =>
  match MSR c !! ecx with
  | Some _ => Ret (tt, with_msr (<[ecx := wrap32 eax + 2 ^ 32 * wrap32 edx]> (MSR c)) c)
  | None => Fault
  end.

(** ** lib/cpu_utils.cpp *)

(** The limit is the first two bytes, the offset the other eight. *)
Definition get_idt : M (Z * Z) :=
  idtr ← sidt;
  mret (le_value (take 8 (drop 2 idtr)), le_value (take 2 idtr)).
Definition get_gdt : M (Z * Z) :=
  gdtr ← sgdt;
  mret (le_value (take 8 (drop 2 gdtr)), le_value (take 2 gdtr)).
Definition load_gdt (offset limit : Z) : M unit := lgdt (le_bytes 2 limit ++ le_bytes 8 offset).
Definition load_idt (offset limit : Z) : M unit := lidt (le_bytes 2 limit ++ le_bytes 8 offset).

(** The halves of [result] are the two registers. *)
Definition get_msr (msr : Z) : M Z :=
  '(eax, edx) ← rdmsr msr;
  mret (le_value (le_bytes 4 eax ++ le_bytes 4 edx)).
Definition set_msr (msr value : Z) : M unit := wrmsr msr (Z.land value 0xffffffff) (Z.shiftr value 32).

(** Reloading [cr3] with its own value. *)
Definition flush_tlb : M unit := rax ← gets CR3; modify (with_cr3 rax).
Definition get_cs : M Z := gets CS.
Definition get_cr2 : M Z := gets CR2.
Definition get_cr3 : M Z := gets CR3.
Definition get_pml4t_phy : M Z := cr3 ← get_cr3; mret (Z.land cr3 0xfffffffffffff000).
Definition get_rbp : M Z := gets RBP.

(** include/cpu_utils.h *)
Definition cli : M unit := modify (with_if false).
Definition sti : M unit := modify (with_if true).

(** ** Widths *)

Record cpu_wf (c : Cpu) : Prop := {
  cw_gdtr : uint 64 (fst (GDTR c)) /\ uint 16 (snd (GDTR c));
  cw_idtr : uint 64 (fst (IDTR c)) /\ uint 16 (snd (IDTR c));
  cw_msr i v : MSR c !! i = Some v -> uint 64 v;
  cw_cr : uint 64 (CR2 c) /\ uint 64 (CR3 c) /\ uint 64 (RBP c);
  cw_seg : uint 16 (TR c) /\ uint 16 (CS c) /\ uint 16 (DS c) /\ uint 16 (ES c) /\ uint 16 (SS c) /\ uint 16 (FS c) /\ uint 16 (GS c)
}.

Lemma pseudo_value_bytes x : uint 64 (fst x) -> uint 16 (snd x) -> pseudo_value (pseudo_bytes x) = x.
Proof.
  intros H1 H2. unfold pseudo_value, pseudo_bytes.
  rewrite drop_app_length', take_ge, take_app_length' by (by rewrite ?le_bytes_length).
  rewrite !le_value_bytes by done. by destruct x.
Qed.

Lemma load_gdt_run b l c : uint 64 b -> uint 16 l -> load_gdt b l c = Ret (tt, with_gdtr (b, l) c).
Proof. intros. unfold load_gdt, lgdt, modify. change (le_bytes 2 l ++ le_bytes 8 b) with (pseudo_bytes (b, l)). by rewrite pseudo_value_bytes. Qed.
Lemma load_idt_run b l c : uint 64 b -> uint 16 l -> load_idt b l c = Ret (tt, with_idtr (b, l) c).
Proof. intros. unfold load_idt, lidt, modify. change (le_bytes 2 l ++ le_bytes 8 b) with (pseudo_bytes (b, l)). by rewrite pseudo_value_bytes. Qed.
Lemma get_gdt_run c : cpu_wf c -> get_gdt c = Ret (GDTR c, c).
Proof. intros [[H1 H2] _ _ _ _]. unfold get_gdt, sgdt. step_with (eq_refl : gets _ c = _). by rewrite <- (pseudo_value_bytes (GDTR c) H1 H2) at 3. Qed.
Lemma get_idt_run c : cpu_wf c -> get_idt c = Ret (IDTR c, c).
Proof. intros [_ [H1 H2] _ _ _]. unfold get_idt, sidt. step_with (eq_refl : gets _ c = _). by rewrite <- (pseudo_value_bytes (IDTR c) H1 H2) at 3. Qed.

Lemma split_word v : uint 64 v -> wrap32 (Z.land v 0xffffffff) + 2 ^ 32 * wrap32 (Z.shiftr v 32) = v.
Proof.
  intros Hv. change 0xffffffff with (Z.ones 32). rewrite Z.land_ones, Z.shiftr_div_pow2 by lia. unfold wrap, uint in *.
  rewrite Z.mod_mod by lia. rewrite (Z.mod_small (v / 2 ^ 32)) by dlia. dlia.
Qed.
Lemma set_msr_run i v c : is_Some (MSR c !! i) -> uint 64 v -> set_msr i v c = Ret (tt, with_msr (<[i := v]> (MSR c)) c).
Proof. intros [w E] Hv. unfold set_msr, wrmsr. by rewrite E, split_word. Qed.
Lemma get_msr_run i c : is_Some (MSR c !! i) -> cpu_wf c -> get_msr i c = Ret (default 0 (MSR c !! i), c).
Proof.
  intros [v E] Hc. unfold get_msr, mbind, st_bind, rdmsr. rewrite E. cbn [default from_option id].
  assert (uint 64 v) as Hv by (by eapply cw_msr).
  assert (le_value (le_bytes 4 (v mod 2 ^ 32) ++ le_bytes 4 (v / 2 ^ 32)) = v) as ->; [|done].
  assert (forall a b, le_value (a ++ b) = le_value a + 256 ^ Z.of_nat (length a) * le_value b) as Happ.
  { intros a b. induction a as [|x a IH]; [cbn [app le_value length]; lia|]. cbn [app le_value length]. rewrite IH, Nat2Z.inj_succ, Z.pow_succ_r by lia. ring. }
  rewrite Happ, le_bytes_length, !le_value_bytes by (unfold uint in Hv; change (2 ^ (8 * Z.of_nat 4)) with (2 ^ 32); dlia).
  change (256 ^ Z.of_nat 4) with (2 ^ 32). dlia.
Qed.

(** A processor as the boot loader leaves it. *)
Definition reset_cpu : Cpu := mkCpu (0x7f000, 0x2f) (0x7e000, 0xfff) 0 {[ 0x1b := 0xfee00900 ]} 0 0x1000 0x8000 0x38 0x30 0x30 0x30 0x30 0x30 true.

Lemma reset_cpu_wf : cpu_wf reset_cpu.
Proof.
  split; try done.
  intros i v. cbn. rewrite lookup_singleton. case_decide; [|done]. by intros [= <-].
Qed.

End Cpu.
