(* ===== verification/Serial.v ===== *)
(** * The serial port: include/lib/serial_port.h, lib/serial_port.cpp,
      device/serial8250.cpp, and the output routines of boot_loader.c

    Ports are accessed through the class [PortIO]; what is behind them is a
    parameter.  A C string is the list of its bytes up to the terminator. *)
From S2P Require Import Prelude LibString SmallVec Irq.

Module Serial.
Import LibString.

(** [inb] and [outb] on the state [D] of what is behind the ports. *)
Class PortIO (D : Type) := {
  inb : Z -> D -> Z * D;
  outb : Z -> Z -> D -> D
}.

(** Characters of a literal. *)
Definition lit (s : string) : list Z := (fun c => Z.of_N (Ascii.N_of_ascii c)) <$> String.list_ascii_of_string s.

Definition alphabet (d : Z) : Z := if d <? 10 then 48 + d else 87 + d.

Section port.
Context {D : Type} `{PortIO D}.

(** ** class SerialPort *)

(** [eois] counts the acknowledgements to the local interrupt controller. *)
Record SerialPort := mkSP { dev : D; port : Z; int_radix_ : IntRadix; eois : nat }.
Abbreviation SP := (ST SerialPort).

Definition in_ (a : Z) : SP Z := fun s => let '(v, d) := inb (wrap16 a) (dev s) in Ret (v, mkSP d (port s) (int_radix_ s) (eois s)).
Definition out (a v : Z) : SP unit := modify (fun s => mkSP (outb (wrap16 a) (wrap8 v) (dev s)) (port s) (int_radix_ s) (eois s)).

(** The constructor. *)
Definition SerialPort_init : SP unit :=
  p ← gets port;
  out (p + 1) 0x01;;
  out (p + 3) 0x80;;
  out (p + 0) 0x03;;
  out (p + 1) 0x00;;
  out (p + 3) 0x03;;
  out (p + 2) 0xC7;;
  out (p + 4) 0x0B.

Definition SetRadix (r : IntRadix) : SP unit := modify (fun s => mkSP (dev s) (port s) r (eois s)).

Definition is_transmit_empty : SP Z := p ← gets port; v ← in_ (p + 5); mret (Z.land v 0x20).
Definition serial_received : SP Z := p ← gets port; v ← in_ (p + 5); mret (Z.land v 1).

(** [while (is_transmit_empty() == 0);] *)
Fixpoint wait_empty (fuel : nat) : SP unit :=
  match fuel with
  | O => out_of_fuel
  | S fuel => v ← is_transmit_empty; if v =? 0 then wait_empty fuel else mret tt
  end.
Definition put (fuel : nat) (byte : Z) : SP unit :=
  wait_empty fuel;;
  p ← gets port;
  out p byte.

(** The test is the wrong way round: a byte is sent when the port is busy. *)
Definition try_put (fuel : nat) (byte : Z) : SP bool :=
  v ← is_transmit_empty;
  if v =? 0 then put fuel byte;; mret true else mret false.

Fixpoint wait_received (fuel : nat) : SP unit :=
  match fuel with
  | O => out_of_fuel
  | S fuel => v ← serial_received; if v =? 0 then wait_received fuel else mret tt
  end.
Definition get_ (fuel : nat) : SP Z :=
  wait_received fuel;;
  p ← gets port;
  in_ p.
Definition try_get (fuel : nat) : SP (bool * Z) :=
  v ← serial_received;
  if v =? 0 then mret (false, 0) else b ← get_ fuel; mret (true, b).

(** ** Printing *)

Fixpoint put_list (fuel : nat) (bs : list Z) : SP unit :=
  match bs with [] => mret tt | b :: bs => put fuel b;; put_list fuel bs end.

(** [for (int i = 0; s[i]; i++) serial_port.put(s[i]);] *)
Fixpoint put_str (fuel : nat) (s : list Z) : SP unit :=
  match s with
  | [] => mret tt
  | b :: s => if b =? 0 then mret tt else put fuel b;; put_str fuel s
  end.

Definition put_int (fuel : nat) (n : Z) : SP unit := fun s =>
  match print_int (int_radix_ s) n with
  | Ret ds => put_list fuel (alphabet <$> ds) s
  | Panic m => Panic m | Halt => Halt | Fault => Fault | OutOfFuel => OutOfFuel
  end.

(** The right operands of [operator<<]. *)
Inductive item := Str (s : list Z) | Chr (c : Z) | Int (n : Z) | Radix (r : IntRadix).

Definition print_item (fuel : nat) (i : item) : SP unit :=
  match i with
  | Str s => put_str fuel s
  | Chr c => put fuel c
  | Int n => put_int fuel n
  | Radix r => SetRadix r
  end.
Fixpoint print (fuel : nat) (l : list item) : SP unit :=
  match l with [] => mret tt | i :: l => print_item fuel i;; print fuel l end.

(** ** Serial8250 *)

Definition Serial8250RxBuffer : Z := 0.
Definition Serial8250IRQStatus : Z := 2.
Definition Serial8250LSR : Z := 5.
Definition Serial8250IRQStatusNoIRQ : Z := 1.
Definition Serial8250LSRDataReady : Z := 1.
Definition IOAPIC_ISA_IRQ_COM1 : Z := 0x44.

Definition lapic_eoi : SP unit := modify (fun s => mkSP (dev s) (port s) (int_radix_ s) (S (eois s))).

Definition HandleIRQ (fuel : nat) (io_base irq_num : Z) : SP bool :=
  if negb (irq_num =? IOAPIC_ISA_IRQ_COM1) then mret false
  else
    irq_status ← in_ (io_base + Serial8250IRQStatus);
    if negb (Z.land irq_status Serial8250IRQStatusNoIRQ =? 0) then mret false
    else
      lsr ← in_ (io_base + Serial8250LSR);
      (if negb (Z.land lsr Serial8250LSRDataReady =? 0) then
         data ← in_ (io_base + Serial8250RxBuffer);
         print fuel [Str (lit "Serial Port input: "); Chr data; Str [10]]
       else mret tt);;
      lapic_eoi;;
      mret true.

(** The constructor registers the handler; the result of [HandleIRQ] is dropped. *)
Definition com1_handler (fuel : nat) (io_base : Z) : Irq.InterruptHandler SerialPort :=
  fun info => HandleIRQ fuel io_base (Irq.irq_num info);; mret tt.
Definition Serial8250_new (fuel : nat) (io_base : Z) (t : Irq.handler_table SerialPort) : outcome (Irq.handler_table SerialPort) :=
  Irq.Register IOAPIC_ISA_IRQ_COM1 (com1_handler fuel io_base) t.

(** ** The boot loader's routines *)

Definition boot_port : Z := 0x3f8.

Definition init_serial : SP unit :=
  out (boot_port + 1) 0x00;;
  out (boot_port + 3) 0x80;;
  out (boot_port + 0) 0x01;;
  out (boot_port + 1) 0x00;;
  out (boot_port + 3) 0x03;;
  out (boot_port + 2) 0xC7;;
  out (boot_port + 4) 0x0B.

(** [putb], [puts] and [puti] are [put], the loop of [put_str], and [put_int] in
    radix 16, with their own buffer of 32 digits. *)
Fixpoint boot_wait (fuel : nat) : SP unit :=
  match fuel with
  | O => out_of_fuel
  | S fuel => v ← in_ (boot_port + 5); if Z.land v 0x20 =? 0 then boot_wait fuel else mret tt
  end.
Definition putb (fuel : nat) (byte : Z) : SP unit :=
  boot_wait fuel;;
  out boot_port byte.
Fixpoint puts (fuel : nat) (s : list Z) : SP unit :=
  match s with
  | [] => mret tt
  | b :: s => if negb (b =? 0) then putb fuel b;; puts fuel s else mret tt
  end.

(** The digits of [n], least significant first; storing past [temp] is [Fault]. *)
Fixpoint hex_digits (n : nat) (remain : Z) (temp : list Z) : outcome (list Z) :=
  match n with
  | O => OutOfFuel
  | S n =>
      if remain =? 0 then Ret temp
      else if (32 <=? length temp)%nat then Fault
      else hex_digits n (remain / 16) (temp ++ [alphabet (remain mod 16)])
  end.
Fixpoint putb_list (fuel : nat) (bs : list Z) : SP unit :=
  match bs with [] => mret tt | b :: bs => putb fuel b;; putb_list fuel bs end.
Definition puti (fuel : nat) (n : Z) : SP unit :=
  if n =? 0 then putb fuel 48
  else fun s =>
    match hex_digits 65 n [] with
    | Ret temp => putb_list fuel (rev temp) s
    | Panic m => Panic m | Halt => Halt | Fault => Fault | OutOfFuel => OutOfFuel
    end.

End port.

End Serial.
