(* ===== verification/SerialThms.v ===== *)
(** * What reaches the serial line *)
From S2P Require Import Prelude LibString SmallVec Irq Serial.
Import LibString Serial.

Section uart.
Context {D : Type} `{PortIO D}.

(** The transmitter at [base] is busy for [n] reads of its status, then empty. *)
Fixpoint empty_after (base : Z) (n : nat) (d : D) : Prop :=
  let '(v, d') := inb (base + 5) d in
  match n with O => Z.land v 0x20 <> 0 | S n => Z.land v 0x20 = 0 /\ empty_after base n d' end.

(** [sent d] are the bytes sent so far: reading a port sends nothing, the
    transmitter becomes empty after at most [n] reads of its status, and a byte
    written when it was seen empty is sent. *)
Record uart_laws (sent : D -> list Z) (base : Z) (n : nat) : Prop := {
  ul_base : 0 <= base < 2 ^ 16 - 8;
  ul_keeps a d : sent (snd (inb a d)) = sent d;
  ul_empty d : exists k, (k <= n)%nat /\ empty_after base k d;
  ul_send d b : Z.land (fst (inb (base + 5) d)) 0x20 <> 0 -> 0 <= b < 256 -> sent (outb base b (snd (inb (base + 5) d))) = sent d ++ [b]
}.

Context (sent : D -> list Z) (base : Z) (polls : nat) (Hu : uart_laws sent base polls).

(** [s'] is [s] after the bytes [bs] were sent. *)
Definition emits (s s' : SerialPort) (bs : list Z) : Prop :=
  sent (dev s') = sent (dev s) ++ bs /\ port s' = port s /\ int_radix_ s' = int_radix_ s /\ eois s' = eois s.

Lemma emits_refl s : emits s s [].
Proof using Type. unfold emits. by rewrite app_nil_r. Qed.
Lemma emits_trans s1 s2 s3 l l' : emits s1 s2 l -> emits s2 s3 l' -> emits s1 s3 (l ++ l').
Proof using Type. intros (A1 & A2 & A3 & A4) (B1 & B2 & B3 & B4). unfold emits. rewrite B1, A1, app_assoc. split_and!; congruence. Qed.

Lemma in_run a s : 0 <= a < 2 ^ 16 -> in_ a s = Ret (fst (inb a (dev s)), mkSP (snd (inb a (dev s))) (port s) (int_radix_ s) (eois s)).
Proof using Type. intros Ha. unfold in_. rewrite wrap_small by done. by destruct (inb a (dev s)). Qed.

(** After the wait the transmitter was just seen empty. *)
Definition seen_empty (s : @SerialPort D) : Prop := exists d, dev s = snd (inb (base + 5) d) /\ Z.land (fst (inb (base + 5) d)) 0x20 <> 0.

Lemma wait_empty_run n fuel s : port s = base -> empty_after base n (dev s) -> (n < fuel)%nat ->
  exists s', wait_empty fuel s = Ret (tt, s') /\ emits s s' [] /\ seen_empty s'.
Proof using Hu.
  revert fuel s. pose proof (ul_base _ _ _ Hu) as Hb.
  induction n as [|n IH]; intros [|fuel] s Hp He Hf; try lia; cbn [wait_empty empty_after] in *.
  all: unfold is_transmit_empty; rewrite bind_assoc, bind_ret with (a := base) (s' := s) by (unfold gets; by rewrite Hp).
  all: rewrite bind_assoc; step_with in_run; [|lia]; rewrite bind_mret_l.
  all: set (s1 := mkSP _ _ _ _); assert (emits s s1 []) as E1 by (unfold emits, s1; cbn; rewrite (ul_keeps _ _ _ Hu); by rewrite app_nil_r).
  all: destruct (inb (base + 5) (dev s)) as [v d] eqn:Ei; cbn [fst snd] in *.
  - rewrite (proj2 (Z.eqb_neq _ _) He). exists s1. split; [done|]. split; [done|]. exists (dev s). by rewrite Ei.
  - destruct He as [Hv He]. rewrite Hv. cbn [Z.eqb]. destruct (IH fuel s1) as (s2 & H2 & E2 & S2); [done|done|lia|].
    exists s2. split; [done|]. split; [|done]. by apply (emits_trans s s1 s2 [] []).
Qed.

Lemma put_run fuel b s : port s = base -> (polls < fuel)%nat -> 0 <= b < 256 -> exists s', put fuel b s = Ret (tt, s') /\ emits s s' [b].
Proof using Hu.
  intros Hp Hf Hb. pose proof (ul_base _ _ _ Hu) as Hbase. destruct (ul_empty _ _ _ Hu (dev s)) as (k & Hk & He).
  destruct (wait_empty_run k fuel s Hp He ltac:(lia)) as (s1 & H1 & (E1 & E2 & E3 & E4) & (d & Ed & Hv)).
  unfold put. step_with H1. rewrite bind_ret with (a := base) (s' := s1) by (unfold gets; congruence).
  eexists. split; [reflexivity|]. unfold emits. cbn. rewrite !wrap_small by (unfold uint; lia).
  split; [|done]. rewrite Ed, (ul_send _ _ _ Hu) by done. rewrite <- (ul_keeps _ _ _ Hu (base + 5) d), <- Ed, E1. by rewrite app_nil_r.
Qed.

Lemma put_list_run fuel bs s : port s = base -> (polls < fuel)%nat -> Forall (fun b => 0 <= b < 256) bs ->
  exists s', put_list fuel bs s = Ret (tt, s') /\ emits s s' bs.
Proof using Hu.
  intros Hp Hf Hb. revert s Hp. induction Hb as [|b bs Hb _ IH]; intros s Hp; cbn [put_list]; [exists s; split; [done|apply emits_refl]|].
  destruct (put_run fuel b s Hp Hf Hb) as (s1 & H1 & E1). step_with H1.
  destruct (IH s1) as (s2 & H2 & E2); [by destruct E1 as (_ & -> & _)|]. exists s2. split; [done|]. by apply (emits_trans s s1 s2 [b]).
Qed.

(** The characters of a C string. *)
Fixpoint chars (s : list Z) : list Z :=
  match s with [] => [] | b :: s => if b =? 0 then [] else b :: chars s end.

Lemma put_str_list fuel bs s : put_str fuel bs s = put_list fuel (chars bs) s.
Proof using Type.
  revert s. induction bs as [|b bs IH]; intros s; [done|]. cbn [put_str chars]. destruct (b =? 0); [done|]. cbn [put_list].
  unfold mbind, st_bind. destruct (put fuel b s) as [[? s1]| | | |]; [apply IH|done..].
Qed.

(** The bytes an operand of [<<] stands for, in radix [r]. *)
Definition digits (r : IntRadix) (n : Z) : list Z := match print_int r n with Ret ds => alphabet <$> ds | _ => [] end.
Definition render (r : IntRadix) (i : item) : list Z :=
  match i with Str s => chars s | Chr c => [c] | Int n => digits r n | Radix _ => [] end.
Fixpoint render_all (r : IntRadix) (l : list item) : list Z :=
  match l with
  | [] => []
  | i :: l => render r i ++ render_all (match i with Radix r' => r' | _ => r end) l
  end.

(** The radix in force after printing. *)
Fixpoint radix_after (r : IntRadix) (l : list item) : IntRadix :=
  match l with [] => r | i :: l => radix_after (match i with Radix r' => r' | _ => r end) l end.

Lemma render_all_app r l l' : render_all r (l ++ l') = render_all r l ++ render_all (radix_after r l) l'.
Proof using Type. revert r. induction l as [|i l IH]; intros r; [done|]. cbn [app render_all radix_after]. by rewrite IH, app_assoc. Qed.
Lemma radix_after_app r l l' : radix_after r (l ++ l') = radix_after (radix_after r l) l'.
Proof using Type. revert r. induction l as [|i l IH]; intros r; [done|]. apply IH. Qed.

(** Bytes in strings and characters, unsigned 64-bit numbers. *)
Definition item_ok (i : item) : Prop :=
  match i with Str s => Forall (fun b => 0 <= b < 256) s | Chr c => 0 <= c < 256 | Int n => 0 <= n < 2 ^ 64 | Radix _ => True end.

Lemma chars_ok s : Forall (fun b => 0 <= b < 256) s -> Forall (fun b => 0 <= b < 256) (chars s).
Proof using Type. induction 1 as [|b s Hb _ IH]; cbn [chars]; [constructor|]. destruct (b =? 0); [constructor|by constructor]. Qed.

Lemma digits_ok r n : 0 <= n < 2 ^ 64 -> exists ds, print_int r n = Ret ds /\ digits r n = alphabet <$> ds /\
  Forall (fun d => 0 <= d < 16) ds /\ value_of (radix_of r) ds = n.
Proof using Type.
  intros Hn. destruct (print_int_ok r n Hn) as (ds & E & Hv & Hf & _). exists ds. unfold digits. rewrite E. split_and!; try done.
  eapply Forall_impl; [exact Hf|]. intros d Hd. destruct r; cbn in Hd; lia.
Qed.

Lemma alphabet_byte d : 0 <= d < 16 -> 0 <= alphabet d < 256.
Proof using Type. intros Hd. unfold alphabet. destruct (d <? 10); lia. Qed.

Lemma print_run fuel l s : port s = base -> (polls < fuel)%nat -> Forall item_ok l ->
  exists s', print fuel l s = Ret (tt, s') /\ sent (dev s') = sent (dev s) ++ render_all (int_radix_ s) l /\ port s' = base /\ eois s' = eois s /\
    int_radix_ s' = radix_after (int_radix_ s) l.
Proof using Hu.
  intros Hp Hf Hl. revert s Hp. induction Hl as [|i l Hi _ IH]; intros s Hp; cbn [print render_all]; [exists s; by rewrite app_nil_r|].
  assert (exists s1, print_item fuel i s = Ret (tt, s1) /\ sent (dev s1) = sent (dev s) ++ render (int_radix_ s) i /\ port s1 = port s /\
    int_radix_ s1 = (match i with Radix r' => r' | _ => int_radix_ s end) /\ eois s1 = eois s) as (s1 & H1 & E1 & E2 & E3 & E4).
  { destruct i as [bs|c|n|r]; cbn [print_item render item_ok] in *.
    - rewrite put_str_list. by apply put_list_run; [..|apply chars_ok].
    - destruct (put_run fuel c s Hp Hf Hi) as (s1 & H1 & E). by exists s1.
    - destruct (digits_ok (int_radix_ s) n Hi) as (ds & E1 & E2 & E3 & _). unfold put_int. rewrite E1, E2.
      apply put_list_run; [done|done|]. apply Forall_fmap. eapply Forall_impl; [exact E3|]. apply alphabet_byte.
    - eexists. split; [reflexivity|]. cbn. by rewrite app_nil_r. }
  step_with H1. destruct (IH s1) as (s2 & H2 & F1 & F2 & F3 & F4); [congruence|].
  exists s2. split; [done|]. rewrite F1, E1, E3, app_assoc. split; [by destruct i|]. split; [congruence|]. split; [congruence|]. rewrite F4, E3. by destruct i.
Qed.

End uart.

(** The digit a character stands for. *)
Definition digit_value (c : Z) : Z := if c <? 58 then c - 48 else c - 87.

Lemma digit_value_alphabet d : 0 <= d < 16 -> digit_value (alphabet d) = d.
Proof.
  intros Hd. unfold alphabet, digit_value. destruct (Z.ltb_spec d 10); [rewrite (proj2 (Z.ltb_lt _ _)) by lia|rewrite (proj2 (Z.ltb_ge _ _)) by lia]; lia.
Qed.

(** C37: what the kernel prints arrives.  Printing any sequence of strings,
    characters, radix changes and numbers that are not negative and below [2^64]
    with [<<] ends, however slow the line, and sends the characters of the
    strings, the characters, and for each number digits in the radix then in
    force, whose value is the number; nothing else is sent.  A negative number of
    a signed type has no digits: its remainder indexes before the alphabet. *)
Theorem serial_output {D} `{PortIO D} sent base polls fuel l (s : @SerialPort D) :
  uart_laws sent base polls -> port s = base -> (polls < fuel)%nat -> Forall item_ok l ->
  exists s', print fuel l s = Ret (tt, s') /\ sent (dev s') = sent (dev s) ++ render_all (int_radix_ s) l /\
    (forall r n, 0 <= n < 2 ^ 64 -> value_of (radix_of r) (digit_value <$> digits r n) = n) /\
    (forall n, - 2 ^ 63 <= n < 0 -> print_item fuel (Int n) s' = Fault).
Proof.
  intros Hu Hp Hf Hl. destruct (print_run sent base polls Hu fuel l s Hp Hf Hl) as (s' & H1 & H2 & _).
  exists s'. split; [done|]. split; [done|].
  split; [|intros n Hn; cbn [print_item]; unfold put_int; by rewrite print_int_negative].
  intros r n Hn. destruct (digits_ok r n Hn) as (ds & _ & -> & Hd & Hv).
  assert (digit_value <$> (alphabet <$> ds) = ds) as ->; [|exact Hv]. clear Hv.
  induction Hd as [|d ds Hd _ IH]; [done|]. cbn [fmap list_fmap]. by rewrite digit_value_alphabet, IH.
Qed.

(** The interrupt of the serial port.  Other interrupts, and interrupts that the
    port does not report as its own, are left alone and not acknowledged;
    otherwise the interrupt is acknowledged once, and a received byte is read and
    echoed to the console. *)
Theorem uart_interrupt {D} `{PortIO D} sent base polls fuel io_base irq_num (s : @SerialPort D) :
  uart_laws sent base polls -> port s = base -> (polls < fuel)%nat -> 0 <= io_base < 2 ^ 16 - 8 ->
  (forall a d, 0 <= fst (inb a d) < 256) ->
  let status := inb (io_base + 2) (dev s) in
  let lsr := inb (io_base + 5) (snd status) in
  let data := inb (io_base + 0) (snd lsr) in
  exists handled s', HandleIRQ fuel io_base irq_num s = Ret (handled, s') /\
    handled = (irq_num =? IOAPIC_ISA_IRQ_COM1) && (Z.land (fst status) 1 =? 0) /\
    eois s' = (if handled then S (eois s) else eois s) /\
    sent (dev s') = sent (dev s) ++
      (if handled && negb (Z.land (fst lsr) 1 =? 0) then lit "Serial Port input: " ++ [fst data; 10] else []).
Proof.
  intros Hu Hp Hf Hio Hbyte status lsr data. pose proof (ul_keeps _ _ _ Hu) as Hk. unfold HandleIRQ.
  destruct (irq_num =? IOAPIC_ISA_IRQ_COM1); cbn [negb andb]; [|exists false, s; by rewrite app_nil_r].
  change Serial8250IRQStatus with 2. step_with in_run; [|lia]. fold status. change Serial8250IRQStatusNoIRQ with 1.
  destruct (Z.land (fst status) 1 =? 0); cbn [negb].
  2: { eexists false, _. split; [reflexivity|]. split; [done|]. split; [done|]. cbn [dev]. unfold status. by rewrite Hk, app_nil_r. }
  change Serial8250LSR with 5. step_with in_run; [|lia]. cbn [dev]. fold lsr. change Serial8250LSRDataReady with 1.
  set (s2 := mkSP (snd lsr) (port s) (int_radix_ s) (eois s)).
  assert (sent (dev s2) = sent (dev s)) as E2 by (cbn; unfold lsr, status; by rewrite !Hk).
  destruct (Z.land (fst lsr) 1 =? 0); cbn [negb andb].
  { rewrite bind_mret_l. eexists true, _. split; [reflexivity|]. cbn. rewrite app_nil_r. done. }
  rewrite bind_assoc. change Serial8250RxBuffer with 0. step_with in_run; [|lia]. cbn [dev s2]. fold data.
  set (s3 := mkSP (snd data) (port s2) (int_radix_ s2) (eois s2)).
  destruct (print_run sent base polls Hu fuel [Str (lit "Serial Port input: "); Chr (fst data); Str [10]] s3) as (s4 & H4 & E4 & P4 & I4 & _); [done|done| |].
  { repeat constructor; cbn; try apply Hbyte; done. }
  step_with H4. eexists true, _. split; [reflexivity|]. split; [done|]. split; [cbn; by rewrite I4|].
  cbn [dev]. rewrite E4. cbn [dev s3]. unfold data. rewrite Hk. rewrite <- E2. done.
Qed.

(** ** The boot loader *)

Lemma hex_digits_eq n remain temp ds : 0 <= remain -> digits_loop n 16 remain temp = Ret ds -> hex_digits n remain (alphabet <$> temp) = Ret (alphabet <$> ds).
Proof.
  revert remain temp. induction n as [|n IH]; intros remain temp Hrem Hd; cbn [digits_loop hex_digits] in *; [done|].
  destruct (remain =? 0); [by injection Hd as ->|]. rewrite length_fmap. rewrite Z.rem_mod_nonneg, Z.quot_div_nonneg in Hd by lia.
  rewrite (proj2 (Z.ltb_ge _ _)) in Hd by (apply Z.mod_pos_bound; lia). cbn [orb] in Hd. assert (0 <= remain / 16) by (apply Z.div_pos; lia).
  destruct (Nat.leb_spec 20 (length temp)); [done|]. rewrite (proj2 (Nat.leb_gt 32 _)) by lia.
  apply IH in Hd; [|done]. by rewrite fmap_app in Hd.
Qed.

Section boot.
Context {D : Type} `{PortIO D}.

Lemma boot_wait_eq fuel (s : @SerialPort D) : port s = boot_port -> boot_wait fuel s = wait_empty fuel s.
Proof.
  revert s. induction fuel as [|fuel IH]; intros s Hp; [done|]. cbn [boot_wait wait_empty]. unfold is_transmit_empty.
  rewrite bind_assoc, bind_ret with (c := gets port) (a := boot_port) (s' := s) by (unfold gets; by rewrite Hp). rewrite bind_assoc.
  unfold mbind, st_bind. destruct (in_ (boot_port + 5) s) as [[v s1]| | | |] eqn:E; [|done..]. cbn.
  destruct (Z.land v 32 =? 0); [|done]. apply IH. unfold in_ in E. destruct (inb _ _). by injection E as _ <-.
Qed.

Lemma wait_port fuel (s : @SerialPort D) s' : wait_empty fuel s = Ret (tt, s') -> port s' = port s.
Proof.
  revert s. induction fuel as [|fuel IH]; intros s Hw; [done|]. cbn [wait_empty] in Hw. apply bind_inv in Hw as (v & s1 & H1 & H2).
  unfold is_transmit_empty in H1. apply bind_inv in H1 as (p & s0 & [= <- <-] & H1). apply bind_inv in H1 as (w & s2 & H3 & [= <- <-]).
  assert (port s2 = port s) as E by (unfold in_ in H3; destruct (inb _ _); by injection H3 as _ <-).
  destruct (Z.land w 32 =? 0); [by rewrite (IH _ H2)|by injection H2 as <-].
Qed.

Lemma putb_eq fuel b (s : @SerialPort D) : port s = boot_port -> putb fuel b s = put fuel b s.
Proof.
  intros Hp. unfold putb, put. unfold mbind, st_bind. rewrite boot_wait_eq by done.
  destruct (wait_empty fuel s) as [[[] s1]| | | |] eqn:E; [|done..]. cbn. by rewrite (wait_port _ _ _ E), Hp.
Qed.

Lemma put_port fuel b (s : @SerialPort D) s' : put fuel b s = Ret (tt, s') -> port s' = port s.
Proof.
  unfold put. intros Hw. apply bind_inv in Hw as ([] & s1 & H1 & H2). apply wait_port in H1. apply bind_inv in H2 as (p & s2 & [= <- <-] & [= <-]). done.
Qed.

Lemma putb_list_eq fuel bs (s : @SerialPort D) : port s = boot_port -> putb_list fuel bs s = put_list fuel bs s.
Proof.
  revert s. induction bs as [|b bs IH]; intros s Hp; [done|]. cbn [putb_list put_list]. unfold mbind, st_bind. rewrite putb_eq by done.
  destruct (put fuel b s) as [[[] s1]| | | |] eqn:E; [|done..]. apply IH. by rewrite (put_port _ _ _ _ E).
Qed.

(** The boot loader and the kernel print alike: on the boot loader's port,
    [puts] sends what [<<] sends for a string, and [puti] what [<<] sends for an
    unsigned number in hexadecimal; its buffer of 32 digits is enough. *)
Theorem boot_prints_like_kernel fuel (s : @SerialPort D) :
  port s = boot_port -> int_radix_ s = Hex ->
  (forall bs, puts fuel bs s = put_str fuel bs s) /\ (forall n, 0 <= n < 2 ^ 64 -> puti fuel n s = put_int fuel n s).
Proof.
  intros Hp Hr. split.
  - intros bs. clear Hr. revert s Hp. induction bs as [|b bs IH]; intros s Hp; [done|]. cbn [puts put_str]. destruct (b =? 0); [done|]. cbn [negb].
    unfold mbind, st_bind. rewrite putb_eq by done. destruct (put fuel b s) as [[[] s1]| | | |] eqn:E; [|done..]. apply IH. by rewrite (put_port _ _ _ _ E).
  - intros n Hn. unfold puti, put_int. rewrite Hr. destruct (print_int_ok Hex n Hn) as (ds & E & _). rewrite E. unfold print_int in E.
    destruct (n =? 0) eqn:E0.
    + injection E as <-. cbn [fmap list_fmap]. rewrite putb_eq by done. change (alphabet 0) with 48. cbn [put_list]. unfold mbind, st_bind. by destruct (put fuel 48 s) as [[[] s1]| | | |].
    + destruct (digits_loop 65 (radix_of Hex) n []) as [temp| | | |] eqn:Ed; try done. injection E as <-.
      apply hex_digits_eq in Ed; [|lia]. cbn [fmap list_fmap] in Ed. rewrite Ed.
      rewrite putb_list_eq by done. exact (f_equal (fun l => put_list fuel l s) (eq_sym (map_rev alphabet temp))).
Qed.

End boot.

(** ** A port *)

(** The bytes sent, and whether the transmitter is busy: it is for one read of the
    status after each byte.  A received ['A'] is always waiting. *)
Definition Line : Type := list Z * bool.
#[export] Instance line_port : PortIO Line := {|
  inb (a : Z) (d : Line) := if a =? boot_port + 5 then (if snd d then 0x01 else 0x21, (fst d, false))
             else if a =? boot_port + 2 then (0, d) else if a =? boot_port then (65, d) else (0, d);
  outb (a b : Z) (d : Line) := if a =? boot_port then (if snd d then d else (fst d ++ [b], true)) else d
|}.

Lemma line_laws : uart_laws (D := Line) fst boot_port 1.
Proof.
  split.
  - unfold boot_port. lia.
  - intros a [l b]. unfold inb, line_port. cbn [fst snd]. destruct (a =? boot_port + 5), (a =? boot_port + 2), (a =? boot_port); done.
  - intros [l [|]]; [exists 1%nat|exists 0%nat]; (split; [lia|]); cbn; [split; [done|]|]; done.
  - intros [l [|]] b; cbn; done.
Qed.

Definition line_start : @SerialPort Line := mkSP ([], true) boot_port Dec 0.

Lemma serial_output_witness :
  exists s', print 2 [Str (lit "n="); Int 2024; Radix Hex; Chr 32; Int 2024] line_start = Ret (tt, s') /\ fst (dev s') = lit "n=2024 7e8".
Proof.
  destruct (serial_output fst boot_port 1 2 [Str (lit "n="); Int 2024; Radix Hex; Chr 32; Int 2024] line_start line_laws) as (s' & H1 & H2 & _).
  - reflexivity.
  - lia.
  - repeat constructor; cbn; lia.
  - exists s'. split; [exact H1|]. exact (eq_trans H2 eq_refl).
Defined.

Lemma uart_interrupt_witness :
  exists s', HandleIRQ 2 boot_port IOAPIC_ISA_IRQ_COM1 line_start = Ret (true, s') /\ eois s' = 1%nat /\
    fst (dev s') = lit "Serial Port input: " ++ [65; 10].
Proof.
  destruct (uart_interrupt fst boot_port 1 2 boot_port IOAPIC_ISA_IRQ_COM1 line_start line_laws) as (h & s' & H1 & H2 & H3 & H4).
  - reflexivity.
  - lia.
  - unfold boot_port. lia.
  - intros a [l b]. unfold inb, line_port. destruct (a =? boot_port + 5), (a =? boot_port + 2), (a =? boot_port), b; cbn; lia.
  - subst h. exists s'. split; [exact H1|]. split; [exact H3|exact H4].
Defined.

Lemma boot_prints_like_kernel_witness :
  puti 2 48879 (mkSP ([], false) boot_port Hex 0) = put_int 2 48879 (mkSP ([], false) boot_port Hex 0) /\
  puti 2 48879 (mkSP ([], false) boot_port Hex 0) = Ret (tt, mkSP (lit "beef", true) boot_port Hex 0).
Proof.
  split; [|vm_compute; reflexivity].
  apply (boot_prints_like_kernel 2 (mkSP ([], false) boot_port Hex 0)); [reflexivity|reflexivity|lia].
Defined.
