(* ===== verification/ContextSwitch.v ===== *)
(** * irq.S: interrupt entry, context switch and return

    The processor is its registers, the memory words the stubs address and the
    kernel state of [Syscall].  The instructions of irq.S are data; [effect] is
    what the processor does for each of them.  A call of a C++ function keeps the
    registers and the stack frame the calling convention protects and may change
    everything else: [clobber] and [below] are what it leaves there. *)
From S2P Require Import Prelude LibUtils CpuDefs Paging Process ProcessProofs ProcessThms SmallVec Irq Syscall SyscallThms.

Module ContextSwitch.
Import Process Syscall.

(** ** The processor *)

Inductive reg := RAX | RCX | RDX | RBX | RDI | RSI | RBP | R8 | R9 | R10 | R11 | R12 | R13 | R14 | R15.
Inductive sreg := DS | ES | FS | GS.
#[export] Instance reg_eq_dec : EqDecision reg.
Proof. solve_decision. Defined.
#[export] Instance sreg_eq_dec : EqDecision sreg.
Proof. solve_decision. Defined.

Record Regs := mkRegs {
  gpr : reg -> Z;
  seg : sreg -> Z;
  r_cr3 : Z;
  r_rip : Z;
  r_cs : Z;
  r_rflags : Z;
  r_rsp : Z;
  r_ss : Z
}.

(** [mem a] is the 8-byte word at [a]. *)
Record Machine := mkMachine { regs : Regs; mem : Z -> Z; sys : Sys }.

Definition upd {A} `{EqDecision A} (f : A -> Z) (a : A) (v : Z) : A -> Z := fun b => if decide (b = a) then v else f b.

(** Registers agree; [gpr] and [seg] are functions. *)
Definition regs_eq (r s : Regs) : Prop :=
  (forall x, gpr r x = gpr s x) /\ (forall x, seg r x = seg s x) /\ r_cr3 r = r_cr3 s /\ r_rip r = r_rip s /\
  r_cs r = r_cs s /\ r_rflags r = r_rflags s /\ r_rsp r = r_rsp s /\ r_ss r = r_ss s.

#[export] Instance regs_eq_equiv : Equivalence regs_eq.
Proof.
  split.
  - intros r. by repeat split.
  - intros r s (?&?&?&?&?&?&?&?). repeat split; by symmetry.
  - intros r s t (H1&H2&?&?&?&?&?&?) (K1&K2&?&?&?&?&?&?).
    split; [intros x; by rewrite H1|]. split; [intros x; by rewrite H2|]. repeat split; congruence.
Qed.

(** ** Instructions *)

Inductive instr :=
  | PUSH (r : reg) | PUSHI (imm : Z) | POP (r : reg)
  | MOV (src dst : reg)
  | MOV_from_cr3 (dst : reg) | MOV_to_cr3 (src : reg)
  | XOR_self (r : reg)
  | MOV_from_seg (s : sreg) (dst : reg) | MOV_to_seg (src : reg) (s : sreg)
  | MOV_from_rsp (dst : reg) | MOV_to_rsp (src : reg)
  | LOAD (off : Z) (dst : reg)
  | ADD_rsp (imm : Z)
  | IRETQ.

Definition with_gpr (g : reg -> Z) (r : Regs) : Regs :=
  mkRegs g (seg r) (r_cr3 r) (r_rip r) (r_cs r) (r_rflags r) (r_rsp r) (r_ss r).
Definition with_rsp (p : Z) (r : Regs) : Regs :=
  mkRegs (gpr r) (seg r) (r_cr3 r) (r_rip r) (r_cs r) (r_rflags r) p (r_ss r).
Definition set_gpr (x : reg) (v : Z) (m : Machine) : Machine :=
  mkMachine (with_gpr (upd (gpr (regs m)) x v) (regs m)) (mem m) (sys m).
Definition set_rsp (p : Z) (m : Machine) : Machine := mkMachine (with_rsp p (regs m)) (mem m) (sys m).

Definition push (v : Z) (m : Machine) : Machine :=
  let p := wrap64 (r_rsp (regs m) - 8) in
  mkMachine (with_rsp p (regs m)) (upd (mem m) p v) (sys m).

Definition word_at (m : Machine) (off : Z) : Z := mem m (wrap64 (r_rsp (regs m) + off)).

Definition effect (i : instr) (m : Machine) : Machine :=
  let r := regs m in
  match i with
  | PUSH x => push (gpr r x) m
  | PUSHI z => push (wrap64 z) m
  | POP x => set_rsp (wrap64 (r_rsp r + 8)) (set_gpr x (word_at m 0) m)
  | MOV src dst => set_gpr dst (gpr r src) m
  | MOV_from_cr3 dst => set_gpr dst (r_cr3 r) m
  | MOV_to_cr3 src =>
      mkMachine (mkRegs (gpr r) (seg r) (gpr r src) (r_rip r) (r_cs r) (r_rflags r) (r_rsp r) (r_ss r)) (mem m) (sys m)
  | XOR_self x => set_gpr x (Z.lxor (gpr r x) (gpr r x)) m
  | MOV_from_seg s dst => set_gpr dst (set_bits 0 16 (seg r s) (gpr r dst)) m
  | MOV_to_seg src s =>
      mkMachine (mkRegs (gpr r) (upd (seg r) s (wrap16 (gpr r src))) (r_cr3 r) (r_rip r) (r_cs r) (r_rflags r) (r_rsp r) (r_ss r))
        (mem m) (sys m)
  | MOV_from_rsp dst => set_gpr dst (r_rsp r) m
  | MOV_to_rsp src => set_rsp (gpr r src) m
  | LOAD off dst => set_gpr dst (word_at m off) m
  | ADD_rsp z => set_rsp (wrap64 (r_rsp r + z)) m
  | IRETQ =>
      mkMachine (mkRegs (gpr r) (seg r) (r_cr3 r) (word_at m 0) (word_at m 8) (word_at m 16) (word_at m 24) (word_at m 32))
        (mem m) (sys m)
  end.

Fixpoint run (code : list instr) (m : Machine) : Machine :=
  match code with [] => m | i :: code => run code (effect i m) end.

(** ** The code of irq.S *)

Definition return_from_syscall : list instr :=
  [MOV_to_rsp RDI;
   POP RAX; MOV_to_seg RAX DS; POP RAX; MOV_to_seg RAX ES; POP RAX; MOV_to_seg RAX FS; POP RAX; MOV_to_seg RAX GS;
   POP RAX; MOV_to_cr3 RAX;
   POP R15; POP R14; POP R13; POP R12; POP R11; POP R10; POP R9; POP R8;
   POP RBP; POP RSI; POP RDI; POP RBX; POP RDX; POP RCX; POP RAX;
   ADD_rsp 16; IRETQ].

(** The part of [_irq_handler] that saves the registers. *)
Definition save_registers : list instr :=
  [PUSH RAX; PUSH RCX; PUSH RDX; PUSH RBX; PUSH RDI; PUSH RSI; PUSH RBP;
   PUSH R8; PUSH R9; PUSH R10; PUSH R11; PUSH R12; PUSH R13; PUSH R14; PUSH R15;
   MOV_from_cr3 RAX; PUSH RAX;
   XOR_self RAX; MOV_from_seg GS RAX; PUSH RAX; MOV_from_seg FS RAX; PUSH RAX;
   MOV_from_seg ES RAX; PUSH RAX; MOV_from_seg DS RAX; PUSH RAX;
   MOV_from_rsp RDI].

(** Exceptions for which the processor pushes an error code itself; their stubs
    push the interrupt number only. *)
Definition pushes_number_only (n : Z) : bool := (n =? 8) || ((10 <=? n) && (n <=? 14)).

Definition stub_code (s : Irq.stub) : list instr :=
  match s with
  | Irq.DefaultStub => [PUSHI (-1); PUSHI 0xff]
  | Irq.Stub n => if pushes_number_only n then [PUSHI n] else [PUSHI 0; PUSHI n]
  end.

(** ** Contexts in memory *)

(** The words of a [Context], in the order of its members. *)
Definition context_words (c : Context) : list Z :=
  [ds c; es c; fs c; gs c; cr3 c; r15 c; r14 c; r13 c; r12 c; r11 c; r10 c; r9 c; r8 c;
   rbp c; rsi c; rdi c; rbx c; rdx c; rcx c; rax c; fst (reserved1 c); snd (reserved1 c);
   rip c; cs c; rflags c; rsp c; ss c].

(** [*(Context* )a] *)
Definition context_at (mm : Z -> Z) (a : Z) : Context :=
  let w i := mm (a + 8 * i) in
  mkContext (w 0) (w 1) (w 2) (w 3) (w 4) (w 5) (w 6) (w 7) (w 8) (w 9) (w 10) (w 11) (w 12)
    (w 13) (w 14) (w 15) (w 16) (w 17) (w 18) (w 19) (w 20, w 21) (w 22) (w 23) (w 24) (w 25) (w 26).

(** The memory with the object [c] at [a]. *)
Definition with_context (a : Z) (c : Context) (mm : Z -> Z) : Z -> Z := fun x =>
  if (a <=? x) && (x <? a + sizeof_Context) && ((x - a) mod 8 =? 0)
  then nth (Z.to_nat ((x - a) / 8)) (context_words c) 0 else mm x.

(** [&p->context] *)
Definition context_addr (p : Process) : Z := kernel_stack_bottom (this p).

(** Where [kernel_stack] is in the object. *)
Definition kernel_stack_offset : Z := 8 + 8 + sizeof_kstring + 8 + 8 + 8 + 8.
(** The bytes from [lo] to [hi] belong to no member of the process object at [a]
    but its kernel stack. *)
Definition spares (lo hi a : Z) : Prop :=
  hi <= a \/ a + sizeof_Process <= lo \/ a + kernel_stack_offset <= lo /\ hi <= a + kernel_stack_offset + THREAD_KERNEL_STACK_SIZE.

(** ** System calls as interrupts *)

Definition IRQ_SYSCALL : Z := 42.

(** [Syscall::SetupSyscall] *)
Definition syscall_handler : Irq.InterruptHandler Sys := fun info => handle_syscall (Irq.info_pid info).
Definition SetupSyscall (t : Irq.handler_table Sys) : outcome (Irq.handler_table Sys) := Irq.Register IRQ_SYSCALL syscall_handler t.

(** ** The interrupt path *)

(** Registers a called function must keep. *)
Definition callee_saved (r : reg) : bool :=
  match r with RBX | RBP | R12 | R13 | R14 | R15 => true | _ => false end.

Section machine.
Context (clobber : Machine -> reg -> Z) (below : Machine -> Z -> Z).
Context (no_handler : Irq.InterruptHandler Sys) (table : Irq.handler_table Sys).
(** The kernel stack of the task state segment, the kernel's selector and the
    addresses of the stubs. *)
Context (rsp0 kernel_cs : Z) (handler_addr : Irq.stub -> Z).

(** [irq_handler] *)
Definition irq_handler (irq_num error_code : Z) : SM unit := fun s =>
  Irq.HandleInterrupt no_handler table irq_num error_code (current_pid (kern s)) s.

(** A call of [c], which leaves the caller's frame of [sizeof_Context] bytes. *)
Definition call {A} (c : SM A) : ST Machine A := fun m =>
  match c (sys m) with
  | Ret (a, s) =>
      let r := regs m in
      let p := r_rsp r in
      Ret (a, mkMachine (with_gpr (fun x => if callee_saved x then gpr r x else clobber m x) r)
                (fun x => if (p <=? x) && (x <? p + sizeof_Context) then mem m x else below m x) s)
  | Panic e => Panic e | Halt => Halt | Fault => Fault | OutOfFuel => OutOfFuel
  end.

(** [call current_context]: the address of the saved registers in [rax]; the words
    there are those of the process object. *)
Definition call_current_context : ST Machine unit :=
  p ← call (lift_kernel (pid ← gets current_pid; process_at pid));
  modify (fun m => set_gpr RAX (context_addr p) (mkMachine (regs m) (with_context (context_addr p) (context p) (mem m)) (sys m))).

(** [_irq_handler], from the pushes of the stub on. *)
Definition _irq_handler : ST Machine unit :=
  modify (run save_registers);;
  m ← get;
  call (lift_kernel (store_current_thread_context (context_at (mem m) (gpr (regs m) RDI))));;
  modify (run [LOAD 160 RDI; LOAD 168 RSI]);;
  m ← get;
  call (irq_handler (gpr (regs m) RDI) (gpr (regs m) RSI));;
  call (lift_kernel schedule);;
  call_current_context;;
  modify (run (MOV RAX RDI :: return_from_syscall)).

(** What the processor does when interrupt [v] occurs: it switches to the kernel
    stack when it was in user mode, aligns it, pushes the interrupted state and
    for some exceptions an error code, and enters the stub through a gate that
    disables interrupts. *)
Definition stack_base (r : Regs) : Z := 16 * ((if Z.land (r_cs r) 3 =? 0 then r_rsp r else rsp0) / 16).

Definition push_frame (r : Regs) (error_code : option Z) (m : Machine) : Machine :=
  let m := push (r_rip r) (push (r_cs r) (push (r_rflags r) (push (r_rsp r) (push (r_ss r) m)))) in
  match error_code with Some e => push e m | None => m end.

Definition enter_gate (v : Z) (m : Machine) : Machine :=
  let r := regs m in
  let user := negb (Z.land (r_cs r) 3 =? 0) in
  mkMachine (mkRegs (gpr r) (seg r) (r_cr3 r) (handler_addr (fst (Irq.stub_for v))) kernel_cs (set_bits 9 1 0 (r_rflags r)) (r_rsp r)
    (if user then 0 else r_ss r)) (mem m) (sys m).

Definition deliver (v : Z) (error_code : option Z) (m : Machine) : Machine :=
  enter_gate v (push_frame (regs m) error_code (set_rsp (stack_base (regs m)) m)).

(** The frame of the interrupt ends at [b].  Process objects are kept in [sys] and
    stacks in [mem], so that the model follows the machine only where the objects
    do not overlap and the frame lies outside of them or in a kernel stack; it is
    [Fault] elsewhere. *)
Definition in_place (b : Z) (k : Kernel) : Prop :=
  objects_apart (object_addresses k) /\ map_Forall (fun _ a => spares (b - sizeof_Context) b a) (object_addresses k).
#[export] Instance in_place_dec b k : Decision (in_place b k).
Proof. unfold in_place, objects_apart, spares. apply _. Defined.

Definition interrupt (v : Z) (error_code : option Z) : ST Machine unit :=
  m ← get;
  if bool_decide (in_place (stack_base (regs m)) (kern (sys m))) then
    modify (deliver v error_code);;
    modify (run (stub_code (fst (Irq.stub_for v))));;
    _irq_handler
  else fault.

(** [kyield]: [movq $0x2, %rax; int $42] *)
Definition kyield : ST Machine unit :=
  modify (set_gpr RAX 2);;
  interrupt 42 None.

End machine.

(** ** The saved state of a process *)

(** The context that stands for registers [r], interrupted by [irq_num]. *)
Definition context_of (r : Regs) (irq_num error_code : Z) : Context :=
  mkContext (seg r DS) (seg r ES) (seg r FS) (seg r GS) (r_cr3 r)
    (gpr r R15) (gpr r R14) (gpr r R13) (gpr r R12) (gpr r R11) (gpr r R10) (gpr r R9) (gpr r R8)
    (gpr r RBP) (gpr r RSI) (gpr r RDI) (gpr r RBX) (gpr r RDX) (gpr r RCX) (gpr r RAX)
    (irq_num, error_code) (r_rip r) (r_cs r) (r_rflags r) (r_rsp r) (r_ss r).

(** The registers a context stands for. *)
Definition regs_of (c : Context) : Regs :=
  mkRegs (fun x => match x with
    | RAX => rax c | RCX => rcx c | RDX => rdx c | RBX => rbx c | RDI => rdi c | RSI => rsi c | RBP => rbp c
    | R8 => r8 c | R9 => r9 c | R10 => r10 c | R11 => r11 c | R12 => r12 c | R13 => r13 c | R14 => r14 c | R15 => r15 c
    end)
    (fun s => match s with DS => ds c | ES => es c | FS => fs c | GS => gs c end)
    (cr3 c) (rip c) (cs c) (rflags c) (rsp c) (ss c).

(** Segment registers hold 16 bits. *)
Definition regs_wf (r : Regs) : Prop := forall s, uint 16 (seg r s).

(** The number and error code the stubs leave in the frame. *)
Definition frame_number (v : Z) : Z := Irq.stub_number (fst (Irq.stub_for v)).
Definition frame_error (v : Z) (error_code : option Z) : Z :=
  match fst (Irq.stub_for v), error_code with
  | Irq.DefaultStub, _ => 2 ^ 64 - 1
  | Irq.Stub _, Some e => e
  | Irq.Stub _, None => 0
  end.

(** The processor pushes an error code exactly for these vectors. *)
Definition has_error_code (v : Z) (error_code : option Z) : Prop := is_Some error_code <-> v = 8 \/ 10 <= v <= 14.

End ContextSwitch.
