(* ===== verification/ContextSwitchThms.v ===== *)
(** * The context switch of irq.S: what is saved, what is restored, who runs next *)
From S2P Require Import Prelude LibUtils CpuDefs LibString Paging Process ProcessProofs ProcessThms SmallVec Irq Syscall SyscallThms ContextSwitch.
Import Process Syscall ContextSwitch.

(** ** Words on a stack *)

(** [ws] are the words pushed below [b], the last one first. *)
Definition stackw (mm : Z -> Z) (b : Z) (ws : list Z) : Prop :=
  forall i w, ws !! i = Some w -> mm (b - 8 * Z.of_nat (length ws) + 8 * Z.of_nat i) = w.

Lemma stackw_nil mm b : stackw mm b [].
Proof. by intros i w H. Qed.

Lemma stackw_push mm b ws p v : p = b - 8 * (Z.of_nat (length ws) + 1) -> stackw mm b ws -> stackw (upd mm p v) b (v :: ws).
Proof.
  intros -> H [|i] w Hi; cbn [length]; unfold upd.
  - injection Hi as <-. rewrite decide_True by lia. done.
  - assert (i < length ws)%nat by (by eapply lookup_lt_Some). rewrite decide_False by lia.
    rewrite <- (H i w Hi). f_equal. lia.
Qed.

(** A push when the stack pointer is [n] words below [b]. *)
Lemma push_eff v g s c3 ip c fl b n st mm k : 0 <= n -> 8 * (n + 1) <= b < 2 ^ 64 ->
  push v (mkMachine (mkRegs g s c3 ip c fl (b - 8 * n) st) mm k) =
  mkMachine (mkRegs g s c3 ip c fl (b - 8 * (n + 1)) st) (upd mm (b - 8 * (n + 1)) v) k.
Proof.
  intros Hn Hb. unfold push, with_rsp. cbn. rewrite !wrap_small by (unfold uint; lia).
  by replace (b - 8 * n - 8) with (b - 8 * (n + 1)) by lia.
Qed.

(** A pop when the stack pointer is [n] words above [a]. *)
Lemma pop_eff x g s c3 ip c fl a n st mm k : 0 <= n -> 0 <= a -> a + 8 * (n + 1) < 2 ^ 64 ->
  effect (POP x) (mkMachine (mkRegs g s c3 ip c fl (a + 8 * n) st) mm k) =
  mkMachine (mkRegs (upd g x (mm (a + 8 * n))) s c3 ip c fl (a + 8 * (n + 1)) st) mm k.
Proof.
  intros Hn Ha Hb. unfold effect, set_rsp, set_gpr, with_rsp, with_gpr, word_at. cbn [regs r_rsp gpr seg r_cr3 r_rip r_cs r_rflags r_ss mem sys].
  rewrite !wrap_small by (unfold uint; lia). rewrite Z.add_0_r. by replace (a + 8 * n + 8) with (a + 8 * (n + 1)) by lia.
Qed.

Lemma set_bits_low16 v z : 0 <= z < 2 ^ 16 -> uint 16 v -> set_bits 0 16 v z = v.
Proof.
  intros Hz Hv. apply Z.bits_inj'. intros i Hi. rewrite testbit_set_bits by lia. rewrite (proj2 (Z.leb_le _ _)) by lia.
  cbn [andb]. destruct (Z.ltb_spec i (0 + 16)); [by rewrite Z.sub_0_r|].
  assert (forall x, 0 <= x < 2 ^ 16 -> Z.testbit x i = false) as Hh.
  { intros x Hx. destruct (decide (x = 0)) as [->|Hx0]; [apply Z.bits_0|]. apply Z.bits_above_log2; [lia|].
    assert (Z.log2 x < 16) by (apply Z.log2_lt_pow2; lia). lia. }
  by rewrite !Hh.
Qed.

(** ** Saving *)

(** What the frame of an interrupt holds below the error code and number. *)
Definition iret_frame (r : Regs) : list Z := [r_rip r; r_cs r; r_rflags r; r_rsp r; r_ss r].

(** Entry state: registers [r] still in place, [ws] on the stack. *)
Definition entered (r : Regs) (b : Z) (ws : list Z) (s : Sys) (m : Machine) : Prop :=
  (forall x, gpr (regs m) x = gpr r x) /\ (forall x, seg (regs m) x = seg r x) /\ r_cr3 (regs m) = r_cr3 r /\
  r_rsp (regs m) = b - 8 * Z.of_nat (length ws) /\ stackw (mem m) b ws /\ sys m = s.

Lemma entered_push r b ws s m v : 8 * (Z.of_nat (length ws) + 1) <= b < 2 ^ 64 ->
  entered r b ws s m -> entered r b (v :: ws) s (push v m).
Proof.
  intros Hb (H1 & H2 & H3 & H4 & H5 & H6). unfold push. rewrite H4, wrap_small by (unfold uint; lia).
  split_and!; try done; [cbn [regs with_rsp r_rsp length]; lia|]. apply stackw_push; [lia|done].
Qed.

Lemma push_frame_entered r b e s m : 48 <= b < 2 ^ 64 -> entered r b [] s m ->
  entered r b (match e with Some e => e :: iret_frame r | None => iret_frame r end) s (push_frame r e m).
Proof.
  intros Hb H. unfold push_frame.
  destruct e; repeat (apply entered_push; [cbn [length iret_frame]; lia|]); exact H.
Qed.

Lemma enter_gate_entered kcs ha v r b ws s m : entered r b ws s m -> entered r b ws s (enter_gate kcs ha v m).
Proof. intros (H1 & H2 & H3 & H4 & H5 & H6). exact (conj H1 (conj H2 (conj H3 (conj H4 (conj H5 H6))))). Qed.

Lemma deliver_entered rsp0 kcs ha v e m : 48 <= stack_base rsp0 (regs m) < 2 ^ 64 ->
  entered (regs m) (stack_base rsp0 (regs m)) (match e with Some e => e :: iret_frame (regs m) | None => iret_frame (regs m) end)
    (sys m) (deliver rsp0 kcs ha v e m).
Proof.
  intros Hb. apply enter_gate_entered, push_frame_entered; [done|]. split_and!; try done. cbn [regs set_rsp with_rsp r_rsp length]. lia.
Qed.

(** The stub completes the frame with the error code and the number. *)
Lemma stub_entered r b s m v e : 56 <= b < 2 ^ 64 -> 0 <= v < Irq.MaxInterrupts -> has_error_code v e ->
  entered r b (match e with Some e => e :: iret_frame r | None => iret_frame r end) s m ->
  entered r b (frame_number v :: frame_error v e :: iret_frame r) s (run (stub_code (fst (Irq.stub_for v))) m).
Proof.
  intros Hb Hv He H. unfold frame_number, frame_error.
  assert (match fst (Irq.stub_for v) with
    | Irq.DefaultStub => ~ (v = 8 \/ 10 <= v <= 14)
    | Irq.Stub n => 0 <= n < 2 ^ 64 /\ (pushes_number_only n = true <-> v = 8 \/ 10 <= v <= 14) end) as Hs.
  { assert (forallb (fun v => match fst (Irq.stub_for v) with
      | Irq.DefaultStub => bool_decide (~ (v = 8 \/ 10 <= v <= 14))
      | Irq.Stub n => bool_decide (0 <= n < 2 ^ 64) && eqb (pushes_number_only n) (bool_decide (v = 8 \/ 10 <= v <= 14)) end)
      (seqZ 0 256) = true) as Hall by (by vm_compute).
    rewrite forallb_forall in Hall. specialize (Hall v). rewrite <- list_elem_of_In, elem_of_seqZ in Hall.
    specialize (Hall ltac:(unfold Irq.MaxInterrupts in Hv; lia)). destruct (fst (Irq.stub_for v)).
    - by apply bool_decide_eq_true in Hall.
    - apply andb_true_iff in Hall as [H1 H2]. apply bool_decide_eq_true in H1. apply eqb_prop in H2. split; [done|].
      by rewrite H2, bool_decide_eq_true. }
  destruct (fst (Irq.stub_for v)) as [|n]; cbn [stub_code Irq.stub_number].
  - destruct e; [exfalso; apply Hs, He; eauto|]. cbn [run effect].
    apply entered_push; [cbn; lia|]. apply entered_push; [cbn; lia|done].
  - destruct Hs as [Hn Hs]. destruct (pushes_number_only n) eqn:En; cbn [run effect].
    + destruct e as [e|]; [|exfalso; eapply is_Some_None, He, Hs; done].
      rewrite wrap_small by done. apply entered_push; [cbn; lia|done].
    + destruct e as [e|]; [exfalso; assert (false = true) by (apply Hs, He; eauto); done|].
      rewrite (wrap_small _ n) by done. apply entered_push; [cbn; lia|]. apply entered_push; [cbn; lia|done].
Qed.

Lemma entered_set_gpr r b ws s m x v : entered r b ws s m -> entered (with_gpr (upd (gpr r) x v) r) b ws s (set_gpr x v m).
Proof.
  intros (H1 & H2 & H3 & H4 & H5 & H6). split_and!; try done. intros y. cbn [regs set_gpr with_gpr gpr].
  unfold upd. case_decide; [done|apply H1].
Qed.

Lemma entered_PUSH r b ws s m x : 8 * (Z.of_nat (length ws) + 1) <= b < 2 ^ 64 ->
  entered r b ws s m -> entered r b (gpr r x :: ws) s (effect (PUSH x) m).
Proof. intros Hb H. pose proof H as (H1 & _). cbn [effect]. rewrite <- H1. by apply entered_push. Qed.

Lemma entered_mov_cr3 r b ws s m x : entered r b ws s m -> entered (with_gpr (upd (gpr r) x (r_cr3 r)) r) b ws s (effect (MOV_from_cr3 x) m).
Proof. intros H. pose proof H as (_ & _ & H3 & _). cbn [effect]. rewrite H3. by apply entered_set_gpr. Qed.
Lemma entered_xor r b ws s m x : entered r b ws s m -> entered (with_gpr (upd (gpr r) x 0) r) b ws s (effect (XOR_self x) m).
Proof. intros H. cbn [effect]. rewrite Z.lxor_nilpotent. by apply entered_set_gpr. Qed.
Lemma entered_mov_seg r b ws s m x sg : uint 16 (seg r sg) -> 0 <= gpr r x < 2 ^ 16 -> entered r b ws s m ->
  entered (with_gpr (upd (gpr r) x (seg r sg)) r) b ws s (effect (MOV_from_seg sg x) m).
Proof.
  intros Hs Hx H. pose proof H as (H1 & H2 & _). cbn [effect]. rewrite H1, H2, set_bits_low16 by done. by apply entered_set_gpr.
Qed.
Lemma entered_mov_rsp r b ws s m x : entered r b ws s m ->
  entered (with_gpr (upd (gpr r) x (b - 8 * Z.of_nat (length ws))) r) b ws s (effect (MOV_from_rsp x) m).
Proof. intros H. pose proof H as (_ & _ & _ & H4 & _). cbn [effect]. rewrite H4. by apply entered_set_gpr. Qed.

(** One instruction of the saving code, forgetting the state before it. *)
Ltac forget i m H := generalize dependent (effect i m); clear m; intros m H.
Ltac save_step :=
  match goal with
  | H : entered ?r ?b ?ws ?s ?m |- context [run (?i :: ?code) ?m] =>
      change (run (i :: code) m) with (run code (effect i m));
      lazymatch i with
      | PUSH ?x => apply (entered_PUSH r b ws s m x ltac:(cbn [length]; lia)) in H
      | MOV_from_cr3 ?x => apply (entered_mov_cr3 r b ws s m x) in H
      | XOR_self ?x => apply (entered_xor r b ws s m x) in H
      | MOV_from_rsp ?x => apply (entered_mov_rsp r b ws s m x) in H
      | MOV_from_seg ?sg ?x => apply (entered_mov_seg r b ws s m x sg) in H; [|auto..]
      end; [forget i m H|..]
  end.

(** After the pushes the words on the stack are a [Context]. *)
Lemma save_entered r b s m n e : regs_wf r -> 216 <= b < 2 ^ 64 ->
  entered r b (n :: e :: iret_frame r) s m ->
  exists r', entered r' b (context_words (context_of r n e)) s (run save_registers m) /\ gpr r' RDI = b - 216.
Proof.
  intros Hwf Hb H. unfold save_registers. unfold iret_frame in H.
  do 18 save_step. save_step; [|apply (Hwf GS)|split; reflexivity].
  save_step. save_step; [|apply (Hwf FS)|apply (Hwf GS)].
  save_step. save_step; [|apply (Hwf ES)|apply (Hwf FS)].
  save_step. save_step; [|apply (Hwf DS)|apply (Hwf ES)].
  save_step. save_step. eexists. split; [exact H|]. transitivity (b - 8 * Z.of_nat 27); [reflexivity|lia].
Qed.

(** Reading the frame back as a [Context]. *)
Lemma context_at_words mm b c : stackw mm b (context_words c) -> context_at mm (b - 216) = c.
Proof.
  intros H. assert (forall i, (i < 27)%nat -> mm (b - 216 + 8 * Z.of_nat i) = nth i (context_words c) 0) as Hw.
  { intros i Hi. destruct (lookup_lt_is_Some_2 (context_words c) i) as [w E]; [done|].
    rewrite (nth_lookup_Some _ _ _ _ E), <- (H i w E). done. }
  destruct c as [? ? ? ? ? ? ? ? ? ? ? ? ? ? ? ? ? ? ? ? [? ?] ? ? ? ? ?]. unfold context_at. cbv zeta. f_equal; [..|f_equal| | | | |].
  all: match goal with |- _ (_ + 8 * ?i) = _ => exact (Hw (Z.to_nat i) ltac:(vm_compute; lia)) end.
Qed.

(** ** Restoring *)

Lemma with_context_word a c mm i : 0 <= i < 27 -> with_context a c mm (a + 8 * i) = nth (Z.to_nat i) (context_words c) 0.
Proof.
  intros Hi. unfold with_context, sizeof_Context. rewrite (proj2 (Z.leb_le _ _)), (proj2 (Z.ltb_lt _ _)) by lia.
  replace (a + 8 * i - a) with (i * 8) by lia. rewrite Z.mod_mul, Z.div_mul by lia. done.
Qed.

Lemma mov_seg_eff x sg g s c3 ip c fl sp st mm k :
  effect (MOV_to_seg x sg) (mkMachine (mkRegs g s c3 ip c fl sp st) mm k) =
  mkMachine (mkRegs g (upd s sg (wrap16 (g x))) c3 ip c fl sp st) mm k.
Proof. done. Qed.
Lemma mov_cr3_eff x g s c3 ip c fl sp st mm k :
  effect (MOV_to_cr3 x) (mkMachine (mkRegs g s c3 ip c fl sp st) mm k) = mkMachine (mkRegs g s (g x) ip c fl sp st) mm k.
Proof. done. Qed.
Lemma add_rsp_eff z g s c3 ip c fl sp st mm k : uint 64 (sp + z) ->
  effect (ADD_rsp z) (mkMachine (mkRegs g s c3 ip c fl sp st) mm k) = mkMachine (mkRegs g s c3 ip c fl (sp + z) st) mm k.
Proof. intros H. unfold effect, set_rsp, with_rsp. cbn. by rewrite wrap_small. Qed.
Lemma iretq_eff g s c3 ip c fl sp st mm k : 0 <= sp -> sp + 32 < 2 ^ 64 ->
  effect IRETQ (mkMachine (mkRegs g s c3 ip c fl sp st) mm k) =
  mkMachine (mkRegs g s c3 (mm sp) (mm (sp + 8)) (mm (sp + 16)) (mm (sp + 24)) (mm (sp + 32))) mm k.
Proof. intros H1 H2. unfold effect, word_at. cbn. rewrite !wrap_small by (unfold uint; lia). by rewrite Z.add_0_r. Qed.

(** The goal is word [i] of the context. *)
Ltac word H i := refine (H _ i _ _); lia.

(** [return_from_syscall] loads exactly the registers of the context. *)
Lemma return_from_syscall_loads m a c :
  gpr (regs m) RDI = a -> 0 <= a -> a + sizeof_Context < 2 ^ 64 ->
  (forall i, 0 <= i < 27 -> mem m (a + 8 * i) = nth (Z.to_nat i) (context_words c) 0) -> regs_wf (regs_of c) ->
  let m' := run return_from_syscall m in regs_eq (regs m') (regs_of c) /\ sys m' = sys m.
Proof.
  intros Hrdi Ha Hb Hw Hwf m'. unfold sizeof_Context in Hb. destruct m as [[g s c3 ip cs0 fl sp st] mm k]. cbn in Hrdi, Hw.
  subst m'. unfold return_from_syscall. cbn [run].
  change (effect (MOV_to_rsp RDI) (mkMachine (mkRegs g s c3 ip cs0 fl sp st) mm k)) with
    (mkMachine (mkRegs g s c3 ip cs0 fl (g RDI) st) mm k). rewrite Hrdi.
  rewrite <- (Z.add_0_r a) at 1. change (a + 0) with (a + 8 * 0).
  repeat first [rewrite pop_eff by lia | rewrite mov_seg_eff | rewrite mov_cr3_eff].
  rewrite add_rsp_eff by (unfold uint; lia). rewrite iretq_eff by lia.
  assert (forall x i, 0 <= i < 27 -> x = a + 8 * i -> mm x = nth (Z.to_nat i) (context_words c) 0) as Hw'.
  { intros x i Hi ->. by apply Hw. }
  split; [|done]. split_and!.
  - intros []; [word Hw' 19|word Hw' 18|word Hw' 17|word Hw' 16|word Hw' 15|word Hw' 14|word Hw' 13|word Hw' 12
               |word Hw' 11|word Hw' 10|word Hw' 9|word Hw' 8|word Hw' 7|word Hw' 6|word Hw' 5].
  - intros sg. transitivity (wrap16 (seg (regs_of c) sg)); [|apply wrap_small, Hwf].
    destruct sg; refine (f_equal wrap16 _); [word Hw' 0|word Hw' 1|word Hw' 2|word Hw' 3].
  - word Hw' 4.
  - word Hw' 22.
  - word Hw' 23.
  - word Hw' 24.
  - word Hw' 25.
  - word Hw' 26.
Qed.

(** ** The whole interrupt *)

(** Address and saved registers of process [pid]. *)
Definition saved (s : Sys) (pid : Z) : option (Z * Context) := (fun p => (this p, context p)) <$> processes (kern s) !! pid.

(** Process objects lie inside the address space, do not overlap and hold proper
    contexts. *)
Record ready (s : Sys) : Prop := {
  rd_inv : sched_inv (kern s);
  rd_room : next_pid (kern s) < MAX_PROCESS;
  rd_saved pid a c : saved s pid = Some (a, c) -> kernel_stack_bottom a + sizeof_Context < 2 ^ 64 /\ regs_wf (regs_of c);
  rd_apart : objects_apart (object_addresses (kern s))
}.

(** [s] and [s'] differ, as far as the interrupt path is concerned, in the saved
    registers of the current process at most, which are [c] in [s']. *)
Record acted (s s' : Sys) (c : Context) : Prop := {
  ac_inv : sched_inv (kern s) -> sched_inv (kern s');
  ac_next : next_pid (kern s') = next_pid (kern s);
  ac_current : current_pid (kern s') = current_pid (kern s);
  ac_saved pid : saved s' pid = if decide (pid = current_pid (kern s)) then (fun '(a, _) => (a, c)) <$> saved s pid else saved s pid
}.

(** Objects stay where they are when saved addresses do. *)
Lemma addresses_eq s s' : (forall pid, fst <$> saved s' pid = fst <$> saved s pid) -> object_addresses (kern s') = object_addresses (kern s).
Proof.
  intros H. apply map_eq. intros pid. specialize (H pid). unfold saved, object_addresses in *. rewrite !lookup_fmap.
  destruct (processes (kern s') !! pid), (processes (kern s) !! pid); cbn in *; congruence.
Qed.

Lemma lift_kernel_ok {A} (c : ST Kernel A) s a k : c (kern s) = Ret (a, k) -> lift_kernel c s = Ret (a, mkSys k (umem s) (console s)).
Proof. intros H. unfold lift_kernel. by rewrite H. Qed.

(** User memory and console. *)
Definition io (s : Sys) : LibString.memory * list (Z * list Z) := (umem s, console s).

Lemma lift_kernel_io {A} (c : ST Kernel A) s a s' : lift_kernel c s = Ret (a, s') -> io s' = io s.
Proof. unfold lift_kernel. destruct (c (kern s)) as [[? ?]| | | |]; [|done..]. by intros [= _ <-]. Qed.

(** Replacing the saved registers of the current process. *)
Lemma set_context_acted s p c : sched_inv (kern s) -> processes (kern s) !! current_pid (kern s) = Some p ->
  acted s (with_process (current_pid (kern s)) (set_context c p) s) c.
Proof.
  intros [Hc Hn Hu Hid Hr] Hp. split; cbn; try done.
  - intros _. split; cbn; try done.
    + intros pid. rewrite lookup_insert_is_Some', Hu. split; [intros [<-|?]; [lia|done]|by right].
    + intros pid q. rewrite lookup_insert. case_decide; [|apply Hid]. intros [= <-]. cbn. subst pid. by apply Hid.
    + intros pid q. rewrite lookup_insert. case_decide; [done|apply Hr].
  - intros pid. unfold saved. cbn. rewrite lookup_insert. destruct (decide (pid = current_pid (kern s))) as [->|Hne].
    + rewrite decide_True, Hp by done. done.
    + by rewrite decide_False by done.
Qed.

Lemma store_run s c p : sched_inv (kern s) -> processes (kern s) !! current_pid (kern s) = Some p ->
  lift_kernel (store_current_thread_context c) s = Ret (tt, with_process (current_pid (kern s)) (set_context c p) s).
Proof.
  intros [Hc Hn _ _ _] Hp. apply lift_kernel_ok. unfold store_current_thread_context.
  rewrite bind_ret with (a := current_pid (kern s)) (s' := kern s); [|done]. apply update_process_ok; [lia|exact Hp].
Qed.
Lemma store_acted s c : sched_inv (kern s) ->
  exists s', lift_kernel (store_current_thread_context c) s = Ret (tt, s') /\ acted s s' c.
Proof.
  intros Hi. destruct (proj2 (si_used _ Hi _) (si_current _ Hi)) as [p Hp].
  eexists. split; [by apply store_run|by apply (set_context_acted s p)].
Qed.

Lemma acted_trans s1 s2 s3 c c' : acted s1 s2 c -> acted s2 s3 c' -> acted s1 s3 c'.
Proof.
  intros [I1 N1 C1 S1] [I2 N2 C2 S2]. split; [auto|congruence|congruence|].
  intros pid. rewrite S2, C1, S1. case_decide; [|done]. by destruct (saved s1 pid) as [[? ?]|].
Qed.

(** Scheduling keeps all saved registers. *)
Lemma schedule_saved s : sched_inv (kern s) -> next_pid (kern s) < MAX_PROCESS ->
  exists s', lift_kernel schedule s = Ret (tt, s') /\ sched_inv (kern s') /\ next_pid (kern s') = next_pid (kern s) /\
    current_pid (kern s') = succ_pid (next_pid (kern s)) (current_pid (kern s)) /\ (forall pid, saved s' pid = saved s pid).
Proof.
  intros Hi Hn. destruct (schedule_ok (kern s) Hi (or_introl Hn)) as (k' & Hs & Hsw).
  eexists. split; [by apply lift_kernel_ok|]. cbn.
  assert (sched_inv k') by (eapply switched_inv; [exact Hi|done|apply succ_pid_range, Hi]).
  destruct Hsw as (E1 & E2 & _ & _ & E5). split; [done|]. split; [done|]. split; [done|].
  intros pid. unfold saved. cbn. rewrite E5. by destruct (processes (kern s) !! pid).
Qed.

Section switch.
Context (clobber : Machine -> reg -> Z) (below : Machine -> Z -> Z).
Context (no_handler : Irq.InterruptHandler Sys) (table : Irq.handler_table Sys).
Context (rsp0 kernel_cs : Z) (handler_addr : Irq.stub -> Z).

Abbreviation irq_handler := (irq_handler no_handler table).
Abbreviation call := (call clobber below).
Abbreviation interrupt := (interrupt clobber below no_handler table rsp0 kernel_cs handler_addr).

(** In state [s] the handlers of interrupt [irq] turn the saved registers of the
    interrupted process into [c'] and touch no other saved registers; user memory
    and console before and after are related by [Q], for that process. *)
Definition irq_effect_on (Q : Z -> LibString.memory * list (Z * list Z) -> LibString.memory * list (Z * list Z) -> Prop) (irq err : Z) (s : Sys) (c' : Context) : Prop :=
  exists s', irq_handler irq err s = Ret (tt, s') /\ acted s s' c' /\ Q (current_pid (kern s)) (io s) (io s').

(** The same for interrupt [v] with registers [r]: the handlers run once the
    registers are stored. *)
Definition serves Q (v : Z) (e : option Z) (r : Regs) (s : Sys) (c' : Context) : Prop :=
  forall s1, lift_kernel (store_current_thread_context (context_of r (frame_number v) (frame_error v e))) s = Ret (tt, s1) ->
  irq_effect_on Q (frame_number v) (frame_error v e) s1 c'.

Lemma call_ok {A} (c : SM A) m a s' : c (sys m) = Ret (a, s') ->
  exists m', call c m = Ret (a, m') /\ sys m' = s' /\ r_rsp (regs m') = r_rsp (regs m) /\
    (forall x, r_rsp (regs m) <= x < r_rsp (regs m) + sizeof_Context -> mem m' x = mem m x).
Proof using Type.
  intros H. unfold ContextSwitch.call. rewrite H. eexists. split; [reflexivity|]. split; [done|]. split; [done|].
  intros x Hx. cbn [mem]. by rewrite (proj2 (Z.leb_le _ _)), (proj2 (Z.ltb_lt _ _)) by lia.
Qed.

(** The end of the path: whatever process is current, its registers are loaded. *)
Lemma resume_current m a c : saved (sys m) (current_pid (kern (sys m))) = Some (a, c) ->
  0 <= current_pid (kern (sys m)) < MAX_PROCESS -> kernel_stack_bottom a + sizeof_Context < 2 ^ 64 -> regs_wf (regs_of c) ->
  exists m', (call_current_context clobber below;; modify (run (MOV RAX RDI :: return_from_syscall))) m = Ret (tt, m') /\
    regs_eq (regs m') (regs_of c) /\ sys m' = sys m.
Proof using Type.
  intros Hs Hr Hb Hwf. unfold saved in Hs. apply fmap_Some in Hs as (p & Hp & [= -> ->]).
  destruct (call_ok (lift_kernel (pid ← gets current_pid; process_at pid)) m p (sys m)) as (m1 & H1 & Es & _).
  { rewrite (lift_kernel_ok _ _ p (kern (sys m))); [by destruct (sys m)|].
    rewrite bind_ret with (a := current_pid (kern (sys m))) (s' := kern (sys m)); [|done].
    unfold process_at. step_with slot_ok; [|done]. by rewrite Hp. }
  unfold call_current_context. step_with H1. set (A := context_addr p).
  set (m2 := set_gpr RAX A (mkMachine (regs m1) (with_context A (context p) (mem m1)) (sys m1))).
  change ((modify (fun m => set_gpr RAX A (mkMachine (regs m) (with_context A (context p) (mem m)) (sys m)));;
    modify (run (MOV RAX RDI :: return_from_syscall))) m1) with (Ret (tt, run return_from_syscall (effect (MOV RAX RDI) m2))).
  eexists. split; [reflexivity|].
  destruct (return_from_syscall_loads (effect (MOV RAX RDI) m2) A (context p)) as [E1 E2]; try done.
  - unfold A, context_addr, kernel_stack_bottom. apply wrap_uint. lia.
  - intros i Hi. cbn. by apply with_context_word.
Qed.

Lemma stackw_word mm b c i : stackw mm b (context_words c) -> (i < 27)%nat ->
  mm (b - 216 + 8 * Z.of_nat i) = nth i (context_words c) 0.
Proof using Type.
  intros H Hi. destruct (lookup_lt_is_Some_2 (context_words c) i) as [w E]; [done|].
  rewrite (nth_lookup_Some _ _ _ _ E), <- (H i w E). done.
Qed.

(** Saving, dispatch and scheduling, from the state the saving code leaves. *)
Lemma irq_middle Q m r b c c' : entered r b (context_words c) (sys m) m -> gpr r RDI = b - 216 -> 216 <= b < 2 ^ 64 ->
  sched_inv (kern (sys m)) -> next_pid (kern (sys m)) < MAX_PROCESS ->
  (forall s1, lift_kernel (store_current_thread_context c) (sys m) = Ret (tt, s1) ->
    irq_effect_on Q (fst (reserved1 c)) (snd (reserved1 c)) s1 c') ->
  exists m', (m ← get; call (lift_kernel (store_current_thread_context (context_at (mem m) (gpr (regs m) RDI))));;
    modify (run [LOAD 160 RDI; LOAD 168 RSI]);; m ← get;
    call (irq_handler (gpr (regs m) RDI) (gpr (regs m) RSI));; call (lift_kernel schedule)) m = Ret (tt, m') /\
    sched_inv (kern (sys m')) /\ next_pid (kern (sys m')) = next_pid (kern (sys m)) /\
    current_pid (kern (sys m')) = succ_pid (next_pid (kern (sys m))) (current_pid (kern (sys m))) /\
    (forall pid, saved (sys m') pid =
      if decide (pid = current_pid (kern (sys m))) then (fun '(a, _) => (a, c')) <$> saved (sys m) pid else saved (sys m) pid) /\
    Q (current_pid (kern (sys m))) (io (sys m)) (io (sys m')).
Proof using Type.
  intros (E1 & _ & _ & E4 & E5 & _) Erdi Hb Hi Hn Heff. cbn [context_words length] in E4.
  step_with (eq_refl (get m)). rewrite E1, Erdi, (context_at_words _ _ _ E5).
  destruct (store_acted (sys m) c Hi) as (s1 & Hs1 & A1). destruct (call_ok _ m tt s1 Hs1) as (m1 & H1 & Es1 & Er1 & Em1).
  step_with H1. set (m2 := run [LOAD 160 RDI; LOAD 168 RSI] m1). step_with (eq_refl (modify (run [LOAD 160 RDI; LOAD 168 RSI]) m1)).
  fold m2. step_with (eq_refl (get m2)).
  assert (forall i : nat, (i < 27)%nat -> word_at m1 (8 * Z.of_nat i) = nth i (context_words c) 0) as Hw.
  { intros i Hlt. unfold word_at. rewrite Er1, E4, wrap_small by (unfold uint; lia). rewrite Em1 by (unfold sizeof_Context; lia).
    replace (b - 8 * Z.of_nat 27) with (b - 216) by lia. by apply stackw_word. }
  assert (gpr (regs m2) RDI = fst (reserved1 c)) as -> by (exact (Hw 20%nat ltac:(lia))).
  assert (gpr (regs m2) RSI = snd (reserved1 c)) as -> by (exact (Hw 21%nat ltac:(lia))).
  change (sys m2) with (sys m1) in *. destruct (Heff s1 Hs1) as (s2 & Hs2 & A2 & HQ).
  pose proof (acted_trans _ _ _ _ _ A1 A2) as A. destruct (call_ok _ m2 tt s2 (eq_trans (f_equal _ Es1) Hs2)) as (m3 & H3 & Es3 & _).
  rewrite (lift_kernel_io _ _ _ _ Hs1), (ac_current _ _ _ A1) in HQ.
  step_with H3. destruct A as [AI AN AC AS]. destruct (schedule_saved s2) as (s3 & Hs3 & I3 & N3 & C3 & S3); [auto|lia|].
  rewrite <- (lift_kernel_io _ _ _ _ Hs3) in HQ. rewrite <- Es3 in Hs3. destruct (call_ok _ m3 tt s3 Hs3) as (m4 & H4 & Es4 & _). exists m4. split; [exact H4|]. rewrite Es4.
  split; [done|]. split; [congruence|]. split; [congruence|]. split; [|done]. intros pid. by rewrite S3, AS.
Qed.

(** The stack an interrupt uses has room for a frame that spares the process
    objects. *)
Definition stack_ok (s : Sys) (r : Regs) : Prop :=
  216 <= stack_base rsp0 r < 2 ^ 64 /\
  map_Forall (fun _ a => spares (stack_base rsp0 r - sizeof_Context) (stack_base rsp0 r) a) (object_addresses (kern s)).

(** [_irq_handler] as the saving code, the middle and the end. *)
Lemma irq_handler_split m : _irq_handler clobber below no_handler table m =
  ((m ← get; call (lift_kernel (store_current_thread_context (context_at (mem m) (gpr (regs m) RDI))));;
    modify (run [LOAD 160 RDI; LOAD 168 RSI]);; m ← get;
    call (irq_handler (gpr (regs m) RDI) (gpr (regs m) RSI));; call (lift_kernel schedule));;
   (call_current_context clobber below;; modify (run (MOV RAX RDI :: return_from_syscall)))) (run save_registers m).
Proof using Type.
  unfold _irq_handler. rewrite bind_ret with (a := tt) (s' := run save_registers m); [|done].
  set (m0 := run save_registers m). unfold mbind, st_bind, get.
  destruct (call _ m0) as [[? m1]| | | |]; [|done..]. destruct (modify _ m1) as [[? m2]| | | |]; [|done..].
  destruct (call _ m2) as [[? m3]| | | |]; [|done..]. by destruct (call _ m3) as [[? m4]| | | |].
Qed.

Lemma interrupt_switch_on Q m v e c' :
  ready (sys m) -> regs_wf (regs m) -> stack_ok (sys m) (regs m) -> 0 <= v < Irq.MaxInterrupts -> has_error_code v e ->
  serves Q v e (regs m) (sys m) c' ->
  regs_wf (regs_of c') ->
  let k := kern (sys m) in let next := succ_pid (next_pid k) (current_pid k) in
  exists m' a c, interrupt v e m = Ret (tt, m') /\ ready (sys m') /\
    next_pid (kern (sys m')) = next_pid k /\ current_pid (kern (sys m')) = next /\
    (forall pid, saved (sys m') pid = if decide (pid = current_pid k) then (fun '(a, _) => (a, c')) <$> saved (sys m) pid else saved (sys m) pid) /\
    saved (sys m') next = Some (a, c) /\ regs_eq (regs m') (regs_of c) /\ Q (current_pid k) (io (sys m)) (io (sys m')).
Proof using Type.
  intros [Hi Hroom Hsv Hap] Hwf [Hst Hclr] Hv He Heff Hwf' k next. set (b := stack_base rsp0 (regs m)) in *.
  pose proof (deliver_entered rsp0 kernel_cs handler_addr v e m ltac:(fold b; lia)) as H1. fold b in H1.
  apply (stub_entered _ b _ _ v e) in H1; [|lia|done|done].
  apply (save_entered _ b _ _ _ _ Hwf Hst) in H1 as (r1 & H1 & Erdi).
  set (m1 := run save_registers _) in H1. assert (sys m1 = sys m) as Es1 by apply H1. rewrite <- Es1 in H1.
  destruct (irq_middle Q m1 r1 b _ c' H1 Erdi Hst) as (m2 & H2 & I2 & N2 & C2 & S2 & HQ); [by rewrite Es1..|].
  rewrite Es1 in N2, C2, S2, HQ. fold k next in C2. fold k in S2, N2.
  assert (forall pid a c, saved (sys m2) pid = Some (a, c) -> kernel_stack_bottom a + sizeof_Context < 2 ^ 64 /\ regs_wf (regs_of c)) as Hsv2.
  { intros pid a c. rewrite S2. case_decide; [|apply Hsv]. destruct (saved (sys m) pid) as [[a0 c0]|] eqn:E; [|done].
    intros [= <- <-]. split; [by apply (Hsv _ _ _ E)|done]. }
  assert (is_Some (processes (kern (sys m2)) !! next)) as [p Hp].
  { apply (si_used _ I2). rewrite N2. apply succ_pid_range, (si_current _ Hi). }
  assert (saved (sys m2) next = Some (this p, context p)) as Hn by (unfold saved; by rewrite Hp).
  destruct (resume_current m2 (this p) (context p)) as (m3 & H3 & Er & Es3); [by rewrite C2| |by eapply Hsv2..|].
  { pose proof (si_current _ I2). pose proof (si_next _ I2). lia. }
  assert (object_addresses (kern (sys m2)) = object_addresses (kern (sys m))) as Eo.
  { apply addresses_eq. intros pid. rewrite S2. case_decide; [|done]. by destruct (saved (sys m) pid) as [[]|]. }
  exists m3, (this p), (context p). rewrite Es3. split; [|split; [split; [exact I2|by rewrite N2|exact Hsv2|by rewrite Eo]|done]].
  unfold ContextSwitch.interrupt. step_with (eq_refl (get m)). rewrite bool_decide_true by (by split). step_with (eq_refl (modify (deliver rsp0 kernel_cs handler_addr v e) m)).
  step_with (eq_refl (modify (run (stub_code (fst (Irq.stub_for v)))) (deliver rsp0 kernel_cs handler_addr v e m))).
  rewrite irq_handler_split. fold m1. rewrite (bind_ret _ _ _ _ _ H2). exact H3.
Qed.

(** ** Runs of several interrupts *)

(** What the running process does until the next interrupt: any registers, any
    kernel stack contents and any change of kernel state, user memory and console,
    then interrupt [sl_vec]. *)
Record slice := mkSlice { sl_regs : Regs; sl_mem : Z -> Z; sl_sys : Sys -> Sys; sl_vec : Z; sl_err : option Z }.

Definition run_slice (sl : slice) : ST Machine unit :=
  modify (fun m => mkMachine (sl_regs sl) (sl_mem sl) (sl_sys sl (sys m)));;
  interrupt (sl_vec sl) (sl_err sl).

(** The slices one after the other, with the pids of the processes they run in. *)
Fixpoint run_slices (l : list slice) : ST Machine (list Z) :=
  match l with
  | [] => mret []
  | sl :: l => pid ← gets (fun m => current_pid (kern (sys m))); run_slice sl;; pids ← run_slices l; mret (pid :: pids)
  end.

(** A process, while it runs, creates no process and changes neither the process
    table nor the saved registers of others. *)
Record stays (s s' : Sys) : Prop := {
  sy_inv : sched_inv (kern s');
  sy_next : next_pid (kern s') = next_pid (kern s);
  sy_current : current_pid (kern s') = current_pid (kern s);
  sy_others pid : pid <> current_pid (kern s) -> saved s' pid = saved s pid;
  sy_own a c : saved s (current_pid (kern s)) = Some (a, c) -> exists c', saved s' (current_pid (kern s)) = Some (a, c') /\ regs_wf (regs_of c')
}.

(** From [s], the interrupt of the slice can be served and leaves the process
    with [c']. *)
Record slice_ok (sl : slice) (s : Sys) (c' : Context) : Prop := {
  so_stays : stays s (sl_sys sl s);
  so_wf : regs_wf (sl_regs sl);
  so_stack : stack_ok s (sl_regs sl);
  so_vec : 0 <= sl_vec sl < Irq.MaxInterrupts;
  so_err : has_error_code (sl_vec sl) (sl_err sl);
  so_effect : serves (fun _ _ _ => True) (sl_vec sl) (sl_err sl) (sl_regs sl) (sl_sys sl s) c';
  so_wf' : regs_wf (regs_of c')
}.
Fixpoint slices_ok (l : list slice) (m : Machine) : Prop :=
  match l with
  | [] => True
  | sl :: l => (exists c', slice_ok sl (sys m) c') /\ forall m1, run_slice sl m = Ret (tt, m1) -> slices_ok l m1
  end.

(** The processor runs the current process. *)
Definition running (m : Machine) : Prop :=
  exists a c, saved (sys m) (current_pid (kern (sys m))) = Some (a, c) /\ regs_eq (regs m) (regs_of c).

(** The pids of [k] turns from [cur] on, with pids below [n]. *)
Fixpoint rotation (n cur : Z) (k : nat) : list Z :=
  match k with O => [] | S k => cur :: rotation n (succ_pid n cur) k end.

Lemma own_saved s : sched_inv (kern s) -> exists a c, saved s (current_pid (kern s)) = Some (a, c).
Proof using Type.
  intros Hi. destruct (proj2 (si_used _ Hi _) (si_current _ Hi)) as [p Hp]. exists (this p), (context p). unfold saved. by rewrite Hp.
Qed.

Lemma stays_addresses s s' : sched_inv (kern s) -> stays s s' -> object_addresses (kern s') = object_addresses (kern s).
Proof using Type.
  intros Hi [_ _ _ O W]. apply addresses_eq. intros pid. destruct (decide (pid = current_pid (kern s))) as [->|Hne]; [|by rewrite O].
  destruct (own_saved s Hi) as (a & c & E). destruct (W a c E) as (c' & -> & _). by rewrite E.
Qed.

Lemma stays_ready s s' : ready s -> stays s s' -> ready s'.
Proof using Type.
  intros [Hi Hn Hs Ha] Hst. split; [apply Hst|by rewrite (sy_next _ _ Hst)| |by rewrite (stays_addresses _ _ Hi Hst)].
  intros pid a c Hp. destruct (decide (pid = current_pid (kern s))) as [->|Hne]; [|rewrite (sy_others _ _ Hst) in Hp by done; by eapply Hs].
  destruct (own_saved s Hi) as (a0 & c0 & E). destruct (sy_own _ _ Hst a0 c0 E) as (c1 & E1 & Hwf). rewrite E1 in Hp. injection Hp as -> ->.
  split; [by eapply Hs|done].
Qed.

Lemma run_slice_ok m sl c' : ready (sys m) -> slice_ok sl (sys m) c' ->
  let k := kern (sys m) in
  exists m', run_slice sl m = Ret (tt, m') /\ ready (sys m') /\ running m' /\
    next_pid (kern (sys m')) = next_pid k /\ current_pid (kern (sys m')) = succ_pid (next_pid k) (current_pid k) /\
    (forall pid, saved (sys m') pid = if decide (pid = current_pid k) then (fun '(a, _) => (a, c')) <$> saved (sys m) pid else saved (sys m) pid).
Proof using Type.
  intros Hr [H0 H1 H2 H3 H4 H5 H6] k. pose proof (stays_ready _ _ Hr H0) as Hr1.
  set (m1 := mkMachine (sl_regs sl) (sl_mem sl) (sl_sys sl (sys m))).
  destruct (interrupt_switch_on (fun _ _ _ => True) m1 (sl_vec sl) (sl_err sl) c' Hr1 H1) as (m' & a & c & Hrun & Hr' & Hn & Hc & Hs & Hsn & He & _); try done.
  { unfold stack_ok in *. cbn [sys m1]. by rewrite (stays_addresses _ _ (rd_inv _ Hr) H0). }
  cbn [sys m1] in Hn, Hc, Hs, Hsn. rewrite (sy_next _ _ H0), ?(sy_current _ _ H0) in *. exists m'. split; [|split; [done|]; split; [|split; [done|]; split; [done|]]].
  - unfold run_slice. by step_with (eq_refl (modify (fun m => mkMachine (sl_regs sl) (sl_mem sl) (sl_sys sl (sys m))) m)).
  - exists a, c. by rewrite Hc.
  - intros pid. rewrite Hs. unfold k. case_decide as E; [|by apply (sy_others _ _ H0)]. subst pid.
    destruct (own_saved _ (rd_inv _ Hr)) as (a0 & c0 & E0). destruct (sy_own _ _ H0 a0 c0 E0) as (c1 & E1 & _). by rewrite E1, E0.
Qed.

(** Switches until [pid] runs. *)
Definition distance (n cur pid : Z) : Z := if decide (cur <= pid) then pid - cur else pid - cur + (n - 1).

Lemma run_slices_wait sls m pid a c :
  ready (sys m) -> running m -> saved (sys m) pid = Some (a, c) -> 1 <= pid < next_pid (kern (sys m)) -> slices_ok sls m ->
  Z.of_nat (length sls) = distance (next_pid (kern (sys m))) (current_pid (kern (sys m))) pid ->
  exists m', run_slices sls m = Ret (rotation (next_pid (kern (sys m))) (current_pid (kern (sys m))) (length sls), m') /\
    current_pid (kern (sys m')) = pid /\ regs_eq (regs m') (regs_of c).
Proof using Type.
  revert m. induction sls as [|sl sls IH]; intros m Hr Hrun Hs Hp Hall Hd; pose proof (si_current _ (rd_inv _ Hr)) as Hc.
  - assert (current_pid (kern (sys m)) = pid) as E by (unfold distance in Hd; cbn in Hd; case_decide; lia).
    exists m. split; [done|]. split; [done|]. destruct Hrun as (a' & c1 & Hs' & He). rewrite E, Hs in Hs'. by injection Hs' as -> ->.
  - destruct Hall as [[c' Hok] Hall]. destruct (run_slice_ok m sl c' Hr Hok) as (m1 & H1 & Hr1 & Hrun1 & Hn1 & Hc1 & Hs1).
    cbn [length] in Hd. assert (pid <> current_pid (kern (sys m))) as Hne.
    { intros ->. unfold distance in Hd. rewrite decide_True in Hd by lia. lia. }
    destruct (IH m1 Hr1 Hrun1) as (m' & H' & Hcur & He); [by rewrite Hs1, decide_False|by rewrite Hn1|by apply Hall| |].
    { rewrite Hn1, Hc1. unfold distance, succ_pid in *. repeat case_decide; lia. }
    exists m'. split; [|done]. cbn [run_slices]. step_with (eq_refl (gets (fun m => current_pid (kern (sys m))) m)). step_with H1. step_with H'.
    rewrite Hn1, Hc1. done.
Qed.

(** A round visits every pid once. *)
Lemma rotation_straight n cur k : 1 <= cur -> cur + Z.of_nat k <= n -> rotation n cur k = seqZ cur (Z.of_nat k).
Proof using Type.
  revert cur. induction k as [|k IH]; intros cur Hc Hk; [done|]. rewrite Nat2Z.inj_succ, seqZ_cons by lia. cbn [rotation].
  rewrite Z.pred_succ. destruct k as [|k]; [done|]. f_equal. rewrite <- IH by lia. unfold succ_pid. rewrite decide_True by lia. done.
Qed.
Lemma rotation_app n cur j k : rotation n cur (j + k) = rotation n cur j ++ rotation n (Nat.iter j (succ_pid n) cur) k.
Proof using Type.
  revert cur. induction j as [|j IH]; intros cur; [done|]. cbn [Nat.add rotation app]. by rewrite IH, Nat.iter_swap.
Qed.
Lemma iter_succ_pid n cur j : 1 <= cur -> cur + Z.of_nat j < n -> Nat.iter j (succ_pid n) cur = cur + Z.of_nat j.
Proof using Type.
  intros Hc. induction j as [|j IH]; intros Hj; [cbn; lia|]. change (Nat.iter (S j) ?f ?x) with (f (Nat.iter j f x)).
  rewrite IH by lia. unfold succ_pid. rewrite decide_True by lia. lia.
Qed.
Lemma rotation_all n cur : 1 <= cur < n -> rotation n cur (Z.to_nat (n - 1)) ≡ₚ seqZ 1 (n - 1).
Proof using Type.
  intros Hc. replace (Z.to_nat (n - 1)) with (Z.to_nat (n - cur) + Z.to_nat (cur - 1))%nat by lia.
  assert (Nat.iter (Z.to_nat (n - cur)) (succ_pid n) cur = 1) as E.
  { destruct (Z.to_nat (n - cur)) as [|j] eqn:Ej; [lia|]. change (succ_pid n (Nat.iter j (succ_pid n) cur) = 1).
    rewrite iter_succ_pid by lia. unfold succ_pid. by rewrite decide_False by lia. }
  rewrite rotation_app, E, !rotation_straight by lia. rewrite !Z2Nat.id by lia.
  replace (n - 1) with ((cur - 1) + (n - cur)) by lia. rewrite seqZ_app by lia. replace (1 + (cur - 1)) with cur by lia. apply Permutation_app_comm.
Qed.

(** ** Effects of handlers *)

(** A handler that returns and keeps pids and saved registers. *)
Definition transparent (h : Irq.InterruptHandler Sys) : Prop :=
  forall info s, sched_inv (kern s) -> exists s', h info s = Ret (tt, s') /\ sched_inv (kern s') /\
    next_pid (kern s') = next_pid (kern s) /\ current_pid (kern s') = current_pid (kern s) /\ forall pid, saved s' pid = saved s pid.

Lemma run_handlers_transparent hs info s : Forall transparent hs -> sched_inv (kern s) ->
  exists s', Irq.run_handlers hs info s = Ret (tt, s') /\ sched_inv (kern s') /\
    next_pid (kern s') = next_pid (kern s) /\ current_pid (kern s') = current_pid (kern s) /\ forall pid, saved s' pid = saved s pid.
Proof using Type.
  revert s. induction hs as [|h hs IH]; intros s Hall Hi; [by exists s|]. apply Forall_cons in Hall as [Hh Hall].
  destruct (Hh info s Hi) as (s1 & H1 & I1 & N1 & C1 & S1). destruct (IH s1 Hall I1) as (s' & H' & I' & N' & C' & S').
  exists s'. split; [cbn [Irq.run_handlers]; by step_with H1|]. split; [done|]. split; [congruence|]. split; [congruence|].
  intros pid. by rewrite S', S1.
Qed.

(** Interrupts all of whose handlers are transparent keep the registers. *)
Lemma transparent_effect irq err s a c : 0 <= irq < Irq.MaxInterrupts -> SmallVec.empty (Irq.handlers_ table irq) = false ->
  Forall transparent (Irq.registered no_handler table irq) -> sched_inv (kern s) -> saved s (current_pid (kern s)) = Some (a, c) ->
  irq_effect_on (fun _ _ _ => True) irq err s c.
Proof using Type.
  intros Hr Hne Hall Hi Hs. unfold irq_effect_on, ContextSwitch.irq_handler, Irq.HandleInterrupt.
  rewrite (proj2 (Z.leb_le _ _)), (proj2 (Z.ltb_lt _ _)), Hne by lia. cbn [andb].
  destruct (run_handlers_transparent _ (Irq.mkInfo irq err (current_pid (kern s))) s Hall Hi) as (s' & H & I & N & C & S).
  exists s'. split; [exact H|]. split; [|done]. split; try done. intros pid. rewrite S. case_decide as E; [|done]. subst pid. by rewrite Hs.
Qed.
Lemma transparent_serves v e r s : 0 <= frame_number v < Irq.MaxInterrupts -> SmallVec.empty (Irq.handlers_ table (frame_number v)) = false ->
  Forall transparent (Irq.registered no_handler table (frame_number v)) -> sched_inv (kern s) ->
  serves (fun _ _ _ => True) v e r s (context_of r (frame_number v) (frame_error v e)).
Proof using Type.
  intros Hv Hne Hall Hi s1 Hs1. destruct (store_acted s (context_of r (frame_number v) (frame_error v e)) Hi) as (s2 & Hs2 & [A1 A2 A3 A4]).
  rewrite Hs1 in Hs2. injection Hs2 as <-. destruct (own_saved s Hi) as (a & c & E).
  apply (transparent_effect _ _ s1 a); auto. by rewrite A3, A4, decide_True, E.
Qed.

(** The table as [SetupSyscall] leaves it. *)
Definition serves_syscalls : Prop :=
  SmallVec.empty (Irq.handlers_ table IRQ_SYSCALL) = false /\ Irq.registered no_handler table IRQ_SYSCALL = [syscall_handler].

(** A system call whose function returns [v] and changes at most the console sets
    [rax] and changes no other register. *)
Lemma syscall_effect_on Q err s p v : serves_syscalls -> 0 < rax (context p) < SYSCALL_NR_MAX ->
  sched_inv (kern s) -> processes (kern s) !! current_pid (kern s) = Some p ->
  (exists out, syscall_table (rax (context p)) (current_pid (kern s)) s = Ret (v, mkSys (kern s) (umem s) out) /\
    Q (current_pid (kern s)) (io s) (umem s, out)) ->
  irq_effect_on Q IRQ_SYSCALL err s (set_rax (wrap64 v) (context p)).
Proof using Type.
  intros [Hne Hreg] Hx Hi Hp (out & Hcall & HQ). pose proof (si_current _ Hi) as Hc. pose proof (si_next _ Hi) as Hn.
  assert (proc_is s (current_pid (kern s)) p) as Hpi by (split; [lia|done]). set (s1 := mkSys (kern s) (umem s) out) in *.
  unfold irq_effect_on, ContextSwitch.irq_handler, Irq.HandleInterrupt. rewrite Hne. cbn [IRQ_SYSCALL Irq.MaxInterrupts Z.leb Z.ltb Z.compare Pos.compare Pos.compare_cont andb].
  unfold Irq.registered in Hreg. rewrite Hreg. cbn [Irq.run_handlers].
  exists (with_process (current_pid (kern s)) (returns v p) s1). split; [|split; [|exact HQ]].
  - set (info := Irq.mkInfo _ _ _). step_with (handle_ok s (current_pid (kern s)) p v s1 p); [reflexivity|done|done|done|split; [lia|done]].
  - unfold returns. destruct (set_context_acted s p (set_rax (wrap64 v) (context p)) Hi Hp) as [A1 A2 A3 A4]. by split.
Qed.

End switch.

(** C6: the context switch is transparent.  When an interrupt stops a process, the
    processes get their turns, each exactly once, and then the interrupted process
    continues with exactly the registers it was interrupted with, as the handlers
    of its interrupt left them in its context: general registers, segments, page
    table, instruction and stack pointer and flags.  Until its own interrupt a
    process may do anything to its registers, its memory and the kernel's state
    that creates no process and leaves the process table and what is saved of the
    others; process objects do not overlap, and no interrupt frame overwrites
    them. *)
Theorem process_resumes clobber below no_handler table rsp0 kernel_cs handler_addr m sl sls c' :
  ready (sys m) -> slice_ok no_handler table rsp0 sl (sys m) c' ->
  slices_ok clobber below no_handler table rsp0 kernel_cs handler_addr (sl :: sls) m ->
  Z.of_nat (length sls) = next_pid (kern (sys m)) - 2 ->
  exists pids m', run_slices clobber below no_handler table rsp0 kernel_cs handler_addr (sl :: sls) m = Ret (pids, m') /\
    pids ≡ₚ seqZ 1 (next_pid (kern (sys m)) - 1) /\ hd_error pids = Some (current_pid (kern (sys m))) /\
    current_pid (kern (sys m')) = current_pid (kern (sys m)) /\ regs_eq (regs m') (regs_of c').
Proof.
  intros Hr Hok [_ Hall] Hlen. pose proof (si_current _ (rd_inv _ Hr)) as Hc.
  destruct (run_slice_ok clobber below no_handler table rsp0 kernel_cs handler_addr m sl c' Hr Hok) as (m1 & H1 & Hr1 & Hrun1 & Hn1 & Hc1 & Hs1).
  destruct (proj2 (si_used _ (rd_inv _ Hr) _) Hc) as [p Hp].
  destruct (run_slices_wait clobber below no_handler table rsp0 kernel_cs handler_addr sls m1 (current_pid (kern (sys m))) (this p) c')
    as (m' & H' & Hcur & He); try done.
  - rewrite Hs1, decide_True by done. unfold saved. by rewrite Hp.
  - by rewrite Hn1.
  - by apply Hall.
  - rewrite Hn1, Hc1, Hlen. unfold distance, succ_pid. repeat case_decide; lia.
  - eexists _, m'. split; [cbn [run_slices]; step_with (eq_refl (gets (fun m => current_pid (kern (sys m))) m)); step_with H1; by step_with H'|].
    split; [|done]. rewrite Hn1, Hc1. rewrite <- (rotation_all _ _ Hc).
    replace (Z.to_nat (next_pid (kern (sys m)) - 1)) with (S (length sls)) by lia. done.
Qed.

(** ** Interrupts of two processes *)

(** A handler that only counts on the console. *)
Definition tick : Irq.InterruptHandler Sys := fun info s =>
  Ret (tt, mkSys (kern s) (umem s) (console s ++ [(Irq.irq_num info, [])])).

Lemma tick_transparent : transparent tick.
Proof. intros info s Hi. eexists. split; [reflexivity|]. done. Qed.

Definition ex_table : Irq.handler_table Sys :=
  match Irq.Register 32 tick ∅ with Ret t => t | _ => ∅ end.

(** Kernel mode, stack in the upper half, all general registers [v]. *)
Definition ex_regs (v : Z) : Regs :=
  mkRegs (fun _ => v) (fun _ => KERNEL_DATA_SELECTOR) 0x1000 (KERNEL_START + v) KERNEL_CODE_SELECTOR 0x202 (KERNEL_START + 0x8000) KERNEL_DATA_SELECTOR.
(** In its slice a process changes its memory and writes a line. *)
Definition ex_sys_step (v : Z) (s : Sys) : Sys := mkSys (kern s) (fun _ => v) (console s ++ [(current_pid (kern s), [v])]).
Definition ex_slice (v : Z) : slice := mkSlice (ex_regs v) (fun _ => 0) (ex_sys_step v) 32 None.
Definition ex_sys : Sys := mkSys ex_two (fun _ => 0) [].
Definition ex_machine : Machine := mkMachine (ex_regs 0) (fun _ => 0) ex_sys.

Lemma ex_two_addresses : object_addresses ex_two = {[1 := KERNEL_START + 0x4020000; 2 := KERNEL_START + 0x4040000]}.
Proof. by vm_compute. Qed.

Lemma ex_ready_sys : ready ex_sys.
Proof.
  split; [exact ex_two_inv|done| |cbn [kern ex_sys]; rewrite ex_two_addresses; apply (bool_decide_unpack _); by vm_compute].
  intros pid a c. unfold saved, ex_sys, ex_two. cbn [kern processes].
  rewrite !lookup_insert, lookup_empty. repeat case_decide; intros [= <- <-]; (split; [vm_compute; done|]); intros []; done.
Qed.

(** Saved addresses as in the example. *)
Definition at_home (s : Sys) : Prop := sched_inv (kern s) /\ object_addresses (kern s) = object_addresses ex_two /\ forall a c, saved s (current_pid (kern s)) = Some (a, c) -> regs_wf (regs_of c).

Lemma ex_slice_ok rsp0 table v s : at_home s -> 0 <= v < 1000 ->
  SmallVec.empty (Irq.handlers_ table 32) = false -> Irq.registered tick table 32 = [tick] ->
  slice_ok tick table rsp0 (ex_slice v) s (context_of (ex_regs v) 32 0).
Proof.
  intros (Hi & Ha & Hwf) Hv Hne Hreg. split; try done.
  - split; try done. intros a c E. exists c. split; [exact E|by eapply Hwf].
  - split; [by vm_compute|]. rewrite Ha, ex_two_addresses. apply (bool_decide_unpack _). by vm_compute.
  - split; [intros [x H]; done|]. cbn [sl_vec ex_slice]. intros [?|?]; lia.
  - apply (transparent_serves tick table 32 None (ex_regs v) (ex_sys_step v s)); [done|exact Hne| |done].
    change (frame_number 32) with 32. rewrite Hreg. apply Forall_singleton, tick_transparent.
  - by intros [].
Qed.

(** After a slice the example is at home again. *)
Lemma ready_home s : ready s -> object_addresses (kern s) = object_addresses ex_two -> at_home s.
Proof. intros [Hi _ Hs _] Ha. split; [done|]. split; [done|]. intros a c E. by eapply Hs. Qed.

Lemma ex_slice_home clobber below table rsp0 kernel_cs handler_addr v m m' : ready (sys m) -> object_addresses (kern (sys m)) = object_addresses ex_two ->
  0 <= v < 1000 -> SmallVec.empty (Irq.handlers_ table 32) = false -> Irq.registered tick table 32 = [tick] ->
  run_slice clobber below tick table rsp0 kernel_cs handler_addr (ex_slice v) m = Ret (tt, m') -> at_home (sys m').
Proof.
  intros Hr Ha Hv Hne Hreg H. pose proof (ex_slice_ok rsp0 table v (sys m) (ready_home _ Hr Ha) Hv Hne Hreg) as Hok.
  destruct (run_slice_ok clobber below tick table rsp0 kernel_cs handler_addr m _ _ Hr Hok) as (m1 & H1 & Hr1 & _ & _ & _ & Hs). rewrite H in H1. injection H1 as <-.
  apply ready_home; [done|]. rewrite <- Ha. apply addresses_eq. intros pid. rewrite Hs. case_decide; [|done]. by destruct (saved (sys m) pid) as [[]|].
Qed.

Lemma process_resumes_witness :
  exists pids m', run_slices (fun _ _ => 77) (fun _ _ => 0) tick ex_table 0 KERNEL_CODE_SELECTOR Irq.ex_addr [ex_slice 5; ex_slice 6] ex_machine = Ret (pids, m') /\
    pids ≡ₚ [1; 2] /\ hd_error pids = Some 1 /\
    current_pid (kern (sys m')) = 1 /\ regs_eq (regs m') (regs_of (context_of (ex_regs 5) 32 0)).
Proof.
  assert (slice_ok tick ex_table 0 (ex_slice 5) (sys ex_machine) (context_of (ex_regs 5) 32 0)) as H5
    by (apply ex_slice_ok; [by apply (ready_home _ ex_ready_sys)|lia|reflexivity|reflexivity]).
  apply (process_resumes (fun _ _ => 77) (fun _ _ => 0) tick ex_table 0 KERNEL_CODE_SELECTOR Irq.ex_addr ex_machine (ex_slice 5) [ex_slice 6]).
  - exact ex_ready_sys.
  - exact H5.
  - split; [by eexists|]. intros m1 Hm1. split; [|done]. exists (context_of (ex_regs 6) 32 0).
    apply ex_slice_ok; [|lia|reflexivity|reflexivity]. exact (ex_slice_home (fun _ _ => 77) (fun _ _ => 0) ex_table 0 KERNEL_CODE_SELECTOR Irq.ex_addr 5 ex_machine m1 ex_ready_sys eq_refl ltac:(lia) eq_refl eq_refl Hm1).
  - reflexivity.
Defined.
