(* ===== verification/Threads.v ===== *)
(** * The first process: from the end of Kernel::start to user mode

    [Kernel::start] ends with [return_from_syscall(current_context())], which
    enters [process_entrypoint] of process 1; that runs [main_start], which creates
    process 2, loads the program and enters user mode.  The thread functions a
    process can start in are a parameter, by their address. *)
From S2P Require Import Prelude LibUtils CpuDefs LibString Paging BuddyTree Buddy BuddyInv BuddyProofs BuddySpec BuddyThms PageAlloc PageAllocThms Process ProcessProofs ProcessThms SmallVec Irq Elf Syscall SyscallThms ContextSwitch ContextSwitchThms.

Module Threads.
Import Utils Paging Process Syscall ContextSwitch.

(** Computations on user memory. *)
Definition lift_mem {A} (c : ST LibString.memory A) : SM A := fun s =>
  match c (umem s) with
  | Ret (a, u) => Ret (a, mkSys (kern s) u (console s))
  | Panic m => Panic m | Halt => Halt | Fault => Fault | OutOfFuel => OutOfFuel
  end.

Section threads.
Context (process_entrypoint : Z) (raw_context : Context) (raw_cookie : Z).
(** Address of [thread2_start], start and size of the program in the kernel image. *)
Context (thread2_start init_start init_size : Z).

(** [main_start] up to the return to user mode; the result is the process whose
    context is loaded.  [name[0] = '2'] of an empty name changes no character of
    it. *)
Definition main_start : SM Process :=
  lift_kernel (create_process process_entrypoint raw_context raw_cookie);;
  n ← lift_kernel (gets next_pid);
  lift_kernel (update_process (wrap64 (n - 1)) (fun p => set_start thread2_start (name p) (cookie p) p));;
  pid ← lift_kernel (gets current_pid);
  proc ← lift_kernel (process_at pid);
  c ← lift_mem (Elf.exec_main proc init_start init_size);
  lift_kernel (update_process pid (set_context c));;
  mret (set_context c proc).

(** [Process::kernel_entrypoint] *)
Definition kernel_entrypoint (thread : Z -> Z -> SM unit) (p : Process) : SM unit :=
  (if negb (tmp_start p =? 0) then thread (tmp_start p) (cookie p) else mret tt);;
  panic "thread quit".

End threads.

(** [return_from_syscall(&p->context)] *)
Definition return_to (p : Process) : ST Machine unit :=
  modify (fun m => run return_from_syscall
    (set_gpr RDI (context_addr p) (mkMachine (regs m) (with_context (context_addr p) (context p) (mem m)) (sys m)))).

Lemma return_to_loads p m :
  context_addr p + sizeof_Context < 2 ^ 64 -> regs_wf (regs_of (context p)) ->
  exists m', return_to p m = Ret (tt, m') /\ regs_eq (regs m') (regs_of (context p)) /\ sys m' = sys m.
Proof.
  intros Hb Hwf. eexists. split; [reflexivity|].
  match goal with |- regs_eq (regs (run _ ?m1)) _ /\ _ => destruct (return_from_syscall_loads m1 (context_addr p) (context p)) as [E1 E2] end; try done.
  - unfold context_addr, kernel_stack_bottom. apply wrap_uint. lia.
  - intros i Hi. cbn. by apply with_context_word.
Qed.

(** ** What a new process holds *)

Section fields.
Context (entry : Z) (raw : Context) (ck : Z).

(** The members the constructor sets to fixed values. *)
Definition fresh_process (p : Process) : Prop :=
  context p = initial_context raw (this p) (pts_paddr p) entry /\ user_stack p = 33 * 1024 * 1024 /\ user_stack_size p = USER_STACK_SIZE /\
  KERNEL_START <= this p < KERNEL_START + 2 ^ 47 - 2 ^ 40 /\ tmp_start p = 0.

Lemma Process_new_fresh a pid phy k p k' : KERNEL_START <= a < KERNEL_START + 2 ^ 47 - 2 ^ 40 ->
  Process_new entry raw ck a pid phy k = Ret (p, k') -> fresh_process p.
Proof using Type.
  intros Ha H. unfold Process_new in H. repeat (apply bind_inv in H as (? & ? & _ & H)).
  injection H as <- _. unfold fresh_process. done.
Qed.

(** With physical memory below 64 TiB, kernel addresses of pages do not wrap. *)
Lemma kernel_page_range s i a s' : alloc_ready s -> Log2MinSize <= i -> Buddy.phy_start s < 2 ^ 46 ->
  PageAlloc.kernel_page_alloc i s = Ret (a, s') -> KERNEL_START <= a < KERNEL_START + 2 ^ 47 - 2 ^ 40.
Proof using Type.
  intros [HI _ Hr] Hi Hp H. unfold PageAlloc.kernel_page_alloc in H. apply bind_inv in H as (pa & s1 & H1 & [= <- <-]).
  assert (0 <= pa < 2 ^ 46 + 2 ^ 33) as Hpa.
  { destruct (allocate_pages_cases s i HI Hi) as [[H2 _]|(b & s2 & H2 & _ & _ & _ & Hreg & _)]; rewrite H1 in H2; injection H2 as -> _; [lia|].
    pose proof (bi_params _ _ (Inv_inv _ HI)) as [Hroot _ _]. destruct Hreg as [Hb Hl].
    unfold level, depth, Log2MinSize, Log2MaxSize in *. assert (b + 1 < 2 ^ 17) by (apply Z.log2_lt_pow2; lia).
    unfold Buddy.get_block_phy_addr, Buddy.BlockSize, PAGE_SIZE. rewrite wrap_small by (unfold uint; lia). lia. }
  unfold KERNEL_START. rewrite wrap_small by (unfold uint; lia). lia.
Qed.

Lemma create_process_fresh k r k' : alloc_ready (allocator k) -> Buddy.phy_start (allocator k) < 2 ^ 46 ->
  create_process entry raw ck k = Ret (r, k') -> exists p, processes k' !! next_pid k = Some p /\ fresh_process p.
Proof using Type.
  intros Hr Hs H. unfold create_process in H. apply bind_inv in H as (pid & k0 & [= <- <-] & H).
  apply bind_inv in H as (? & k1 & [= _ <-] & H).
  change (if log2 sizeof_Process + 1 <? Log2MinSize then Log2MinSize else log2 sizeof_Process + 1) with 17 in H. cbv zeta in H.
  apply bind_inv in H as (a & k2 & Ha & H). apply bind_inv in H as (p & k3 & Hp & H).
  apply bind_inv in H as (o & k4 & Ho & H). apply bind_inv in H as (? & k5 & Hd & H). apply bind_inv in H as (? & k6 & [= _ <-] & H).
  injection H as _ <-. exists p. split; [cbn; apply lookup_insert_eq|]. eapply Process_new_fresh; [|exact Hp].
  unfold page_alloc in Ha. cbn [allocator with_next_pid] in Ha.
  destruct (PageAlloc.kernel_page_alloc 17 (allocator k)) as [[pa al]| | | |] eqn:E; try done. injection Ha as -> _.
  by apply (kernel_page_range (allocator k) 17 _ al).
Qed.

(** [process_init] leaves process 1 as constructed, starting in [main]. *)
Lemma process_init_fresh main k : alloc_ready (allocator k) -> Buddy.phy_start (allocator k) < 2 ^ 46 ->
  exists k' p, process_init entry raw ck main k = Ret (tt, k') /\ sched_inv k' /\ alloc_ready (allocator k') /\
    next_pid k' = 2 /\ current_pid k' = 1 /\ processes k' !! 1 = Some (set_start main (name p) (cookie p) p) /\ fresh_process p.
Proof using Type.
  intros Hr Hs. destruct (process_init_ok entry main raw ck k Hr) as (k' & H & Hi & Ha & Hn & Hc & _).
  pose proof H as H0. unfold process_init in H0. apply bind_inv in H0 as (? & k0 & [= _ <-] & H0).
  apply bind_inv in H0 as (r & k1 & H1 & H0). apply bind_inv in H0 as (p & k2 & H2 & H0).
  pose proof (create_process_fresh (with_current_pid 1 (with_next_pid 1 (with_processes ∅ k))) r k1) as Hf.
  destruct (Hf Hr Hs H1) as (p1 & Hp1 & Hf1). cbn in Hp1.
  unfold process_at in H2. rewrite bind_ret with (a := processes k1 !! 1) (s' := k1) in H2; [|by apply slot_ok].
  rewrite Hp1 in H2. injection H2 as <- <-. rewrite (update_process_ok k1 1 _ p1) in H0 by done. injection H0 as <-.
  exists (with_processes (<[1 := set_start main (name p1) (cookie p1) p1]> (processes k1)) k1), p1.
  split; [done|]. do 4 (split; [done|]). split; [cbn; apply lookup_insert_eq|done].
Qed.

End fields.
(** ** Entering user mode *)

(** A program in memory that the loader accepts. *)
Definition program_at (start : Z) (u : LibString.memory) : Prop :=
  (forall x, 0 <= u x < 256) /\ Elf.wf_elf start u /\
  (forall j, (j < 4)%nat -> u (start + Z.of_nat j) = nth j Elf.ElfMagic 0) /\ Elf.e_phoff u start <> 0.

Lemma exec_main_run proc start size u : program_at start u ->
  exists c u', Elf.exec_main proc start size u = Ret (c, u') /\
    (forall a, u' a = Elf.image_after start u (Z.to_nat (Elf.e_phnum u start)) a) /\
    rip c = Elf.e_entry u start /\ rsp c = wrap64 (user_stack proc + user_stack_size proc) /\ cs c = USER_CODE_SELECTOR /\
    ss c = USER_DATA_SELECTOR /\ rflags c = 0x200 /\ cr3 c = cr3 (context proc) /\ regs_wf (regs_of c).
Proof.
  intros (H1 & H2 & H3 & H4). destruct (Elf.load_elf_run start size u H1 H2 H3 H4) as (u' & Hl & Hi & _).
  unfold Elf.exec_main. step_with Hl. eexists _, u'. split; [reflexivity|]. split; [done|].
  split_and!; try done. intros []; done.
Qed.

Lemma lift_mem_ok {A} (c : ST LibString.memory A) s a u : c (umem s) = Ret (a, u) -> lift_mem c s = Ret (a, mkSys (kern s) u (console s)).
Proof. intros H. unfold lift_mem. by rewrite H. Qed.

Lemma main_start_run entry raw ck thread2 start size s p :
  sched_inv (kern s) -> alloc_ready (allocator (kern s)) -> next_pid (kern s) < MAX_PROCESS ->
  processes (kern s) !! current_pid (kern s) = Some p -> program_at start (umem s) ->
  exists c s' q, main_start entry raw ck thread2 start size s = Ret (set_context c p, s') /\
    (forall a, umem s' a = Elf.image_after start (umem s) (Z.to_nat (Elf.e_phnum (umem s) start)) a) /\
    rip c = Elf.e_entry (umem s) start /\ rsp c = wrap64 (user_stack p + user_stack_size p) /\ cs c = USER_CODE_SELECTOR /\
    ss c = USER_DATA_SELECTOR /\ rflags c = 0x200 /\ cr3 c = cr3 (context p) /\ regs_wf (regs_of c) /\
    next_pid (kern s') = next_pid (kern s) + 1 /\ current_pid (kern s') = current_pid (kern s) /\
    processes (kern s') !! current_pid (kern s) = Some (set_context c p) /\
    processes (kern s') !! next_pid (kern s) = Some q /\ tmp_start q = thread2 /\ state q = Wait.
Proof.
  intros Hi Hr Hlt Hp Hprog. pose proof (si_current _ Hi) as Hc.
  destruct (create_process_ok entry raw ck (kern s) Hr ltac:(lia)) as (q & k1 & H1 & E1 & E2 & E3 & _ & _ & _ & Est & _).
  { apply eq_None_not_Some. rewrite (si_used _ Hi). lia. }
  assert (processes k1 !! next_pid (kern s) = Some q) as Hq by (by rewrite E1, lookup_insert_eq).
  assert (processes k1 !! current_pid (kern s) = Some p) as Hp1 by (rewrite E1, lookup_insert_ne by lia; done).
  destruct (exec_main_run p start size (umem s) Hprog) as (c & u' & Hex & Hu & Hrest).
  unfold main_start. step_with (lift_kernel_ok _ s _ _ H1). set (s1 := mkSys k1 (umem s) (console s)).
  step_with (lift_kernel_ok _ s1 _ _ (eq_refl (gets next_pid k1))). fold s1.
  rewrite E2, wrap_small by (unfold uint, MAX_PROCESS in *; lia). replace (next_pid (kern s) + 1 - 1) with (next_pid (kern s)) by lia.
  set (q' := set_start thread2 (name q) (cookie q) q).
  set (k2 := with_processes (<[next_pid (kern s) := q']> (processes k1)) k1). set (s2 := mkSys k2 (umem s1) (console s1)).
  step_with (lift_kernel_ok _ s1 tt k2); [|apply (update_process_ok k1 (next_pid (kern s)) (fun p => set_start thread2 (name p) (cookie p) p)); [lia|exact Hq]]. fold s2.
  step_with (lift_kernel_ok _ s2 _ _ (eq_refl (gets current_pid k2))). fold s2.
  change (current_pid k2) with (current_pid k1). rewrite E3.
  assert (processes k2 !! current_pid (kern s) = Some p) as Hp2 by (unfold k2, s1; cbn; rewrite lookup_insert_ne by lia; done).
  step_with (lift_process_at s2 (current_pid (kern s)) p); [|split; [lia|exact Hp2]].
  step_with lift_mem_ok; [|exact Hex].
  step_with lift_update; [|split; [lia|exact Hp2]].
  eexists c, _, q'. split; [reflexivity|]. split; [exact Hu|].
  destruct Hrest as (R1 & R2 & R3 & R4 & R5 & R6 & R7). do 7 (split; [done|]). cbn.
  split; [done|]. split; [done|]. rewrite lookup_insert_eq. split; [done|]. rewrite lookup_insert_ne, lookup_insert_eq by lia. done.
Qed.

(** Start-up reaches user mode.  [process_init] and the return at the end of
    [Kernel::start] enter process 1 in [process_entrypoint] on its kernel stack
    with interrupts enabled; its [main_start] creates a second process that waits
    to start in [thread2_start], copies the program to its place, and enters it
    in user mode at its entry point, on top of the user stack, with interrupts
    enabled and in the address space of process 1. *)
Theorem boot_to_user entry raw ck main thread2 start size k u m :
  alloc_ready (allocator k) -> Buddy.phy_start (allocator k) < 2 ^ 46 -> main <> 0 -> program_at start u ->
  exists k1 p m1, process_init entry raw ck main k = Ret (tt, k1) /\ processes k1 !! current_pid k1 = Some p /\
    return_to p m = Ret (tt, m1) /\
    r_rip (regs m1) = entry /\ gpr (regs m1) RDI = this p /\ r_rsp (regs m1) = kernel_stack_bottom (this p) /\
    r_cr3 (regs m1) = pts_paddr p /\ r_cs (regs m1) = KERNEL_CODE_SELECTOR /\ r_rflags (regs m1) = 0x200 /\
    (forall thread s, kernel_entrypoint thread p s = (thread main (cookie p);; panic "thread quit") s) /\
  exists p' s2 m2 q, main_start entry raw ck thread2 start size (mkSys k1 u []) = Ret (p', s2) /\
    return_to p' (mkMachine (regs m1) (mem m1) s2) = Ret (tt, m2) /\ sys m2 = s2 /\
    r_rip (regs m2) = Elf.e_entry u start /\ r_rsp (regs m2) = 34 * 2 ^ 20 /\ r_cs (regs m2) = USER_CODE_SELECTOR /\
    r_ss (regs m2) = USER_DATA_SELECTOR /\ r_rflags (regs m2) = 0x200 /\ r_cr3 (regs m2) = pts_paddr p /\
    (forall a, umem s2 a = Elf.image_after start u (Z.to_nat (Elf.e_phnum u start)) a) /\
    current_pid (kern s2) = 1 /\ processes (kern s2) !! 2 = Some q /\ tmp_start q = thread2 /\ state q = Wait.
Proof.
  intros Hr Hs Hmain Hprog. destruct (process_init_fresh entry raw ck main k Hr Hs) as (k1 & p0 & H1 & Hi & Ha & Hn & Hc & Hp & Hf).
  set (p := set_start main (name p0) (cookie p0) p0) in *. destruct Hf as (Ec & Eus & Euss & Hthis & _).
  assert (context p = initial_context raw (this p) (pts_paddr p) entry) as Ectx by exact Ec.
  assert (context_addr p + sizeof_Context < 2 ^ 64) as Hb.
  { unfold context_addr, kernel_stack_bottom, sizeof_Context, sizeof_kstring, THREAD_KERNEL_STACK_SIZE, PAGE_SIZE, KERNEL_START in *.
    change (this p) with (this p0). rewrite wrap_small by (unfold uint; lia). lia. }
  destruct (return_to_loads p m Hb) as (m1 & Hm1 & (G1 & _ & G3 & G4 & G5 & G6 & G7 & G8) & _).
  { rewrite Ectx. by intros []. }
  exists k1, p, m1. split; [done|]. split; [by rewrite Hc|]. split; [done|].
  rewrite G4, G7, G3, G5, G6, (G1 RDI), Ectx. do 6 (split; [done|]). split.
  { intros thread s. unfold kernel_entrypoint. change (tmp_start p) with main. by rewrite (proj2 (Z.eqb_neq _ _) Hmain). }
  destruct (main_start_run entry raw ck thread2 start size (mkSys k1 u []) p) as (c & s2 & q & H2 & Hu & R1 & R2 & R3 & R4 & R5 & R6 & R7 & N2 & C2 & _ & Q1 & Q2 & Q3).
  1-5: cbn; rewrite ?Hn, ?Hc; done.
  destruct (return_to_loads (set_context c p) (mkMachine (regs m1) (mem m1) s2) Hb R7) as (m2 & Hm2 & (J1 & _ & J3 & J4 & J5 & J6 & J7 & J8) & Es).
  exists (set_context c p), s2, m2, q. split; [done|]. split; [done|]. split; [done|].
  rewrite J4, J7, J5, J8, J6, J3. cbn [context set_context regs_of r_rip r_rsp r_cs r_ss r_rflags r_cr3].
  rewrite R2, R6, Ectx. change (user_stack p) with (user_stack p0). change (user_stack_size p) with (user_stack_size p0). rewrite Eus, Euss.
  cbn in N2, C2, Q1, R1. rewrite Hn in Q1. rewrite Hc in C2. done.
Qed.

(** The witness: a machine as [page_allocator_init] leaves it and a small program. *)
Lemma boot_to_user_witness :
  exists k1 p m1, process_init ex_entry zero_context 0 ex_main ex_kernel = Ret (tt, k1) /\ processes k1 !! current_pid k1 = Some p /\
    return_to p ex_machine = Ret (tt, m1) /\ r_rip (regs m1) = ex_entry /\
  exists p' s2 m2, main_start ex_entry zero_context 0 (KERNEL_START + 0x3000) 0x1000000 124 (mkSys k1 Elf.good_elf []) = Ret (p', s2) /\
    return_to p' (mkMachine (regs m1) (mem m1) s2) = Ret (tt, m2) /\ r_rip (regs m2) = Elf.e_entry Elf.good_elf 0x1000000.
Proof.
  assert (program_at 0x1000000 Elf.good_elf) as Hprog.
  { split; [apply Elf.file_bytes; repeat constructor; discriminate|]. split; [exact Elf.good_elf_wf|]. split; [|by vm_compute].
    intros j Hj. do 4 (destruct j as [|j]; [by vm_compute|]). lia. }
  destruct (boot_to_user ex_entry zero_context 0 ex_main (KERNEL_START + 0x3000) 0x1000000 124 ex_kernel Elf.good_elf ex_machine
    ex_ready ltac:(reflexivity) ltac:(discriminate) Hprog) as (k1 & p & m1 & H1 & H2 & H3 & H4 & _ & _ & _ & _ & _ & _ & p' & s2 & m2 & q & H5 & H6 & _ & H7 & _).
  exists k1, p, m1. split; [exact H1|]. split; [exact H2|]. split; [exact H3|]. split; [exact H4|].
  exists p', s2, m2. split; [exact H5|]. split; [exact H6|exact H7].
Defined.

End Threads.
