(* ===== verification/Programs.v ===== *)
(** * The code that makes system calls: user/programs/init.cpp and [thread2_start]

    [print] and [_start] of the user program and the loop of the second kernel
    thread, on the machine of [ContextSwitch].  The registers that the compiler
    chooses for operands are parameters. *)
From S2P Require Import Prelude LibUtils CpuDefs LibString Paging Process ProcessProofs ProcessThms SmallVec Irq Syscall SyscallThms ContextSwitch ContextSwitchThms.
Import Process Syscall ContextSwitch.

Module Programs.

Section machine.
Context (clobber : Machine -> reg -> Z) (below : Machine -> Z -> Z).
Context (no_handler : Irq.InterruptHandler Sys) (table : Irq.handler_table Sys).
Context (rsp0 kernel_cs : Z) (handler_addr : Irq.stub -> Z).
Abbreviation int42 := (interrupt clobber below no_handler table rsp0 kernel_cs handler_addr 42 None).
Abbreviation kyield := (kyield clobber below no_handler table rsp0 kernel_cs handler_addr).
Abbreviation run_slices := (run_slices clobber below no_handler table rsp0 kernel_cs handler_addr).

(** ** user/programs/init.cpp *)

(** [movq $3, %rax; movq str, %rdi; int $42], with [str] in [src]. *)
Definition print_args (src : reg) (m : Machine) : Machine := run [MOV src RDI] (set_gpr RAX 3 m).
Definition print (src : reg) : ST Machine unit :=
  modify (print_args src);;
  int42.

(** [_start]: one call of [print], then [while (1) for (int i = 0; i < 10000; i++) { }];
    a step makes at most one call. *)
Inductive init_pc := AtPrint | Spin (i : Z).
Definition init_step (pc : init_pc) : bool * init_pc :=
  match pc with
  | AtPrint => (true, Spin 0)
  | Spin i => (false, Spin (if i <? 10000 then i + 1 else 0))
  end.

(** The number of calls of [print] in [steps] steps. *)
Fixpoint _start (steps : nat) (pc : init_pc) : nat :=
  match steps with
  | O => 0
  | S steps => let '(calls, pc) := init_step pc in (if calls : bool then 1 else 0) + _start steps pc
  end%nat.

(** ** process.cpp: the second kernel thread *)

(** [dev->test()], whose body is empty. *)
Definition rtl8139_test : ST Machine unit := mret tt.

(** One round of the loop of [thread2_start], with its counter. *)
Definition thread2_round (i : Z) : ST Machine Z :=
  kyield;;
  let i := wrap64 (i + 1) in
  (if i mod 3000 =? 0 then rtl8139_test else mret tt);;
  mret i.

(** ** What the calls do *)

(** The function of system call [rax] returns [v] from every state in which the
    registers [r] of process [p] were saved, and [Q] relates memory and console. *)
Definition call_returns Q (r : Regs) (p : Process) (v : Z) : Prop :=
  forall s, sched_inv (kern s) -> proc_is s (current_pid (kern s)) (set_context (context_of r 42 0) p) -> exists out,
    syscall_table (gpr r RAX) (current_pid (kern s)) s = Ret (v, mkSys (kern s) (umem s) out) /\ Q (current_pid (kern s)) (io s) (umem s, out).

(** A system call saves the result for the caller and switches to the next process. *)
Lemma system_call_switch Q m p v :
  ready (sys m) -> regs_wf (regs m) -> stack_ok rsp0 (sys m) (regs m) -> serves_syscalls no_handler table ->
  0 < gpr (regs m) RAX < SYSCALL_NR_MAX -> processes (kern (sys m)) !! current_pid (kern (sys m)) = Some p -> call_returns Q (regs m) p v ->
  let k := kern (sys m) in
  exists m1, int42 m = Ret (tt, m1) /\ ready (sys m1) /\ running m1 /\ next_pid (kern (sys m1)) = next_pid k /\
    current_pid (kern (sys m1)) = succ_pid (next_pid k) (current_pid k) /\ Q (current_pid k) (io (sys m)) (io (sys m1)) /\
    (forall pid, saved (sys m1) pid = if decide (pid = current_pid k) then (fun '(a, _) => (a, set_rax (wrap64 v) (context_of (regs m) 42 0))) <$> saved (sys m) pid
                                      else saved (sys m) pid).
Proof using Type.
  intros Hr Hwf Hst Ht Hx Hp Hcall k. set (c := context_of (regs m) 42 0) in *. set (c' := set_rax (wrap64 v) c).
  pose proof (rd_inv _ Hr) as Hi. pose proof (si_current _ Hi) as Hc. pose proof (si_next _ Hi) as Hn.
  assert (serves no_handler table Q 42 None (regs m) (sys m) c') as Heff.
  { intros s1 Hs1. change (context_of _ _ _) with c in Hs1. pose proof (store_run (sys m) c p Hi Hp) as E. rewrite Hs1 in E. injection E as ->.
    destruct (set_context_acted (sys m) p c Hi Hp) as [A _ _ _].
    assert (proc_is (with_process (current_pid (kern (sys m))) (set_context c p) (sys m)) (current_pid (kern (sys m))) (set_context c p)) as Hq by (apply proc_is_with; lia).
    apply (syscall_effect_on no_handler table Q 0 _ (set_context c p) v Ht Hx (A Hi) (proj2 Hq)). by apply Hcall; [apply A|]. }
  assert (has_error_code 42 None) as He by (split; [intros [x H]; done|intros [?|?]; lia]).
  destruct (interrupt_switch_on clobber below no_handler table rsp0 kernel_cs handler_addr Q m 42 None c' Hr Hwf Hst ltac:(by vm_compute) He Heff)
    as (m1 & a & c1 & H1 & Hr1 & Hn1 & Hc1 & Hs1 & Hs1' & He1 & HQ). { intros []; apply Hwf. }
  exists m1. split_and!; try done. exists a, c1. by rewrite Hc1.
Qed.

(** When all others had their turn the caller goes on with its registers and the
    result in [rax]. *)
Lemma system_call_run Q m p v sls :
  ready (sys m) -> regs_wf (regs m) -> stack_ok rsp0 (sys m) (regs m) -> serves_syscalls no_handler table ->
  0 < gpr (regs m) RAX < SYSCALL_NR_MAX -> processes (kern (sys m)) !! current_pid (kern (sys m)) = Some p -> call_returns Q (regs m) p v ->
  (forall m1, int42 m = Ret (tt, m1) -> slices_ok clobber below no_handler table rsp0 kernel_cs handler_addr sls m1) ->
  Z.of_nat (length sls) = next_pid (kern (sys m)) - 2 ->
  exists m1 pids m', int42 m = Ret (tt, m1) /\ Q (current_pid (kern (sys m))) (io (sys m)) (io (sys m1)) /\
    current_pid (kern (sys m1)) = succ_pid (next_pid (kern (sys m))) (current_pid (kern (sys m))) /\
    run_slices sls m1 = Ret (pids, m') /\ current_pid (kern (sys m)) :: pids ≡ₚ seqZ 1 (next_pid (kern (sys m)) - 1) /\
    current_pid (kern (sys m')) = current_pid (kern (sys m)) /\
    regs_eq (regs m') (regs_of (set_rax (wrap64 v) (context_of (regs m) 42 0))).
Proof using Type.
  intros Hr Hwf Hst Ht Hx Hp Hcall Hall Hlen. pose proof (si_current _ (rd_inv _ Hr)) as Hc.
  destruct (system_call_switch Q m p v Hr Hwf Hst Ht Hx Hp Hcall) as (m1 & H1 & Hr1 & Hrun & Hn1 & Hc1 & HQ & Hs1).
  destruct (run_slices_wait clobber below no_handler table rsp0 kernel_cs handler_addr sls m1 (current_pid (kern (sys m))) (this p)
    (set_rax (wrap64 v) (context_of (regs m) 42 0))) as (m' & H' & Hcur & Hreg); try done.
  - rewrite Hs1, decide_True by done. unfold saved. by rewrite Hp.
  - by rewrite Hn1.
  - by apply Hall.
  - rewrite Hn1, Hc1, Hlen. unfold distance, succ_pid. repeat case_decide; lia.
  - eexists m1, _, m'. split; [done|]. split; [done|]. split; [done|]. split; [exact H'|]. split; [|done].
    rewrite Hn1, Hc1, <- (rotation_all _ _ Hc). by replace (Z.to_nat (next_pid (kern (sys m)) - 1)) with (S (length sls)) by lia.
Qed.

(** What [write] does with the registers [r] of its caller. *)
Definition write_fd (r : Regs) : Z := swrap 32 (gpr r RDI).
Definition write_result (r : Regs) : Z := if decide (0 <= write_fd r <= 2) then swrap 32 (gpr r RDX) else -1.
Definition written (r : Regs) (pid : Z) (before after : LibString.memory * list (Z * list Z)) : Prop :=
  after = (before.1, before.2 ++ if decide (1 <= write_fd r <= 2) then [(pid, LibString.read_bytes before.1 (gpr r RSI) (gpr r RDX))] else []).

(** The buffer [write] prints is mapped. *)
Definition buffer_mapped (r : Regs) (p : Process) : Prop := 1 <= write_fd r <= 2 -> user_range (pts p) (gpr r RSI) (gpr r RDX) = true.

Lemma write_call r s p : buffer_mapped r p -> sched_inv (kern s) -> proc_is s (current_pid (kern s)) (set_context (context_of r 42 0) p) -> exists out,
  sys_write (current_pid (kern s)) s = Ret (write_result r, mkSys (kern s) (umem s) out) /\ written r (current_pid (kern s)) (io s) (umem s, out).
Proof using Type.
  intros Hm Hi Hp. pose proof (si_id _ Hi _ _ (proj2 Hp)) as Hid. unfold sys_write. step_with lift_process_at; [|exact Hp]. cbv zeta.
  cbn [rdi rsi rdx context_of context set_context pts]. unfold write_result, written, io. fold (write_fd r). destruct (Z.eqb_spec (write_fd r) 0) as [E0|E0].
  { rewrite E0. exists (console s). split; [by destruct s|]. cbn [fst snd]. by rewrite decide_False, app_nil_r by lia. }
  destruct ((write_fd r =? 1) || (write_fd r =? 2)) eqn:E12.
  - apply orb_true_iff in E12. rewrite !Z.eqb_eq in E12. rewrite !decide_True, Hm by lia. eexists. split; [reflexivity|]. by rewrite Hid.
  - apply orb_false_iff in E12. rewrite !Z.eqb_neq in E12. rewrite !decide_False by lia. exists (console s). split; [by destruct s|]. by rewrite app_nil_r.
Qed.

Lemma start_spins n i : _start n (Spin i) = 0%nat.
Proof using Type. revert i. induction n as [|n IH]; intros i; [done|]. apply IH. Qed.

(** The registers [r] with a new value in [rax]. *)
Definition with_rax (v : Z) (r : Regs) : Regs := with_gpr (upd (gpr r) RAX v) r.

Lemma regs_of_result r v : regs_eq (regs_of (set_rax v (context_of r 42 0))) (with_rax v r).
Proof using Type. split_and!; try done; [by intros []|by intros []]. Qed.

End machine.

(** C7: a system call from user mode, from the [int] instruction to the return.  When
    a process issues system call [write], with a buffer its page tables map if the
    descriptor is 1 or 2, the console receives exactly the bytes of the buffer,
    marked with its process id, if the descriptor is 1 or 2 and nothing otherwise;
    its memory does not change; the next process runs; and after each of the
    others had one turn it continues with all its registers as they were and the
    number of bytes, or -1, in [rax]. *)
Theorem write_from_user clobber below no_handler table rsp0 kernel_cs handler_addr m p sls :
  ready (sys m) -> regs_wf (regs m) -> stack_ok rsp0 (sys m) (regs m) -> serves_syscalls no_handler table -> gpr (regs m) RAX = SYSCALL_NR_WRITE ->
  processes (kern (sys m)) !! current_pid (kern (sys m)) = Some p -> buffer_mapped (regs m) p ->
  (forall m1, interrupt clobber below no_handler table rsp0 kernel_cs handler_addr 42 None m = Ret (tt, m1) ->
    slices_ok clobber below no_handler table rsp0 kernel_cs handler_addr sls m1) ->
  Z.of_nat (length sls) = next_pid (kern (sys m)) - 2 ->
  exists m1 pids m', interrupt clobber below no_handler table rsp0 kernel_cs handler_addr 42 None m = Ret (tt, m1) /\
    written (regs m) (current_pid (kern (sys m))) (io (sys m)) (io (sys m1)) /\
    current_pid (kern (sys m1)) = succ_pid (next_pid (kern (sys m))) (current_pid (kern (sys m))) /\
    run_slices clobber below no_handler table rsp0 kernel_cs handler_addr sls m1 = Ret (pids, m') /\
    current_pid (kern (sys m)) :: pids ≡ₚ seqZ 1 (next_pid (kern (sys m)) - 1) /\
    current_pid (kern (sys m')) = current_pid (kern (sys m)) /\
    regs_eq (regs m') (with_rax (wrap64 (write_result (regs m))) (regs m)).
Proof.
  intros Hr Hwf Hst Ht Hx Hp Hb Hall Hlen.
  destruct (system_call_run clobber below no_handler table rsp0 kernel_cs handler_addr (written (regs m)) m p (write_result (regs m)) sls Hr Hwf Hst Ht)
    as (m1 & pids & m' & H1 & H2 & H3 & H4 & H5 & H6 & H7); try done.
  - by rewrite Hx.
  - intros s Hi Hq. rewrite Hx. by apply (write_call _ _ p).
  - exists m1, pids, m'. split_and!; try done. rewrite H7. apply regs_of_result.
Qed.

(** The user program says nothing.  Its one call of [print] is system call 3,
    open, which takes no notice of the string: the console and the memory of the
    process stay as they are, and when the process runs again [rax] is -1, [rdi]
    is the string and all other registers are as before; then it makes no system
    call for ever. *)
Theorem init_prints_nothing clobber below no_handler table rsp0 kernel_cs handler_addr src str m sls :
  ready (sys m) -> regs_wf (regs m) -> stack_ok rsp0 (sys m) (regs m) -> serves_syscalls no_handler table -> src <> RAX -> gpr (regs m) src = str ->
  (forall m1, print clobber below no_handler table rsp0 kernel_cs handler_addr src m = Ret (tt, m1) ->
    slices_ok clobber below no_handler table rsp0 kernel_cs handler_addr sls m1) ->
  Z.of_nat (length sls) = next_pid (kern (sys m)) - 2 ->
  (forall n, _start (S n) AtPrint = 1%nat) /\
  exists m1 pids m', print clobber below no_handler table rsp0 kernel_cs handler_addr src m = Ret (tt, m1) /\ io (sys m1) = io (sys m) /\
    run_slices clobber below no_handler table rsp0 kernel_cs handler_addr sls m1 = Ret (pids, m') /\
    current_pid (kern (sys m')) = current_pid (kern (sys m)) /\
    regs_eq (regs m') (with_rax (2 ^ 64 - 1) (with_gpr (upd (gpr (regs m)) RDI str) (regs m))).
Proof.
  intros Hr Hwf Hst Ht Hsrc Hstr Hall Hlen. split.
  { intros n. cbn [_start init_step]. by rewrite start_spins. }
  set (m0 := print_args src m). assert (gpr (regs m0) RDI = str) as Ed.
  { unfold m0, print_args. cbn. unfold upd. repeat case_decide; done. }
  destruct (proj2 (si_used _ (rd_inv _ Hr) _) (si_current _ (rd_inv _ Hr))) as [p Hp].
  destruct (system_call_run clobber below no_handler table rsp0 kernel_cs handler_addr (fun _ a b => b = a) m0 p (-1) sls Hr Hwf Hst Ht)
    as (m1 & pids & m' & H1 & H2 & H3 & H4 & _ & H5 & H6); try done.
  - intros s _ _. exists (console s). split; [by destruct s|done].
  - exists m1, pids, m'. split; [exact H1|]. split_and!; try done. rewrite H6, regs_of_result. split_and!; try done.
    intros x. cbn. unfold upd. repeat case_decide; done.
Qed.

(** [kyield] gives up the processor: the next process runs, and after the turns of
    the others the thread continues with all registers but [rax].  The call it
    makes is not yield but write: if [rdi] happens to hold 1 or 2, the [rdx] bytes
    at [rsi] are printed. *)
Theorem kyield_switches clobber below no_handler table rsp0 kernel_cs handler_addr m p sls :
  ready (sys m) -> regs_wf (regs m) -> stack_ok rsp0 (sys m) (regs m) -> serves_syscalls no_handler table ->
  processes (kern (sys m)) !! current_pid (kern (sys m)) = Some p -> buffer_mapped (regs m) p ->
  (forall m1, kyield clobber below no_handler table rsp0 kernel_cs handler_addr m = Ret (tt, m1) ->
    slices_ok clobber below no_handler table rsp0 kernel_cs handler_addr sls m1) ->
  Z.of_nat (length sls) = next_pid (kern (sys m)) - 2 ->
  exists m1 pids m', kyield clobber below no_handler table rsp0 kernel_cs handler_addr m = Ret (tt, m1) /\
    (forall i, thread2_round clobber below no_handler table rsp0 kernel_cs handler_addr i m = Ret (wrap64 (i + 1), m1)) /\
    written (regs m) (current_pid (kern (sys m))) (io (sys m)) (io (sys m1)) /\
    current_pid (kern (sys m1)) = succ_pid (next_pid (kern (sys m))) (current_pid (kern (sys m))) /\
    run_slices clobber below no_handler table rsp0 kernel_cs handler_addr sls m1 = Ret (pids, m') /\
    current_pid (kern (sys m')) = current_pid (kern (sys m)) /\
    exists v, regs_eq (regs m') (with_rax v (regs m)).
Proof.
  intros Hr Hwf Hst Ht Hp Hb Hall Hlen. set (m0 := set_gpr RAX 2 m).
  destruct (system_call_run clobber below no_handler table rsp0 kernel_cs handler_addr (written (regs m0)) m0 p (write_result (regs m0)) sls Hr Hwf Hst Ht)
    as (m1 & pids & m' & H1 & H2 & H3 & H4 & _ & H5 & H6); try done.
  - intros s Hi Hq. by apply (write_call _ _ p).
  - exists m1, pids, m'. split; [exact H1|]. split.
    { intros i. unfold thread2_round. assert (kyield clobber below no_handler table rsp0 kernel_cs handler_addr m = Ret (tt, m1)) as E by exact H1.
      step_with E. cbv zeta. by destruct (_ =? 0). }
    split_and!; try done. exists (wrap64 (write_result (regs m0))). rewrite H6, regs_of_result. split_and!; try done.
    intros x. cbn. unfold upd. by case_decide.
Qed.

(** ** Concrete runs *)

(** The table [SetupSyscall] leaves. *)
Definition ex_syscalls : Irq.handler_table Sys := match SetupSyscall ex_table with Ret t => t | _ => ∅ end.
Lemma ex_serves : serves_syscalls tick ex_syscalls.
Proof. by split. Qed.

(** A user process that writes the three bytes at 0x5000, with that page mapped. *)
Definition user_regs (nr : Z) : Regs :=
  mkRegs (fun r => match r with RAX => nr | RDI => 1 | RSI => 0x5000 | RDX => 3 | _ => 7 end) (fun _ => USER_DATA_SELECTOR) 0x1000 0x100010 USER_CODE_SELECTOR 0x202
    0x2200000 USER_DATA_SELECTOR.
Definition user_proc : Process := set_brk_pts USER_BRK_START (map_page 5 0x4200 ∅) (bare 1 Running).
Definition user_kernel : Kernel := mkKernel (allocator ex_two) (<[1 := user_proc]> (<[2 := bare 2 Wait]> ∅)) 3 1 0.
Definition ex_user (nr : Z) : Machine := mkMachine (user_regs nr) (fun _ => 0) (mkSys user_kernel (fun a => a mod 256) []).
Definition ex_rsp0 : Z := KERNEL_START + 0x8000.

Lemma user_addresses : object_addresses user_kernel = object_addresses ex_two.
Proof. by vm_compute. Qed.
Lemma user_kernel_inv : sched_inv user_kernel.
Proof.
  split; simpl.
  - lia.
  - unfold MAX_PROCESS. lia.
  - intros pid. rewrite !lookup_insert_is_Some', lookup_empty. split; [|lia]. intros [?|[?|[? ?]]]; [lia|lia|done].
  - intros pid p. rewrite !lookup_insert, lookup_empty. repeat case_decide; naive_solver.
  - intros pid p. rewrite !lookup_insert, lookup_empty. repeat case_decide; naive_solver.
Qed.
Lemma ex_user_ready nr : ready (sys (ex_user nr)).
Proof.
  split; [exact user_kernel_inv|done| |cbn [kern sys ex_user]; rewrite user_addresses; apply ex_ready_sys].
  intros pid a c. unfold saved, ex_user, user_kernel. cbn [kern processes sys].
  rewrite !lookup_insert, lookup_empty. repeat case_decide; intros [= <- <-]; (split; [vm_compute; done|]); intros []; done.
Qed.
Lemma ex_user_stack nr : stack_ok ex_rsp0 (sys (ex_user nr)) (user_regs nr).
Proof.
  split; [by vm_compute|]. cbn [kern sys ex_user]. rewrite user_addresses, ex_two_addresses. apply (bool_decide_unpack _). by vm_compute.
Qed.

Lemma ex_user_proc nr : processes (kern (sys (ex_user nr))) !! current_pid (kern (sys (ex_user nr))) = Some user_proc.
Proof. reflexivity. Qed.

(** The turn of the other process, after a system call. *)
Lemma ex_other Q m p v m1 : object_addresses (kern (sys m)) = object_addresses ex_two ->
  ready (sys m) -> regs_wf (regs m) -> stack_ok ex_rsp0 (sys m) (regs m) ->
  0 < gpr (regs m) RAX < SYSCALL_NR_MAX -> processes (kern (sys m)) !! current_pid (kern (sys m)) = Some p -> call_returns Q (regs m) p v ->
  interrupt (fun _ _ => 77) (fun _ _ => 0) tick ex_syscalls ex_rsp0 KERNEL_CODE_SELECTOR Irq.ex_addr 42 None m = Ret (tt, m1) ->
  slices_ok (fun _ _ => 77) (fun _ _ => 0) tick ex_syscalls ex_rsp0 KERNEL_CODE_SELECTOR Irq.ex_addr [ex_slice 6] m1.
Proof.
  intros Ha Hr Hwf Hst Hx Hp Hc H1.
  destruct (system_call_switch (fun _ _ => 77) (fun _ _ => 0) tick ex_syscalls ex_rsp0 KERNEL_CODE_SELECTOR Irq.ex_addr Q m p v Hr Hwf Hst ex_serves Hx Hp Hc)
    as (m2 & H2 & Hr2 & _ & _ & _ & _ & Hs). rewrite H1 in H2. injection H2 as <-.
  split; [|done]. exists (context_of (ex_regs 6) 32 0). apply ex_slice_ok; [|lia|reflexivity|reflexivity].
  apply ready_home; [done|]. rewrite <- Ha. apply addresses_eq. intros pid. rewrite Hs. case_decide; [|done]. by destruct (saved (sys m) pid) as [[]|].
Qed.

Lemma ex_buffer nr : buffer_mapped (user_regs nr) user_proc.
Proof. intros _. by vm_compute. Qed.

Lemma write_from_user_witness :
  exists m1 pids m', interrupt (fun _ _ => 77) (fun _ _ => 0) tick ex_syscalls ex_rsp0 KERNEL_CODE_SELECTOR Irq.ex_addr 42 None (ex_user 2) = Ret (tt, m1) /\
    written (user_regs 2) 1 (io (sys (ex_user 2))) (io (sys m1)) /\
    current_pid (kern (sys m1)) = 2 /\
    run_slices (fun _ _ => 77) (fun _ _ => 0) tick ex_syscalls ex_rsp0 KERNEL_CODE_SELECTOR Irq.ex_addr [ex_slice 6] m1 = Ret (pids, m') /\
    1 :: pids ≡ₚ [1; 2] /\ current_pid (kern (sys m')) = 1 /\ regs_eq (regs m') (with_rax 3 (user_regs 2)).
Proof.
  apply (write_from_user (fun _ _ => 77) (fun _ _ => 0) tick ex_syscalls ex_rsp0 KERNEL_CODE_SELECTOR Irq.ex_addr (ex_user 2) user_proc [ex_slice 6]).
  - apply ex_user_ready.
  - by intros [].
  - apply ex_user_stack.
  - exact ex_serves.
  - reflexivity.
  - reflexivity.
  - apply ex_buffer.
  - intros m1. apply (ex_other (written (user_regs 2)) (ex_user 2) user_proc (write_result (user_regs 2))); [exact user_addresses|apply ex_user_ready|by intros []|apply ex_user_stack|done|reflexivity|].
    intros s Hi Hq. by apply (write_call _ _ user_proc (ex_buffer 2)).
  - reflexivity.
Defined.

Lemma init_prints_nothing_witness :
  (forall n, _start (S n) AtPrint = 1%nat) /\
  exists m1 pids m', print (fun _ _ => 77) (fun _ _ => 0) tick ex_syscalls ex_rsp0 KERNEL_CODE_SELECTOR Irq.ex_addr RSI (ex_user 9) = Ret (tt, m1) /\
    io (sys m1) = io (sys (ex_user 9)) /\
    run_slices (fun _ _ => 77) (fun _ _ => 0) tick ex_syscalls ex_rsp0 KERNEL_CODE_SELECTOR Irq.ex_addr [ex_slice 6] m1 = Ret (pids, m') /\
    current_pid (kern (sys m')) = 1 /\
    regs_eq (regs m') (with_rax (2 ^ 64 - 1) (with_gpr (upd (gpr (user_regs 9)) RDI 0x5000) (user_regs 9))).
Proof.
  apply (init_prints_nothing (fun _ _ => 77) (fun _ _ => 0) tick ex_syscalls ex_rsp0 KERNEL_CODE_SELECTOR Irq.ex_addr RSI 0x5000 (ex_user 9) [ex_slice 6]).
  - apply ex_user_ready.
  - by intros [].
  - apply ex_user_stack.
  - exact ex_serves.
  - done.
  - reflexivity.
  - intros m1. apply (ex_other (fun _ a b => b = a) (print_args RSI (ex_user 9)) user_proc (-1)); [exact user_addresses|apply ex_user_ready|by intros []|apply ex_user_stack|done|reflexivity|].
    intros s _ _. exists (console s). split; [by destruct s|done].
  - reflexivity.
Defined.

(** The registers of this thread make its yield print three bytes. *)
Lemma kyield_switches_witness :
  exists m1 pids m', kyield (fun _ _ => 77) (fun _ _ => 0) tick ex_syscalls ex_rsp0 KERNEL_CODE_SELECTOR Irq.ex_addr (ex_user 9) = Ret (tt, m1) /\
    (forall i, thread2_round (fun _ _ => 77) (fun _ _ => 0) tick ex_syscalls ex_rsp0 KERNEL_CODE_SELECTOR Irq.ex_addr i (ex_user 9) = Ret (wrap64 (i + 1), m1)) /\
    written (user_regs 9) 1 (io (sys (ex_user 9))) (io (sys m1)) /\
    current_pid (kern (sys m1)) = 2 /\
    run_slices (fun _ _ => 77) (fun _ _ => 0) tick ex_syscalls ex_rsp0 KERNEL_CODE_SELECTOR Irq.ex_addr [ex_slice 6] m1 = Ret (pids, m') /\
    current_pid (kern (sys m')) = 1 /\ exists v, regs_eq (regs m') (with_rax v (user_regs 9)).
Proof.
  apply (kyield_switches (fun _ _ => 77) (fun _ _ => 0) tick ex_syscalls ex_rsp0 KERNEL_CODE_SELECTOR Irq.ex_addr (ex_user 9) user_proc [ex_slice 6]).
  - apply ex_user_ready.
  - by intros [].
  - apply ex_user_stack.
  - exact ex_serves.
  - reflexivity.
  - apply ex_buffer.
  - intros m1. apply (ex_other (written (user_regs 9)) (set_gpr RAX 2 (ex_user 9)) user_proc (write_result (user_regs 9))); [exact user_addresses|apply ex_user_ready|by intros []|apply ex_user_stack|done|reflexivity|].
    intros s Hi Hq. by apply (write_call (regs (set_gpr RAX 2 (ex_user 9))) _ user_proc).
  - reflexivity.
Defined.

End Programs.
