(* ===== verification/Mm.v ===== *)
(** * mm/mm.cpp: segment descriptors and the firmware's memory map *)
From S2P Require Import Prelude LibUtils CpuDefs SmallVec Buddy PageAlloc.

Module Mm.
Import SmallVec PageAlloc.

(** ** The global descriptor table *)

Definition gdt_entries : Z := 128.
Definition gdt_get (t : gmap Z Z) (i : Z) : Z := default 0 (t !! i).

(** Members of a descriptor assigned one after the other, from zero. *)
Definition make_desc (l : layout) (members : list (string * Z)) : Z :=
  fold_left (fun d m => write_field l (fst m) (snd m) d) members 0.

Definition kernel_code_desc : Z := make_desc SegmentDescriptor
  [("present", 1); ("__exec", 1); ("__reserved", 1); ("_long_mode", 1); ("_default_operand_size", 0); ("_dpl", 0)]%string.
Definition kernel_data_desc : Z := make_desc SegmentDescriptor
  [("present", 1); ("__exec", 0); ("__reserved", 1); ("__wr", 1)]%string.
Definition user_code_desc : Z := make_desc SegmentDescriptor
  [("present", 1); ("__exec", 1); ("__reserved", 1); ("_long_mode", 1); ("_default_operand_size", 0); ("_dpl", 3)]%string.
Definition user_data_desc : Z := make_desc SegmentDescriptor
  [("present", 1); ("__exec", 0); ("__reserved", 1); ("__wr", 1); ("_dpl", 3)]%string.

Definition sizeof_TaskStateSegment : Z := layout_bits TaskStateSegment / 8.

(** [memset], then [iomap_base_addr] and [rsp0]. *)
Definition make_tss (interrupt_stack_bottom : Z) : Z :=
  make_desc TaskStateSegment
    [("iomap_base_addr", fst (field TaskStateSegment "iomap") / 8); ("rsp0", interrupt_stack_bottom)]%string.

Definition tss_desc (tss_addr : Z) : Z := make_desc SystemSegmentDescriptor
  [("segment_limit_lo16", Z.land sizeof_TaskStateSegment 0xffff);
   ("segment_limit_hi4", Z.shiftr sizeof_TaskStateSegment 16);
   ("base_addr_lo16", Z.land tss_addr 0xffff);
   ("base_addr_mid8", Z.land (Z.shiftr tss_addr 16) 0xff);
   ("base_addr_midhi8", Z.land (Z.shiftr tss_addr 24) 0xff);
   ("base_addr_hi32", Z.land (Z.shiftr tss_addr 32) 0xffffffff);
   ("type", DescriptorType_value LongAvailableTSS); ("dpl", 0); ("p", 1)]%string.

(** The firmware's table, copied word by word; more words than [kernel_gdt] has
    are written past it. *)
Definition copy_gdt (firmware : list Z) : outcome (gmap Z Z) :=
  if Z.of_nat (length firmware) <=? gdt_entries
  then Ret (list_to_map (zip (Z.of_nat <$> seq 0 (length firmware)) firmware))
  else Fault.

(** [gdt_init], given the firmware's table and selectors. *)
Definition gdt_init (firmware : list Z) (cs ds tss_addr : Z) : outcome (gmap Z Z) :=
  match copy_gdt firmware with
  | Ret t =>
      let t := if negb (cs =? KERNEL_CODE_SELECTOR) then <[KERNEL_CODE_SEGMENT_INDEX := kernel_code_desc]> t else t in
      let t := if negb (ds =? KERNEL_DATA_SELECTOR) then <[KERNEL_DATA_SEGMENT_INDEX := kernel_data_desc]> t else t in
      let t := <[USER_CODE_SEGMENT_INDEX := user_code_desc]> t in
      let t := <[USER_DATA_SEGMENT_INDEX := user_data_desc]> t in
      let t := <[TSS_INDEX := get_bits 0 64 (tss_desc tss_addr)]> t in
      Ret (<[TSS_INDEX + 1 := get_bits 64 64 (tss_desc tss_addr)]> t)
  | o => o
  end.

(** ** The memory map *)

Definition EfiConventionalMemory : Z := 7.

(** The members of [EFI_MEMORY_DESCRIPTOR] that are read. *)
Record MemoryDescriptor := mkDescriptor {
  md_Type : Z;
  md_PhysicalStart : Z;
  md_NumberOfPages : Z;
  md_Attribute : Z
}.

Definition region_of (md : MemoryDescriptor) (size : Z) : PageRegion :=
  mkRegion (md_Type md) (md_PhysicalStart md) 0 size (md_Attribute md).

(** The range of [md] meets the kernel image. *)
Definition intersects (kstart ksize : Z) (md : MemoryDescriptor) : bool :=
  let l1 := md_PhysicalStart md in
  let r1 := wrap64 (md_PhysicalStart md + 4096 * md_NumberOfPages md) in
  let l2 := kstart in
  let r2 := wrap64 (kstart + ksize) in
  negb ((r2 <=? l1) || (r1 <=? l2)).

(** The loop of [dump_efi_info]; it returns the total size of conventional memory. *)
Fixpoint dump_loop (kstart ksize : Z) (mds : list MemoryDescriptor) (total_size : Z) : ST (SmallVec PageRegion) Z :=
  match mds with
  | [] => mret total_size
  | md :: mds =>
      emplace_back max_regions (region_of md (wrap64 (md_NumberOfPages md * 4096)));;
      if md_Type md =? EfiConventionalMemory then
        if intersects kstart ksize md
        then panic "Kernel image should not intersection with conventional memory"
        else
          push_back max_regions (region_of md (md_NumberOfPages md));;
          dump_loop kstart ksize mds (wrap64 (total_size + wrap64 (md_NumberOfPages md * 4096)))
      else dump_loop kstart ksize mds total_size
  end.

Definition dump_efi_info (kstart ksize : Z) (mds : list MemoryDescriptor) : ST (SmallVec PageRegion) Z :=
  dump_loop kstart ksize mds 0.

(** The part of [mm_init] that sets up the page allocator. *)
Definition mm_init_memory (kstart ksize : Z) (mds : list MemoryDescriptor) : outcome Buddy.BuddyAllocator :=
  match dump_efi_info kstart ksize mds new with
  | Ret (_, available_memory) => page_allocator_init available_memory
  | Panic m => Panic m | Halt => Halt | Fault => Fault | OutOfFuel => OutOfFuel
  end.

End Mm.
