(* ===== verification/MmThms.v ===== *)
(** * Theorems about descriptors and the memory map *)
From S2P Require Import Prelude LibUtils CpuDefs SmallVec BuddyTree Buddy BuddyInv BuddyProofs BuddySpec PageAlloc PageAllocThms Mm.
Import SmallVec PageAlloc Mm.

(** The base address the processor assembles from a system descriptor in two words. *)
Definition tss_base (lo hi : Z) : Z :=
  let d := lo + 2 ^ 64 * hi in
  read_field SystemSegmentDescriptor "base_addr_lo16" d +
  2 ^ 16 * read_field SystemSegmentDescriptor "base_addr_mid8" d +
  2 ^ 24 * read_field SystemSegmentDescriptor "base_addr_midhi8" d +
  2 ^ 32 * read_field SystemSegmentDescriptor "base_addr_hi32" d.

(** Splitting a 128-bit object into words and joining them again. *)
Lemma join_words d : 0 <= d < 2 ^ 128 -> get_bits 0 64 d + 2 ^ 64 * get_bits 64 64 d = d.
Proof. intros Hd. rewrite !get_bits_eq by lia. change (2 ^ 0) with 1. rewrite Z.div_1_r. dlia. Qed.

Lemma tss_desc_range a : 0 <= tss_desc a < 2 ^ 128.
Proof.
  assert (forall ms d, 0 <= d < 2 ^ 128 -> Forall (fun m => 0 <= fst (field SystemSegmentDescriptor (fst m)) /\ 0 <= snd (field SystemSegmentDescriptor (fst m)) /\
    fst (field SystemSegmentDescriptor (fst m)) + snd (field SystemSegmentDescriptor (fst m)) <= 128) ms ->
    0 <= fold_left (fun d m => write_field SystemSegmentDescriptor (fst m) (snd m) d) ms d < 2 ^ 128) as H.
  { induction ms as [|m ms IH]; intros d Hd Hms; [done|]. apply Forall_cons in Hms as [(H1 & H2 & H3) Hms].
    cbn [fold_left]. apply IH; [|done]. unfold write_field.
    set (lo := fst (field _ _)) in *. set (w := snd (field _ _)) in *. apply set_bits_range; lia. }
  apply H; [lia|]. repeat constructor; vm_compute; discriminate.
Qed.

(** The segments of the table [gdt_init] builds. *)
Definition code_segment (d dpl : Z) : Prop :=
  read_field SegmentDescriptor "present" d = 1 /\ read_field SegmentDescriptor "__exec" d = 1 /\
  read_field SegmentDescriptor "_long_mode" d = 1 /\ read_field SegmentDescriptor "_default_operand_size" d = 0 /\
  read_field SegmentDescriptor "_dpl" d = dpl.
Definition data_segment (d dpl : Z) : Prop :=
  read_field SegmentDescriptor "present" d = 1 /\ read_field SegmentDescriptor "__exec" d = 0 /\
  read_field SegmentDescriptor "__wr" d = 1 /\ read_field SegmentDescriptor "_dpl" d = dpl.

(** The descriptors of the table. *)
Lemma gdt_table_ok firmware cs ds tss_addr stack :
  Z.of_nat (length firmware) <= gdt_entries -> 0 <= tss_addr < 2 ^ 64 -> 0 <= stack < 2 ^ 64 ->
  exists t, gdt_init firmware cs ds tss_addr = Ret t /\
    code_segment (gdt_get t (USER_CODE_SELECTOR / 8)) 3 /\ data_segment (gdt_get t (USER_DATA_SELECTOR / 8)) 3 /\
    (cs <> KERNEL_CODE_SELECTOR -> code_segment (gdt_get t (KERNEL_CODE_SELECTOR / 8)) 0) /\
    (ds <> KERNEL_DATA_SELECTOR -> data_segment (gdt_get t (KERNEL_DATA_SELECTOR / 8)) 0) /\
    tss_base (gdt_get t (TSS_SELECTOR / 8)) (gdt_get t (TSS_SELECTOR / 8 + 1)) = tss_addr /\
    read_field SystemSegmentDescriptor "type" (gdt_get t (TSS_SELECTOR / 8)) = 9 /\
    read_field SystemSegmentDescriptor "p" (gdt_get t (TSS_SELECTOR / 8)) = 1 /\
    read_field TaskStateSegment "rsp0" (make_tss stack) = stack.
Proof.
  intros Hf Ha Hst. unfold gdt_init, copy_gdt. rewrite (proj2 (Z.leb_le _ _)) by done.
  eexists. split; [reflexivity|]. unfold gdt_get.
  change (USER_CODE_SELECTOR / 8) with 4. change (USER_DATA_SELECTOR / 8) with 5. change (KERNEL_CODE_SELECTOR / 8) with 2.
  change (KERNEL_DATA_SELECTOR / 8) with 3. change (TSS_SELECTOR / 8) with 6. change (TSS_INDEX + 1) with 7.
  change (6 + 1) with 7. unfold TSS_INDEX, USER_DATA_SEGMENT_INDEX, USER_CODE_SEGMENT_INDEX, KERNEL_DATA_SEGMENT_INDEX, KERNEL_CODE_SEGMENT_INDEX.
  split_and!.
  - rewrite !lookup_insert_ne, lookup_insert_eq by lia. by vm_compute.
  - rewrite !lookup_insert_ne, lookup_insert_eq by lia. by vm_compute.
  - intros Hc. rewrite (proj2 (Z.eqb_neq _ _) Hc). cbn [negb]. rewrite 4!lookup_insert_ne by lia.
    destruct (negb (ds =? KERNEL_DATA_SELECTOR)); rewrite ?lookup_insert_ne, lookup_insert_eq by lia; by vm_compute.
  - intros Hd. rewrite (proj2 (Z.eqb_neq _ _) Hd). cbn [negb]. rewrite 4!lookup_insert_ne, lookup_insert_eq by lia. by vm_compute.
  - rewrite lookup_insert_ne, !lookup_insert_eq by lia. cbn [from_option id]. unfold tss_base. cbv zeta. unfold id.
    rewrite join_words by apply tss_desc_range. unfold tss_desc, make_desc. cbn [fold_left fst snd].
    change 0xffffffff with (Z.ones 32). change 0xffff with (Z.ones 16). change 0xff with (Z.ones 8).
    rewrite !Z.land_ones, !Z.shiftr_div_pow2 by lia. fields. dlia.
  - rewrite lookup_insert_ne, lookup_insert_eq by lia. cbn [from_option id].
    unfold read_field. change (field SystemSegmentDescriptor "type") with (40, 4). cbn [fst snd]. rewrite get_bits_low by lia.
    unfold tss_desc, make_desc. cbn [fold_left fst snd]. by fields.
  - rewrite lookup_insert_ne, lookup_insert_eq by lia. cbn [from_option id].
    unfold read_field. change (field SystemSegmentDescriptor "p") with (47, 1). cbn [fst snd]. rewrite get_bits_low by lia.
    unfold tss_desc, make_desc. cbn [fold_left fst snd]. by fields.
  - unfold make_tss, make_desc. cbn [fold_left fst snd]. fields. by rewrite Z.mod_small by lia.
Qed.

(** From any firmware table of at most 128 entries, [gdt_init] builds a table
    in which the user selectors name 64-bit code and writable data of privilege
    level 3, the kernel selectors name code and data of level 0 unless the
    firmware already used them, and the task register's descriptor decodes to
    the address of the task state segment, whose kernel stack is the interrupt
    stack. *)
Theorem gdt_init_ok firmware cs ds tss_addr stack :
  Z.of_nat (length firmware) <= gdt_entries -> 0 <= tss_addr < 2 ^ 64 -> 0 <= stack < 2 ^ 64 ->
  exists t, gdt_init firmware cs ds tss_addr = Ret t /\
    code_segment (gdt_get t (USER_CODE_SELECTOR / 8)) 3 /\ data_segment (gdt_get t (USER_DATA_SELECTOR / 8)) 3 /\
    (cs <> KERNEL_CODE_SELECTOR -> code_segment (gdt_get t (KERNEL_CODE_SELECTOR / 8)) 0) /\
    (ds <> KERNEL_DATA_SELECTOR -> data_segment (gdt_get t (KERNEL_DATA_SELECTOR / 8)) 0) /\
    tss_base (gdt_get t (TSS_SELECTOR / 8)) (gdt_get t (TSS_SELECTOR / 8 + 1)) = tss_addr /\
    read_field SystemSegmentDescriptor "type" (gdt_get t (TSS_SELECTOR / 8)) = 9 /\
    read_field SystemSegmentDescriptor "p" (gdt_get t (TSS_SELECTOR / 8)) = 1 /\
    read_field TaskStateSegment "rsp0" (make_tss stack) = stack.
Proof. apply gdt_table_ok. Qed.

(** ** The memory map *)

(** The regions recorded for a descriptor. *)
Definition listing (md : MemoryDescriptor) : list PageRegion :=
  region_of md (wrap64 (md_NumberOfPages md * 4096)) ::
  if md_Type md =? EfiConventionalMemory then [region_of md (md_NumberOfPages md)] else [].

(** Cells past the end were never written. *)
Definition fresh (v : SmallVec PageRegion) : Prop := forall i, size_ v <= i -> buf_ v !! i = None.

Lemma push_region v r : wf max_regions v -> fresh v -> size_ v < max_regions -> exists v',
  push_back max_regions r v = Ret (size_ v, v') /\ wf max_regions v' /\ fresh v' /\
  contents zero_region v' = contents zero_region v ++ [r].
Proof.
  intros Hwf Hf Hs. destruct (push_back_ok zero_region max_regions ltac:(done) v r Hwf Hs) as (v' & Hp & Hwf' & Hc).
  exists v'. split; [done|]. split; [done|]. split; [|done].
  unfold push_back in Hp. erewrite bind_ret in Hp; [|apply (eq_refl (gets size_ v))].
  erewrite bind_ret in Hp; [|apply set_buf_ok; destruct Hwf; lia]. injection Hp as <-. intros i. cbn [size_ buf_].
  destruct Hwf. unfold max_regions in *. rewrite wrap_small by (unfold uint; lia). intros Hi.
  rewrite lookup_insert_ne by lia. apply Hf. lia.
Qed.

Lemma dump_loop_ok kstart ksize mds total v :
  wf max_regions v -> fresh v ->
  Forall (fun md => md_Type md = EfiConventionalMemory -> intersects kstart ksize md = false) mds ->
  size_ v + Z.of_nat (length (flat_map listing mds)) <= max_regions ->
  exists total' v', dump_loop kstart ksize mds total v = Ret (total', v') /\ wf max_regions v' /\ fresh v' /\
    contents zero_region v' = contents zero_region v ++ (flat_map listing mds).
Proof.
  revert total v. induction mds as [|md mds IH]; intros total v Hwf Hf Hno Hlen.
  { exists total, v. cbn. rewrite app_nil_r. done. }
  apply Forall_cons in Hno as [Hmd Hno]. cbn [flat_map] in Hlen |- *. rewrite length_app in Hlen.
  cbn [dump_loop]. destruct (push_region v (region_of md (wrap64 (md_NumberOfPages md * 4096))) Hwf Hf) as (v1 & H1 & Hwf1 & Hf1 & C1).
  { unfold listing in Hlen. cbn [length] in Hlen. lia. }
  change (emplace_back max_regions (region_of md (wrap64 (md_NumberOfPages md * 4096))))
    with (push_back max_regions (region_of md (wrap64 (md_NumberOfPages md * 4096)))).
  step_with H1. unfold listing at 1 in Hlen. unfold listing at 1.
  assert (size_ v1 = size_ v + 1) as S1.
  { pose proof (length_contents zero_region _ _ Hwf1) as L1. rewrite C1, length_app in L1.
    rewrite (length_contents zero_region _ _ Hwf) in L1. destruct Hwf, Hwf1. cbn in L1. lia. }
  destruct (Z.eqb_spec (md_Type md) EfiConventionalMemory) as [Et|Et].
  - rewrite (Hmd Et). destruct (push_region v1 (region_of md (md_NumberOfPages md)) Hwf1 Hf1) as (v2 & H2 & Hwf2 & Hf2 & C2).
    { cbn [length] in Hlen. lia. }
    step_with H2.
    assert (size_ v2 = size_ v + 2) as S2.
    { pose proof (length_contents zero_region _ _ Hwf2) as L2. rewrite C2, length_app in L2.
      rewrite (length_contents zero_region _ _ Hwf1) in L2. destruct Hwf1, Hwf2. cbn in L2. lia. }
    destruct (IH (wrap64 (total + wrap64 (md_NumberOfPages md * 4096))) v2 Hwf2 Hf2 Hno) as (total' & v' & H' & Hwf' & Hf' & C').
    { rewrite S2. cbn [length] in Hlen. lia. }
    exists total', v'. split; [done|]. split; [done|]. split; [done|]. rewrite C', C2, C1, <- !app_assoc. done.
  - destruct (IH total v1 Hwf1 Hf1 Hno) as (total' & v' & H' & Hwf' & Hf' & C').
    { rewrite S1. cbn [length] in Hlen. lia. }
    exists total', v'. split; [done|]. split; [done|]. split; [done|]. rewrite C', C1, <- !app_assoc. done.
Qed.

(** From the memory map to the page allocator. *)
Lemma mm_memory_ok kstart ksize mds :
  Forall (fun md => md_Type md = EfiConventionalMemory -> intersects kstart ksize md = false) mds ->
  Z.of_nat (length (flat_map listing mds)) < max_regions ->
  exists total v s, dump_efi_info kstart ksize mds new = Ret (total, v) /\ contents zero_region v = flat_map listing mds /\
    mm_init_memory kstart ksize mds = Ret s /\ Inv s /\ Buddy.phy_start s = 0x4000000 /\ Buddy.root_log2size s = 30 /\
    (forall i, is_free s i <-> i = 0).
Proof.
  intros Hno Hlen.
  destruct (dump_loop_ok kstart ksize mds 0 new) as (total & v & H & Hwf & Hf & C); [done|intros i _; apply lookup_empty|done|cbn [size_ new]; lia|].
  assert (size_ v < max_regions) as Hs.
  { pose proof (length_contents zero_region _ _ Hwf) as L. rewrite C, length_app in L.
    assert (length (contents zero_region (new : SmallVec PageRegion)) = 0%nat) as L0 by done. rewrite L0 in L. destruct Hwf. lia. }
  destruct (init_without_map v Hwf Hs (Hf (size_ v) ltac:(lia))) as (s & Hi & E1 & E2 & HI & Hfree).
  exists total, v, s. split; [done|]. split; [exact C|]. split; [|done].
  unfold mm_init_memory, dump_efi_info. rewrite H. exact Hi.
Qed.

(** From a firmware memory map that does not overlap the kernel and fits the
    table, [dump_efi_info] records every descriptor with its size in bytes and
    every conventional one a second time with its number of pages as size; the
    page allocator then manages 1 GiB from 64 MiB whatever the map says. *)
Theorem mm_init_memory_ok kstart ksize mds :
  Forall (fun md => md_Type md = EfiConventionalMemory -> intersects kstart ksize md = false) mds ->
  Z.of_nat (length (flat_map listing mds)) < max_regions ->
  exists total v s, dump_efi_info kstart ksize mds new = Ret (total, v) /\ contents zero_region v = flat_map listing mds /\
    mm_init_memory kstart ksize mds = Ret s /\ Inv s /\ Buddy.phy_start s = 0x4000000 /\ Buddy.root_log2size s = 30.
Proof.
  intros Hno Hlen. destruct (mm_memory_ok kstart ksize mds Hno Hlen) as (total & v & s & H1 & H2 & H3 & H4 & H5 & H6 & _).
  exists total, v, s. done.
Qed.

(** ** Concrete tables *)

Lemma gdt_init_ok_witness :
  exists t, gdt_init [0; 0; 0x00af9a000000ffff] 8 16 0xffff800000abc123 = Ret t /\
    code_segment (gdt_get t (USER_CODE_SELECTOR / 8)) 3 /\
    tss_base (gdt_get t (TSS_SELECTOR / 8)) (gdt_get t (TSS_SELECTOR / 8 + 1)) = 0xffff800000abc123.
Proof.
  destruct (gdt_init_ok [0; 0; 0x00af9a000000ffff] 8 16 0xffff800000abc123 0x1000) as (t & H1 & H2 & _ & _ & _ & H3 & _); [done|lia|lia|].
  exists t. exact (conj H1 (conj H2 H3)).
Defined.

(** 640 KiB of conventional memory, a firmware region, and 512 MiB of conventional memory. *)
Definition ex_map : list MemoryDescriptor :=
  [mkDescriptor 7 0 160 0; mkDescriptor 6 0xa0000 96 0; mkDescriptor 7 0x100000 0x20000 0].

Lemma mm_init_memory_ok_witness :
  exists total v s, dump_efi_info 0x40000000 0x1000000 ex_map new = Ret (total, v) /\ contents zero_region v = flat_map listing ex_map /\
    mm_init_memory 0x40000000 0x1000000 ex_map = Ret s /\ Inv s /\ Buddy.phy_start s = 0x4000000 /\ Buddy.root_log2size s = 30.
Proof.
  apply (mm_init_memory_ok 0x40000000 0x1000000 ex_map); [|done].
  repeat constructor; intros _; by vm_compute.
Defined.
