(* ===== verification/MmInit.v ===== *)
(** * mm/mm.cpp: mm_init

    [Mm] and [Paging] have the descriptors, the page tables and the memory map;
    here is the order in which [mm_init] builds them and makes the processor use
    them, with the count of mapped pages it reports.  Memory that is read through
    pointers is read through the page tables of [CR3].  The addresses the linker
    gives to [kernel_gdt], [tss] and [t] are parameters. *)
From S2P Require Import Prelude LibUtils CpuDefs LibString SmallVec Paging Buddy PageAlloc Mm Cpu.

(** [for (x : l) a = body(x, a)] *)
Fixpoint foreach {S A} (l : list Z) (body : Z -> A -> ST S A) (a : A) : ST S A :=
  match l with [] => mret a | x :: l => a ← body x a; foreach l body a end.

Module MmInit.
Import LibString SmallVec Paging PageAlloc Mm Cpu.

(** [phys] are the words of physical memory, [bytes] the bytes at virtual
    addresses outside the page tables; [total_pages] is what was reported last. *)
Record MM := mkMM {
  cpu : Cpu;
  phys : Z -> Z;
  bytes : memory;
  kernel_gdt : gmap Z Z;
  tss : Z;
  available_memory : SmallVec PageRegion;
  buddy_allocator : option Buddy.BuddyAllocator;
  total_pages : Z
}.
Abbreviation M := (ST MM).

Definition with_cpu (c : Cpu) (s : MM) : MM := mkMM c (phys s) (bytes s) (kernel_gdt s) (tss s) (available_memory s) (buddy_allocator s) (total_pages s).
Definition with_gdt (t : gmap Z Z) (s : MM) : MM := mkMM (cpu s) (phys s) (bytes s) t (tss s) (available_memory s) (buddy_allocator s) (total_pages s).
Definition on_cpu {A} (c : ST Cpu A) : M A := fun s =>
  match c (cpu s) with
  | Ret (a, c') => Ret (a, with_cpu c' s)
  | Panic m => Panic m | Halt => Halt | Fault => Fault | OutOfFuel => OutOfFuel
  end.
Definition set_gdt (i v : Z) : M unit := modify (fun s => with_gdt (<[i := v]> (kernel_gdt s)) s).

(** The word at a virtual address. *)
Definition load (va : Z) : M Z := fun s =>
  match walk (phys s) (CR3 (cpu s)) va with Some m => Ret (phys s (pa m), s) | None => Fault end.

(** ** Counting pages *)

Definition is_page_present (page_table_entry : Z) : bool := negb (Z.land page_table_entry 1 =? 0).
Definition next_table (e : Z) : Z := Z.land e 0xfffffffffffff000.

(** The innermost loop, with [total_pages] and [pte_printed]; it stops at the
    first page that is present at all. *)
Fixpoint pt_loop (ls : list Z) (pt : Z) (a : Z * bool) : M (Z * bool) :=
  match ls with
  | [] => mret a
  | l :: ls =>
      e ← load (pt + 8 * l);
      if is_page_present e then
        if negb (snd a) then mret (fst a, true)
        else pt_loop ls pt (wrap64 (fst a + 1), snd a)
      else pt_loop ls pt a
  end.
Definition pdt_step (pdt k : Z) (a : Z * bool) : M (Z * bool) :=
  e ← load (pdt + 8 * k);
  if is_page_present e then
    if negb (Z.land e 0x80 =? 0) then mret a
    else pt_loop (seqZ 0 512) (next_table e) a
  else mret a.
Definition pdpt_step (pdpt j : Z) (a : Z * bool) : M (Z * bool) :=
  e ← load (pdpt + 8 * j);
  if is_page_present e then foreach (seqZ 0 512) (pdt_step (next_table e)) a else mret a.
Definition pml4t_step (pml4t i : Z) (a : Z * bool) : M (Z * bool) :=
  e ← load (pml4t + 8 * i);
  if is_page_present e then foreach (seqZ 0 512) (pdpt_step (next_table e)) a else mret a.

Definition calculate_total_pages (pml4t : Z) : M unit :=
  a ← foreach (seqZ 0 512) (pml4t_step pml4t) (0, false);
  modify (fun s => mkMM (cpu s) (phys s) (bytes s) (kernel_gdt s) (tss s) (available_memory s) (buddy_allocator s) (fst a)).

Section image.
Context (kernel_gdt_addr tss_addr t_vaddr interrupt_stack_bottom : Z).

(** ** Segments *)

Definition load_kernel_gdt : M unit := on_cpu (load_gdt kernel_gdt_addr (8 * gdt_entries - 1)).

(** The words of [kernel_gdt] after [bs] was copied to its start. *)
Definition gdt_words (bs : list Z) : list Z :=
  (fun i => le_value (take 8 (drop (8 * i) bs))) <$> seq 0 ((length bs + 7) / 8).

(** Loads of segment registers: the processor checks the descriptor. *)
Definition code_ok (d : Z) : bool :=
  (read_field SegmentDescriptor "present" d =? 1) && (read_field SegmentDescriptor "__exec" d =? 1) &&
  (read_field SegmentDescriptor "__reserved" d =? 1) && (read_field SegmentDescriptor "_long_mode" d =? 1) &&
  (read_field SegmentDescriptor "_default_operand_size" d =? 0) && (read_field SegmentDescriptor "_dpl" d =? 0).
Definition data_ok (d : Z) : bool :=
  (read_field SegmentDescriptor "present" d =? 1) && (read_field SegmentDescriptor "__reserved" d =? 1) &&
  (read_field SegmentDescriptor "__exec" d =? 0) && (read_field SegmentDescriptor "__wr" d =? 1).
Definition tss_ok (d : Z) : bool :=
  (read_field SystemSegmentDescriptor "p" d =? 1) && (read_field SystemSegmentDescriptor "type" d =? DescriptorType_value LongAvailableTSS).
Definition lretq (selector : Z) : M unit :=
  t ← gets kernel_gdt;
  if code_ok (gdt_get t (selector / 8)) then on_cpu (modify (with_cs selector)) else fault.
Definition load_data_selectors (selector : Z) : M unit :=
  t ← gets kernel_gdt;
  if data_ok (gdt_get t (selector / 8)) then on_cpu (modify (with_data selector 0 0)) else fault.
Definition ltr (selector : Z) : M unit :=
  t ← gets kernel_gdt;
  if tss_ok (gdt_get t (selector / 8)) then on_cpu (modify (with_tr selector)) else fault.

Definition store_gdt (o : outcome (gmap Z Z)) : M unit := fun s =>
  match o with
  | Ret t => Ret (tt, with_gdt t s)
  | Panic m => Panic m | Halt => Halt | Fault => Fault | OutOfFuel => OutOfFuel
  end.
Definition copy_firmware_gdt : M unit :=
  '(gdt, limit) ← on_cpu get_gdt;
  m ← gets bytes;
  store_gdt (copy_gdt (gdt_words (read_bytes m gdt (limit + 1)))).

Definition gdt_init : M unit :=
  copy_firmware_gdt;;
  load_kernel_gdt;;
  cs ← on_cpu get_cs;
  ds ← on_cpu (gets DS);
  (if negb (cs =? KERNEL_CODE_SELECTOR) then
     set_gdt KERNEL_CODE_SEGMENT_INDEX kernel_code_desc;;
     load_kernel_gdt;;
     lretq KERNEL_CODE_SELECTOR
   else mret tt);;
  (if negb (ds =? KERNEL_DATA_SELECTOR) then
     set_gdt KERNEL_DATA_SEGMENT_INDEX kernel_data_desc;;
     load_kernel_gdt;;
     load_data_selectors KERNEL_DATA_SELECTOR
   else mret tt);;
  set_gdt USER_CODE_SEGMENT_INDEX user_code_desc;;
  set_gdt USER_DATA_SEGMENT_INDEX user_data_desc;;
  modify (fun s => mkMM (cpu s) (phys s) (bytes s) (kernel_gdt s) (make_tss interrupt_stack_bottom) (available_memory s) (buddy_allocator s) (total_pages s));;
  set_gdt TSS_INDEX (get_bits 0 64 (tss_desc tss_addr));;
  set_gdt (TSS_INDEX + 1) (get_bits 64 64 (tss_desc tss_addr));;
  load_kernel_gdt;;
  ltr TSS_SELECTOR.

(** ** Page tables *)

(** Physical memory after the words of [t] were stored at [a]. *)
Definition store_table (a : Z) (t : table) (n : Z) (m : Z -> Z) : Z -> Z := fun x =>
  if (a <=? x) && (x <? a + 8 * n) && ((x - a) mod 8 =? 0) then word t ((x - a) / 8) else m x.

(** The image lies at [kernel_physical_start], so that is where [t] is stored. *)
Definition page_table_init (kernel_physical_start : Z) : M unit :=
  let '(t, cr3) := setup_page_table_in_kernel_space t_vaddr kernel_physical_start in
  modify (fun s => mkMM (with_cr3 cr3 (cpu s)) (store_table (t_vaddr - KERNEL_START + kernel_physical_start) t kernel_table_words (phys s))
                     (bytes s) (kernel_gdt s) (tss s) (available_memory s) (buddy_allocator s) (total_pages s)).

Definition get_kernel_pdpt_phy_addr : M Z :=
  cr3 ← on_cpu get_cr3;
  let pml4t := wrap64 (Z.land cr3 0x000ffffffffff000 + KERNEL_START) in
  e ← load (pml4t + 8 * 256);
  mret (Z.land e 0xfffffffffffff000).

(** ** mm_init *)

Definition dump_efi (kstart ksize : Z) (mds : list MemoryDescriptor) : M unit := fun s =>
  match dump_efi_info kstart ksize mds (available_memory s) with
  | Ret (_, v) => Ret (tt, mkMM (cpu s) (phys s) (bytes s) (kernel_gdt s) (tss s) v (buddy_allocator s) (total_pages s))
  | Panic m => Panic m | Halt => Halt | Fault => Fault | OutOfFuel => OutOfFuel
  end.
Definition allocator_init : M unit := fun s =>
  match page_allocator_init (available_memory s) with
  | Ret b => Ret (tt, mkMM (cpu s) (phys s) (bytes s) (kernel_gdt s) (tss s) (available_memory s) (Some b) (total_pages s))
  | Panic m => Panic m | Halt => Halt | Fault => Fault | OutOfFuel => OutOfFuel
  end.

Definition mm_init (kernel_physical_start kernel_physical_size : Z) (mds : list MemoryDescriptor) : M unit :=
  cr3 ← on_cpu get_cr3;
  calculate_total_pages (Z.land cr3 0xfffffffffffff000);;
  gdt_init;;
  page_table_init kernel_physical_start;;
  dump_efi kernel_physical_start kernel_physical_size mds;;
  allocator_init.

End image.

End MmInit.
