(* ===== verification/MmInitThms.v ===== *)
(** * What mm_init leaves behind *)
From S2P Require Import Prelude LibUtils CpuDefs LibString SmallVec Paging PagingProofs PagingThms BuddyTree Buddy BuddyInv BuddyProofs BuddySpec PageAlloc PageAllocThms ProcessProofs Mm MmThms Cpu MmInit.
Import LibString SmallVec Paging PageAlloc Mm Cpu MmInit.

(** ** Counting pages *)

(** The entries of the table at [x], the tables below it, and the tables below the
    entries that do not map a page themselves. *)
Definition entries (m : Z -> Z) (x : Z) : list Z := (fun i => m (x + 8 * i)) <$> seqZ 0 512.
Definition sub (m : Z -> Z) (x : Z) : list Z := next_table <$> List.filter is_page_present (entries m x).
Definition small (e : Z) : bool := is_page_present e && (Z.land e 0x80 =? 0).
Definition sub4k (m : Z -> Z) (x : Z) : list Z := next_table <$> List.filter small (entries m x).

(** All tables of 4-KiB pages, in the order of the addresses they map. *)
Definition page_tables (m : Z -> Z) (x : Z) : list Z := flat_map (fun p => flat_map (sub4k m) (sub4k m p)) (sub m x).

Definition pages (m : Z -> Z) (x : Z) : Z := Z.of_nat (length (List.filter is_page_present (entries m x))).

(** The pages of the tables after the first that has any. *)
Fixpoint counted (m : Z -> Z) (seen : bool) (pts : list Z) : Z :=
  match pts with
  | [] => 0
  | x :: pts => (if seen then pages m x else 0) + counted m (seen || (0 <? pages m x)) pts
  end.

(** No present entry of a page directory pointer table maps a page of 1 GiB. *)
Definition no_1gib (m : Z -> Z) (p : Z) : Prop := Forall (fun e => is_page_present e = true -> small e = true) (entries m p).

(** Loads from the table at [x] reach it. *)
Definition readable (s : MM) (x : Z) : Prop := forall i, 0 <= i < 512 -> load (x + 8 * i) s = Ret (phys s (x + 8 * i), s).
Definition tables_readable (s : MM) (x : Z) : Prop :=
  readable s x /\ forall p, p ∈ sub (phys s) x -> readable s p /\ no_1gib (phys s) p /\
  forall d, d ∈ sub4k (phys s) p -> readable s d /\ forall t, t ∈ sub4k (phys s) d -> readable s t.

(** What a table adds to [total_pages] and [pte_printed]. *)
Definition scan (m : Z -> Z) (a : Z * bool) (x : Z) : Z * bool :=
  (if snd a then wrap64 (fst a + pages m x) else fst a, snd a || (0 <? pages m x)).

Lemma pt_loop_run s pt ls t b : readable s pt -> Forall (fun i => 0 <= i < 512) ls ->
  let n := Z.of_nat (length (List.filter is_page_present ((fun i => phys s (pt + 8 * i)) <$> ls))) in
  pt_loop ls pt (wrap64 t, b) s = Ret ((if b then wrap64 (t + n) else wrap64 t, b || (0 <? n)), s).
Proof.
  intros Hr Hl. revert t. induction Hl as [|i ls Hi _ IH]; intros t; cbn [pt_loop fmap list_fmap List.filter].
  - cbn [length]. rewrite Z.add_0_r, orb_false_r. by destruct b.
  - step_with (Hr i Hi). destruct (is_page_present (phys s (pt + 8 * i))); cbn [length fst snd]; [|apply IH].
    destruct b; cbn [negb orb].
    + rewrite wrap_add_l, IH. cbn [orb]. do 3 f_equal. f_equal. lia.
    + rewrite (proj2 (Z.ltb_lt _ _)) by lia. done.
Qed.

Lemma pt_table_run s pt a : readable s pt -> uint 64 (fst a) -> pt_loop (seqZ 0 512) pt a s = Ret (scan (phys s) a pt, s).
Proof.
  intros Hr Ha. destruct a as [t b]. rewrite <- (wrap_small 64 t Ha). unfold scan. cbn [fst snd]. rewrite wrap_add_l.
  apply pt_loop_run; [done|]. apply Forall_forall. intros i Hi. apply elem_of_seqZ in Hi. lia.
Qed.

Lemma scan_uint m a x : uint 64 (fst a) -> uint 64 (fst (scan m a x)).
Proof. intros Ha. unfold scan. cbn. destruct (snd a); [by apply wrap_uint|done]. Qed.
Lemma scans_uint m a l : uint 64 (fst a) -> uint 64 (fst (foldl (scan m) a l)).
Proof. revert a. induction l as [|x l IH]; intros a Ha; [done|]. cbn. apply IH. by apply scan_uint. Qed.

(** Loops that scan the tables [g i]. *)
Lemma foreach_scan s l body (g : Z -> list Z) a : uint 64 (fst a) ->
  (forall i a, i ∈ l -> uint 64 (fst a) -> body i a s = Ret (foldl (scan (phys s)) a (g i), s)) ->
  foreach l body a s = Ret (foldl (scan (phys s)) a (flat_map g l), s).
Proof.
  revert a. induction l as [|i l IH]; intros a Ha H; cbn [foreach flat_map]; [done|].
  step_with H; [|set_solver|done]. rewrite foldl_app. apply IH; [by apply scans_uint|]. intros j b Hj. apply H. set_solver.
Qed.

(** Tables below the entries that satisfy [P]. *)
Lemma flat_map_entries m x (P : Z -> bool) (h : Z -> list Z) ls :
  flat_map (fun i => if P (m (x + 8 * i)) then h (next_table (m (x + 8 * i))) else []) ls =
  flat_map h (next_table <$> List.filter P ((fun i => m (x + 8 * i)) <$> ls)).
Proof.
  induction ls as [|i ls IH]; [done|]. cbn [flat_map fmap list_fmap List.filter]. rewrite IH. by destruct (P (m (x + 8 * i))).
Qed.

Lemma flat_map_sub m x (h : Z -> list Z) :
  flat_map (fun i => if is_page_present (m (x + 8 * i)) then h (next_table (m (x + 8 * i))) else []) (seqZ 0 512) = flat_map h (sub m x).
Proof. unfold sub, entries. apply flat_map_entries. Qed.
Lemma flat_map_single (l : list Z) : flat_map (fun x => [x]) l = l.
Proof. induction l as [|x l IH]; [done|]. cbn. by rewrite IH. Qed.

Lemma elem_sub m x (P : Z -> bool) i : i ∈ seqZ 0 512 -> P (m (x + 8 * i)) = true ->
  next_table (m (x + 8 * i)) ∈ (next_table <$> List.filter P (entries m x)).
Proof.
  intros Hi HP. apply list_elem_of_fmap. exists (m (x + 8 * i)). split; [done|]. apply list_elem_of_In, filter_In. split; [|done].
  apply list_elem_of_In, list_elem_of_fmap. by exists i.
Qed.

Ltac in_table H := match goal with Hi : _ ∈ seqZ 0 512 |- _ => step_with H; [|apply elem_of_seqZ in Hi; lia] end.

Lemma pdt_run s d a : readable s d -> (forall t, t ∈ sub4k (phys s) d -> readable s t) -> uint 64 (fst a) ->
  foreach (seqZ 0 512) (pdt_step d) a s = Ret (foldl (scan (phys s)) a (sub4k (phys s) d), s).
Proof.
  intros Hd Ht Ha. rewrite (foreach_scan s _ _ (fun k => if small (phys s (d + 8 * k)) then [next_table (phys s (d + 8 * k))] else [])); [|done|].
  - rewrite (flat_map_entries (phys s) d small (fun x => [x])), flat_map_single. unfold sub4k, entries. reflexivity.
  - intros k b Hk Hb. unfold pdt_step. in_table Hd. unfold small.
    destruct (is_page_present (phys s (d + 8 * k))) eqn:E1; cbn [andb]; [|done].
    destruct (Z.land (phys s (d + 8 * k)) 128 =? 0) eqn:E2; cbn [negb foldl]; [|done].
    apply pt_table_run; [|done]. apply Ht. apply elem_sub; [done|]. unfold small. by rewrite E1, E2.
Qed.

Lemma no_1gib_sub m p : no_1gib m p -> sub4k m p = sub m p.
Proof.
  unfold no_1gib, sub4k, sub. intros H. f_equal. induction H as [|e l He _ IH]; [done|]. cbn [List.filter]. unfold small in He. unfold small at 1.
  destruct (is_page_present e); cbn [andb] in *; [rewrite He by done|]; by rewrite IH.
Qed.

Lemma pdpt_run s p a : readable s p -> no_1gib (phys s) p ->
  (forall d, d ∈ sub4k (phys s) p -> readable s d /\ forall t, t ∈ sub4k (phys s) d -> readable s t) -> uint 64 (fst a) ->
  foreach (seqZ 0 512) (pdpt_step p) a s = Ret (foldl (scan (phys s)) a (flat_map (sub4k (phys s)) (sub4k (phys s) p)), s).
Proof.
  intros Hp H1 Hd Ha. rewrite (no_1gib_sub _ _ H1) in *. rewrite (foreach_scan s _ _ (fun j => if is_page_present (phys s (p + 8 * j)) then sub4k (phys s) (next_table (phys s (p + 8 * j))) else [])); [|done|].
  - rewrite (flat_map_sub (phys s) p (sub4k (phys s))). reflexivity.
  - intros j b Hj Hb. unfold pdpt_step. in_table Hp. destruct (is_page_present (phys s (p + 8 * j))) eqn:E; [|done].
    destruct (Hd _ (elem_sub (phys s) p is_page_present j Hj E)) as [A B]. exact (pdt_run s _ b A B Hb).
Qed.

Lemma pml4t_run s x a : tables_readable s x -> uint 64 (fst a) ->
  foreach (seqZ 0 512) (pml4t_step x) a s = Ret (foldl (scan (phys s)) a (page_tables (phys s) x), s).
Proof.
  intros [Hx Hp] Ha.
  rewrite (foreach_scan s _ _ (fun i => if is_page_present (phys s (x + 8 * i)) then flat_map (sub4k (phys s)) (sub4k (phys s) (next_table (phys s (x + 8 * i)))) else [])); [|done|].
  - rewrite (flat_map_sub (phys s) x (fun p => flat_map (sub4k (phys s)) (sub4k (phys s) p))). unfold page_tables. reflexivity.
  - intros i b Hi Hb. unfold pml4t_step. in_table Hx. destruct (is_page_present (phys s (x + 8 * i))) eqn:E; [|done].
    destruct (Hp _ (elem_sub (phys s) x is_page_present i Hi E)) as (A & N & B). exact (pdpt_run s _ b A N B Hb).
Qed.

(** At most 2^36 pages. *)
Lemma length_filter_le (P : Z -> bool) l : (length (List.filter P l) <= length l)%nat.
Proof. induction l as [|x l IH]; [done|]. cbn. destruct (P x); cbn; lia. Qed.
Lemma sub_length m x (P : Z -> bool) : Z.of_nat (length (next_table <$> List.filter P (entries m x))) <= 512.
Proof. rewrite length_fmap. pose proof (length_filter_le P (entries m x)) as H. unfold entries in H at 2. rewrite length_fmap, length_seqZ in H. lia. Qed.
Lemma flat_map_length_le {A} (h : A -> list Z) n l : (forall x, Z.of_nat (length (h x)) <= n) -> Z.of_nat (length (flat_map h l)) <= n * Z.of_nat (length l).
Proof. intros H. induction l as [|x l IH]; [cbn; lia|]. cbn [flat_map length]. rewrite length_app. specialize (H x). lia. Qed.
Lemma page_tables_length m x : Z.of_nat (length (page_tables m x)) <= 512 * 512 * 512.
Proof.
  assert (forall p, Z.of_nat (length (flat_map (sub4k m) (sub4k m p))) <= 512 * 512) as H.
  { intros p. etrans; [apply (flat_map_length_le _ 512); intros y; apply sub_length|]. pose proof (sub_length m p small). unfold sub4k. lia. }
  unfold page_tables. etrans; [apply (flat_map_length_le _ (512 * 512)), H|]. pose proof (sub_length m x is_page_present). unfold sub. lia.
Qed.
Lemma counted_range m seen l : 0 <= counted m seen l <= 512 * Z.of_nat (length l).
Proof.
  revert seen. induction l as [|x l IH]; intros seen; [done|]. cbn [counted length]. specialize (IH (seen || (0 <? pages m x))).
  assert (0 <= pages m x <= 512). { pose proof (sub_length m x is_page_present) as H. rewrite length_fmap in H. unfold pages. lia. }
  destruct seen; lia.
Qed.
Lemma scan_counted m t b l : fst (foldl (scan m) (wrap64 t, b) l) = wrap64 (t + counted m b l).
Proof.
  revert t b. induction l as [|x l IH]; intros t b; cbn [foldl counted]; [by rewrite Z.add_0_r|].
  unfold scan at 2. cbn [fst snd]. destruct b; cbn [orb].
  - rewrite wrap_add_l, IH. f_equal. lia.
  - rewrite IH. f_equal.
Qed.

Lemma calculate_run s x : tables_readable s x ->
  calculate_total_pages x s = Ret (tt, mkMM (cpu s) (phys s) (bytes s) (kernel_gdt s) (tss s) (available_memory s) (buddy_allocator s) (counted (phys s) false (page_tables (phys s) x))).
Proof.
  intros Hr. unfold calculate_total_pages. step_with (pml4t_run s x (0, false) Hr); [|by vm_compute]. unfold modify.
  change (0, false) with (wrap64 0, false). rewrite scan_counted, Z.add_0_l, wrap_small; [done|].
  pose proof (counted_range (phys s) false (page_tables (phys s) x)). pose proof (page_tables_length (phys s) x). unfold uint. lia.
Qed.

(** ** Segments *)

Section image.
Context (kernel_gdt_addr tss_addr t_vaddr interrupt_stack_bottom : Z).
Context (Hgdt : uint 64 kernel_gdt_addr) (Htss : uint 64 tss_addr) (Hstack : uint 64 interrupt_stack_bottom).

Lemma on_cpu_run {A} (c : ST Cpu A) s a c' : c (cpu s) = Ret (a, c') -> on_cpu c s = Ret (a, with_cpu c' s).
Proof using Type. intros H. unfold on_cpu. by rewrite H. Qed.

Lemma load_kernel_gdt_run s : load_kernel_gdt kernel_gdt_addr s = Ret (tt, with_cpu (with_gdtr (kernel_gdt_addr, 1023) (cpu s)) s).
Proof using Hgdt. unfold load_kernel_gdt. apply on_cpu_run. by apply load_gdt_run. Qed.

(** The registers after [gdt_init]. *)
Definition segments_loaded (c0 c : Cpu) : Prop :=
  GDTR c = (kernel_gdt_addr, 1023) /\ TR c = TSS_SELECTOR /\ CS c = KERNEL_CODE_SELECTOR /\ DS c = KERNEL_DATA_SELECTOR /\
  (DS c0 <> KERNEL_DATA_SELECTOR -> ES c = KERNEL_DATA_SELECTOR /\ SS c = KERNEL_DATA_SELECTOR /\ FS c = 0 /\ GS c = 0) /\
  IDTR c = IDTR c0 /\ MSR c = MSR c0 /\ CR2 c = CR2 c0 /\ CR3 c = CR3 c0 /\ RBP c = RBP c0 /\ IF_ c = IF_ c0.

Lemma segments_wf c0 c : cpu_wf c0 -> segments_loaded c0 c -> (DS c0 = KERNEL_DATA_SELECTOR -> ES c = ES c0 /\ SS c = SS c0 /\ FS c = FS c0 /\ GS c = GS c0) -> cpu_wf c.
Proof using Hgdt.
  intros [H1 H2 H3 H4 (S1 & S2 & S3 & S4 & S5 & S6 & S7)] (E1 & E2 & E3 & E4 & E5 & E6 & E7 & E8 & E9 & E10 & E11) E0. split.
  - by rewrite E1.
  - by rewrite E6.
  - by rewrite E7.
  - by rewrite E8, E9, E10.
  - rewrite E2, E3, E4. destruct (decide (DS c0 = KERNEL_DATA_SELECTOR)) as [D|D].
    + destruct (E0 D) as (-> & -> & -> & ->). done.
    + destruct (E5 D) as (-> & -> & -> & ->). done.
Qed.

(** The two optional parts. *)
Lemma code_part_run s : (if negb (CS (cpu s) =? KERNEL_CODE_SELECTOR) then
     set_gdt KERNEL_CODE_SEGMENT_INDEX kernel_code_desc;; load_kernel_gdt kernel_gdt_addr;; lretq KERNEL_CODE_SELECTOR else mret tt) s =
  Ret (tt, if negb (CS (cpu s) =? KERNEL_CODE_SELECTOR)
           then with_cpu (with_cs KERNEL_CODE_SELECTOR (with_gdtr (kernel_gdt_addr, 1023) (cpu s))) (with_gdt (<[KERNEL_CODE_SEGMENT_INDEX := kernel_code_desc]> (kernel_gdt s)) s)
           else s).
Proof using Hgdt.
  destruct (negb _); [|done]. unfold set_gdt. step_with (eq_refl : modify _ s = _). step_with load_kernel_gdt_run.
  unfold lretq. match goal with |- _ ?x = _ => rewrite bind_ret with (a := kernel_gdt x) (s' := x) by done end.
  cbn [kernel_gdt with_cpu with_gdt]. unfold gdt_get. change (KERNEL_CODE_SELECTOR / 8) with KERNEL_CODE_SEGMENT_INDEX.
  rewrite lookup_insert_eq. change (code_ok (default 0 (Some kernel_code_desc))) with true. done.
Qed.
Lemma data_part_run s ds : (if negb (ds =? KERNEL_DATA_SELECTOR) then
     set_gdt KERNEL_DATA_SEGMENT_INDEX kernel_data_desc;; load_kernel_gdt kernel_gdt_addr;; load_data_selectors KERNEL_DATA_SELECTOR else mret tt) s =
  Ret (tt, if negb (ds =? KERNEL_DATA_SELECTOR)
           then with_cpu (with_data KERNEL_DATA_SELECTOR 0 0 (with_gdtr (kernel_gdt_addr, 1023) (cpu s))) (with_gdt (<[KERNEL_DATA_SEGMENT_INDEX := kernel_data_desc]> (kernel_gdt s)) s)
           else s).
Proof using Hgdt.
  destruct (negb _); [|done]. unfold set_gdt. step_with (eq_refl : modify _ s = _). step_with load_kernel_gdt_run.
  unfold load_data_selectors. match goal with |- _ ?x = _ => rewrite bind_ret with (a := kernel_gdt x) (s' := x) by done end.
  cbn [kernel_gdt with_cpu with_gdt]. unfold gdt_get. change (KERNEL_DATA_SELECTOR / 8) with KERNEL_DATA_SEGMENT_INDEX.
  rewrite lookup_insert_eq. change (data_ok (default 0 (Some kernel_data_desc))) with true. done.
Qed.

Lemma ltr_run s : read_field SystemSegmentDescriptor "type" (gdt_get (kernel_gdt s) (TSS_SELECTOR / 8)) = 9 ->
  read_field SystemSegmentDescriptor "p" (gdt_get (kernel_gdt s) (TSS_SELECTOR / 8)) = 1 ->
  ltr TSS_SELECTOR s = Ret (tt, with_cpu (with_tr TSS_SELECTOR (cpu s)) s).
Proof using Type.
  intros H1 H2. unfold ltr. rewrite bind_ret with (a := kernel_gdt s) (s' := s) by done. unfold tss_ok. by rewrite H1, H2.
Qed.

Lemma modify_bind {S B} (f : S -> S) (k : unit -> ST S B) x : (modify f ≫= k) x = k tt (f x).
Proof using Type. done. Qed.

(** The entries every run writes. *)
Definition final_entries (t : gmap Z Z) : gmap Z Z :=
  <[TSS_INDEX + 1 := get_bits 64 64 (tss_desc tss_addr)]> (<[TSS_INDEX := get_bits 0 64 (tss_desc tss_addr)]>
    (<[USER_DATA_SEGMENT_INDEX := user_data_desc]> (<[USER_CODE_SEGMENT_INDEX := user_code_desc]> t))).

Lemma final_part_run s :
  read_field SystemSegmentDescriptor "type" (gdt_get (final_entries (kernel_gdt s)) (TSS_SELECTOR / 8)) = 9 ->
  read_field SystemSegmentDescriptor "p" (gdt_get (final_entries (kernel_gdt s)) (TSS_SELECTOR / 8)) = 1 ->
  (set_gdt USER_CODE_SEGMENT_INDEX user_code_desc;;
   set_gdt USER_DATA_SEGMENT_INDEX user_data_desc;;
   modify (fun s => mkMM (cpu s) (phys s) (bytes s) (kernel_gdt s) (make_tss interrupt_stack_bottom) (available_memory s) (buddy_allocator s) (total_pages s));;
   set_gdt TSS_INDEX (get_bits 0 64 (tss_desc tss_addr));;
   set_gdt (TSS_INDEX + 1) (get_bits 64 64 (tss_desc tss_addr));;
   load_kernel_gdt kernel_gdt_addr;;
   ltr TSS_SELECTOR) s =
  Ret (tt, mkMM (with_tr TSS_SELECTOR (with_gdtr (kernel_gdt_addr, 1023) (cpu s))) (phys s) (bytes s) (final_entries (kernel_gdt s)) (make_tss interrupt_stack_bottom)
             (available_memory s) (buddy_allocator s) (total_pages s)).
Proof using Hgdt.
  intros H1 H2. unfold set_gdt. rewrite !modify_bind. cbn [cpu phys bytes kernel_gdt tss available_memory buddy_allocator total_pages with_gdt]. fold (final_entries (kernel_gdt s)).
  step_with load_kernel_gdt_run. apply ltr_run; done.
Qed.

Lemma gdt_init_run s : cpu_wf (cpu s) ->
  let firmware := gdt_words (read_bytes (bytes s) (fst (GDTR (cpu s))) (snd (GDTR (cpu s)) + 1)) in
  Z.of_nat (length firmware) <= gdt_entries ->
  exists t c, Mm.gdt_init firmware (CS (cpu s)) (DS (cpu s)) tss_addr = Ret t /\ segments_loaded (cpu s) c /\ cpu_wf c /\
    gdt_init kernel_gdt_addr tss_addr interrupt_stack_bottom s =
      Ret (tt, mkMM c (phys s) (bytes s) t (make_tss interrupt_stack_bottom) (available_memory s) (buddy_allocator s) (total_pages s)).
Proof using Hgdt Htss Hstack.
  intros Hc firmware Hlen.
  destruct (gdt_table_ok firmware (CS (cpu s)) (DS (cpu s)) tss_addr interrupt_stack_bottom Hlen Htss Hstack) as (t & Ht & _ & _ & _ & _ & _ & Hty & Hp & _).
  exists t. rewrite Ht. unfold Mm.gdt_init in Ht. destruct (copy_gdt firmware) as [t0| | | |] eqn:E0; try done. injection Ht as Et.
  fold (final_entries (if negb (DS (cpu s) =? KERNEL_DATA_SELECTOR) then
    <[KERNEL_DATA_SEGMENT_INDEX := kernel_data_desc]> (if negb (CS (cpu s) =? KERNEL_CODE_SELECTOR) then <[KERNEL_CODE_SEGMENT_INDEX := kernel_code_desc]> t0 else t0)
    else if negb (CS (cpu s) =? KERNEL_CODE_SELECTOR) then <[KERNEL_CODE_SEGMENT_INDEX := kernel_code_desc]> t0 else t0)) in Et.
  set (s1 := with_cpu (with_gdtr (kernel_gdt_addr, 1023) (cpu s)) (with_gdt t0 s)).
  set (s2 := if negb (CS (cpu s) =? KERNEL_CODE_SELECTOR)
           then with_cpu (with_cs KERNEL_CODE_SELECTOR (with_gdtr (kernel_gdt_addr, 1023) (cpu s1))) (with_gdt (<[KERNEL_CODE_SEGMENT_INDEX := kernel_code_desc]> (kernel_gdt s1)) s1) else s1).
  set (s3 := if negb (DS (cpu s) =? KERNEL_DATA_SELECTOR)
           then with_cpu (with_data KERNEL_DATA_SELECTOR 0 0 (with_gdtr (kernel_gdt_addr, 1023) (cpu s2))) (with_gdt (<[KERNEL_DATA_SEGMENT_INDEX := kernel_data_desc]> (kernel_gdt s2)) s2) else s2).
  assert (final_entries (kernel_gdt s3) = t) as E3.
  { rewrite <- Et. unfold s3, s2, s1. by destruct (negb (DS _ =? _)), (negb (CS _ =? _)). }
  assert (gdt_init kernel_gdt_addr tss_addr interrupt_stack_bottom s =
    Ret (tt, mkMM (with_tr TSS_SELECTOR (with_gdtr (kernel_gdt_addr, 1023) (cpu s3))) (phys s3) (bytes s3) t (make_tss interrupt_stack_bottom)
             (available_memory s3) (buddy_allocator s3) (total_pages s3))) as Hrun.
  { unfold gdt_init, copy_firmware_gdt. rewrite bind_assoc. step_with (on_cpu_run get_gdt s _ _ (get_gdt_run _ Hc)).
    rewrite (surjective_pairing (GDTR (cpu s))). rewrite bind_assoc. replace (with_cpu (cpu s) s) with s by (by destruct s).
    rewrite bind_ret with (a := bytes s) (s' := s) by done. fold firmware.
    rewrite bind_ret with (a := tt) (s' := with_gdt t0 s) by (unfold store_gdt; by rewrite E0).
    step_with load_kernel_gdt_run. fold s1.
    rewrite bind_ret with (a := CS (cpu s)) (s' := s1) by done. rewrite bind_ret with (a := DS (cpu s)) (s' := s1) by done.
    step_with (code_part_run s1). fold s2. step_with (data_part_run s2 (DS (cpu s))). fold s3.
    rewrite <- E3. apply final_part_run; by rewrite E3. }
  exists (with_tr TSS_SELECTOR (with_gdtr (kernel_gdt_addr, 1023) (cpu s3))). split; [done|].
  assert (phys s3 = phys s /\ bytes s3 = bytes s /\ available_memory s3 = available_memory s /\ buddy_allocator s3 = buddy_allocator s /\ total_pages s3 = total_pages s) as (P1 & P2 & P3 & P4 & P5).
  { unfold s3, s2, s1. by destruct (negb (DS _ =? _)), (negb (CS _ =? _)). }
  rewrite Hrun, P1, P2, P3, P4, P5. clear Hrun P1 P2 P3 P4 P5 E3 Et Hty Hp.
  assert (segments_loaded (cpu s) (with_tr TSS_SELECTOR (with_gdtr (kernel_gdt_addr, 1023) (cpu s3)))) as Hs.
  { unfold segments_loaded, s3, s2, s1. destruct (Z.eqb_spec (DS (cpu s)) KERNEL_DATA_SELECTOR), (Z.eqb_spec (CS (cpu s)) KERNEL_CODE_SELECTOR); by split_and!. }
  split; [exact Hs|]. split; [|done]. apply (segments_wf (cpu s)); [done|exact Hs|].
  unfold s3, s2, s1. destruct (Z.eqb_spec (DS (cpu s)) KERNEL_DATA_SELECTOR), (Z.eqb_spec (CS (cpu s)) KERNEL_CODE_SELECTOR); done.
Qed.

(** ** Page tables *)

Lemma store_table_holds kphy m : holds_tables t_vaddr kphy (store_table (t_vaddr - KERNEL_START + kphy) (kernel_tables t_vaddr kphy) kernel_table_words m).
Proof using Type.
  intros k Hk. unfold store_table. fold (t_phys t_vaddr kphy). generalize (t_phys t_vaddr kphy) (kernel_tables t_vaddr kphy) kernel_table_words Hk.
  clear. intros a t n Hk. replace (a + 8 * k - a) with (k * 8) by lia. rewrite Z.div_mul, Z_mod_mult by lia.
  by rewrite (proj2 (Z.leb_le _ _)), (proj2 (Z.ltb_lt _ _)) by lia.
Qed.

Lemma page_table_init_run kphy s : page_table_init t_vaddr kphy s =
  Ret (tt, mkMM (with_cr3 (kernel_cr3 t_vaddr kphy) (cpu s))
             (store_table (t_vaddr - KERNEL_START + kphy) (kernel_tables t_vaddr kphy) kernel_table_words (phys s))
             (bytes s) (kernel_gdt s) (tss s) (available_memory s) (buddy_allocator s) (total_pages s)).
Proof using Type.
  unfold page_table_init, kernel_cr3, kernel_tables. destruct (setup_page_table_in_kernel_space t_vaddr kphy) as [t cr3]. reflexivity.
Qed.

(** Below 2^52 the two masks for the address in an entry agree. *)
Lemma next_table_frame e : 0 <= e < 2 ^ 52 -> next_table e = frame e.
Proof using Type.
  intros He. unfold next_table, frame. change 0xfffffffffffff000 with (Z.shiftl (Z.ones 52) 12). change 0x000ffffffffff000 with (Z.shiftl (Z.ones 40) 12).
  apply Z.bits_inj'. intros i Hi. rewrite !Z.land_spec, !Z.shiftl_spec by lia.
  destruct (Z.lt_ge_cases i 52).
  - destruct (Z.lt_ge_cases i 12); [rewrite !(Z.testbit_neg_r _ (i - 12)) by lia; exact eq_refl|]. rewrite !Z.ones_spec_low by lia. exact eq_refl.
  - rewrite (Z.bits_above_log2 e i); [rewrite !andb_false_l; reflexivity|lia|]. destruct (decide (e = 0)) as [->|]; [cbn; lia|]. assert (Z.log2 e < 52) by (apply Z.log2_lt_pow2; lia). lia.
Qed.

(** The entry of the kernel's half. *)
Lemma kernel_half kphy : well_placed t_vaddr kphy -> next_table (word (kernel_tables t_vaddr kphy) 256) = t_phys t_vaddr kphy + 4096.
Proof using Type.
  intros [H1 H2 H3 H4]. unfold kernel_tables.
  destruct (pml4_entry t_vaddr kphy H1 H2 H3 H4 _ (setup_words t_vaddr kphy)) as (_ & _ & _ & _ & E). rewrite next_table_frame; [exact E|].
  rewrite setup_words. unfold table_words. cbv zeta. change (pt_word 0) with 3072. change (pdt_word 0) with 1024. change (pdpt_word 0) with 512.
  do 4 rewrite (decide_False (P := _ <= 256 < _)) by lia. rewrite (decide_True (P := 256 = 256) _ _ eq_refl). unfold link_word, write_field.
  apply set_bits_range; [by vm_compute..|]. apply set_bits_range; [by vm_compute..|]. apply set_bits_range; [by vm_compute..|lia].
Qed.

(** With the tables of [mm_init] in use: the address of the entry is converted
    as if the tables were in the identity mapping, which begins at 64 MiB. *)
Lemma get_kernel_pdpt_run kphy s : well_placed t_vaddr kphy -> holds_tables t_vaddr kphy (phys s) -> CR3 (cpu s) = kernel_cr3 t_vaddr kphy ->
  t_phys t_vaddr kphy + 4096 <= IDENTITY_MAP_PHY_END ->
  let x := t_phys t_vaddr kphy + 8 * 256 in
  get_kernel_pdpt_phy_addr s = Ret (next_table (phys s (if decide (x < IDENTITY_MAP_PHY_START) then kphy + x else x)), s).
Proof using Type.
  intros Hw Hh Hc Ht x. unfold get_kernel_pdpt_phy_addr. rewrite bind_ret with (a := CR3 (cpu s)) (s' := s) by (unfold on_cpu; by destruct s).
  rewrite Hc. fold (frame (kernel_cr3 t_vaddr kphy)). pose proof Hw as [H1 H2 H3 H4]. rewrite (cr3_frame t_vaddr kphy H1 H2 H3 H4) by apply kernel_cr3_eq.
  change IDENTITY_MAP_PHY_END with (2 ^ 32) in *. unfold x. assert (0 <= t_phys t_vaddr kphy) by (unfold t_phys; lia). clear x. set (a := t_phys t_vaddr kphy) in *.
  rewrite (wrap_small 64 (a + KERNEL_START)) by (unfold uint, KERNEL_START; lia).
  rewrite bind_ret with (a := phys s (if decide (a + 8 * 256 < IDENTITY_MAP_PHY_START) then kphy + (a + 8 * 256) else a + 8 * 256)) (s' := s); [reflexivity|].
  unfold load. rewrite Hc. replace (a + KERNEL_START + 8 * 256) with (KERNEL_START + (a + 8 * 256)) by lia.
  rewrite (kernel_walk t_vaddr kphy) by (first [done|change IDENTITY_MAP_PHY_END with (2 ^ 32); lia]). reflexivity.
Qed.

Lemma kernel_pdpt_high kphy m : well_placed t_vaddr kphy -> holds_tables t_vaddr kphy m ->
  next_table (m (t_phys t_vaddr kphy + 8 * 256)) = t_phys t_vaddr kphy + 4096.
Proof using Type. intros Hw Hh. rewrite (Hh 256 ltac:(split; [lia|by vm_compute])). by apply kernel_half. Qed.

(** ** The whole of mm_init *)

Definition firmware_gdt (s : MM) : list Z := gdt_words (read_bytes (bytes s) (fst (GDTR (cpu s))) (snd (GDTR (cpu s)) + 1)).

Lemma cr3_wf x c : uint 64 x -> cpu_wf c -> cpu_wf (with_cr3 x c).
Proof using Type. intros Hx [H1 H2 H3 (H4 & H5 & H6) H7]. by split. Qed.

Lemma kernel_cr3_uint kphy : uint 64 (kernel_cr3 t_vaddr kphy).
Proof using Type. rewrite kernel_cr3_eq. apply wrap_uint. lia. Qed.

Lemma memory_run s kphy ksize mds : available_memory s = new ->
  Forall (fun md => md_Type md = EfiConventionalMemory -> intersects kphy ksize md = false) mds -> Z.of_nat (length (flat_map listing mds)) < max_regions ->
  exists v b, (dump_efi kphy ksize mds;; allocator_init) s =
      Ret (tt, mkMM (cpu s) (phys s) (bytes s) (kernel_gdt s) (tss s) v (Some b) (total_pages s)) /\
    Inv b /\ Buddy.phy_start b = 0x4000000 /\ Buddy.root_log2size b = 30 /\ (forall i, is_free b i <-> i = 0).
Proof using Type.
  intros Hv Hm Hl. destruct (mm_memory_ok kphy ksize mds Hm Hl) as (total & v & b & Hd & _ & Hi & HI & Hb1 & Hb2 & Hb3).
  unfold mm_init_memory in Hi. rewrite Hd in Hi. exists v, b. split; [|done].
  unfold dump_efi at 1. unfold mbind, st_bind. rewrite Hv, Hd. unfold allocator_init. cbn [available_memory]. by rewrite Hi.
Qed.

Lemma mm_init_run s kphy ksize mds :
  cpu_wf (cpu s) -> tables_readable s (next_table (CR3 (cpu s))) -> Z.of_nat (length (firmware_gdt s)) <= gdt_entries ->
  available_memory s = new -> Forall (fun md => md_Type md = EfiConventionalMemory -> intersects kphy ksize md = false) mds ->
  Z.of_nat (length (flat_map listing mds)) < max_regions ->
  exists s' c b, mm_init kernel_gdt_addr tss_addr t_vaddr interrupt_stack_bottom kphy ksize mds s = Ret (tt, s') /\
    cpu s' = with_cr3 (kernel_cr3 t_vaddr kphy) c /\ segments_loaded (cpu s) c /\ cpu_wf (cpu s') /\
    Mm.gdt_init (firmware_gdt s) (CS (cpu s)) (DS (cpu s)) tss_addr = Ret (kernel_gdt s') /\ tss s' = make_tss interrupt_stack_bottom /\
    holds_tables t_vaddr kphy (phys s') /\ total_pages s' = counted (phys s) false (page_tables (phys s) (next_table (CR3 (cpu s)))) /\
    buddy_allocator s' = Some b /\ Inv b /\ Buddy.phy_start b = 0x4000000 /\ Buddy.root_log2size b = 30 /\ (forall i, is_free b i <-> i = 0) /\
    bytes s' = bytes s.
Proof using Hgdt Htss Hstack.
  intros Hc Hr Hf Hv Hm Hl. pose proof (calculate_run s _ Hr) as Hcalc. revert Hcalc.
  generalize (counted (phys s) false (page_tables (phys s) (next_table (CR3 (cpu s))))) as n. intros n Hcalc.
  unfold mm_init. rewrite bind_ret with (a := CR3 (cpu s)) (s' := s) by (unfold on_cpu; by destruct s).
  unfold next_table in Hcalc. step_with Hcalc. set (s1 := mkMM _ _ _ _ _ _ _ _).
  destruct (gdt_init_run s1 Hc Hf) as (t & c & Ht & Hs & Hw & Hg). step_with Hg.
  set (s2 := mkMM _ _ _ _ _ _ _ _). step_with (page_table_init_run kphy s2). set (s3 := mkMM _ _ _ _ _ _ _ _).
  destruct (memory_run s3 kphy ksize mds Hv Hm Hl) as (v & b & Hd & HI & Hb1 & Hb2 & Hb3).
  eexists _, c, b. split; [exact Hd|]. split; [exact eq_refl|]. split; [exact Hs|].
  split; [exact (cr3_wf (kernel_cr3 t_vaddr kphy) c (kernel_cr3_uint kphy) Hw)|].
  split; [exact Ht|]. split; [exact eq_refl|]. split; [exact (store_table_holds kphy (phys s2))|]. split; [exact eq_refl|]. split; [exact eq_refl|].
  exact (conj HI (conj Hb1 (conj Hb2 (conj Hb3 eq_refl)))).
Qed.

(** C13: memory management after [mm_init].  From a processor and tables without
    pages of 1 GiB, as the boot loader leaves them, and a memory map that does not
    overlap the kernel, [mm_init] returns: the processor uses the kernel's own
    descriptor table, in which the user's selectors name code and data of their
    level, the task register leads to the task state segment, and the kernel's
    selectors name code and data of the kernel if they were not in CS and DS
    already, in which case the firmware's descriptors stay; every address of the 4
    GiB of kernel space is mapped by the kernel's own tables; the page allocator
    has 1 GiB from 64 MiB, ready for use.  The page count it reports is that of the
    4-KiB pages in the page tables after the first that is not empty.  The entry
    that new processes share is found when the tables lie above 64 MiB; below, the
    word at another place is taken for it. *)
Theorem mm_init_ok s kphy ksize mds :
  cpu_wf (cpu s) -> tables_readable s (next_table (CR3 (cpu s))) -> Z.of_nat (length (firmware_gdt s)) <= gdt_entries ->
  well_placed t_vaddr kphy -> t_phys t_vaddr kphy + 4096 <= IDENTITY_MAP_PHY_END ->
  available_memory s = new -> Forall (fun md => md_Type md = EfiConventionalMemory -> intersects kphy ksize md = false) mds ->
  Z.of_nat (length (flat_map listing mds)) < max_regions ->
  exists s' c b, mm_init kernel_gdt_addr tss_addr t_vaddr interrupt_stack_bottom kphy ksize mds s = Ret (tt, s') /\
    cpu s' = with_cr3 (kernel_cr3 t_vaddr kphy) c /\ segments_loaded (cpu s) c /\ cpu_wf (cpu s') /\
    (CS (cpu s) <> KERNEL_CODE_SELECTOR -> code_segment (gdt_get (kernel_gdt s') (KERNEL_CODE_SELECTOR / 8)) 0) /\
    (DS (cpu s) <> KERNEL_DATA_SELECTOR -> data_segment (gdt_get (kernel_gdt s') (KERNEL_DATA_SELECTOR / 8)) 0) /\
    code_segment (gdt_get (kernel_gdt s') (USER_CODE_SELECTOR / 8)) 3 /\ data_segment (gdt_get (kernel_gdt s') (USER_DATA_SELECTOR / 8)) 3 /\
    tss_base (gdt_get (kernel_gdt s') (TSS_SELECTOR / 8)) (gdt_get (kernel_gdt s') (TSS_SELECTOR / 8 + 1)) = tss_addr /\
    read_field TaskStateSegment "rsp0" (tss s') = interrupt_stack_bottom /\
    (forall x, 0 <= x < IDENTITY_MAP_PHY_END -> walk (phys s') (CR3 (cpu s')) (KERNEL_START + x) =
       Some (mkMapping (if decide (x < IDENTITY_MAP_PHY_START) then kphy + x else x) true false)) /\
    total_pages s' = counted (phys s) false (page_tables (phys s) (next_table (CR3 (cpu s)))) /\
    buddy_allocator s' = Some b /\ alloc_ready b /\ Buddy.phy_start b = 0x4000000 /\ Buddy.root_log2size b = 30 /\
    let x := t_phys t_vaddr kphy + 8 * 256 in
    get_kernel_pdpt_phy_addr s' =
      Ret (if decide (x < IDENTITY_MAP_PHY_START) then next_table (phys s' (kphy + x)) else t_phys t_vaddr kphy + 4096, s').
Proof using Hgdt Htss Hstack.
  intros Hc Hr Hf Hw Ht Hv Hm Hl.
  destruct (mm_init_run s kphy ksize mds Hc Hr Hf Hv Hm Hl) as (s' & c & b & H1 & H2 & H3 & H4 & H5 & H6 & H7 & H8 & H9 & HI & Hb1 & Hb2 & _).
  destruct (gdt_table_ok (firmware_gdt s) (CS (cpu s)) (DS (cpu s)) tss_addr interrupt_stack_bottom Hf Htss Hstack) as (t & Et & U1 & U2 & K1 & K2 & T1 & _ & _ & T2).
  rewrite H5 in Et. injection Et as <-.
  exists s', c, b. do 9 (split; [assumption|]). split; [by rewrite H6|].
  split; [intros x Hx; rewrite H2; cbn [CR3 with_cr3]; by apply kernel_walk|]. do 2 (split; [done|]).
  split; [split; [done|by rewrite Hb1|rewrite Hb1; lia]|]. do 2 (split; [done|]). intros x.
  rewrite (get_kernel_pdpt_run kphy s' Hw H7) by (first [exact Ht|by rewrite H2]). fold x. destruct (decide (x < IDENTITY_MAP_PHY_START)); [reflexivity|].
  pose proof (kernel_pdpt_high kphy (phys s') Hw H7) as E. fold x in E. rewrite E. reflexivity.
Qed.

End image.

(** ** A machine *)

(** A test that a table can be read. *)
Definition readable_b (s : MM) (x : Z) : bool :=
  forallb (fun i => match walk (phys s) (CR3 (cpu s)) (x + 8 * i) with Some m => pa m =? x + 8 * i | None => false end) (seqZ 0 512).
Definition tables_readable_b (s : MM) (x : Z) : bool :=
  readable_b s x && forallb (fun p => readable_b s p && forallb (fun e => implb (is_page_present e) (small e)) (entries (phys s) p) &&
    forallb (fun d => readable_b s d && forallb (readable_b s) (sub4k (phys s) d)) (sub4k (phys s) p)) (sub (phys s) x).

Lemma readable_b_ok s x : readable_b s x = true -> readable s x.
Proof.
  intros H i Hi. unfold readable_b in H. rewrite forallb_forall in H. specialize (H i). unfold load.
  destruct (walk (phys s) (CR3 (cpu s)) (x + 8 * i)) as [m|].
  - rewrite (proj1 (Z.eqb_eq _ _) (H ltac:(apply list_elem_of_In, elem_of_seqZ; lia))). reflexivity.
  - discriminate (H ltac:(apply list_elem_of_In, elem_of_seqZ; lia)).
Qed.
Lemma tables_readable_b_ok s x : tables_readable_b s x = true -> tables_readable s x.
Proof.
  intros [H1 H2]%andb_true_iff. rewrite forallb_forall in H2. split; [by apply readable_b_ok|]. intros p Hp.
  apply list_elem_of_In, H2, andb_true_iff in Hp as [[H3 H3']%andb_true_iff H4]. rewrite forallb_forall in H3', H4. split; [by apply readable_b_ok|].
  split; [apply Forall_forall; intros e He Hpr; specialize (H3' e ltac:(by apply list_elem_of_In)); by rewrite Hpr in H3'|]. intros d Hd.
  apply list_elem_of_In, H4, andb_true_iff in Hd as [H5 H6]. rewrite forallb_forall in H6. split; [by apply readable_b_ok|]. intros t Ht.
  apply list_elem_of_In, H6 in Ht. by apply readable_b_ok.
Qed.

(** The first 2 MiB as one page, and two page tables with two and three pages. *)
Definition ex_boot_words : gmap Z Z := list_to_map
  [(0x1000, 0x2003); (0x2000, 0x3003); (0x3000, 0x83); (0x3008, 0x4003); (0x3010, 0x5003);
   (0x4000, 0x200003); (0x4008, 0x201003); (0x5000, 0x400003); (0x5010, 0x402003); (0x5ff8, 0x5ff003)].
Definition ex_mm : MM := mkMM reset_cpu (fun a => default 0 (ex_boot_words !! a)) (fun _ => 0) ∅ 0 new None 0.

(** Conventional memory around the kernel image. *)
Definition ex_kernel_map : list MemoryDescriptor :=
  [mkDescriptor 7 0 160 0; mkDescriptor 7 0x100000 0xf000 0; mkDescriptor 2 ex_kphy 0x4000 0; mkDescriptor 7 0x14000000 0x10000 0].

Lemma ex_mm_readable : tables_readable ex_mm (next_table (CR3 (cpu ex_mm))).
Proof. apply tables_readable_b_ok. by vm_compute. Qed.

Lemma mm_init_ok_witness :
  exists s' b, mm_init 0xffff800000123000 0xffff800000125000 ex_vaddr 0xffff800000130000 ex_kphy 0x4000000 ex_kernel_map ex_mm = Ret (tt, s') /\
    GDTR (cpu s') = (0xffff800000123000, 1023) /\ CS (cpu s') = KERNEL_CODE_SELECTOR /\ total_pages s' = 3 /\
    walk (phys s') (CR3 (cpu s')) (KERNEL_START + 0x5000123) = Some (mkMapping 0x5000123 true false) /\
    buddy_allocator s' = Some b /\ alloc_ready b /\ get_kernel_pdpt_phy_addr s' = Ret (ex_kphy + (ex_vaddr - KERNEL_START) + 4096, s').
Proof.
  destruct (mm_init_ok 0xffff800000123000 0xffff800000125000 ex_vaddr 0xffff800000130000 ltac:(by vm_compute) ltac:(by vm_compute) ltac:(by vm_compute)
    ex_mm ex_kphy 0x4000000 ex_kernel_map) as (s' & c & b & H1 & H2 & H3 & H4 & _ & _ & _ & _ & H5 & H6 & H7 & H8 & H9 & H10 & _ & _ & H11).
  - exact reset_cpu_wf.
  - exact ex_mm_readable.
  - by vm_compute.
  - exact ex_placed.
  - by vm_compute.
  - reflexivity.
  - repeat (constructor; [intros E; vm_compute; first [reflexivity|discriminate E]|]). constructor.
  - by vm_compute.
  - exists s', b. destruct H3 as (G1 & _ & G3 & _). split; [exact H1|]. rewrite H2 in *. split; [exact G1|]. split; [exact G3|].
    split; [rewrite H8; vm_compute; reflexivity|]. split; [|split; [exact H9|split; [exact H10|]]].
    + rewrite H7; [|split; [lia|by vm_compute]]. rewrite decide_False by (change IDENTITY_MAP_PHY_START with 67108864; lia). reflexivity.
    + refine (eq_trans H11 _). rewrite decide_False; [unfold t_phys; f_equal; f_equal; lia|by vm_compute].
Defined.
