(* ===== verification/Ahci.v ===== *)
(** * device/ahci.cpp: reading from a SATA disk

    The state is the memory and the page allocator; the command header and table
    that [read] fills are a value, [Command], not bytes of the memory.  The disk controller is a
    parameter: [issue] is what it does with a command, [ready] after how many
    reads of the task file register the port is not busy. *)
From S2P Require Import Prelude LibUtils CpuDefs LibString Paging Buddy BuddyInv BuddySpec BuddyThms PageAlloc Crc.

Module Ahci.
Import LibString Paging.

Definition SectorSize : Z := 512.

(** The members of [HBA_PORT] that are read, and [ctba], [ctbau] of the command
    headers as one number per slot. *)
Record HBA_PORT := mkPort { clb : Z; clbu : Z; sact : Z; ci : Z; ctba : Z -> Z }.

(** ** Commands *)

Record HBA_PRDT_ENTRY := mkPrdt { dba : Z; dbau : Z; dbc : Z; pi : Z }.

Record FIS_REG_H2D := mkFis {
  fis_type : Z; fis_c : Z; command : Z;
  lba0 : Z; lba1 : Z; lba2 : Z; device : Z; lba3 : Z; lba4 : Z; lba5 : Z;
  countl : Z; counth : Z
}.

(** What [read] leaves in the command header and the command table. *)
Record Command := mkCommand {
  slot : Z; cfl : Z; w : Z; prdtl : Z;
  prdt : list HBA_PRDT_ENTRY;
  fis : FIS_REG_H2D
}.

Definition FIS_TYPE_REG_H2D : Z := 0x27.
Definition ATA_CMD_READ_DMA_EX : Z := 0x25.

(** The loop of [find_cmdslot] with [n] rounds left. *)
Fixpoint cmdslot_loop (n : nat) (i slots : Z) : Z :=
  match n with
  | O => -1
  | S n => if Z.land slots 1 =? 0 then i else cmdslot_loop n (i + 1) (Z.shiftr slots 1)
  end.
Definition find_cmdslot (port : HBA_PORT) : Z := cmdslot_loop 32 0 (Z.lor (sact port) (ci port)).

Definition prdt_entry (buf_phy_addr byte_count : Z) : HBA_PRDT_ENTRY :=
  mkPrdt (wrap32 buf_phy_addr) (wrap32 (Z.shiftr buf_phy_addr 32)) (byte_count mod 2 ^ 22) 1.

(** The entries before the last; each takes 16 sectors off [count]. *)
Fixpoint prdt_loop (n : nat) (buf_phy_addr count : Z) : list HBA_PRDT_ENTRY * Z * Z :=
  match n with
  | O => ([], buf_phy_addr, count)
  | S n =>
      let '(l, buf, c) := prdt_loop n (wrap64 (buf_phy_addr + 4 * 1024 * 2)) (wrap32 (count - 16)) in
      (prdt_entry buf_phy_addr (8 * 1024 - 1) :: l, buf, c)
  end.

Definition make_fis (startl starth count : Z) : FIS_REG_H2D :=
  mkFis FIS_TYPE_REG_H2D 1 ATA_CMD_READ_DMA_EX
    (wrap8 startl) (wrap8 (Z.shiftr startl 8)) (wrap8 (Z.shiftr startl 16)) (Z.shiftl 1 6)
    (wrap8 (Z.shiftr startl 24)) (wrap8 starth) (wrap8 (Z.shiftr starth 8))
    (Z.land count 0xff) (Z.land (Z.shiftr count 8) 0xff).

Definition make_command (slot startl starth count buf_phy_addr : Z) : Command :=
  let prdtl := wrap16 (wrap16 (Z.shiftr (wrap32 (count - 1)) 4) + 1) in
  let '(l, buf, count) := prdt_loop (Z.to_nat (prdtl - 1)) buf_phy_addr count in
  mkCommand slot (20 / 4) 0 prdtl (l ++ [prdt_entry buf (wrap32 (wrap32 (Z.shiftl count 9) - 1))]) (make_fis startl starth count).

(** ** Execution *)

Inductive completion := Completed | TaskFileError | Hangs.

Record Ahci := mkAhci { amem : memory; allocator : Buddy.BuddyAllocator }.
Abbreviation M := (ST Ahci).

Definition lift_alloc {A} (c : ST Buddy.BuddyAllocator A) : M A := fun s =>
  match c (allocator s) with
  | Ret (a, al) => Ret (a, mkAhci (amem s) al)
  | Panic m => Panic m | Halt => Halt | Fault => Fault | OutOfFuel => OutOfFuel
  end.
Definition on_memory (f : memory -> memory) : M unit := modify (fun s => mkAhci (f (amem s)) (allocator s)).

Section controller.
Context (issue : Command -> memory -> memory * completion) (ready : option Z) (port : HBA_PORT).

(** The busy loop gives up after a million reads. *)
Definition port_ready : bool := match ready with Some n => n <? 1000000 | None => false end.

(** A command that neither completes nor fails keeps [read] waiting.  Below the
    identity map, [KERNEL_START + phy] is the kernel image and not the memory the
    controller reads: a command list or table there is [Fault]. *)
Definition read (startl starth count buf_phy_addr : Z) : M bool :=
  let slot := find_cmdslot port in
  if slot =? -1 then mret false
  else
    do_assert (clb port + Z.shiftl (clbu port) 32 <? IDENTITY_MAP_PHY_END) "";;
    (if clb port + Z.shiftl (clbu port) 32 <? IDENTITY_MAP_PHY_START then fault else mret tt);;
    do_assert (ctba port slot <? IDENTITY_MAP_PHY_END) "";;
    (if ctba port slot <? IDENTITY_MAP_PHY_START then fault else mret tt);;
    let cmd := make_command slot startl starth count buf_phy_addr in
    if negb port_ready then mret false
    else
      s ← get;
      let '(m, c) := issue cmd (amem s) in
      put (mkAhci m (allocator s));;
      match c with
      | Completed => mret true
      | TaskFileError => mret false
      | Hangs => out_of_fuel
      end.

Definition align_left (value alignment : Z) : Z := wrap64 (value / alignment * alignment).
Definition align_right (value alignment : Z) : Z := wrap64 (wrap64 (wrap64 (value + alignment) - 1) / alignment * alignment).

(** [AHCIDevice::Read(output, start, size)]: whether it succeeded. *)
Definition Read (output start size : Z) : M bool :=
  let sector_start_addr := align_left start SectorSize in
  let sector_end_addr := align_right (wrap64 (start + size)) SectorSize in
  let start_offset := wrap64 (start - sector_start_addr) in
  let sector_start := sector_start_addr / SectorSize in
  let sector_end := sector_end_addr / SectorSize in
  let sector_count := wrap64 (sector_end - sector_start) in
  let starth := Z.land (Z.shiftr sector_start 32) 0xffffffff in
  let startl := Z.land sector_start 0xffffffff in
  buf ← lift_alloc (PageAlloc.kmalloc size);
  let buf_phy := wrap64 (buf - KERNEL_START) in
  ok ← read startl starth (wrap32 sector_count) buf_phy;
  on_memory (memcpy output (wrap64 (buf + start_offset)) size);;
  mret ok.

End controller.

(** ** What a command asks for *)

(** Address of byte [j] of the transfer. *)
Fixpoint prdt_byte (l : list HBA_PRDT_ENTRY) (j : Z) : option Z :=
  match l with
  | [] => None
  | e :: l => if j <? dbc e + 1 then Some (dba e + 2 ^ 32 * dbau e + j) else prdt_byte l (j - (dbc e + 1))
  end.

Definition fis_lba (f : FIS_REG_H2D) : Z :=
  lba0 f + 2 ^ 8 * lba1 f + 2 ^ 16 * lba2 f + 2 ^ 24 * lba3 f + 2 ^ 32 * lba4 f + 2 ^ 40 * lba5 f.
Definition fis_count (f : FIS_REG_H2D) : Z := countl f + 2 ^ 8 * counth f.

(** The regions of the table do not overlap. *)
Definition prdt_disjoint (l : list HBA_PRDT_ENTRY) : Prop :=
  forall j j' pa, 0 <= j -> 0 <= j' -> prdt_byte l j = Some pa -> prdt_byte l j' = Some pa -> j = j'.

(** The regions hold the bytes of the command, without overlap; a region starts at
    an even address and has an even number of bytes. *)
Record regions_ok (l : list HBA_PRDT_ENTRY) (bytes : Z) : Prop := {
  rg_even : Forall (fun e => Z.even (dba e) = true /\ Z.odd (dbc e) = true) l;
  rg_covers j : 0 <= j < bytes -> is_Some (prdt_byte l j);
  rg_disjoint : prdt_disjoint l
}.

(** A READ DMA EXT command as AHCI and ATA require it: a command slot, a
    register FIS of five words that carries a command in LBA mode, for data from the
    device to memory. *)
Record read_dma_ext (cmd : Command) : Prop := {
  rd_slot : 0 <= slot cmd < 32;
  rd_cfl : cfl cmd = 5;
  rd_w : w cmd = 0;
  rd_prdtl : prdtl cmd = Z.of_nat (length (prdt cmd));
  rd_type : fis_type (fis cmd) = FIS_TYPE_REG_H2D;
  rd_c : fis_c (fis cmd) = 1;
  rd_command : command (fis cmd) = ATA_CMD_READ_DMA_EX;
  rd_lba_mode : Z.testbit (device (fis cmd)) 6 = true;
  rd_count : 1 <= fis_count (fis cmd);
  rd_regions : regions_ok (prdt cmd) (512 * fis_count (fis cmd))
}.

(** Physical memory the kernel sees at [KERNEL_START + pa]. *)
Definition identity_mapped (pa : Z) : Prop := IDENTITY_MAP_PHY_START <= pa < IDENTITY_MAP_PHY_END.

(** Byte [j] of the transfer is stored at physical address [pa]. *)
Definition stored_at (cmd : Command) (j pa : Z) : Prop := 0 <= j < 512 * fis_count (fis cmd) /\ prdt_byte (prdt cmd) j = Some pa.

(** A controller with a disk of [cap] sectors that hold [disk]: READ DMA EXT of
    sectors it has stores them through the region table, in memory the kernel sees
    through its identity map, and changes nothing else of it. *)
Definition reads_disk (cap : Z) (disk : Z -> Z) (issue : Command -> memory -> memory * completion) : Prop :=
  forall cmd m, read_dma_ext cmd -> fis_lba (fis cmd) + fis_count (fis cmd) <= cap ->
    (forall j pa, stored_at cmd j pa -> identity_mapped pa) ->
    exists m', issue cmd m = (m', Completed) /\
      (forall j pa, stored_at cmd j pa -> m' (pa + KERNEL_START) = disk (512 * fis_lba (fis cmd) + j)) /\
      (forall a, (forall j pa, stored_at cmd j pa -> a <> pa + KERNEL_START) -> m' a = m a).

Lemma prdt_entry_addr buf n : 0 <= buf < 2 ^ 64 -> dba (prdt_entry buf n) + 2 ^ 32 * dbau (prdt_entry buf n) = buf.
Proof. intros H. cbn. unfold wrap. rewrite Z.shiftr_div_pow2 by lia. dlia. Qed.

Lemma prdt_entry_even buf n : Z.even buf = true -> Z.odd n = true -> Z.even (dba (prdt_entry buf n)) = true /\ Z.odd (dbc (prdt_entry buf n)) = true.
Proof.
  intros Hb Hn. cbn [dba dbc prdt_entry]. unfold wrap. rewrite <- Z.bit0_odd, <- Z.negb_odd, <- Z.bit0_odd, !Z.mod_pow2_bits_low, !Z.bit0_odd by lia.
  by rewrite Z.negb_odd.
Qed.

Lemma prdt_loop_spec n buf count : 0 <= buf -> buf + 8192 * Z.of_nat n < 2 ^ 64 -> 16 * Z.of_nat n <= count < 2 ^ 32 ->
  exists l, prdt_loop n buf count = (l, buf + 8192 * Z.of_nat n, count - 16 * Z.of_nat n) /\ length l = n /\
    (Z.even buf = true -> Forall (fun e => Z.even (dba e) = true /\ Z.odd (dbc e) = true) l) /\
    forall last j, 0 <= j -> prdt_byte (l ++ last) j = if j <? 8192 * Z.of_nat n then Some (buf + j) else prdt_byte last (j - 8192 * Z.of_nat n).
Proof.
  revert buf count. induction n as [|n IH]; intros buf count Hb Hbn Hc.
  - exists []. split; [cbn; f_equal; [f_equal|]; lia|]. split; [done|]. split; [by constructor|]. intros last j Hj. cbn [app Z.of_nat]. rewrite Z.mul_0_r, Z.sub_0_r.
    by rewrite (proj2 (Z.ltb_ge _ _)) by lia.
  - cbn [prdt_loop]. change (4 * 1024 * 2) with 8192. rewrite (wrap_small 64) by (unfold uint; lia). rewrite (wrap_small 32) by (unfold uint; lia).
    destruct (IH (buf + 8192) (count - 16)) as (l & E & Hl & He & Hj); [lia..|]. rewrite E.
    exists (prdt_entry buf (8 * 1024 - 1) :: l). split; [|split; [|split]].
    + f_equal; [f_equal|]; lia.
    + cbn. by rewrite Hl.
    + intros Hev. constructor; [by apply prdt_entry_even|]. apply He. by rewrite Z.even_add, Hev.
    + intros last j H0. cbn [app prdt_byte]. change (dbc (prdt_entry buf (8 * 1024 - 1)) + 1) with 8192. rewrite prdt_entry_addr by lia.
      destruct (Z.ltb_spec j 8192).
      * by rewrite (proj2 (Z.ltb_lt j _)) by lia.
      * rewrite Hj by lia. destruct (Z.ltb_spec (j - 8192) (8192 * Z.of_nat n)).
        -- rewrite (proj2 (Z.ltb_lt j _)) by lia. f_equal. lia.
        -- rewrite (proj2 (Z.ltb_ge j _)) by lia. f_equal. lia.
Qed.

(** The slot of a command, where [slot] is a variable. *)
Local Abbreviation cmdslot := slot.

Lemma make_command_spec slot startl starth count buf : 1 <= count <= 2 ^ 16 -> 0 <= buf -> buf + 512 * count < 2 ^ 64 ->
  let cmd := make_command slot startl starth count buf in
  prdtl cmd = (count - 1) / 16 + 1 /\ Z.of_nat (length (prdt cmd)) = prdtl cmd /\
  fis cmd = make_fis startl starth (count - 16 * ((count - 1) / 16)) /\
  cmdslot cmd = slot /\ cfl cmd = 5 /\ w cmd = 0 /\
  (Z.even buf = true -> Forall (fun e => Z.even (dba e) = true /\ Z.odd (dbc e) = true) (prdt cmd)) /\
  (forall j, 0 <= j -> prdt_byte (prdt cmd) j = if j <? 512 * count then Some (buf + j) else None).
Proof.
  intros Hc Hb Hbc. assert (0 <= (count - 1) / 16 < 2 ^ 12) as Hq by dlia. assert (16 * ((count - 1) / 16) <= count - 1 < 16 * ((count - 1) / 16) + 16) as Hm by dlia.
  unfold make_command. rewrite (wrap_small 32 (count - 1)) by (unfold uint; lia). rewrite Z.shiftr_div_pow2 by lia. change (2 ^ 4) with 16.
  rewrite (wrap_small 16 ((count - 1) / 16)) by (unfold uint; lia). rewrite (wrap_small 16) by (unfold uint; lia).
  set (q := (count - 1) / 16) in *. replace (q + 1 - 1) with q by lia.
  destruct (prdt_loop_spec (Z.to_nat q) buf count) as (l & E & Hl & He & Hj); [lia..|]. rewrite E. rewrite Z2Nat.id in * by lia. cbv zeta. cbn [prdt prdtl fis cmdslot cfl w].
  split; [done|]. split; [rewrite length_app, Hl; cbn; lia|]. do 4 (split; [done|]). split.
  { intros Hev. apply Forall_app. split; [by apply He|]. constructor; [|constructor]. apply prdt_entry_even; [by rewrite Z.even_add, Z.even_mul, Hev|].
    rewrite Z.shiftl_mul_pow2 by lia. change (2 ^ 9) with 512. rewrite (wrap_small 32 ((count - 16 * q) * 512)) by (unfold uint; lia).
    rewrite (wrap_small 32) by (unfold uint; lia). by rewrite Z.odd_sub, Z.odd_mul, andb_false_r. }
  intros j H0. rewrite Hj by done. destruct (Z.ltb_spec j (8192 * q)).
  - by rewrite (proj2 (Z.ltb_lt j _)) by lia.
  - cbn [prdt_byte]. rewrite prdt_entry_addr by lia. cbn [dbc prdt_entry]. rewrite Z.shiftl_mul_pow2 by lia. change (2 ^ 9) with 512.
    rewrite (wrap_small 32 ((count - 16 * q) * 512)) by (unfold uint; lia). rewrite (wrap_small 32) by (unfold uint; lia). rewrite Z.mod_small by lia.
    destruct (Z.ltb_spec (j - 8192 * q) ((count - 16 * q) * 512 - 1 + 1)).
    + rewrite (proj2 (Z.ltb_lt j _)) by lia. f_equal. lia.
    + by rewrite (proj2 (Z.ltb_ge j _)) by lia.
Qed.

Lemma land_ff_mod z : Z.land z 0xff = z mod 256.
Proof. change 0xff with (Z.ones 8). by rewrite Z.land_ones by lia. Qed.
Lemma make_fis_count startl starth count : 0 <= count < 2 ^ 16 -> fis_count (make_fis startl starth count) = count.
Proof. intros H. unfold fis_count, make_fis. cbn [countl counth]. rewrite !land_ff_mod, Z.shiftr_div_pow2 by lia. dlia. Qed.
Lemma make_fis_lba lba count : 0 <= lba < 2 ^ 48 ->
  fis_lba (make_fis (Z.land lba 0xffffffff) (Z.land (Z.shiftr lba 32) 0xffffffff) count) = lba.
Proof.
  intros H. unfold fis_lba, make_fis. cbn [lba0 lba1 lba2 lba3 lba4 lba5]. unfold wrap. change 0xffffffff with (Z.ones 32).
  rewrite !Z.land_ones, !Z.shiftr_div_pow2 by lia. dlia.
Qed.

Lemma cmdslot_range n i slots : cmdslot_loop n i slots = -1 \/ i <= cmdslot_loop n i slots < i + Z.of_nat n.
Proof.
  revert i slots. induction n as [|n IH]; intros i slots; [by left|]. cbn [cmdslot_loop]. destruct (_ =? 0); [right; lia|].
  destruct (IH (i + 1) (Z.shiftr slots 1)); [by left|right; lia].
Qed.

(** The command for at most 16 sectors is a READ DMA EXT of exactly these, to
    consecutive memory from [buf] on. *)
Lemma make_command_read slot lba count buf : 0 <= slot < 32 -> 0 <= lba < 2 ^ 48 -> 1 <= count <= 16 -> 0 <= buf -> buf + 8192 < 2 ^ 64 -> Z.even buf = true ->
  let cmd := make_command slot (Z.land lba 0xffffffff) (Z.land (Z.shiftr lba 32) 0xffffffff) count buf in
  read_dma_ext cmd /\ fis_lba (fis cmd) = lba /\ fis_count (fis cmd) = count /\
  (forall j pa, stored_at cmd j pa <-> 0 <= j < 512 * count /\ pa = buf + j).
Proof.
  intros Hs Hl Hc Hb Hb' Hev cmd.
  destruct (make_command_spec slot (Z.land lba 0xffffffff) (Z.land (Z.shiftr lba 32) 0xffffffff) count buf) as (E1 & E2 & F & Es & Ec & Ew & He & P); [lia..|].
  fold cmd in E1, E2, F, Es, Ec, Ew, He, P. replace (count - 16 * ((count - 1) / 16)) with count in F by dlia.
  assert (fis_count (fis cmd) = count) as En by (rewrite F; apply make_fis_count; lia).
  split; [|split; [by rewrite F; apply make_fis_lba|split; [done|]]].
  - split; rewrite ?Es, ?En; try (by rewrite ?F); try lia; try done. split; [by apply He|..].
    + intros j Hj. rewrite P by lia. rewrite (proj2 (Z.ltb_lt _ _)) by lia. by eexists.
    + intros j j' pa Hj Hj'. rewrite !P by done. repeat case_match; intros E E'; simplify_eq; lia.
  - intros j pa. unfold stored_at. rewrite En. split; intros [Hj Hp]; (split; [done|]).
    + rewrite P, (proj2 (Z.ltb_lt _ _)) in Hp by lia. congruence.
    + rewrite P, (proj2 (Z.ltb_lt _ _)) by lia. by rewrite Hp.
Qed.

(** ** Command slots *)

Lemma cmdslot_spec n i slots : 0 <= i -> 0 <= slots ->
  let r := cmdslot_loop n i slots in
  (r = -1 /\ forall k, 0 <= k < Z.of_nat n -> Z.testbit slots k = true) \/
  (i <= r < i + Z.of_nat n /\ Z.testbit slots (r - i) = false /\ forall k, 0 <= k < r - i -> Z.testbit slots k = true).
Proof.
  revert i slots. induction n as [|n IH]; intros i slots Hi Hs; [left; split; [done|]; intros k Hk; lia|]. cbn [cmdslot_loop].
  assert (Z.land slots 1 = slots mod 2) as -> by (change 1 with (Z.ones 1) at 1; by rewrite Z.land_ones by lia).
  assert (Z.testbit slots 0 = negb (slots mod 2 =? 0)) as E0.
  { rewrite Z.bit0_odd, Zmod_odd. by destruct (Z.odd slots). }
  destruct (slots mod 2 =? 0) eqn:Em.
  - right. rewrite Z.sub_diag. split; [lia|]. split; [by rewrite E0|]. intros k Hk. lia.
  - assert (forall k, 0 < k -> Z.testbit slots k = Z.testbit (Z.shiftr slots 1) (k - 1)) as Hsh.
    { intros k Hk. rewrite Z.shiftr_spec by lia. f_equal. lia. }
    destruct (IH (i + 1) (Z.shiftr slots 1)) as [[E H]|(H1 & H2 & H3)]; [lia|by apply Z.shiftr_nonneg|..].
    + left. split; [done|]. intros k Hk. destruct (decide (k = 0)) as [->|]; [by rewrite E0|]. rewrite Hsh by lia. apply H. lia.
    + right. split; [lia|]. split; [rewrite Hsh by lia; rewrite <- H2; f_equal; lia|].
      intros k Hk. destruct (decide (k = 0)) as [->|]; [by rewrite E0|]. rewrite Hsh by lia. apply H3. lia.
Qed.

(** [find_cmdslot] returns the lowest slot that is neither active nor issued,
    and -1 exactly when all 32 are in use. *)
Theorem find_cmdslot_free port :
  uint 32 (sact port) -> uint 32 (ci port) ->
  let r := find_cmdslot port in
  let busy k := Z.testbit (sact port) k || Z.testbit (ci port) k in
  (r = -1 /\ forall k, 0 <= k < 32 -> busy k = true) \/ (0 <= r < 32 /\ busy r = false /\ forall k, 0 <= k < r -> busy k = true).
Proof.
  intros Hs Hc. cbv zeta. unfold find_cmdslot.
  destruct (cmdslot_spec 32 0 (Z.lor (sact port) (ci port))) as [[E H]|(H1 & H2 & H3)]; [lia|apply Z.lor_nonneg; unfold uint in *; lia|..].
  - left. split; [done|]. intros k Hk. specialize (H k Hk). by rewrite Z.lor_spec in H.
  - right. rewrite Z.sub_0_r in *. split; [lia|]. split; [by rewrite <- Z.lor_spec|]. intros k Hk. rewrite <- Z.lor_spec. by apply H3.
Qed.

(** The command for [count] sectors.  Its region table has one entry for every
    16 sectors and covers exactly the [512 * count] bytes of the buffer, in
    order; but the count in the command is what is left for the last entry, so the
    disk is asked for all sectors only when there are at most 16. *)
Theorem read_command slot startl starth count buf :
  1 <= count <= 2 ^ 16 -> 0 <= buf -> buf + 512 * count < 2 ^ 64 ->
  let cmd := make_command slot startl starth count buf in
  prdtl cmd = (count + 15) / 16 /\ Z.of_nat (length (prdt cmd)) = prdtl cmd /\
  (forall j, 0 <= j -> prdt_byte (prdt cmd) j = if j <? 512 * count then Some (buf + j) else None) /\
  fis_count (fis cmd) = (count - 1) mod 16 + 1 /\ (fis_count (fis cmd) = count <-> count <= 16).
Proof.
  intros Hc Hb Hbc cmd. destruct (make_command_spec slot startl starth count buf Hc Hb Hbc) as (E1 & E2 & E3 & _ & _ & _ & _ & E4). fold cmd in E1, E2, E3, E4.
  rewrite E3, make_fis_count by dlia. split; [rewrite E1; dlia|]. split; [done|]. split; [done|]. split; dlia.
Qed.

(** ** Reading bytes *)

Definition sectors (start size : Z) : Z := (start + size + 511) / 512 - start / 512.

(** The command list and the command table of a port are in memory the kernel
    sees through its identity map. *)
Definition tables_mapped (port : HBA_PORT) : Prop :=
  identity_mapped (clb port + Z.shiftl (clbu port) 32) /\ identity_mapped (ctba port (find_cmdslot port)).

Lemma read_issues issue ready port startl starth count buf s : find_cmdslot port <> -1 -> port_ready ready = true -> tables_mapped port ->
  read issue ready port startl starth count buf s =
    let '(m, c) := issue (make_command (find_cmdslot port) startl starth count buf) (amem s) in
    match c with
    | Completed => Ret (true, mkAhci m (allocator s))
    | TaskFileError => Ret (false, mkAhci m (allocator s))
    | Hangs => OutOfFuel
    end.
Proof.
  intros Hslot Hready [[L1 L2] [T1 T2]]. unfold read. rewrite (proj2 (Z.eqb_neq _ _)) by done.
  rewrite (proj2 (Z.ltb_lt _ _) L2), (proj2 (Z.ltb_lt _ _) T2), (proj2 (Z.ltb_ge _ _) L1), (proj2 (Z.ltb_ge _ _) T1), Hready.
  unfold do_assert, mbind, st_bind, mret, st_ret, get, put. cbn [negb]. destruct (issue _ _) as [m []]; done.
Qed.

Lemma read_addresses start size : 0 <= start -> 1 <= size -> start + size <= 2 ^ 57 -> sectors start size <= 16 ->
  align_left start SectorSize = 512 * (start / 512) /\
  align_right (wrap64 (start + size)) SectorSize / SectorSize - align_left start SectorSize / SectorSize = sectors start size /\
  wrap64 (start - align_left start SectorSize) = start mod 512 /\ 1 <= sectors start size /\
  start mod 512 + size <= 512 * sectors start size.
Proof.
  intros Hs Hz Hb Hc. unfold align_left, align_right, sectors, SectorSize in *.
  rewrite (wrap_small 64 (start + size)) by (unfold uint; lia). rewrite (wrap_small 64 (start / 512 * 512)) by (unfold uint; dlia).
  rewrite (wrap_small 64 (start + size + 512)) by (unfold uint; lia). rewrite (wrap_small 64 (start + size + 512 - 1)) by (unfold uint; lia).
  rewrite (wrap_small 64 ((start + size + 512 - 1) / 512 * 512)) by (unfold uint; dlia).
  rewrite (wrap_small 64 (start - start / 512 * 512)) by (unfold uint; dlia). split_and!; dlia.
Qed.

(** A buffer the controller can write to: the kernel sees it through its identity
    map.  [KERNEL_START], which [kmalloc] returns when there is no memory, is not. *)
Definition buffer_ok (buf : Z) : Prop :=
  KERNEL_START + IDENTITY_MAP_PHY_START <= buf /\ buf + 8192 <= KERNEL_START + IDENTITY_MAP_PHY_END /\ Z.even buf = true.

Lemma read_delivers cap disk issue ready port s output start size buf al :
  reads_disk cap disk issue -> cap <= 2 ^ 48 -> find_cmdslot port <> -1 -> port_ready ready = true -> tables_mapped port ->
  0 <= start -> 1 <= size -> start + size <= 512 * cap -> sectors start size <= 16 ->
  PageAlloc.kmalloc size (allocator s) = Ret (buf, al) -> buffer_ok buf ->
  0 <= output -> output + size <= 2 ^ 64 -> output + size <= buf \/ buf + 8192 <= output ->
  exists m, Read issue ready port output start size s = Ret (true, mkAhci m al) /\
    (forall i, 0 <= i < size -> m (output + i) = disk (start + i)) /\
    (forall a, ~ (output <= a < output + size) -> ~ (buf <= a < buf + 8192) -> m a = amem s a).
Proof.
  intros Hdisk Hcap Hslot Hready Htab Hs Hz Hb Hc Hk (Hbuf1 & Hbuf2 & Hev) Ho1 Ho2 Hdis.
  destruct (read_addresses start size Hs Hz ltac:(lia) Hc) as (E1 & E2 & E3 & Hn1 & Hn2). set (n := sectors start size) in *.
  assert (KERNEL_START = 0xffff800000000000) as EK by done. assert (IDENTITY_MAP_PHY_START = 2 ^ 26) as E26 by done. assert (IDENTITY_MAP_PHY_END = 2 ^ 32) as E32 by done.
  assert (start / 512 + n <= cap) as Hl by (unfold n, sectors; dlia). assert (0 <= start / 512) as Hl0 by dlia.
  destruct (cmdslot_range 32 0 (Z.lor (sact port) (ci port))) as [?|Hsr]; [done|]. fold (find_cmdslot port) in Hsr.
  destruct (make_command_read (find_cmdslot port) (start / 512) n (buf - KERNEL_START)) as (Hcmd & El & En & P); [lia..|by rewrite Z.even_sub, Hev|].
  set (cmd := make_command _ _ _ _ _) in *.
  destruct (Hdisk cmd (amem s) Hcmd) as (m1 & Ei & Hin & Hout); [lia|intros j pa [Hj ->]%P; unfold identity_mapped; lia|]. rewrite El in Hin.
  assert (start mod 512 = start - 512 * (start / 512)) as Em by dlia. pose proof (Z.mod_pos_bound start 512 ltac:(lia)) as Hmb.
  exists (memcpy output (buf + start mod 512) size m1). split; [|split].
  - unfold Read. cbv zeta. rewrite E2, E3, E1. unfold SectorSize. rewrite (Z.mul_comm 512), Z.div_mul by lia. rewrite (wrap_small 64 n) by (unfold uint; lia).
    erewrite bind_ret by (unfold lift_alloc; by rewrite Hk). rewrite (wrap_small 64 (buf - KERNEL_START)) by (unfold uint; lia).
    rewrite (wrap_small 32 n) by (unfold uint; lia). erewrite bind_ret by (rewrite read_issues by done; cbn [amem]; fold cmd; rewrite Ei; reflexivity).
    rewrite (wrap_small 64 (buf + start mod 512)) by (unfold uint; lia). done.
  - intros i Hi. rewrite memcpy_spec by lia. rewrite decide_True by lia.
    replace (buf + start mod 512 + (output + i - output)) with (buf - KERNEL_START + (start mod 512 + i) + KERNEL_START) by lia.
    rewrite (Hin (start mod 512 + i)); [f_equal; lia|]. apply P. lia.
  - intros a Ha1 Ha2. rewrite memcpy_spec by lia. rewrite decide_False by done. apply Hout. intros j pa [Hj ->]%P. lia.
Qed.

(** C28: a read of at most 16 sectors that the disk has delivers exactly the bytes
    of the disk from [start] on, for unaligned positions and sizes too; besides the
    controller's command structures it writes only the output and the temporary
    buffer.  It asks the controller with a complete READ DMA EXT command; the
    command tables and the buffer must be in the kernel's identity map, so that
    the controller and the kernel mean the same memory: that excludes
    [KERNEL_START], the result of a failed [kmalloc], which [Read] does not test
    for. *)
Theorem ahci_read_ok cap disk issue ready port s output start size buf al :
  reads_disk cap disk issue -> cap <= 2 ^ 48 -> find_cmdslot port <> -1 -> port_ready ready = true -> tables_mapped port ->
  0 <= start -> 1 <= size -> start + size <= 512 * cap -> sectors start size <= 16 ->
  PageAlloc.kmalloc size (allocator s) = Ret (buf, al) -> buffer_ok buf ->
  0 <= output -> output + size <= 2 ^ 64 -> output + size <= buf \/ buf + 8192 <= output ->
  exists m, Read issue ready port output start size s = Ret (true, mkAhci m al) /\
    (forall i, 0 <= i < size -> m (output + i) = disk (start + i)) /\
    (forall a, ~ (output <= a < output + size) -> ~ (buf <= a < buf + 8192) -> m a = amem s a).
Proof. apply read_delivers. Qed.

(** ** Concrete runs *)

Definition ex_port (busy : Z) : HBA_PORT := mkPort 0x10001000 0 busy 0 (fun _ => 0x10002000).

Lemma find_cmdslot_free_witness :
  (find_cmdslot (ex_port 7) = -1 /\ forall k, 0 <= k < 32 -> Z.testbit 7 k || Z.testbit 0 k = true) \/
  (0 <= find_cmdslot (ex_port 7) < 32 /\ Z.testbit 7 (find_cmdslot (ex_port 7)) || Z.testbit 0 (find_cmdslot (ex_port 7)) = false /\
   forall k, 0 <= k < find_cmdslot (ex_port 7) -> Z.testbit 7 k || Z.testbit 0 k = true).
Proof. apply (find_cmdslot_free (ex_port 7)); unfold uint; cbn; lia. Defined.

Lemma read_command_witness :
  let cmd := make_command 0 0 0 40 0x100000 in
  prdtl cmd = 3 /\ Z.of_nat (length (prdt cmd)) = prdtl cmd /\
  (forall j, 0 <= j -> prdt_byte (prdt cmd) j = if j <? 512 * 40 then Some (0x100000 + j) else None) /\
  fis_count (fis cmd) = 8 /\ (fis_count (fis cmd) = 40 <-> 40 <= 16).
Proof. apply (read_command 0 0 0 40 0x100000); lia. Defined.

(** A controller that reads from [disk], as a function. *)
Definition ideal_issue (disk : Z -> Z) (cmd : Command) (m : memory) : memory * completion :=
  (fun a =>
     match list_find (fun j => prdt_byte (prdt cmd) j = Some (a - KERNEL_START)) (seqZ 0 (512 * fis_count (fis cmd))) with
     | Some (_, j) => disk (512 * fis_lba (fis cmd) + j)
     | None => m a
     end, Completed).

Lemma ideal_reads_disk cap disk : reads_disk cap disk (ideal_issue disk).
Proof.
  intros cmd m [_ _ _ _ _ _ _ _ _ [_ _ Hd]] _ _. eexists. split; [reflexivity|]. split.
  - intros j pa [Hj Hp]. cbn beta. destruct (list_find _ _) as [[i j']|] eqn:E.
    + apply list_find_Some in E as (Hi & Hj' & _). replace (pa + KERNEL_START - KERNEL_START) with pa in Hj' by lia.
      apply lookup_seqZ in Hi as [-> Hi]. f_equal. f_equal. apply (Hd _ _ pa); [lia..|done|done].
    + exfalso. apply list_find_None in E. rewrite Forall_forall in E. apply (E j); [apply elem_of_seqZ; lia|]. rewrite Hp. f_equal. lia.
  - intros a Ha. cbn beta. destruct (list_find _ _) as [[i j']|] eqn:E; [|done]. exfalso.
    apply list_find_Some in E as (Hi & Hj' & _). apply lookup_seqZ in Hi as [-> Hi]. eapply Ha; [split; [|exact Hj']|]; lia.
Qed.

Definition ex_buf : Z := match PageAlloc.kmalloc 1000 boot3 with Ret (b, _) => b | _ => 0 end.
Definition ex_state : Ahci := mkAhci (fun _ => 0) boot3.

Lemma ahci_read_ok_witness :
  let disk a := a mod 251 in
  exists m, Read (ideal_issue disk) (Some 3) (ex_port 7) 0x1000 700 1000 ex_state = Ret (true, mkAhci m (exec (PageAlloc.kmalloc 1000) boot3)) /\
    (forall i, 0 <= i < 1000 -> m (0x1000 + i) = disk (700 + i)) /\
    (forall a, ~ (0x1000 <= a < 0x1000 + 1000) -> ~ (ex_buf <= a < ex_buf + 8192) -> m a = 0).
Proof.
  intros disk. apply (ahci_read_ok 100 disk (ideal_issue disk) (Some 3) (ex_port 7) ex_state 0x1000 700 1000 ex_buf);
    [apply ideal_reads_disk|lia|by vm_compute|reflexivity|by vm_compute|lia|lia|lia|by vm_compute|by vm_compute|by vm_compute|lia|lia|left; by vm_compute].
Defined.

End Ahci.
