(* ===== verification/Gpt.v ===== *)
(** * device/gpt.cpp: the partitions of a disk

    [ListPrimaryPartitions] is written against a disk of which it uses [Read],
    and the kernel's heap, from which its vector grows; the AHCI driver with the
    page allocator is such a disk.  [header_buf] and [partition_entry_buf] are the
    addresses of its two local arrays. *)
From S2P Require Import Prelude LibUtils CpuDefs LibString Paging BuddyTree Buddy BuddyInv BuddyProofs BuddySpec BuddyThms PageAlloc PageAllocThms Process ProcessProofs AllocChain Syscall SyscallThms Elf Ahci.

(** A disk as its clients see it, together with the kernel's heap: the state with
    the memory, [Read(output, start, size)], [kmalloc] and [kfree]. *)
Class SectorDevice (S : Type) := {
  dev_memory : S -> LibString.memory;
  dev_Read : Z -> Z -> Z -> ST S bool;
  dev_kmalloc : Z -> ST S Z;
  dev_kfree : Z -> ST S unit
}.

(** What clients rely on.  [ready n] says that there is memory for [n] more small
    blocks, [held p] that [p] is a block that was handed out.  A read of at most a
    sector that lies in the [cap] sectors of the disk delivers the bytes of [disk]
    and leaves the rest of the stack [lo, hi) alone; it takes a block for good. *)
Record delivers {S} `{SectorDevice S} (cap : Z) (disk : Z -> Z) (lo hi : Z) (ready : nat -> S -> Prop) (held : Z -> S -> Prop) : Prop := {
  dl_less n s : ready (Datatypes.S n) s -> ready n s;
  dl_read n s output start size : ready (Datatypes.S n) s -> 0 <= start -> 1 <= size <= 512 -> start + size <= 512 * cap ->
    lo <= output -> output + size <= hi ->
    exists s', dev_Read output start size s = Ret (true, s') /\ ready n s' /\ (forall p, held p s -> held p s') /\
      (forall i, 0 <= i < size -> dev_memory s' (output + i) = disk (start + i)) /\
      (forall a, lo <= a < hi -> ~ (output <= a < output + size) -> dev_memory s' a = dev_memory s a);
  dl_kmalloc n s size : ready (Datatypes.S n) s -> 1 <= size <= 2 ^ 16 ->
    exists p s', dev_kmalloc size s = Ret (p, s') /\ ready n s' /\ held p s' /\ p <> KERNEL_START /\
      (forall q, held q s -> held q s' /\ q <> p) /\ dev_memory s' = dev_memory s;
  dl_kfree n s p : ready n s -> held p s ->
    exists s', dev_kfree p s = Ret (tt, s') /\ ready n s' /\ (forall q, held q s -> q <> p -> held q s') /\ dev_memory s' = dev_memory s
}.

Module Gpt.
Import LibString Elf.

(** ** Structures on the disk *)

(** "EFI PART" *)
Definition magic : list Z := [69; 70; 73; 32; 80; 65; 82; 84].

(** Members of [GPTPartitionTableHeader] and [GPTPartitionEntry], packed. *)
Definition PartitionEntryLBA (m : memory) (header : Z) : Z := le_read 8 m (header + 72).
Definition PartitionEntryCount (m : memory) (header : Z) : Z := le_read 4 m (header + 80).
Definition PartitionEntrySize (m : memory) (header : Z) : Z := le_read 4 m (header + 84).
Definition PartitionTypeGUID (m : memory) (entry : Z) : Z := le_read 16 m entry.
Definition FirstLBA (m : memory) (entry : Z) : Z := le_read 8 m (entry + 32).
Definition LastLBA (m : memory) (entry : Z) : Z := le_read 8 m (entry + 40).

(** [wchar_t] has four bytes. *)
Definition sizeof_GPTPartitionEntry : Z := 16 + 16 + 8 + 8 + 8 + 72 * 4.

Record GPTPrimaryPartition := mkPartition { start_offset : Z; size : Z; entry_ : list Z }.

(** [entry_] as a memory of its own. *)
Definition entry_memory (bytes : list Z) : memory := fun a => nth (Z.to_nat a) bytes 0.

(** [emplace_back] of a zero element, [memcpy] of the entry over it and the two
    members computed from it; a longer entry is written past the element. *)
Definition make_partition (m : memory) (entry entry_size : Z) : outcome GPTPrimaryPartition :=
  if sizeof_GPTPartitionEntry <? entry_size then Fault
  else
    let bytes := read_bytes m entry entry_size ++ repeat 0 (Z.to_nat (sizeof_GPTPartitionEntry - entry_size)) in
    let first := FirstLBA (entry_memory bytes) 0 in
    let last := LastLBA (entry_memory bytes) 0 in
    Ret (mkPartition (wrap64 (first * Ahci.SectorSize)) (wrap64 (wrap64 (last - first + 1) * Ahci.SectorSize)) bytes).

(** ** The vector of partitions *)

Definition sizeof_GPTPrimaryPartition : Z := 8 + 8 + sizeof_GPTPartitionEntry.

(** A [kvector<GPTPrimaryPartition>]: where its elements are stored, for how many it
    asked, and the elements. *)
Record kvector := mkVector { data_ : Z; capacity : Z; items : list GPTPrimaryPartition }.

(** ** ListPrimaryPartitions *)

Section list.
Context {S : Type} `{SectorDevice S} (header_buf partition_entry_buf : Z).

Definition lift_pure {A} (o : outcome A) : ST S A := fun s =>
  match o with Ret a => Ret (a, s) | Panic m => Panic m | Halt => Halt | Fault => Fault | OutOfFuel => OutOfFuel end.

(** [emplace_back] up to the place for the new element: a full vector doubles its
    storage.  [kallocator] asks [kmalloc] for [n] bytes to store [n] elements; an element
    past the end of the block, or at [KERNEL_START] when there is no memory, is
    written over something else. *)
Definition emplace_back (v : kvector) : ST S kvector :=
  let size := Z.of_nat (length (items v)) in
  v ← (if size =? capacity v then
         let n := Z.max 1 (2 * capacity v) in
         p ← dev_kmalloc n;
         (if 0 <? capacity v then dev_kfree (data_ v) else mret tt);;
         mret (mkVector p n (items v))
       else mret v);
  if (data_ v =? KERNEL_START) || (2 ^ class_of (capacity v) <? sizeof_GPTPrimaryPartition * (size + 1)) then fault
  else mret v.

(** The loop from entry [i] on. *)
Fixpoint entries_loop (fuel : nat) (i partition_entries_start : Z) (ret : kvector) : ST S kvector :=
  match fuel with
  | O => out_of_fuel
  | Datatypes.S fuel =>
      m ← gets dev_memory;
      if i <? PartitionEntryCount m header_buf then
        let entry_size := PartitionEntrySize m header_buf in
        ok ← dev_Read partition_entry_buf (wrap64 (partition_entries_start + wrap32 (entry_size * i))) entry_size;
        if negb ok then panic "Failed to read partition entries"
        else
          m ← gets dev_memory;
          if PartitionTypeGUID m partition_entry_buf =? 0 then entries_loop fuel (i + 1) partition_entries_start ret
          else
            ret ← emplace_back ret;
            m ← gets dev_memory;
            item ← lift_pure (make_partition m partition_entry_buf (PartitionEntrySize m header_buf));
            entries_loop fuel (i + 1) partition_entries_start (mkVector (data_ ret) (capacity ret) (items ret ++ [item]))
      else mret ret
  end.

Definition ListPrimaryPartitions (fuel : nat) : ST S kvector :=
  ok ← dev_Read header_buf (Ahci.SectorSize * 1) Ahci.SectorSize;
  if negb ok then panic "Failed to read LBA 1"
  else
    m ← gets dev_memory;
    if negb (bool_decide (read_bytes m header_buf 8 = magic)) then panic "EFI magic not match"
    else entries_loop fuel 0 (wrap64 (PartitionEntryLBA m header_buf * Ahci.SectorSize)) (mkVector 0 0 []).

End list.

(** ** What the disk holds *)

(** Entry [i] of the table on [disk], where the header in sector 1 says. *)
Definition table_entry (disk : Z -> Z) (i : Z) : Z := PartitionEntryLBA disk 512 * 512 + PartitionEntrySize disk 512 * i.

(** The partition at [e], [None] for an unused entry. *)
Definition partition_at (disk : Z -> Z) (e entry_size : Z) : option GPTPrimaryPartition :=
  if PartitionTypeGUID disk e =? 0 then None
  else Some (mkPartition (FirstLBA disk e * 512) ((LastLBA disk e - FirstLBA disk e + 1) * 512)
               (((fun j => disk (e + Z.of_nat j)) <$> seq 0 (Z.to_nat entry_size)) ++ repeat 0 (Z.to_nat (344 - entry_size)))).
Definition partitions (disk : Z -> Z) : list GPTPrimaryPartition :=
  omap (fun i => partition_at disk (table_entry disk (Z.of_nat i)) (PartitionEntrySize disk 512)) (seq 0 (Z.to_nat (PartitionEntryCount disk 512))).

(** A disk of [cap] sectors with a partition table. *)
Record wf_gpt (cap : Z) (disk : Z -> Z) : Prop := {
  wg_cap : 2 <= cap <= 2 ^ 48;
  wg_bytes a : 0 <= disk a < 256;
  wg_magic j : (j < 8)%nat -> disk (512 + Z.of_nat j) = nth j magic 0;
  wg_size : 48 <= PartitionEntrySize disk 512 <= 344;
  wg_count : PartitionEntrySize disk 512 * PartitionEntryCount disk 512 < 2 ^ 32;
  wg_table : table_entry disk (PartitionEntryCount disk 512) <= 512 * cap;
  wg_partition i : 0 <= i < PartitionEntryCount disk 512 -> let e := table_entry disk i in
    PartitionTypeGUID disk e <> 0 -> FirstLBA disk e <= LastLBA disk e < 2 ^ 54
}.

(** ** The listing is what the disk holds *)

Lemma nth_read_bytes m a n x rest : 0 <= x < n -> 0 <= a -> a + n <= 2 ^ 64 ->
  nth (Z.to_nat x) (read_bytes m a n ++ rest) 0 = m (a + x).
Proof.
  intros Hx Ha Hn. unfold read_bytes. rewrite app_nth1 by (rewrite length_fmap, length_seq; lia).
  rewrite nth_lookup, list_lookup_fmap, lookup_seq_lt by lia. cbn. rewrite wrap_small by (unfold uint; lia). f_equal. lia.
Qed.

Lemma omap_seq_S {A} (f : nat -> option A) n :
  omap f (seq 0 (Datatypes.S n)) = match f O with Some x => x :: omap (fun j => f (Datatypes.S j)) (seq 0 n) | None => omap (fun j => f (Datatypes.S j)) (seq 0 n) end.
Proof.
  assert (forall l : list nat, omap f (Datatypes.S <$> l) = omap (fun j => f (Datatypes.S j)) l) as Hs.
  { induction l as [|x l IH]; [done|]. simpl. destruct (f (Datatypes.S x)); [f_equal|]; exact IH. }
  cbn [seq]. rewrite <- fmap_S_seq, <- Hs. done.
Qed.

Section correct.
Context {S : Type} `{SectorDevice S} (cap : Z) (disk : Z -> Z) (lo hi : Z) (ready : nat -> S -> Prop) (held : Z -> S -> Prop).
Context (Hdev : delivers cap disk lo hi ready held) (Hwf : wf_gpt cap disk).
Context (header_buf partition_entry_buf : Z).
Context (Hlo : 0 <= lo) (Hhi : hi < 2 ^ 64).
Context (Hh : lo <= header_buf /\ header_buf + 512 <= hi) (He : lo <= partition_entry_buf /\ partition_entry_buf + 512 <= hi).
Context (Hapart : header_buf + 512 <= partition_entry_buf \/ partition_entry_buf + 512 <= header_buf).
Local Abbreviation es := (PartitionEntrySize disk 512).
Local Abbreviation count := (PartitionEntryCount disk 512).

(** The header's sector is in [header_buf]. *)
Definition has_header (m : memory) : Prop := forall i, 0 <= i < 512 -> m (header_buf + i) = disk (512 + i).

Lemma header_member n off m : has_header m -> 0 <= off -> off + Z.of_nat n <= 512 -> le_read n m (header_buf + off) = le_read n disk (512 + off).
Proof using All.
  intros Hm H1 H2. apply le_read_shift; [|lia..]. intros x Hx. rewrite <- !Z.add_assoc. apply Hm. lia.
Qed.

Lemma make_partition_ok m e : (forall i, 0 <= i < es -> m (partition_entry_buf + i) = disk (e + i)) -> 0 <= e -> e + 344 < 2 ^ 64 ->
  PartitionTypeGUID m partition_entry_buf = PartitionTypeGUID disk e /\
  (PartitionTypeGUID disk e <> 0 -> FirstLBA disk e <= LastLBA disk e < 2 ^ 54 -> exists p,
     make_partition m partition_entry_buf es = Ret p /\ partition_at disk e es = Some p).
Proof using All.
  intros Hm He0 He1. pose proof (wg_size _ _ Hwf) as Hes. pose proof (wg_bytes _ _ Hwf) as Hb. split.
  { apply le_read_shift; [intros x Hx; apply Hm; lia|lia..]. }
  intros Hg Hl. unfold make_partition, sizeof_GPTPartitionEntry. rewrite (proj2 (Z.ltb_ge _ _)) by lia.
  set (bytes := read_bytes m partition_entry_buf es ++ _).
  assert (forall x, 0 <= x < es -> entry_memory bytes (0 + x) = disk (e + x)) as Hn.
  { intros x Hx. unfold entry_memory, bytes. rewrite Z.add_0_l, nth_read_bytes by lia. by apply Hm. }
  assert (FirstLBA (entry_memory bytes) 0 = FirstLBA disk e) as ->.
  { apply le_read_shift; [|lia..]. intros x Hx. rewrite <- !Z.add_assoc. apply Hn. lia. }
  assert (LastLBA (entry_memory bytes) 0 = LastLBA disk e) as ->.
  { apply le_read_shift; [|lia..]. intros x Hx. rewrite <- !Z.add_assoc. apply Hn. lia. }
  assert (0 <= FirstLBA disk e) as H0 by (apply le_read_range; done). unfold Ahci.SectorSize.
  rewrite (wrap_small 64 (FirstLBA disk e * 512)), (wrap_small 64 (LastLBA disk e - FirstLBA disk e + 1)) by (unfold uint; lia).
  rewrite wrap_small by (unfold uint; lia). eexists. split; [reflexivity|]. unfold partition_at. rewrite (proj2 (Z.eqb_neq _ _) Hg). do 2 f_equal. unfold bytes. f_equal.
  unfold read_bytes. apply list_fmap_ext. intros i j Hj. apply lookup_seq in Hj as [-> Hj].
  rewrite wrap_small by (unfold uint; lia). symmetry. apply Hm. lia.
Qed.

(** The storage of the vector is a block of the heap that holds its elements. *)
Record vector_ok (v : kvector) (s : S) : Prop := {
  vo_size : Z.of_nat (length (items v)) <= capacity v <= 2 * Z.of_nat (length (items v));
  vo_data : 0 < capacity v -> held (data_ v) s /\ data_ v <> KERNEL_START
}.

(** 182 elements fit in a block of the smallest size. *)
Lemma emplace_back_ok n v s : ready (Datatypes.S n) s -> vector_ok v s -> Z.of_nat (length (items v)) < 182 ->
  exists v' s', emplace_back v s = Ret (v', s') /\ ready n s' /\ dev_memory s' = dev_memory s /\ items v' = items v /\
    (forall x, vector_ok (mkVector (data_ v') (capacity v') (items v ++ [x])) s').
Proof using Hdev.
  intros Hr [Hs Hd] Hlen. unfold emplace_back. set (k := Z.of_nat (length (items v))) in *.
  assert (forall p c, p <> KERNEL_START -> k + 1 <= c <= 2 * (k + 1) -> (p =? KERNEL_START) || (2 ^ class_of c <? sizeof_GPTPrimaryPartition * (k + 1)) = false) as Hfit.
  { intros p c Hp Hc. rewrite (proj2 (Z.eqb_neq _ _) Hp). apply Z.ltb_ge. transitivity (2 ^ 16); [unfold sizeof_GPTPrimaryPartition, sizeof_GPTPartitionEntry; lia|].
    apply Z.pow_le_mono_r; [lia|]. unfold class_of, Log2MinSize. lia. }
  assert (forall p c s1, held p s1 -> p <> KERNEL_START -> k + 1 <= c <= 2 * (k + 1) -> forall x, vector_ok (mkVector p c (items v ++ [x])) s1) as Hok.
  { intros p c s1 H1 H2 Hc x. split; cbn [items capacity data_]; [rewrite length_app; cbn; lia|done]. }
  destruct (Z.eqb_spec k (capacity v)) as [E|E].
  - destruct (dl_kmalloc _ _ _ _ _ _ Hdev n s (Z.max 1 (2 * capacity v)) Hr ltac:(lia)) as (p & s1 & H1 & Hr1 & Hp & Hne & Hq & Em).
    step_with H1. destruct (Z.ltb_spec 0 (capacity v)) as [Hc|Hc].
    + destruct (Hd Hc) as [Hdat _]. destruct (Hq _ Hdat) as [Hh1 Hneq].
      destruct (dl_kfree _ _ _ _ _ _ Hdev n s1 (data_ v) Hr1 Hh1) as (s2 & H2 & Hr2 & Hq2 & Em2). step_with H2. rewrite bind_mret_l.
      cbn [data_ capacity]. rewrite Hfit by (done || lia). eexists _, s2. split; [reflexivity|]. split; [done|]. split; [congruence|]. split; [done|].
      apply Hok; [by apply Hq2|done|cbn; lia].
    + rewrite bind_assoc, !bind_mret_l. cbn [data_ capacity]. rewrite Hfit by (done || lia). eexists _, s1. split; [reflexivity|]. split; [done|]. split; [done|].
      split; [done|]. apply Hok; [done|done|cbn; lia].
  - rewrite bind_mret_l. destruct Hd as [Hdat Hne]; [lia|]. rewrite Hfit by (done || lia). eexists v, s. split; [reflexivity|].
    split; [by apply (dl_less _ _ _ _ _ _ Hdev)|]. split; [done|]. split; [done|]. apply Hok; [done|done|lia].
Qed.

Lemma entries_loop_ok n fuel i v s : Z.of_nat n = count - i -> 0 <= i -> (n < fuel)%nat -> ready (2 * n) s -> has_header (dev_memory s) -> vector_ok v s ->
  let l := omap (fun j => partition_at disk (table_entry disk (i + Z.of_nat j)) es) (seq 0 n) in
  Z.of_nat (length (items v ++ l)) <= 182 ->
  exists v' s', entries_loop header_buf partition_entry_buf fuel i (PartitionEntryLBA disk 512 * 512) v s = Ret (v', s') /\ items v' = items v ++ l.
Proof using All.
  pose proof (wg_bytes _ _ Hwf) as Hb. pose proof (wg_size _ _ Hwf) as Hes. pose proof (wg_count _ _ Hwf) as Hc. pose proof (wg_table _ _ Hwf) as Ht. pose proof (wg_cap _ _ Hwf) as Hcap.
  revert fuel i v s. induction n as [|n IH]; intros fuel i v s Hn Hi Hf Hr Hs Hv l Hlen; (destruct fuel as [|fuel]; [lia|]); cbn [entries_loop].
  all: rewrite bind_ret with (a := dev_memory s) (s' := s) by done.
  all: assert (PartitionEntryCount (dev_memory s) header_buf = count) as -> by (by apply (header_member 4)).
  - rewrite (proj2 (Z.ltb_ge _ _)) by lia. exists v, s. by rewrite app_nil_r.
  - rewrite (proj2 (Z.ltb_lt _ _)) by lia.
    assert (PartitionEntrySize (dev_memory s) header_buf = es) as -> by (by apply (header_member 4)).
    assert (0 <= PartitionEntryLBA disk 512) as Hlba by (apply le_read_range; done).
    unfold table_entry in Ht. rewrite (wrap_small 32) by (unfold uint; nia). rewrite wrap_small by (unfold uint; nia).
    fold (table_entry disk i). set (e := table_entry disk i) in *. assert (0 <= e /\ e + es <= 512 * cap) as [He0 He1] by (unfold e, table_entry; nia).
    replace (2 * Datatypes.S n)%nat with (Datatypes.S (Datatypes.S (2 * n))) in Hr by lia.
    destruct (dl_read _ _ _ _ _ _ Hdev _ s partition_entry_buf e es Hr) as (s1 & E1 & Hr1 & Hh1 & Hin & Hout); [lia..|]. step_with E1. cbn [negb].
    rewrite bind_ret with (a := dev_memory s1) (s' := s1) by done.
    assert (has_header (dev_memory s1)) as Hs1 by (intros j Hj; rewrite Hout by lia; by apply Hs).
    assert (vector_ok v s1) as Hv1 by (destruct Hv as [V1 V2]; split; [done|]; intros Hp; destruct (V2 Hp); auto).
    destruct (make_partition_ok (dev_memory s1) e Hin He0 ltac:(lia)) as [-> Hp].
    assert (l = match partition_at disk e es with Some x => x :: omap (fun j => partition_at disk (table_entry disk (i + 1 + Z.of_nat j)) es) (seq 0 n)
                | None => omap (fun j => partition_at disk (table_entry disk (i + 1 + Z.of_nat j)) es) (seq 0 n) end) as El.
    { unfold l. rewrite omap_seq_S. cbn [Z.of_nat]. rewrite Z.add_0_r. fold e.
      assert (omap (fun j => partition_at disk (table_entry disk (i + Z.of_nat (Datatypes.S j))) es) (seq 0 n) =
            omap (fun j => partition_at disk (table_entry disk (i + 1 + Z.of_nat j)) es) (seq 0 n)) as ->; [|done].
      apply list_omap_ext. apply Forall2_same_length_lookup_2; [done|]. intros k x y Hx Hy. rewrite Hx in Hy. injection Hy as <-.
      by replace (i + Z.of_nat (Datatypes.S x)) with (i + 1 + Z.of_nat x) by lia. }
    rewrite El in *. clear El l. destruct (decide (PartitionTypeGUID disk e = 0)) as [Eg|Hg].
    + rewrite Eg. cbn [Z.eqb]. unfold partition_at at 1. rewrite Eg. cbn [Z.eqb].
      apply IH; [lia|lia|lia|by apply (dl_less _ _ _ _ _ _ Hdev)|done|done|]. revert Hlen. unfold partition_at at 1. by rewrite Eg.
    + rewrite (proj2 (Z.eqb_neq _ _) Hg). destruct (Hp Hg) as (p & Ep & Ea); [apply (wg_partition _ _ Hwf); [lia|done]|]. rewrite Ea in Hlen |- *.
      destruct (emplace_back_ok (2 * n) v s1 Hr1 Hv1) as (v2 & s2 & E2 & Hr2 & Em2 & Ei2 & Hv2); [rewrite length_app in Hlen; cbn in Hlen; lia|]. step_with E2.
      rewrite bind_ret with (a := dev_memory s1) (s' := s2) by (unfold gets; by rewrite Em2).
      assert (PartitionEntrySize (dev_memory s1) header_buf = es) as -> by (by apply (header_member 4)). rewrite Ep.
      rewrite bind_ret with (a := p) (s' := s2) by done. rewrite Ei2.
      destruct (IH fuel (i + 1) (mkVector (data_ v2) (capacity v2) (items v ++ [p])) s2) as (v' & s' & E3 & Ei3); [lia|lia|lia|done|by rewrite Em2|done| |].
      { cbn [items]. by rewrite <- app_assoc. }
      exists v', s'. split; [done|]. rewrite Ei3. cbn [items]. by rewrite <- app_assoc.
Qed.

Lemma list_partitions_ok fuel s : (Z.to_nat count < fuel)%nat -> ready (Datatypes.S (2 * Z.to_nat count)) s -> (length (partitions disk) <= 182)%nat -> exists v s',
  ListPrimaryPartitions header_buf partition_entry_buf fuel s = Ret (v, s') /\ items v = partitions disk.
Proof using All.
  intros Hf Hr Hmax. pose proof (wg_bytes _ _ Hwf) as Hb. pose proof (wg_cap _ _ Hwf) as Hcap.
  assert (0 <= count /\ 0 <= PartitionEntryLBA disk 512) as [Hc Hl] by (split; apply le_read_range; done).
  destruct (dl_read _ _ _ _ _ _ Hdev _ s header_buf (Ahci.SectorSize * 1) Ahci.SectorSize Hr) as (s1 & E1 & Hr1 & _ & Hin & _); [unfold Ahci.SectorSize; lia..|].
  unfold ListPrimaryPartitions. step_with E1. cbn [negb]. rewrite bind_ret with (a := dev_memory s1) (s' := s1) by done.
  assert (has_header (dev_memory s1)) as Hs1 by (intros i Hi; apply Hin; unfold Ahci.SectorSize; lia).
  rewrite bool_decide_eq_true_2.
  2: { unfold read_bytes. apply list_eq. intros j. change (Z.to_nat 8) with 8%nat. rewrite list_lookup_fmap.
       destruct (decide (j < 8)%nat) as [Hj|Hj].
       - rewrite lookup_seq_lt by done. cbn [fmap option_fmap option_map]. rewrite wrap_small by (unfold uint; lia). rewrite Hs1 by lia.
         pose proof (wg_magic _ _ Hwf j Hj) as Em. cbn [plus]. rewrite Em. by destruct (nth_lookup_or_length magic j 0) as [->|Hlen]; [|cbn in Hlen; lia].
       - rewrite lookup_seq_ge by lia. cbn. symmetry. apply lookup_ge_None_2. cbn. lia. }
  cbn [negb]. assert (PartitionEntryLBA (dev_memory s1) header_buf = PartitionEntryLBA disk 512) as -> by (by apply (header_member 8)).
  pose proof (wg_size _ _ Hwf). pose proof (wg_table _ _ Hwf) as Ht. unfold table_entry in Ht.
  unfold Ahci.SectorSize. rewrite wrap_small by (unfold uint; nia).
  destruct (entries_loop_ok (Z.to_nat count) fuel 0 (mkVector 0 0 []) s1) as (v & s' & E2 & Ei); [lia|lia|lia|done|done|by split|apply (Nat2Z.inj_le _ 182); exact Hmax|].
  exists v, s'. split; [exact E2|exact Ei].
Qed.

End correct.

(** Listing the partitions of a disk with a partition table, over any device
    that delivers its sectors, returns exactly the used entries of the table in
    order, with the position and size in bytes of each, when there are at most the
    182 for which the storage of the vector is large enough; it ends after as many
    rounds as the table has entries. *)
Theorem gpt_lists_partitions {S} `{SectorDevice S} cap disk lo hi (ready : nat -> S -> Prop) held header_buf partition_entry_buf fuel s :
  delivers cap disk lo hi ready held -> wf_gpt cap disk -> 0 <= lo -> hi < 2 ^ 64 ->
  lo <= header_buf /\ header_buf + 512 <= hi -> lo <= partition_entry_buf /\ partition_entry_buf + 512 <= hi ->
  header_buf + 512 <= partition_entry_buf \/ partition_entry_buf + 512 <= header_buf ->
  (Z.to_nat (PartitionEntryCount disk 512) < fuel)%nat -> ready (Datatypes.S (2 * Z.to_nat (PartitionEntryCount disk 512))) s ->
  (length (partitions disk) <= 182)%nat ->
  exists v s', ListPrimaryPartitions header_buf partition_entry_buf fuel s = Ret (v, s') /\ items v = partitions disk.
Proof. intros Hdev Hwf Hlo Hhi Hh He Ha. by apply (list_partitions_ok cap disk lo hi ready held Hdev Hwf header_buf partition_entry_buf Hlo Hhi Hh He Ha). Qed.

(** ** On an AHCI disk *)

Section ahci.
Import Ahci.
Context (issue : Command -> memory -> memory * completion) (ready_after : option Z) (port : HBA_PORT).

#[local] Instance ahci_device : SectorDevice Ahci := {|
  dev_memory := amem;
  dev_Read := Read issue ready_after port;
  dev_kmalloc n := lift_alloc (PageAlloc.kmalloc n);
  dev_kfree p := lift_alloc (PageAlloc.kfree p)
|}.

(** The allocator manages memory of the identity map above the stack [lo, hi), and
    has room for [n] small blocks. *)
Record heap_ready (lo hi : Z) (n : nat) (al : Buddy.BuddyAllocator) : Prop := {
  hr_ready : alloc_ready al;
  hr_start : IDENTITY_MAP_PHY_START <= Buddy.phy_start al;
  hr_end : Buddy.phy_start al + 65536 * 2 ^ (Buddy.root_log2size al - Log2MinSize + 1) <= IDENTITY_MAP_PHY_END;
  hr_stack : hi <= KERNEL_START + Buddy.phy_start al;
  hr_room : room n al
}.

(** Small blocks are blocks of the smallest size. *)
Lemma kmalloc_small lo hi n al size : heap_ready lo hi (S n) al -> 1 <= size <= 2 ^ 16 -> exists p al', PageAlloc.kmalloc size al = Ret (p, al') /\
  heap_ready lo hi n al' /\ buffer_ok p /\ hi <= p /\ p <> KERNEL_START /\ owned al' p /\ (forall q, owned al q -> owned al' q /\ q <> p).
Proof.
  intros [Hr H1 H2 H3 Hroom] Hs. rewrite kmalloc_eq by lia. assert (class_of size = Log2MinSize) as ->.
  { unfold class_of, Log2MinSize. assert (Z.log2_up size <= Z.log2_up (2 ^ 16)) by (apply Z.log2_up_le_mono; lia). change (Z.log2_up (2 ^ 16)) with 16 in *. lia. }
  pose proof Hr as [HI Ha Hp].
  destruct (room_alloc n al HI Hroom) as (b & al' & E & Hg & Hroom' & Hreg & Hal & Hnew). exists (block_vaddr al b), al'. split; [done|].
  pose proof Hg as (HI' & Hc & _). pose proof Hc as (Ep & Em & _).
  assert (0 <= b < 2 ^ (Buddy.root_log2size al - Log2MinSize + 1) - 1) as Hb.
  { pose proof (bi_params _ _ (Inv_inv _ HI)) as [P1 P2 _]. pose proof Hreg as [Hb0 Hlv]. split; [done|]. unfold level in Hlv. apply depth_bound; unfold Log2MinSize in *; lia. }
  assert (KERNEL_START = 0xffff800000000000) as EK by done. assert (IDENTITY_MAP_PHY_START = 2 ^ 26) as E26 by done. assert (IDENTITY_MAP_PHY_END = 2 ^ 32) as E32 by done.
  assert (block_vaddr al b = KERNEL_START + Buddy.phy_start al + 65536 * b) as Ev.
  { unfold block_vaddr, Buddy.get_block_phy_addr, Buddy.BlockSize, PAGE_SIZE. rewrite (wrap_small 64 (Buddy.phy_start al + _)) by (unfold uint; lia).
    rewrite wrap_small by (unfold uint; lia). lia. }
  split; [split; [split; [done|by rewrite Ep..]|rewrite ?Ep, ?Em; done..]|]. split; [|split; [lia|split; [lia|]]].
  { unfold buffer_ok. split; [lia|]. split; [lia|]. rewrite Ev, !Z.even_add, Z.even_mul. cbn [Z.even].
    assert (Z.even (Buddy.phy_start al) = true) as ->; [|done]. apply Z.even_spec. exists (2048 * (Buddy.phy_start al / 4096)). dlia. }
  assert (owned al' (block_vaddr al b)) as Ho by (exists b; split; [done|]; split; [by apply (in_region_config al al')|by rewrite (block_vaddr_config al al')]).
  split; [done|]. intros q Hq. split; [by eapply owned_grown|]. intros ->. destruct Hq as (c & H4 & H5 & E6).
  apply block_vaddr_inj in E6; [by subst c|apply Inv_inv, HI|done|done].
Qed.

Lemma ahci_delivers cap disk lo hi :
  reads_disk cap disk issue -> cap <= 2 ^ 48 -> find_cmdslot port <> -1 -> port_ready ready_after = true -> tables_mapped port ->
  0 <= lo -> hi < 2 ^ 64 -> delivers cap disk lo hi (fun n s => heap_ready lo hi n (allocator s)) (fun p s => owned (allocator s) p).
Proof.
  intros Hd Hcap Hs Hr Ht Hlo Hhi. split.
  - intros n s [H1 H2 H3 H4 (X & Hn & HX)]. split; try done. exists X. split; [lia|done].
  - intros n s output start size Hready Hst Hsz Hb Ho1 Ho2.
    destruct (kmalloc_small lo hi n (allocator s) size Hready ltac:(lia)) as (buf & al & Ek & Hready' & B1 & B3 & _ & _ & Hq).
    destruct (read_delivers cap disk issue ready_after port s output start size buf al) as (m & E & Hin & Hout); try done; try lia.
    { unfold sectors. dlia. }
    exists (mkAhci m al). split; [exact E|]. split; [exact Hready'|]. split; [intros p Hp; by apply Hq|]. split; [exact Hin|].
    intros a Ha Hna. apply Hout; [done|lia].
  - intros n s size Hready Hsz. destruct (kmalloc_small lo hi n (allocator s) size Hready ltac:(lia)) as (p & al & Ek & Hready' & _ & _ & Hne & Ho & Hq).
    exists p, (mkAhci (amem s) al). split; [cbn [dev_kmalloc ahci_device]; unfold lift_alloc; by rewrite Ek|]. done.
  - intros n s p [[HI Ha Hp] H1 H2 H3 H4] Ho. destruct (room_free n (allocator s) p HI H4 Ho) as (al & E & HI' & (Ep & Em & _) & Hroom & Hq).
    exists (mkAhci (amem s) al). split; [cbn [dev_kfree ahci_device]; unfold lift_alloc; by rewrite E|]. split; [|done].
    cbn [allocator]. split; [split; [done|by rewrite Ep..]|rewrite ?Ep, ?Em; done..].
Qed.

End ahci.

(** The partitions of a disk behind an AHCI controller.  The listing needs a
    buffer for the header and one for every entry of the table, none of which
    is given back, and storage for the result; when there is memory for them, it
    returns the partitions the disk holds. *)
Theorem ahci_lists_partitions issue ready_after port cap disk lo hi header_buf partition_entry_buf fuel s :
  Ahci.reads_disk cap disk issue -> Ahci.find_cmdslot port <> -1 -> Ahci.port_ready ready_after = true -> Ahci.tables_mapped port ->
  wf_gpt cap disk -> 0 <= lo -> hi < 2 ^ 64 ->
  lo <= header_buf /\ header_buf + 512 <= hi -> lo <= partition_entry_buf /\ partition_entry_buf + 512 <= hi ->
  header_buf + 512 <= partition_entry_buf \/ partition_entry_buf + 512 <= header_buf ->
  (Z.to_nat (PartitionEntryCount disk 512) < fuel)%nat -> (length (partitions disk) <= 182)%nat ->
  heap_ready lo hi (S (2 * Z.to_nat (PartitionEntryCount disk 512))) (Ahci.allocator s) ->
  exists v s', ListPrimaryPartitions (H := ahci_device issue ready_after port) header_buf partition_entry_buf fuel s = Ret (v, s') /\ items v = partitions disk.
Proof.
  intros H1 H2 H3 H4 Hwf Hlo Hhi Hh He Ha Hf Hlen Hready.
  exact (list_partitions_ok cap disk lo hi _ _ (ahci_delivers issue ready_after port cap disk lo hi H1 (proj2 (wg_cap _ _ Hwf)) H2 H3 H4 Hlo Hhi)
    Hwf header_buf partition_entry_buf Hlo Hhi Hh He Ha fuel s Hf Hready Hlen).
Qed.

(** ** Concrete runs *)

(** A table of two entries of 128 bytes in sector 2, the second one unused. *)
Definition ex_disk : Z -> Z := file_at 512
  (magic ++ repeat 0 64 ++ le_bytes 8 2 ++ le_bytes 4 2 ++ le_bytes 4 128 ++ repeat 0 424 ++
   repeat 7 16 ++ repeat 9 16 ++ le_bytes 8 34 ++ le_bytes 8 99 ++ repeat 0 80).

Lemma ex_disk_wf : wf_gpt 100 ex_disk.
Proof.
  split.
  - lia.
  - apply file_bytes. repeat constructor; discriminate.
  - intros j Hj. do 8 (destruct j as [|j]; [by vm_compute|]). lia.
  - by vm_compute.
  - by vm_compute.
  - by vm_compute.
  - intros i Hi. change (PartitionEntryCount ex_disk 512) with 2 in Hi. assert (i = 0 \/ i = 1) as [->| ->] by lia; vm_compute; try done; lia.
Qed.

(** A device that is a memory and copies from [ex_disk]; its heap hands out
    ascending addresses. *)
Definition ideal_device : SectorDevice (memory * Z) := {|
  dev_memory := fst;
  dev_Read output start size := fun '(m, h) =>
    Ret (true, (fun a => if (output <=? a) && (a <? output + size) then ex_disk (start + (a - output)) else m a, h));
  dev_kmalloc _ := fun '(m, h) => Ret (h, (m, h + 65536));
  dev_kfree _ := mret tt
|}.
Definition ideal_held (p : Z) (s : memory * Z) : Prop := p < snd s.
Lemma ideal_delivers : delivers (H := ideal_device) 100 ex_disk 0x100000 0x101000 (fun _ s => KERNEL_START < snd s) ideal_held.
Proof.
  split; [done|..].
  - intros n [m h] output start size Hh Hst Hsz Hb Ho1 Ho2. eexists. split; [reflexivity|]. split; [done|]. split; [done|]. split.
    + intros i Hi. cbn. rewrite (proj2 (Z.leb_le _ _)), (proj2 (Z.ltb_lt _ _)) by lia. cbn. f_equal. lia.
    + intros a Ha Hna. cbn. destruct (Z.leb_spec output a), (Z.ltb_spec a (output + size)); try done. lia.
  - intros n [m h] size Hh Hs. unfold ideal_held in *. cbn [snd] in *. exists h, (m, h + 65536). split; [done|]. cbn [snd]. split; [lia|]. split; [lia|]. split; [lia|]. split; [|done].
    intros q Hq. cbn in *. lia.
  - intros n s p Hr Hp. exists s. split; [done|]. split; [done|]. split; [done|done].
Qed.

Definition ex_partition : GPTPrimaryPartition := mkPartition 17408 33792 (repeat 7 16 ++ repeat 9 16 ++ le_bytes 8 34 ++ le_bytes 8 99 ++ repeat 0 296).
Lemma ex_partitions : partitions ex_disk = [ex_partition].
Proof. by vm_compute. Qed.

Lemma gpt_lists_partitions_witness :
  exists v s', ListPrimaryPartitions (H := ideal_device) 0x100000 0x100200 3 (fun _ => 0, KERNEL_START + 0x4000000) = Ret (v, s') /\ items v = partitions ex_disk.
Proof.
  apply (gpt_lists_partitions (H := ideal_device) 100 ex_disk 0x100000 0x101000 (fun _ s => KERNEL_START < snd s) ideal_held 0x100000 0x100200 3 (fun _ => 0, KERNEL_START + 0x4000000));
    [exact ideal_delivers|exact ex_disk_wf|lia|lia|lia|lia|lia|vm_compute; lia|by vm_compute|rewrite ex_partitions; cbn; lia].
Defined.

Lemma boot_unallocated a : ~ is_allocated boot a.
Proof.
  assert (Buddy.BuddyAllocator_new 0x4000000 30 Buddy.preallocated_blocks Buddy.MaxBlocks = Ret boot) as H by (by vm_compute).
  destruct (sim_new _ _ boot boot_params_ok H) as [_ _ _ _ HX]. intros Ha. apply HX in Ha. set_solver.
Qed.

(** The allocator as it is set up has room. *)
Lemma boot_heap_ready : heap_ready (KERNEL_START + 0x100000) (KERNEL_START + 0x101000) 5 boot.
Proof.
  split; [exact boot_ready|by vm_compute..|].
  exists (list_to_set (seqZ 20000 5)). split; [by vm_compute|]. intros b Hb. rewrite elem_of_list_to_set, elem_of_seqZ in Hb.
  split; [lia|]. split; [|intros a Ha; exfalso; by apply (boot_unallocated a)].
  assert (b = 20000 \/ b = 20001 \/ b = 20002 \/ b = 20003 \/ b = 20004) as [-> |[-> |[-> |[-> | ->]]]] by lia; by vm_compute.
Qed.

Lemma ahci_lists_partitions_witness :
  exists v s', ListPrimaryPartitions (H := ahci_device (Ahci.ideal_issue ex_disk) (Some 3) (Ahci.ex_port 7))
      (KERNEL_START + 0x100000) (KERNEL_START + 0x100200) 3 (Ahci.mkAhci (fun _ => 0) boot) = Ret (v, s') /\ items v = partitions ex_disk.
Proof.
  apply (ahci_lists_partitions (Ahci.ideal_issue ex_disk) (Some 3) (Ahci.ex_port 7) 100 ex_disk (KERNEL_START + 0x100000) (KERNEL_START + 0x101000));
    [apply Ahci.ideal_reads_disk|by vm_compute|reflexivity|by vm_compute|exact ex_disk_wf|unfold KERNEL_START; lia..|vm_compute; lia|rewrite ex_partitions; cbn; lia|].
  exact boot_heap_ready.
Defined.

End Gpt.
