(* ===== verification/Boot.v ===== *)
(** * boot_loader.c and boot_page_table.c: loading the kernel and entering it

    The boot loader runs with the firmware's page tables, in which virtual and
    physical addresses agree.  Its state is the memory and the structure it hands
    to the kernel; the firmware's services are parameters.  What it prints is not
    part of the model. *)
From S2P Require Import Prelude CpuDefs LibString Paging PagingProofs Process Elf.

Module Boot.
Import LibString Paging Elf.

(** ** boot_page_table.c *)

(** The words of [struct KernelImagePageTable]; here it has one page directory. *)
Definition boot_pdpt_word (i : Z) : Z := PAGES_PER_TABLE + i.
Definition boot_pdt_word (i : Z) : Z := 2 * PAGES_PER_TABLE + i.
Definition boot_pt_word (i : Z) : Z := 3 * PAGES_PER_TABLE + i.
Definition boot_table_words : Z := boot_pt_word KERNEL_SPACE_PAGES.

Section boot_table.
Context (t kernelPhyStart : Z).

(** [((u64)&t.member) >> 12] for word [k]. *)
Definition boot_frame (k : Z) : Z := Z.shiftr (wrap64 (t + 8 * k)) 12.

Definition boot_pml4t (tbl : table) : table :=
  set_member PML4E 256 "base_addr" (boot_frame (boot_pdpt_word 0)) (set_member PML4E 256 "rw" 1 (set_member PML4E 256 "p" 1 tbl)).
Definition boot_pdpt (tbl : table) : table :=
  set_member PDPE (boot_pdpt_word 0) "base_addr" (boot_frame (boot_pdt_word 0))
    (set_member PDPE (boot_pdpt_word 0) "rw" 1 (set_member PDPE (boot_pdpt_word 0) "p" 1 tbl)).
Definition boot_pdt_entry (i : Z) (tbl : table) : table :=
  set_member PDE (boot_pdt_word i) "base_addr" (boot_frame (boot_pt_word (PAGES_PER_TABLE * i)))
    (set_member PDE (boot_pdt_word i) "rw" 1 (set_member PDE (boot_pdt_word i) "p" 1 tbl)).
Definition boot_identity_entry (i : Z) (tbl : table) : table :=
  set_member PTE (boot_pt_word i) "base_addr" i
    (set_member PTE (boot_pt_word i) "rw" 1 (set_member PTE (boot_pt_word i) "p" 1 tbl)).
Definition boot_image_entry (i : Z) (tbl : table) : table :=
  set_member PTE (boot_pt_word i) "base_addr" (wrap64 (kernelPhyStart / 4096 + i))
    (set_member PTE (boot_pt_word i) "rw" 1 (set_member PTE (boot_pt_word i) "p" 1 tbl)).

(** [setup_kernel_image_page_table]: the tables and the new [cr3].  [pml4e0] is
    the firmware's entry for the lowest 512 GiB, [cr3[0]]. *)
Definition setup_kernel_image_page_table (pml4e0 : Z) : table * Z :=
  let tbl := <[0 := pml4e0]> ∅ in
  let tbl := boot_pml4t tbl in
  let tbl := boot_pdpt tbl in
  let tbl := for_loop (Z.to_nat PAGES_PER_TABLE) 0 boot_pdt_entry tbl in
  let tbl := for_loop (Z.to_nat KERNEL_SPACE_PAGES) 0 boot_identity_entry tbl in
  let tbl := for_loop (Z.to_nat KERNEL_IMAGE_PAGES) 0 boot_image_entry tbl in
  (tbl, t).

End boot_table.

(** ** boot_loader.c: the kernel file *)

Record EFIServicesInfo := mkInfo {
  memory_descriptors : list Z;
  descriptor_size : Z;
  descriptor_count : Z;
  descriptor_version : Z;
  kernel_physical_start : Z;
  kernel_physical_size : Z;
  rsdt_phy_addr : Z;
  xsdt_phy_addr : Z
}.
Definition zero_info : EFIServicesInfo := mkInfo (repeat 0 (Z.to_nat 8192)) 0 0 0 0 0 0 0.

Record Loader := mkLoader { lmem : memory; efi_info : EFIServicesInfo }.
Abbreviation M := (ST Loader).
Definition set_memory (m : memory) : M unit := modify (fun s => mkLoader m (efi_info s)).
Definition set_info (f : EFIServicesInfo -> EFIServicesInfo) : M unit := modify (fun s => mkLoader (lmem s) (f (efi_info s))).

Definition copy (target src size : Z) (m : memory) : memory :=
  for_loop (Z.to_nat size) 0 (fun i m => write (wrap64 (target + i)) (m (wrap64 (src + i))) m) m.

(** One program header; [false] makes [LoadKernel] return 0. *)
Definition load_section (phyKernelStart kernel_max_size buffer : Z) (ph : Elf64_Phdr) : M bool :=
  if (p_type ph =? PT_LOAD) && (0 <? p_memsz ph) then
    if p_filesz ph <=? p_memsz ph then
      let section_offset := wrap64 (p_vaddr ph - KERNEL_START) in
      if kernel_max_size <? wrap64 (section_offset + p_memsz ph) then mret false
      else
        s ← get;
        set_memory (copy (wrap64 (phyKernelStart + section_offset)) (wrap64 (buffer + p_offset ph)) (p_memsz ph) (lmem s));;
        mret true
    else mret false
  else mret true.

(** [e_phnum] has 16 bits, so the counter never passes [2^16]. *)
Fixpoint sections_loop (fuel : nat) (i phyKernelStart kernel_max_size buffer : Z) : M bool :=
  match fuel with
  | O => out_of_fuel
  | S fuel =>
      s ← get;
      if i <? e_phnum (lmem s) buffer then
        ok ← load_section phyKernelStart kernel_max_size buffer (read_phdr (lmem s) (phdr_addr (lmem s) buffer i));
        if ok : bool then sections_loop fuel (i + 1) phyKernelStart kernel_max_size buffer else mret false
      else mret true
  end.

(** The entry point, 0 for a file that is not loaded.  [efi_assert] only prints. *)
Definition LoadKernel (phyKernelStart kernel_max_size buffer : Z) : M Z :=
  s ← get;
  if negb (forallb (fun j => lmem s (wrap64 (buffer + Z.of_nat j)) =? nth j ElfMagic 0) (seq 0 4)) then mret 0
  else
    ok ← sections_loop (Pos.to_nat 65537) 0 phyKernelStart kernel_max_size buffer;
    if ok : bool then
      s ← get;
      set_info (fun i => mkInfo (memory_descriptors i) (descriptor_size i) (descriptor_count i) (descriptor_version i)
        phyKernelStart kernel_max_size (rsdt_phy_addr i) (xsdt_phy_addr i));;
      mret (e_entry (lmem s) buffer)
    else mret 0.

(** ** boot_loader.c: efi_main *)

Definition EFI_SUCCESS : Z := 0.
Definition EFI_ERROR (status : Z) : bool := Z.testbit status 63.

(** What [GetMemoryMap] returns: the status, the bytes stored in the map and
    their number, and the size and version of a descriptor. *)
Record MemoryMap := mkMap { map_status : Z; map_bytes : list Z; map_size : Z; map_descriptor_size : Z; map_version : Z }.

(** The services [efi_main] calls.  A service that stores to memory is a function
    of the memory; the buffers it may store to are its arguments. *)
Record Firmware := mkFirmware {
  LocateTextOut : Z;
  AllocatePages : Z -> Z * Z;
  GetMemoryMap : MemoryMap;
  OpenVolume : Z;
  GetInfo : Z -> memory -> Z * memory;
  Open : Z;
  GetFileInfo : Z -> memory -> Z * memory;
  ReadFile : Z -> memory -> Z * memory;
  ConfigurationTable : list (list Z * Z);
  GetMemoryMapAgain : Z;
  ExitBootServices : Z;
  SetVirtualAddressMap : Z
}.

(** [efi_main] returns a status to the firmware, or leaves it: [jmp] to the entry
    point with [&efi_info] in [rdi] and new page tables. *)
Inductive boot_result :=
  | Returned (status : Z)
  | Entered (rip : Z) (tables : table) (cr3 : Z).

(** 8868e871-e4f1-11d3-bc22-0080c73c8881 *)
Definition ACPI20_GUID : list Z := le_bytes 4 0x8868e871 ++ le_bytes 2 0xe4f1 ++ le_bytes 2 0x11d3 ++ [0xbc; 0x22; 0x00; 0x80; 0xc7; 0x3c; 0x88; 0x81].
(** "RSD PTR " *)
Definition rsdp_magic : list Z := [82; 83; 68; 32; 80; 84; 82; 32].

(** The loop over the configuration tables. *)
Fixpoint find_rsdp (l : list (list Z * Z)) : Z :=
  match l with
  | [] => 0
  | (guid, table) :: l => if bool_decide (guid = ACPI20_GUID) then table else find_rsdp l
  end.

Definition print_memory_map (fw : Firmware) : M unit :=
  let r := GetMemoryMap fw in
  if negb (map_status r =? EFI_SUCCESS) then mret tt
  else if map_descriptor_size r =? 0 then fault
  else set_info (fun i => mkInfo (map_bytes r) (map_descriptor_size r) (map_size r / map_descriptor_size r) (map_version r)
         (kernel_physical_start i) (kernel_physical_size i) (rsdt_phy_addr i) (xsdt_phy_addr i)).

Definition AllocSize : Z := (1 + 64) * 1024 * 1024.
Definition KernelFileMaxSize : Z := 8 * 1024 * 1024.
Definition stackSize : Z := 1024 * 1024.
Definition KernelMaxSize : Z := AllocSize - stackSize.

(** From "Locating ACPI" to the jump: [t] is the address of the page tables,
    [cr3] the firmware's. *)
Definition leave_firmware (fw : Firmware) (t cr3 kernelStart entrypoint : Z) : M boot_result :=
  let rsdp := find_rsdp (ConfigurationTable fw) in
  if rsdp =? 0 then mret (Returned 1)
  else
    s ← get;
    if negb (forallb (fun j => lmem s (wrap64 (rsdp + Z.of_nat j)) =? nth j rsdp_magic 0) (seq 0 8)) then mret (Returned 1)
    else
      set_info (fun i => mkInfo (memory_descriptors i) (descriptor_size i) (descriptor_count i) (descriptor_version i)
        (kernel_physical_start i) (kernel_physical_size i) (le_read 4 (lmem s) (rsdp + 16)) (le_read 8 (lmem s) (rsdp + 24)));;
      if negb (GetMemoryMapAgain fw =? EFI_SUCCESS) then mret (Returned (GetMemoryMapAgain fw))
      else if negb (ExitBootServices fw =? EFI_SUCCESS) then mret (Returned (ExitBootServices fw))
      else if negb (SetVirtualAddressMap fw =? EFI_SUCCESS) then mret (Returned 1)
      else
        let '(tbl, cr3') := setup_kernel_image_page_table t kernelStart (le_read 8 (lmem s) cr3) in
        mret (Entered entrypoint tbl cr3').

Definition efi_main (fw : Firmware) (t cr3 : Z) : M boot_result :=
  if EFI_ERROR (LocateTextOut fw) then mret (Returned (LocateTextOut fw))
  else
    let '(status, PhysicalBuffer) := AllocatePages fw (AllocSize / 4096) in
    if negb (status =? EFI_SUCCESS) then mret (Returned status)
    else
      let '(status, Buffer) := AllocatePages fw (KernelFileMaxSize / 4096) in
      if negb (status =? EFI_SUCCESS) then mret (Returned status)
      else
        let kernelStart := wrap64 (PhysicalBuffer + stackSize) in
        print_memory_map fw;;
        if negb (OpenVolume fw =? EFI_SUCCESS) then mret (Returned 1)
        else
          s ← get;
          let '(status, m) := GetInfo fw Buffer (lmem s) in
          set_memory m;;
          if negb (status =? EFI_SUCCESS) then mret (Returned 1)
          else if negb (Open fw =? EFI_SUCCESS) then mret (Returned 1)
          else
            let '(status, m) := GetFileInfo fw Buffer m in
            set_memory m;;
            if negb (status =? EFI_SUCCESS) then mret (Returned 1)
            else if KernelFileMaxSize <? le_read 8 m (Buffer + 8) then mret (Returned 1)
            else
              let '(status, m) := ReadFile fw Buffer m in
              set_memory m;;
              if negb (status =? EFI_SUCCESS) then mret (Returned 1)
              else
                entrypoint ← LoadKernel kernelStart KernelMaxSize Buffer;
                if entrypoint =? 0 then mret (Returned 1)
                else leave_firmware fw t cr3 kernelStart entrypoint.

End Boot.
