(* ===== verification/BootThms.v ===== *)
(** * Theorems about the boot loader *)
From S2P Require Import Prelude CpuDefs LibString Paging PagingProofs Process Elf Boot.
Import LibString Paging Elf Boot.

(** ** The boot page tables *)

Section boot_table.
Context (t kphy pml4e0 : Z).

(** The tables are page aligned, and the physical addresses fit a table entry. *)
Record boot_placed : Prop := {
  bp_t : 0 <= t /\ t + 8 * boot_table_words <= 2 ^ 52;
  bp_talign : t mod 4096 = 0;
  bp_k : 0 <= kphy /\ kphy + IDENTITY_MAP_PHY_START <= 2 ^ 52;
  bp_kalign : kphy mod 4096 = 0
}.

Definition boot_words (k : Z) : Z :=
  let w0 := if decide (k = 0) then pml4e0 else 0 in
  let w1 := if decide (k = 256) then link_word PML4E (boot_frame t (boot_pdpt_word 0)) w0 else w0 in
  let w2 := if decide (k = 512) then link_word PDPE (boot_frame t (boot_pdt_word 0)) w1 else w1 in
  let w3 := if decide (1024 <= k < 1024 + 512) then link_word PDE (boot_frame t (boot_pt_word (512 * (k - 1024)))) w2 else w2 in
  let w4 := if decide (1536 <= k < 1536 + KERNEL_SPACE_PAGES) then link_word PTE (k - 1536) w3 else w3 in
  if decide (1536 <= k < 1536 + KERNEL_IMAGE_PAGES) then link_word PTE (wrap64 (kphy / 4096 + (k - 1536))) w4 else w4.

Lemma boot_setup_words k : word (fst (setup_kernel_image_page_table t kphy pml4e0)) k = boot_words k.
Proof.
  unfold setup_kernel_image_page_table. cbn [fst].
  rewrite (for_loop_ext _ _ (boot_image_entry kphy) (fun i => update (1536 + i) (link_word PTE (wrap64 (kphy / 4096 + i))))).
  2: { intros j s. unfold boot_image_entry. by rewrite set_members3. }
  rewrite (for_loop_ext _ _ boot_identity_entry (fun i => update (1536 + i) (link_word PTE i))).
  2: { intros j s. unfold boot_identity_entry. by rewrite set_members3. }
  rewrite (for_loop_ext _ _ (boot_pdt_entry t) (fun i => update (1024 + i) (link_word PDE (boot_frame t (boot_pt_word (512 * i)))))).
  2: { intros j s. unfold boot_pdt_entry. by rewrite set_members3. }
  rewrite !word_for_loop, !Z2Nat.id by (unfold KERNEL_IMAGE_PAGES, KERNEL_SPACE_PAGES, PAGES_PER_TABLE; lia).
  unfold boot_pdpt, boot_pml4t. rewrite !set_members3, !word_update. change PAGES_PER_TABLE with 512.
  change (boot_pdpt_word 0) with 512. unfold boot_words, link_word.
  assert (word (<[0:=pml4e0]> ∅) k = if decide (k = 0) then pml4e0 else 0) as ->.
  { unfold word. rewrite lookup_insert. repeat case_decide; done. }
  change (boot_pdpt_word 0) with 512.
  repeat match goal with |- context [decide (?a = k)] => destruct (decide (a = k)), (decide (k = a)); try lia end; done.
Qed.

(** From here on only the words of the tables matter. *)
Context (Hp : boot_placed) (T : table) (HT : forall k, word T k = boot_words k).

Ltac bwords := unfold IDENTITY_MAP_PHY_START, boot_table_words, boot_pt_word, boot_pdt_word, boot_pdpt_word, PAGES_PER_TABLE, KERNEL_SPACE_PAGES, KERNEL_IMAGE_PAGES, PAGE_SIZE in *;
  change (4 * 512 * 512) with 1048576 in *; change (32 * 512) with 16384 in *.
Ltac pick_word := unfold boot_words; cbv zeta; repeat (case_decide; try solve [exfalso; bwords; lia]).

Lemma boot_link l k : (l = PML4E \/ l = PDPE \/ l = PDE) -> 0 <= k < boot_table_words -> k mod 512 = 0 ->
  entry_of (link_word l (boot_frame t k) 0) true true false false (t + 8 * k).
Proof using Hp.
  destruct Hp as [H1 H2 H3 H4]. intros Hl Hk Hk5.
  assert (boot_frame t k * 4096 = t + 8 * k) as E.
  { unfold boot_frame. bwords. rewrite wrap_small, Z.shiftr_div_pow2 by (unfold uint; lia). change (2 ^ 12) with 4096. dlia. }
  assert (0 <= boot_frame t k < 2 ^ 40) as Hr by (bwords; lia).
  destruct Hl as [->|[->| ->]]; unfold link_word; entry_solve; split_and!; try done.
Qed.

Lemma boot_pml4_entry : entry_of (word T 256) true true false false (t + 8 * 512).
Proof using Hp HT. rewrite HT. pick_word. apply boot_link; [by left|bwords; lia|done]. Qed.
Lemma boot_pdpt_entry : entry_of (word T 512) true true false false (t + 8 * 1024).
Proof using Hp HT. rewrite HT. pick_word. apply boot_link; [by right; left|bwords; lia|done]. Qed.
Lemma boot_pdpt_empty i : 1 <= i < 512 -> word T (512 + i) = 0.
Proof using HT. intros Hi. rewrite HT. pick_word. done. Qed.
Lemma boot_pdt_link i : 0 <= i < 512 -> entry_of (word T (1024 + i)) true true false false (t + 8 * (1536 + 512 * i)).
Proof using Hp HT.
  intros Hi. rewrite HT. pick_word. replace (1024 + i - 1024) with i by lia.
  apply (boot_link PDE (boot_pt_word (512 * i))); [by right; right|bwords; lia|bwords; dlia].
Qed.

Lemma boot_pt_leaf i : 0 <= i < KERNEL_SPACE_PAGES ->
  entry_of (word T (1536 + i)) true true false false (if decide (i < KERNEL_IMAGE_PAGES) then kphy + i * 4096 else i * 4096).
Proof using Hp HT.
  destruct Hp as [H1 H2 H3 H4]. intros Hi. rewrite HT. pick_word; replace (1536 + i - 1536) with i by lia; bwords.
  - rewrite wrap_small by (unfold uint; dlia). assert (0 <= kphy / 4096 + i < 2 ^ 40) by dlia.
    unfold link_word; entry_solve; split_and!; try done; dlia.
  - unfold link_word; entry_solve; split_and!; try done.
Qed.

(** Physical memory, word by word, with the tables in it. *)
Context (mem : Z -> Z) (Hmem : forall k, 0 <= k < boot_table_words -> mem (t + 8 * k) = word T k).

Lemma boot_cr3_frame : frame t = t.
Proof using Hp. destruct Hp as [H1 H2 _ _]. rewrite frame_bits, get_bits_eq by lia. bwords. change (2 ^ 12) with 4096. dlia. Qed.

Lemma boot_walk_upper x : 0 <= x < 2 ^ 39 ->
  mem (frame t + 8 * index 39 (KERNEL_START + x)) = word T 256 /\
  mem (frame (word T 256) + 8 * index 30 (KERNEL_START + x)) = word T (512 + x / 2 ^ 30).
Proof using Hp HT Hmem.
  intros Hx. destruct (kernel_indices x Hx) as (-> & -> & _). rewrite boot_cr3_frame.
  destruct boot_pml4_entry as (_ & _ & _ & _ & ->). split; [apply Hmem; bwords; lia|].
  rewrite <- Hmem by (bwords; dlia). f_equal. lia.
Qed.

Lemma boot_walk_kernel x : 0 <= x < 2 ^ 30 ->
  walk mem t (KERNEL_START + x) = Some (mkMapping (if decide (x < IDENTITY_MAP_PHY_START) then kphy + x else x) true false).
Proof using Hp HT Hmem.
  intros Hx. destruct (boot_walk_upper x ltac:(lia)) as [E4 E3]. destruct (kernel_indices x ltac:(lia)) as (_ & _ & I2 & I1 & I0).
  unfold walk. rewrite E4, E3. destruct boot_pml4_entry as (-> & -> & -> & _ & _).
  replace (512 + x / 2 ^ 30) with 512 by dlia. destruct boot_pdpt_entry as (-> & -> & -> & -> & ->). cbn [negb].
  rewrite I2. assert (mem (t + 8 * 1024 + 8 * ((x / 2 ^ 21) mod 512)) = word T (1024 + x / 2 ^ 21)) as ->.
  { rewrite <- Hmem by (bwords; dlia). f_equal. dlia. }
  destruct (boot_pdt_link (x / 2 ^ 21) ltac:(dlia)) as (-> & -> & -> & -> & ->). cbn [negb].
  rewrite I1. assert (mem (t + 8 * (1536 + 512 * (x / 2 ^ 21)) + 8 * ((x / 2 ^ 12) mod 512)) = word T (1536 + x / 2 ^ 12)) as ->.
  { rewrite <- Hmem by (bwords; dlia). f_equal. dlia. }
  destruct (boot_pt_leaf (x / 2 ^ 12)) as (-> & -> & -> & _ & ->); [bwords; dlia|]. cbn [negb andb].
  rewrite I0. do 2 f_equal. bwords. change (2 ^ 12) with 4096. repeat case_decide; dlia.
Qed.

Lemma boot_walk_unmapped x : 2 ^ 30 <= x < 2 ^ 39 -> walk mem t (KERNEL_START + x) = None.
Proof using Hp HT Hmem.
  intros Hx. destruct (boot_walk_upper x ltac:(lia)) as [E4 E3]. unfold walk. rewrite E4, E3.
  destruct boot_pml4_entry as (-> & _). cbn [negb]. rewrite boot_pdpt_empty by dlia. done.
Qed.

(** The firmware's view of the lowest 512 GiB. *)
Lemma boot_walk_low cr3 va : 0 <= va < 2 ^ 39 -> mem (frame cr3) = pml4e0 -> walk mem t va = walk mem cr3 va.
Proof using Hp HT Hmem.
  intros Hva E. assert (index 39 va = 0) as Ei by (rewrite index_eq by lia; dlia).
  assert (mem (frame t + 8 * 0) = mem (frame cr3 + 8 * 0)) as E4.
  { rewrite boot_cr3_frame, Hmem by (bwords; lia). rewrite Z.mul_0_r, Z.add_0_r, E, HT. pick_word. done. }
  unfold walk. by rewrite Ei, E4.
Qed.

End boot_table.

(** Physical memory holds the boot page tables. *)
Definition holds_boot_tables (t : Z) (tbl : table) (mem : Z -> Z) : Prop :=
  forall k, 0 <= k < boot_table_words -> mem (t + 8 * k) = word tbl k.

(** C11: the page tables the boot loader switches to.  The first 64 MiB above
    [KERNEL_START] are the kernel image, the rest of the first GiB is physical
    memory at the same offset, the 511 GiB beyond are not mapped, and below 512
    GiB the firmware's translation is unchanged, so that the loader keeps
    running. *)
Theorem boot_page_tables t kphy pml4e0 mem cr3 :
  boot_placed t kphy -> holds_boot_tables t (fst (setup_kernel_image_page_table t kphy pml4e0)) mem -> mem (frame cr3) = pml4e0 ->
  let cr3' := snd (setup_kernel_image_page_table t kphy pml4e0) in
  (forall x, 0 <= x < 2 ^ 26 -> walk mem cr3' (KERNEL_START + x) = Some (mkMapping (kphy + x) true false)) /\
  (forall x, 2 ^ 26 <= x < 2 ^ 30 -> walk mem cr3' (KERNEL_START + x) = Some (mkMapping x true false)) /\
  (forall x, 2 ^ 30 <= x < 2 ^ 39 -> walk mem cr3' (KERNEL_START + x) = None) /\
  (forall va, 0 <= va < 2 ^ 39 -> walk mem cr3' va = walk mem cr3 va).
Proof.
  intros Hp Hmem E. cbv zeta. unfold setup_kernel_image_page_table at 1 2 3 4. cbn [snd]. split_and!.
  - intros x Hx. rewrite (boot_walk_kernel t kphy pml4e0 Hp _ (boot_setup_words t kphy pml4e0) mem Hmem) by lia. by rewrite decide_True by (change IDENTITY_MAP_PHY_START with (2 ^ 26); lia).
  - intros x Hx. rewrite (boot_walk_kernel t kphy pml4e0 Hp _ (boot_setup_words t kphy pml4e0) mem Hmem) by lia. by rewrite decide_False by (change IDENTITY_MAP_PHY_START with (2 ^ 26); lia).
  - intros x Hx. by apply (boot_walk_unmapped t kphy pml4e0 Hp _ (boot_setup_words t kphy pml4e0) mem Hmem).
  - intros va Hva. by apply (boot_walk_low t kphy pml4e0 Hp _ (boot_setup_words t kphy pml4e0) mem Hmem).
Qed.

(** ** Loading the kernel *)

Lemma copy_spec target src size m a : 0 <= target -> 0 <= src -> 0 <= size -> target + size <= 2 ^ 64 -> src + size <= 2 ^ 64 ->
  target + size <= src \/ src + size <= target ->
  copy target src size m a = if decide (target <= a < target + size) then m (src + (a - target)) else m a.
Proof. intros. unfold copy. fold (memcpy target src size). apply memcpy_spec; lia. Qed.

Lemma le_read_agree n m m' a : (forall x, a <= x < a + Z.of_nat n -> m' x = m x) -> 0 <= a -> a + Z.of_nat n <= 2 ^ 64 ->
  le_read n m' a = le_read n m a.
Proof. intros H Ha Hb. apply le_read_shift; [intros x Hx; apply H; lia|lia..]. Qed.

Section load.
Context (phy max buffer bsize : Z) (m0 : memory) (Hbytes : forall x, 0 <= m0 x < 256).
Local Abbreviation phnum := (e_phnum m0 buffer).
Local Abbreviation ph i := (read_phdr m0 (phdr_addr m0 buffer i)).

(** The file with its headers is in [bsize] bytes at [buffer], apart from where
    the kernel goes, and its segments fit the [max] bytes there. *)
Record wf_kernel : Prop := {
  wk_buffer : 0 <= buffer /\ 64 <= bsize /\ buffer + bsize < 2 ^ 64;
  wk_target : 0 <= phy /\ 0 <= max /\ phy + max < 2 ^ 64;
  wk_apart : buffer + bsize <= phy \/ phy + max <= buffer;
  wk_phdrs i : 0 <= i < phnum -> 0 <= phdr_offset m0 buffer i /\ e_phoff m0 buffer + phdr_offset m0 buffer i + 56 <= bsize;
  wk_segment i : 0 <= i < phnum -> is_load (ph i) = true ->
    KERNEL_START <= p_vaddr (ph i) /\ p_vaddr (ph i) - KERNEL_START + p_memsz (ph i) <= max /\
    p_filesz (ph i) <= p_memsz (ph i) /\ p_offset (ph i) + p_memsz (ph i) <= bsize;
  wk_disjoint i j : 0 <= i < phnum -> 0 <= j < phnum -> i <> j -> is_load (ph i) = true -> is_load (ph j) = true ->
    p_vaddr (ph i) + p_memsz (ph i) <= p_vaddr (ph j) \/ p_vaddr (ph j) + p_memsz (ph j) <= p_vaddr (ph i)
}.

(** The first [n] segments are in place, and nothing outside the target changed. *)
Definition loaded (n : Z) (m : memory) : Prop :=
  (forall a, ~ (phy <= a < phy + max) -> m a = m0 a) /\
  (forall i k, 0 <= i < n -> is_load (ph i) = true -> 0 <= k < p_memsz (ph i) ->
     m (phy + (p_vaddr (ph i) - KERNEL_START) + k) = m0 (buffer + p_offset (ph i) + k)).

Context (Hwf : wf_kernel).

Lemma phdr_range i : 0 <= p_filesz (ph i) /\ 0 <= p_offset (ph i) /\ 0 <= p_memsz (ph i).
Proof using Hbytes. split_and!; apply le_read_range; done. Qed.

Lemma header_agree m : (forall a, ~ (phy <= a < phy + max) -> m a = m0 a) ->
  e_phnum m buffer = phnum /\ e_entry m buffer = e_entry m0 buffer /\
  forall i, 0 <= i < phnum -> read_phdr m (phdr_addr m buffer i) = ph i.
Proof using Hwf Hbytes.
  intros Hm. destruct Hwf as [Hb Ht Ha Hp _ _].
  assert (forall n x, buffer <= x -> x + Z.of_nat n <= buffer + bsize -> le_read n m x = le_read n m0 x) as Hr.
  { intros n x H1 H2. apply le_read_agree; [intros y Hy; apply Hm; lia|lia|lia]. }
  split; [apply Hr; lia|]. split; [apply Hr; lia|]. intros i Hi. specialize (Hp i Hi).
  assert (0 <= e_phoff m0 buffer) as H1 by (apply le_read_range; done).
  unfold phdr_addr, phdr_offset, e_phoff, e_phentsize in *. rewrite !Hr by lia. rewrite wrap_small by (unfold uint; lia).
  unfold read_phdr. f_equal; apply Hr; lia.
Qed.

Lemma load_section_ok i s : 0 <= i < phnum -> loaded i (lmem s) -> exists m',
  load_section phy max buffer (ph i) s = Ret (true, mkLoader m' (efi_info s)) /\ loaded (i + 1) m'.
Proof using Hwf Hbytes.
  intros Hi [Ho Hl]. unfold load_section. fold (is_load (ph i)). destruct (is_load (ph i)) eqn:E.
  2: { exists (lmem s). split; [by destruct s|]. split; [done|]. intros j k Hj Ej Hk. apply Hl; [|done..].
       destruct (decide (j = i)) as [->|]; [congruence|lia]. }
  destruct (wk_segment Hwf i Hi E) as (H1 & H2 & H3 & H4). destruct (phdr_range i) as (R1 & R2 & R3).
  destruct (wk_buffer Hwf) as (B1 & B2 & B3). destruct (wk_target Hwf) as (T1 & T2 & T3). pose proof (wk_apart Hwf) as Hap.
  assert (KERNEL_START = 0xffff800000000000) as EK by done.
  rewrite (proj2 (Z.leb_le _ _) H3). rewrite (wrap_small 64 (p_vaddr (ph i) - KERNEL_START)) by (unfold uint; lia).
  rewrite wrap_small by (unfold uint; lia). rewrite (proj2 (Z.ltb_ge _ _)) by lia.
  rewrite !wrap_small by (unfold uint; lia). unfold mbind, st_bind, get, set_memory, modify, mret, st_ret.
  eexists. split; [reflexivity|]. split.
  - intros a Hna. rewrite copy_spec by lia. rewrite decide_False by lia. by apply Ho.
  - intros j k Hj Ej Hk. rewrite copy_spec by lia. destruct (decide (j = i)) as [->|Hne].
    + rewrite decide_True by lia. rewrite Ho by lia. f_equal. lia.
    + pose proof (wk_disjoint Hwf i j Hi ltac:(lia) ltac:(lia) E Ej). rewrite decide_False by lia. apply Hl; [lia|done..].
Qed.

Lemma sections_loop_ok n fuel i s : Z.of_nat n = phnum - i -> 0 <= i -> (n < fuel)%nat -> loaded i (lmem s) -> exists m',
  sections_loop fuel i phy max buffer s = Ret (true, mkLoader m' (efi_info s)) /\ loaded phnum m'.
Proof using Hwf Hbytes.
  revert fuel i s. induction n as [|n IH]; intros fuel i s Hn Hi Hf Hl; (destruct fuel as [|fuel]; [lia|]); cbn [sections_loop];
    step_with (eq_refl (get s)); destruct (header_agree (lmem s) (proj1 Hl)) as (-> & _ & Hh).
  - rewrite (proj2 (Z.ltb_ge _ _)) by lia. exists (lmem s). split; [by destruct s|]. by replace phnum with i by lia.
  - rewrite (proj2 (Z.ltb_lt _ _)) by lia. rewrite Hh by lia. destruct (load_section_ok i s ltac:(lia) Hl) as (m1 & E & Hl1). step_with E.
    apply (IH fuel (i + 1) (mkLoader m1 (efi_info s))); [lia|lia|lia|done].
Qed.

Lemma LoadKernel_ok s : lmem s = m0 -> (forall j, (j < 4)%nat -> m0 (buffer + Z.of_nat j) = nth j ElfMagic 0) -> exists m',
  let i := efi_info s in
  LoadKernel phy max buffer s = Ret (e_entry m0 buffer,
    mkLoader m' (mkInfo (memory_descriptors i) (descriptor_size i) (descriptor_count i) (descriptor_version i) phy max (rsdt_phy_addr i) (xsdt_phy_addr i))) /\
  loaded phnum m'.
Proof using Hwf Hbytes.
  intros Hs Hmagic. pose proof (wk_buffer Hwf) as Hb. unfold LoadKernel. rewrite bind_ret with (a := s) (s' := s) by done. rewrite Hs.
  assert (forallb (fun j => m0 (wrap64 (buffer + Z.of_nat j)) =? nth j ElfMagic 0) (seq 0 4) = true) as ->.
  { apply forallb_forall. intros j Hj%in_seq. rewrite wrap_small by (unfold uint; lia). apply Z.eqb_eq, Hmagic. lia. }
  cbn [negb]. pose proof (le_read_range 2 m0 (buffer + 56) Hbytes) as Hr. change (256 ^ Z.of_nat 2) with 65536 in Hr. fold phnum in Hr.
  destruct (sections_loop_ok (Z.to_nat phnum) (Pos.to_nat 65537) 0 s) as (m' & El & Hl); [lia|lia|lia|rewrite Hs; split; [done|intros; lia]|].
  exists m'. cbv zeta. split; [|done]. step_with El. destruct (header_agree m' (proj1 Hl)) as (_ & He & _).
  unfold mbind, st_bind, get, set_info, modify, mret, st_ret. cbn [lmem efi_info]. by rewrite He.
Qed.

End load.

(** ** Entering the kernel *)

(** Services that succeed.  [P] and [B] are the pages they give for the kernel and
    for its file, and [m3] is the memory once the file has been read. *)
Record good_firmware (fw : Firmware) (P B : Z) (m m3 : memory) : Prop := {
  gf_console : EFI_ERROR (LocateTextOut fw) = false;
  gf_pages : AllocatePages fw 16640 = (EFI_SUCCESS, P);
  gf_file_pages : AllocatePages fw 2048 = (EFI_SUCCESS, B);
  gf_map : map_status (GetMemoryMap fw) = EFI_SUCCESS /\ map_descriptor_size (GetMemoryMap fw) <> 0;
  gf_volume : OpenVolume fw = EFI_SUCCESS /\ Open fw = EFI_SUCCESS;
  gf_file : exists m1 m2, GetInfo fw B m = (EFI_SUCCESS, m1) /\ GetFileInfo fw B m1 = (EFI_SUCCESS, m2) /\
    le_read 8 m2 (B + 8) <= KernelFileMaxSize /\ ReadFile fw B m2 = (EFI_SUCCESS, m3);
  gf_exit : GetMemoryMapAgain fw = EFI_SUCCESS /\ ExitBootServices fw = EFI_SUCCESS /\ SetVirtualAddressMap fw = EFI_SUCCESS
}.

(** The ACPI root pointer at [r], outside the memory the kernel is loaded to. *)
Record good_rsdp (fw : Firmware) (P r : Z) (m3 : memory) : Prop := {
  gr_found : find_rsdp (ConfigurationTable fw) = r /\ r <> 0;
  gr_place : 0 <= r /\ r + 32 <= 2 ^ 64 /\ (r + 32 <= P + stackSize \/ P + AllocSize <= r);
  gr_magic j : (j < 8)%nat -> m3 (r + Z.of_nat j) = nth j rsdp_magic 0
}.

Lemma setup_tables_eq t kphy pml4e0 : exists tbl,
  setup_kernel_image_page_table t kphy pml4e0 = (tbl, t) /\ forall k, word tbl k = boot_words t kphy pml4e0 k.
Proof.
  pose proof (boot_setup_words t kphy pml4e0) as H.
  assert (snd (setup_kernel_image_page_table t kphy pml4e0) = t) as E by (unfold setup_kernel_image_page_table; cbn [snd]; reflexivity).
  destruct (setup_kernel_image_page_table t kphy pml4e0) as [tbl c]. cbn in H, E. subst c. by exists tbl.
Qed.

Lemma leave_firmware_ok fw t cr3 P B r m m3 entry s tbl :
  good_firmware fw P B m m3 -> good_rsdp fw P r m3 -> (forall a, ~ (P + stackSize <= a < P + AllocSize) -> lmem s a = m3 a) ->
  setup_kernel_image_page_table t (P + stackSize) (le_read 8 (lmem s) cr3) = (tbl, t) ->
  leave_firmware fw t cr3 (P + stackSize) entry s =
    let i := efi_info s in
    Ret (Entered entry tbl t,
      mkLoader (lmem s) (mkInfo (memory_descriptors i) (descriptor_size i) (descriptor_count i) (descriptor_version i)
        (kernel_physical_start i) (kernel_physical_size i) (le_read 4 m3 (r + 16)) (le_read 8 m3 (r + 24)))).
Proof.
  intros [_ _ _ _ _ _ (E1 & E2 & E3)] [[Er Hr] (Hr1 & Hr2 & Hr3) Hm] Hs Et. unfold leave_firmware. rewrite Er. rewrite (proj2 (Z.eqb_neq _ _) Hr).
  rewrite bind_ret with (a := s) (s' := s) by done.
  assert (forallb (fun j => lmem s (wrap64 (r + Z.of_nat j)) =? nth j rsdp_magic 0) (seq 0 8) = true) as ->.
  { apply forallb_forall. intros j Hj%in_seq. rewrite wrap_small by (unfold uint; lia). apply Z.eqb_eq. rewrite Hs by lia. apply Hm. lia. }
  rewrite E1, E2, E3. cbn [negb]. unfold mbind, st_bind, set_info, modify, mret, st_ret. change (EFI_SUCCESS =? EFI_SUCCESS) with true. cbn [negb].
  rewrite (le_read_agree 4 m3 (lmem s) (r + 16)), (le_read_agree 8 m3 (lmem s) (r + 24)) by (try (intros; apply Hs); lia).
  by rewrite Et.
Qed.

(** C9: starting the kernel.  With a firmware whose services succeed and a
    well-formed kernel file, [efi_main] enters the kernel at its entry point, with
    page tables under which every byte of every loadable segment, at its virtual
    address, is the byte of the file; the kernel is told where it was loaded and
    where the system tables are. *)
Theorem boot_enters_kernel fw t cr3 P B r m m3 info :
  good_firmware fw P B m m3 -> good_rsdp fw P r m3 -> (forall x, 0 <= m3 x < 256) -> P mod 4096 = 0 ->
  boot_placed t (P + stackSize) -> wf_kernel (P + stackSize) KernelMaxSize B KernelFileMaxSize m3 ->
  (forall j, (j < 4)%nat -> m3 (B + Z.of_nat j) = nth j ElfMagic 0) -> e_entry m3 B <> 0 ->
  exists tbl s', efi_main fw t cr3 (mkLoader m info) = Ret (Entered (e_entry m3 B) tbl t, s') /\
    kernel_physical_start (efi_info s') = P + stackSize /\ kernel_physical_size (efi_info s') = KernelMaxSize /\
    xsdt_phy_addr (efi_info s') = le_read 8 m3 (r + 24) /\ rsdt_phy_addr (efi_info s') = le_read 4 m3 (r + 16) /\
    forall mem i k, holds_boot_tables t tbl mem -> 0 <= i < e_phnum m3 B ->
      let p := read_phdr m3 (phdr_addr m3 B i) in
      is_load p = true -> 0 <= k < p_memsz p ->
      exists pa, walk mem t (p_vaddr p + k) = Some (mkMapping pa true false) /\ lmem s' pa = m3 (B + p_offset p + k).
Proof.
  intros Hfw Hrs Hbytes HP Hbp Hwf Hmagic He. pose proof Hfw as [F1 F2 F3 [F4 F4'] [F5 F5'] (m1 & m2 & G1 & G2 & G3 & G4) _].
  pose proof (wk_target _ _ _ _ _ Hwf) as Ht. unfold KernelMaxSize, AllocSize, stackSize in Ht.
  set (r0 := GetMemoryMap fw) in *.
  set (info1 := mkInfo (map_bytes r0) (map_descriptor_size r0) (map_size r0 / map_descriptor_size r0) (map_version r0)
         (kernel_physical_start info) (kernel_physical_size info) (rsdt_phy_addr info) (xsdt_phy_addr info)).
  destruct (LoadKernel_ok (P + stackSize) KernelMaxSize B KernelFileMaxSize m3 Hbytes Hwf (mkLoader m3 info1) eq_refl Hmagic) as (m' & El & Hl).
  cbv zeta in El. set (s1 := mkLoader m' _) in El.
  destruct (setup_tables_eq t (P + stackSize) (le_read 8 (lmem s1) cr3)) as (tbl & Et & Htbl).
  set (pe := le_read 8 (lmem s1) cr3) in *. exists tbl.
  eexists. split; [|split; [|split; [|split; [|split]]]].
  - unfold efi_main. rewrite F1. change (AllocSize / 4096) with 16640. change (KernelFileMaxSize / 4096) with 2048. rewrite F2, F3.
    change (EFI_SUCCESS =? EFI_SUCCESS) with true. cbn [negb].
    rewrite wrap_small by (unfold uint, stackSize; lia).
    assert (print_memory_map fw (mkLoader m info) = Ret (tt, mkLoader m info1)) as Em.
    { unfold print_memory_map. fold r0. rewrite F4. change (EFI_SUCCESS =? EFI_SUCCESS) with true. cbn [negb]. by rewrite (proj2 (Z.eqb_neq _ _) F4'). }
    step_with Em. rewrite F5, F5'. change (EFI_SUCCESS =? EFI_SUCCESS) with true. cbn [negb].
    rewrite bind_ret with (a := mkLoader m info1) (s' := mkLoader m info1) by done. cbn [lmem]. rewrite G1.
    rewrite bind_ret with (a := tt) (s' := mkLoader m1 info1) by done. change (EFI_SUCCESS =? EFI_SUCCESS) with true. cbn [negb]. rewrite G2.
    rewrite bind_ret with (a := tt) (s' := mkLoader m2 info1) by done. change (EFI_SUCCESS =? EFI_SUCCESS) with true. cbn [negb].
    rewrite (proj2 (Z.ltb_ge _ _)) by lia. rewrite G4.
    rewrite bind_ret with (a := tt) (s' := mkLoader m3 info1) by done. change (EFI_SUCCESS =? EFI_SUCCESS) with true. cbn [negb].
    step_with El. rewrite (proj2 (Z.eqb_neq _ _) He). erewrite leave_firmware_ok; [reflexivity|exact Hfw|exact Hrs| |exact Et].
    intros a Ha. apply (proj1 Hl). unfold KernelMaxSize. lia.
  - reflexivity.
  - reflexivity.
  - reflexivity.
  - reflexivity.
  - intros mem i k Hmem Hi p Ep Hk. destruct (wk_segment _ _ _ _ _ Hwf i Hi Ep) as (S1 & S2 & _). fold p in S1, S2.
    exists (P + stackSize + (p_vaddr p - KERNEL_START) + k). split; [|by apply (proj2 Hl)].
    replace (p_vaddr p + k) with (KERNEL_START + (p_vaddr p - KERNEL_START + k)) by lia.
    unfold KernelMaxSize, AllocSize, stackSize in S2.
    rewrite (boot_walk_kernel t (P + stackSize) pe Hbp tbl Htbl mem Hmem) by lia.
    rewrite decide_True by (change IDENTITY_MAP_PHY_START with (2 ^ 26); lia). do 2 f_equal. lia.
Qed.

(** ** Concrete runs *)

(** Memory with the words of [tbl] at [t] and zeros below. *)
Definition table_memory (t : Z) (tbl : table) (a : Z) : Z := if a <? t then 0 else word tbl ((a - t) / 8).

Lemma table_memory_holds t tbl : holds_boot_tables t tbl (table_memory t tbl).
Proof.
  intros k Hk. unfold table_memory. rewrite (proj2 (Z.ltb_ge _ _)) by lia. f_equal.
  replace (t + 8 * k - t) with (k * 8) by lia. by rewrite Z.div_mul.
Qed.

Lemma ex_boot_placed : boot_placed 0x6000000 0x1100000.
Proof. by split; vm_compute. Qed.

Lemma boot_page_tables_witness :
  let tbl := fst (setup_kernel_image_page_table 0x6000000 0x1100000 0) in
  let mem := table_memory 0x6000000 tbl in
  let cr3' := snd (setup_kernel_image_page_table 0x6000000 0x1100000 0) in
  (forall x, 0 <= x < 2 ^ 26 -> walk mem cr3' (KERNEL_START + x) = Some (mkMapping (0x1100000 + x) true false)) /\
  (forall x, 2 ^ 26 <= x < 2 ^ 30 -> walk mem cr3' (KERNEL_START + x) = Some (mkMapping x true false)) /\
  (forall x, 2 ^ 30 <= x < 2 ^ 39 -> walk mem cr3' (KERNEL_START + x) = None) /\
  (forall va, 0 <= va < 2 ^ 39 -> walk mem cr3' va = walk mem 0x1000 va).
Proof.
  intros tbl mem cr3'. apply (boot_page_tables 0x6000000 0x1100000 0 mem 0x1000).
  - exact ex_boot_placed.
  - apply table_memory_holds.
  - reflexivity.
Defined.

Definition ex_rsdp : list Z := rsdp_magic ++ [0] ++ repeat 65 6 ++ [2] ++ le_bytes 4 0x9000 ++ le_bytes 4 36 ++ le_bytes 8 0xa000 ++ repeat 0 4.
(** A kernel of one segment at [KERNEL_START], and the root pointer at 0x7000. *)
Definition ex_memory : memory := fun a =>
  if (0x7000 <=? a) && (a <? 0x7000 + 36) then nth (Z.to_nat (a - 0x7000)) ex_rsdp 0
  else file_at 0x800000 (tiny_elf KERNEL_START 16 4) a.
Definition ex_firmware : Firmware := mkFirmware 0
  (fun n => (0, if n =? 16640 then 0x1000000 else 0x800000)) (mkMap 0 [] 0 48 1) 0
  (fun _ m => (0, m)) 0 (fun _ m => (0, m)) (fun _ _ => (0, ex_memory)) [(repeat 1 16, 1); (ACPI20_GUID, 0x7000)] 0 0 0.

Lemma ex_good_firmware : good_firmware ex_firmware 0x1000000 0x800000 (fun _ => 0) ex_memory.
Proof.
  split; [reflexivity|reflexivity|reflexivity|by split|by split| |by split_and!].
  exists (fun _ => 0), (fun _ => 0). split; [reflexivity|]. split; [reflexivity|]. split; [by vm_compute|reflexivity].
Qed.
Lemma ex_good_rsdp : good_rsdp ex_firmware 0x1000000 0x7000 ex_memory.
Proof.
  split; [split; by vm_compute|split_and!; vm_compute; try done; by left|].
  intros j Hj. do 8 (destruct j as [|j]; [by vm_compute|]). lia.
Qed.
Lemma ex_memory_bytes x : 0 <= ex_memory x < 256.
Proof.
  unfold ex_memory. destruct (_ && _).
  - destruct (nth_in_or_default (Z.to_nat (x - 0x7000)) ex_rsdp 0) as [Hin| ->]; [|lia].
    assert (Forall (fun b => 0 <= b < 256) ex_rsdp) as Hf by (repeat constructor; discriminate).
    rewrite Forall_forall in Hf. apply Hf. by apply list_elem_of_In.
  - apply file_bytes. repeat constructor; discriminate.
Qed.
Lemma ex_wf_kernel : wf_kernel (0x1000000 + stackSize) KernelMaxSize 0x800000 KernelFileMaxSize ex_memory.
Proof.
  assert (e_phnum ex_memory 0x800000 = 1) as En by (by vm_compute).
  assert (e_phoff ex_memory 0x800000 = 64 /\ e_phentsize ex_memory 0x800000 = 56) as [Eo Es] by (by vm_compute).
  assert (read_phdr ex_memory (phdr_addr ex_memory 0x800000 0) = mkPhdr 1 120 KERNEL_START 4 16) as Ep by (by vm_compute).
  split.
  - unfold KernelFileMaxSize. lia.
  - unfold KernelMaxSize, AllocSize, stackSize. lia.
  - unfold KernelFileMaxSize, stackSize. lia.
  - intros i Hi. rewrite En in Hi. assert (i = 0) as -> by lia. unfold phdr_offset. rewrite Eo, Es. change (swrap 32 (56 * 0)) with 0. unfold KernelFileMaxSize. lia.
  - intros i Hi. rewrite En in Hi. assert (i = 0) as -> by lia. rewrite Ep. intros _. cbn [p_vaddr p_memsz p_filesz p_offset]. unfold KernelMaxSize, KernelFileMaxSize, AllocSize, stackSize. lia.
  - intros i j Hi Hj. rewrite En in Hi, Hj. lia.
Qed.

Lemma boot_enters_kernel_witness :
  exists tbl s', efi_main ex_firmware 0x6000000 0x1000 (mkLoader (fun _ => 0) zero_info) = Ret (Entered 0x100000 tbl 0x6000000, s') /\
    kernel_physical_start (efi_info s') = 0x1100000 /\ kernel_physical_size (efi_info s') = 0x4000000 /\
    xsdt_phy_addr (efi_info s') = 0xa000 /\ rsdt_phy_addr (efi_info s') = 0x9000 /\
    forall mem i k, holds_boot_tables 0x6000000 tbl mem -> 0 <= i < e_phnum ex_memory 0x800000 ->
      let p := read_phdr ex_memory (phdr_addr ex_memory 0x800000 i) in
      is_load p = true -> 0 <= k < p_memsz p ->
      exists pa, walk mem 0x6000000 (p_vaddr p + k) = Some (mkMapping pa true false) /\ lmem s' pa = ex_memory (0x800000 + p_offset p + k).
Proof.
  destruct (boot_enters_kernel ex_firmware 0x6000000 0x1000 0x1000000 0x800000 0x7000 (fun _ => 0) ex_memory zero_info) as (tbl & s' & H1 & H2 & H3 & H4 & H5 & H6).
  - exact ex_good_firmware.
  - exact ex_good_rsdp.
  - exact ex_memory_bytes.
  - reflexivity.
  - exact ex_boot_placed.
  - exact ex_wf_kernel.
  - intros j Hj. do 4 (destruct j as [|j]; [by vm_compute|]). lia.
  - by vm_compute.
  - exists tbl, s'. split; [rewrite H1; do 3 f_equal; by vm_compute|]. split; [by rewrite H2|]. split; [by rewrite H3|].
    split; [rewrite H4; by vm_compute|]. split; [rewrite H5; by vm_compute|]. exact H6.
Defined.
