(* ===== verification/Pci.v ===== *)
(** * device/pci.cpp, device/pci_devices.cpp: finding devices and their drivers

    Configuration space is memory mapped: [config a] is the function whose
    registers are at physical address [a], and [bar_store old v] is what a base
    address register holds after [v] was stored to one that held [old].  Both are
    parameters, as is what the drivers do with a device. *)
From S2P Require Import Prelude CpuDefs KMap.

Module Pci.

Definition PCI_INVALID_VENDOR : Z := 0xffff.

(** The members of [ExtendedConfigSpace] that are used. *)
Record ExtendedConfigSpace := mkConfig { vendor : Z; device : Z; bars : list Z }.
Record ECMGroup := mkGroup { base : Z; segment_group : Z; bus_start : Z; bus_end : Z }.
Record PCIBar := mkBar { start : Z; size : Z; is_io : bool }.
Record PCIDeviceInfo := mkInfo { config_space : Z; info_bars : list PCIBar }.

(** [inl a] is what the data port reads once [a] is in the address port. *)
Definition pci_config_read_word (inl : Z -> Z) (bus slot func offset : Z) : Z :=
  let address := wrap32 (Z.lor (Z.lor (Z.lor (Z.lor (Z.shiftl bus 16) (Z.shiftl slot 11)) (Z.shiftl func 8)) (Z.land offset 0xfc)) 0x80000000) in
  wrap16 (Z.land (Z.shiftr (inl address) (Z.land offset 2 * 8)) 0xffff).

(** ** Base address registers *)

Section bar.
Context (bar_store : Z -> Z -> Z).

(** [bar_parse]: start, size and kind, and what the register holds afterwards. *)
Definition bar_parse (old : Z) : PCIBar * Z :=
  if negb (Z.land old 1 =? 0) then
    let v := bar_store old (Z.lor 0xfffffffc (Z.land old 3)) in
    let size := wrap32 (Z.lxor (Z.land v 0xfffffffc) 0xffffffff + 1) in
    (mkBar (Z.land old 0xfffffffc) size true, bar_store v old)
  else
    let v := bar_store old (Z.lor 0xfffffff0 (Z.land old 0xf)) in
    let size := wrap32 (Z.lxor (Z.land v 0xfffffff0) 0xffffffff + 1) in
    (mkBar (Z.land old 0xffffffff) size false, bar_store v old).

(** The loop over the registers; those that are zero are left out. *)
Definition parse_bars (l : list Z) : list PCIBar :=
  (fun b => if b =? 0 then mkBar 0 0 false else fst (bar_parse b)) <$> l.

End bar.

(** ** PCIBusDriver *)

Definition key_lt (a b : Z * Z) : bool := (fst a <? fst b) || ((fst a =? fst b) && (snd a <? snd b)).

Record PCIBusDriver (D : Type) := mkBus { drivers_ : list ((Z * Z) * D); active_drivers_ : list D }.
Arguments mkBus {D}.
Arguments drivers_ {D}.
Arguments active_drivers_ {D}.

Definition RegisterDriver {D} (vendor device : Z) (obj : D) : ST (PCIBusDriver D) unit :=
  b ← get;
  match KMap.find key_lt (vendor, device) (drivers_ b) with
  | Some _ => panic ""
  | None => put (mkBus (KMap.emplace key_lt (vendor, device) obj (drivers_ b)) (active_drivers_ b))
  end.

Inductive KernelDriver := RTL8139Driver | AHCIDriver.

Definition register_pci_devices : ST (PCIBusDriver KernelDriver) unit :=
  RegisterDriver 0x10ec 0x8139 RTL8139Driver;;
  RegisterDriver 0x8086 0x2922 AHCIDriver;;
  RegisterDriver 0x8086 0x2829 AHCIDriver.

Section enumerate.
Context {D : Type} (bar_store : Z -> Z -> Z) (config : Z -> ExtendedConfigSpace) (driver_Enumerate : D -> PCIDeviceInfo -> bool).

(** [base | (j << 20) | (device << 15 | function << 12)] *)
Definition config_addr (base j device function : Z) : Z :=
  Z.lor (Z.lor base (wrap64 (Z.shiftl j 20))) (Z.lor (Z.shiftl device 15) (Z.shiftl function 12)).

Definition scan_function (base j device function : Z) (b : PCIBusDriver D) : PCIBusDriver D :=
  let a := config_addr base j device function in
  let cs := config a in
  if vendor cs =? PCI_INVALID_VENDOR then b
  else
    match KMap.find key_lt (vendor cs, Pci.device cs) (drivers_ b) with
    | Some d =>
        let info := mkInfo a (parse_bars bar_store (bars cs)) in
        if driver_Enumerate d info then mkBus (drivers_ b) (active_drivers_ b ++ [d]) else b
    | None => b
    end.

Definition scan_device (base j device : Z) (b : PCIBusDriver D) : PCIBusDriver D :=
  if vendor (config (config_addr base j device 0)) =? PCI_INVALID_VENDOR then b
  else for_loop 8 0 (scan_function base j device) b.

Definition scan_bus (base j : Z) (b : PCIBusDriver D) : PCIBusDriver D :=
  for_loop 32 0 (scan_device base j) b.

(** [bus_end - bus_start] is an [int] compared with a 64-bit counter. *)
Definition scan_group (b : PCIBusDriver D) (g : ECMGroup) : PCIBusDriver D :=
  if IDENTITY_MAP_START <=? base g then b
  else for_loop (Z.to_nat (wrap64 (bus_end g - bus_start g))) 0 (scan_bus (base g)) b.

Definition Enumerate (segment_groups : list ECMGroup) (b : PCIBusDriver D) : PCIBusDriver D :=
  foldl scan_group b segment_groups.

(** The handler of the PCI interrupts asks the active drivers in order until one
    has handled the interrupt; the drivers asked, and whether it was. *)
Fixpoint ask_drivers (HandleInterrupt : D -> bool) (l : list D) : list D * bool :=
  match l with
  | [] => ([], false)
  | d :: l => if HandleInterrupt d then ([d], true) else let '(asked, handled) := ask_drivers HandleInterrupt l in (d :: asked, handled)
  end.
Definition handle_pci_irq (HandleInterrupt : D -> Z -> bool) (irq_num : Z) (b : PCIBusDriver D) : list D * bool :=
  ask_drivers (fun d => HandleInterrupt d irq_num) (active_drivers_ b).

(** Drivers behind the one that handles the interrupt are not asked. *)
Lemma handle_pci_irq_spec HandleInterrupt irq_num b :
  let '(asked, handled) := handle_pci_irq HandleInterrupt irq_num b in
  asked `prefix_of` active_drivers_ b /\
  (if handled then exists l d, asked = l ++ [d] /\ HandleInterrupt d irq_num = true /\ Forall (fun d => HandleInterrupt d irq_num = false) l
   else asked = active_drivers_ b /\ Forall (fun d => HandleInterrupt d irq_num = false) asked).
Proof.
  unfold handle_pci_irq. generalize (active_drivers_ b) as l. induction l as [|d l IH]; cbn [ask_drivers]; [done|].
  destruct (HandleInterrupt d irq_num) eqn:E.
  - split; [by exists l|]. by exists [], d.
  - destruct (ask_drivers _ l) as [asked handled]. destruct IH as [Hp IH]. split; [by apply prefix_cons|]. destruct handled.
    + destruct IH as (l' & d' & -> & E' & Hf). exists (d :: l'), d'. split; [done|]. split; [done|]. by apply Forall_cons.
    + destruct IH as [-> Hf]. split; [done|]. by apply Forall_cons.
Qed.

(** ** What is found *)

(** All functions of a group, in the order of their numbers. *)
Definition functions_of (g : ECMGroup) : list (Z * Z * Z) :=
  if IDENTITY_MAP_START <=? base g then []
  else
    j ← seqZ 0 (bus_end g - bus_start g);
    dev ← seqZ 0 32;
    (fun f => (j, dev, f)) <$> seqZ 0 8.

Definition present_at (base : Z) (x : Z * Z * Z) : bool :=
  let '(j, dev, f) := x in
  negb (vendor (config (config_addr base j dev 0)) =? PCI_INVALID_VENDOR) && negb (vendor (config (config_addr base j dev f)) =? PCI_INVALID_VENDOR).

(** The driver that takes the function, if one does. *)
Definition driver_at (ds : list ((Z * Z) * D)) (base : Z) (x : Z * Z * Z) : option D :=
  let '(j, dev, f) := x in
  let a := config_addr base j dev f in
  if present_at base x then
    match KMap.find key_lt (vendor (config a), Pci.device (config a)) ds with
    | Some d => if driver_Enumerate d (mkInfo a (parse_bars bar_store (bars (config a)))) then Some d else None
    | None => None
    end
  else None.

(** A loop over [seqZ] appends to the active drivers what each round finds. *)
Lemma for_loop_appends (f : Z -> PCIBusDriver D -> PCIBusDriver D) (found : Z -> list ((Z * Z) * D) -> list D) n i b :
  (forall j b, f j b = mkBus (drivers_ b) (active_drivers_ b ++ found j (drivers_ b))) ->
  for_loop n i f b = mkBus (drivers_ b) (active_drivers_ b ++ (seqZ i (Z.of_nat n) ≫= (fun j => found j (drivers_ b)))).
Proof.
  intros Hf. revert i b. induction n as [|n IH]; intros i b.
  - cbn. rewrite app_nil_r. by destruct b.
  - cbn [for_loop]. rewrite IH, Hf. cbn [drivers_ active_drivers_]. rewrite Nat2Z.inj_succ, (seqZ_cons i) by lia. rewrite bind_cons, app_assoc.
    f_equal. f_equal. replace (Z.succ i) with (i + 1) by lia. by replace (Z.pred (Z.succ (Z.of_nat n))) with (Z.of_nat n) by lia.
Qed.

Lemma omap_bind {A B C} (f : B -> option C) (g : A -> list B) l : omap f (l ≫= g) = l ≫= (fun x => omap f (g x)).
Proof.
  induction l as [|x l IH]; [done|]. rewrite !bind_cons, <- IH.
  generalize (g x) as l1. intros l1. induction l1 as [|y l1 IH1]; [done|]. cbn. rewrite IH1. by destruct (f y).
Qed.
Lemma omap_fmap {A B C} (f : B -> option C) (g : A -> B) l : omap f (g <$> l) = l ≫= (fun x => option_list (f (g x))).
Proof. induction l as [|x l IH]; [done|]. cbn. rewrite IH. by destruct (f (g x)). Qed.

Lemma scan_group_eq b g : 0 <= bus_end g - bus_start g < 2 ^ 64 ->
  scan_group b g = mkBus (drivers_ b) (active_drivers_ b ++ omap (driver_at (drivers_ b) (base g)) (functions_of g)).
Proof.
  intros Hb. unfold scan_group, functions_of. destruct (IDENTITY_MAP_START <=? base g); [cbn; rewrite app_nil_r; by destruct b|].
  rewrite wrap_small by done.
  rewrite (for_loop_appends _ (fun j ds => seqZ 0 32 ≫= (fun dev => seqZ 0 8 ≫= (fun f => option_list (driver_at ds (base g) (j, dev, f)))))).
  - rewrite Z2Nat.id by lia. do 2 f_equal. rewrite omap_bind. apply list_bind_ext; [|done]. intros j. rewrite omap_bind.
    apply list_bind_ext; [|done]. intros dev. by rewrite omap_fmap.
  - intros j b1. unfold scan_bus. rewrite (for_loop_appends _ (fun dev ds => seqZ 0 8 ≫= (fun f => option_list (driver_at ds (base g) (j, dev, f))))); [done|].
    intros dev b2. unfold scan_device. destruct (vendor (config (config_addr (base g) j dev 0)) =? PCI_INVALID_VENDOR) eqn:E0.
    + destruct b2 as [ds act]. cbn [drivers_ active_drivers_]. f_equal. unfold driver_at, present_at. rewrite E0. cbn. by rewrite app_nil_r.
    + rewrite (for_loop_appends _ (fun f ds => option_list (driver_at ds (base g) (j, dev, f)))); [done|].
      intros f b3. unfold scan_function, driver_at, present_at. rewrite E0. cbn [negb andb].
      destruct (vendor (config (config_addr (base g) j dev f)) =? PCI_INVALID_VENDOR); cbn [negb]; [cbn; rewrite app_nil_r; by destruct b3|].
      destruct (KMap.find _ _ _) as [d|]; [|cbn; rewrite app_nil_r; by destruct b3].
      destruct (driver_Enumerate d _); [done|]. cbn. rewrite app_nil_r. by destruct b3.
Qed.

End enumerate.

(** The nested loops of [Enumerate] are a scan of the functions in the order of
    segment, bus, device and function number: the drivers made active are those
    of the present functions whose vendor and device are registered and that
    accept the function, each once per function, and the registered drivers stay
    as they are.  The last bus of a segment is not scanned. *)
Theorem enumerate_scans {D} bar_store config (driver_Enumerate : D -> PCIDeviceInfo -> bool) groups b :
  Forall (fun g => 0 <= bus_end g - bus_start g < 256) groups ->
  Enumerate bar_store config driver_Enumerate groups b =
  mkBus (drivers_ b) (active_drivers_ b ++
    (groups ≫= (fun g => omap (driver_at bar_store config driver_Enumerate (drivers_ b) (base g)) (functions_of g)))).
Proof.
  intros Hg. unfold Enumerate. revert b. induction Hg as [|g groups Hb Hg IH]; intros b.
  - cbn. rewrite app_nil_r. by destruct b.
  - cbn [foldl]. rewrite scan_group_eq by lia. rewrite IH. cbn [drivers_ active_drivers_]. by rewrite bind_cons, app_assoc.
Qed.

(** ** Sizes of regions *)

(** A register for a region of [2^k] bytes: its low [k] bits are fixed. *)
Definition decodes (k : Z) (bar_store : Z -> Z -> Z) : Prop :=
  forall old v, uint 32 old -> uint 32 v -> bar_store old v = Z.lor (Z.land v (2 ^ 32 - 2 ^ k)) (Z.land old (Z.ones k)).

Lemma high_mask k i : 0 <= k <= 32 -> 0 <= i -> Z.testbit (2 ^ 32 - 2 ^ k) i = (k <=? i) && (i <? 32).
Proof.
  intros Hk Hi. replace (2 ^ 32 - 2 ^ k) with (Z.shiftl (Z.ones (32 - k)) k).
  2: { rewrite Z.shiftl_mul_pow2, Z.ones_equiv by lia. replace (2 ^ 32) with (2 ^ (32 - k) * 2 ^ k) by (rewrite <- Z.pow_add_r by lia; f_equal; lia). lia. }
  rewrite Z.shiftl_spec by lia. destruct (Z.leb_spec k i).
  - destruct (Z.ltb_spec i 32); [rewrite Z.ones_spec_low by lia|rewrite Z.ones_spec_high by lia]; done.
  - rewrite Z.testbit_neg_r by lia. done.
Qed.

Lemma testbit_uint n z i : 0 <= n -> uint n z -> n <= i -> Z.testbit z i = false.
Proof.
  intros Hn Hz Hi. apply Z.testbit_false; [lia|]. rewrite Z.div_small; [done|].
  assert (2 ^ n <= 2 ^ i) by (apply Z.pow_le_mono_r; lia). unfold uint in Hz. lia.
Qed.

Lemma lor_uint a b : uint 32 a -> uint 32 b -> uint 32 (Z.lor a b).
Proof.
  intros Ha Hb. unfold uint. assert (0 <= Z.lor a b) by (apply Z.lor_nonneg; unfold uint in *; lia). split; [done|].
  destruct (decide (Z.lor a b = 0)) as [->|]; [done|]. apply Z.log2_lt_pow2; [lia|]. apply Z.nle_gt. intros Hle.
  pose proof (Z.bit_log2 (Z.lor a b) ltac:(lia)) as E. by rewrite Z.lor_spec, !(testbit_uint 32) in E by (done || lia).
Qed.
Lemma land_uint a b : uint 32 a -> 0 <= b -> uint 32 (Z.land a b).
Proof.
  intros Ha Hb. unfold uint. assert (0 <= Z.land a b) by (apply Z.land_nonneg; lia). split; [done|].
  destruct (decide (Z.land a b = 0)) as [->|]; [done|]. apply Z.log2_lt_pow2; [lia|]. apply Z.nle_gt. intros Hle.
  pose proof (Z.bit_log2 (Z.land a b) ltac:(lia)) as E. by rewrite Z.land_spec, (testbit_uint 32) in E by (done || lia).
Qed.

Section sizing.
Context (k : Z) (bar_store : Z -> Z -> Z) (Hdec : decodes k bar_store) (Hk : 0 <= k < 32).

(** Storing ones above the [f] flag bits leaves the address mask. *)
Lemma store_ones f old : 0 <= f <= k -> uint 32 old ->
  Z.land (bar_store old (Z.lor (2 ^ 32 - 2 ^ f) (Z.land old (Z.ones f)))) (2 ^ 32 - 2 ^ f) = Z.lor (2 ^ 32 - 2 ^ k) (Z.land old (2 ^ k - 2 ^ f)).
Proof using Hdec Hk.
  intros Hf Hold. assert (0 < 2 ^ f <= 2 ^ k) as Hp by (split; [apply Z.pow_pos_nonneg; lia|apply Z.pow_le_mono_r; lia]).
  assert (2 ^ k < 2 ^ 32) as Hp2 by (apply Z.pow_lt_mono_r; lia).
  rewrite Hdec; [|done|apply lor_uint; [unfold uint; lia|apply land_uint; [done|rewrite Z.ones_equiv; lia]]].
  assert (forall i, 0 <= i -> Z.testbit (2 ^ k - 2 ^ f) i = (f <=? i) && (i <? k)) as Hm.
  { intros i Hi. replace (2 ^ k - 2 ^ f) with (Z.shiftl (Z.ones (k - f)) f).
    2: { rewrite Z.shiftl_mul_pow2, Z.ones_equiv by lia. replace (2 ^ k) with (2 ^ (k - f) * 2 ^ f) by (rewrite <- Z.pow_add_r by lia; f_equal; lia). lia. }
    rewrite Z.shiftl_spec by lia. destruct (Z.leb_spec f i).
    - destruct (Z.ltb_spec i k); [rewrite Z.ones_spec_low by lia|rewrite Z.ones_spec_high by lia]; done.
    - rewrite Z.testbit_neg_r by lia. done. }
  apply Z.bits_inj'. intros i Hi. rewrite !Z.land_spec, !Z.lor_spec, !Z.land_spec, !Z.lor_spec, !Z.land_spec, !high_mask, Hm by lia.
  assert (forall n, 0 <= n -> Z.testbit (Z.ones n) i = (i <? n)) as Ho.
  { intros n Hn. destruct (Z.ltb_spec i n); [by rewrite Z.ones_spec_low by lia|by rewrite Z.ones_spec_high by lia]. }
  rewrite !Ho by lia. destruct (Z.leb_spec f i), (Z.leb_spec k i), (Z.ltb_spec i 32), (Z.ltb_spec i f), (Z.ltb_spec i k), (Z.testbit old i); try lia; done.
Qed.

Lemma store_back old v : uint 32 old -> uint 32 v -> (forall i, 0 <= i < k -> Z.testbit v i = Z.testbit old i) -> bar_store v old = old.
Proof using Hdec Hk.
  intros Ho Hv He. rewrite Hdec by done. apply Z.bits_inj'. intros i Hi. rewrite Z.lor_spec, !Z.land_spec, high_mask by lia.
  destruct (Z.ltb_spec i k) as [H|H].
  - rewrite Z.ones_spec_low by lia. rewrite (proj2 (Z.leb_gt _ _)) by lia. rewrite andb_false_r, andb_true_r. apply He. lia.
  - rewrite Z.ones_spec_high by lia. rewrite (proj2 (Z.leb_le _ _)) by lia. destruct (Z.ltb_spec i 32); [by rewrite andb_true_r, andb_false_r, orb_false_r|].
    rewrite (testbit_uint 32 old) by (done || lia). by rewrite !andb_false_r.
Qed.

Lemma lxor_ones x : uint 32 x -> Z.lxor x 0xffffffff = 0xffffffff - x.
Proof using Type.
  intros Hx. change 0xffffffff with (Z.ones 32). assert (Z.lxor x (Z.ones 32) + x = Z.ones 32) as E; [|lia].
  rewrite Z.add_nocarry_lxor.
  - rewrite Z.lxor_comm, <- Z.lxor_assoc, Z.lxor_nilpotent. apply Z.lxor_0_l.
  - apply Z.bits_inj'. intros i Hi. rewrite Z.land_spec, Z.lxor_spec, Z.bits_0. destruct (Z.lt_ge_cases i 32).
    + rewrite Z.ones_spec_low by lia. by destruct (Z.testbit x i).
    + rewrite (testbit_uint 32 x) by (done || lia). apply andb_false_r.
Qed.

(** A register at a multiple [m] of the size, with flags in its low [f] bits. *)
Lemma sizing_steps f m fl : 0 <= f <= k -> 0 <= m < 2 ^ (32 - k) -> 0 <= fl < 2 ^ f ->
  let old := m * 2 ^ k + fl in
  let v := bar_store old (Z.lor (2 ^ 32 - 2 ^ f) (Z.land old (Z.ones f))) in
  uint 32 old /\ wrap32 (Z.lxor (Z.land v (2 ^ 32 - 2 ^ f)) 0xffffffff + 1) = 2 ^ k /\ bar_store v old = old /\ Z.land old (2 ^ 32 - 2 ^ f) = m * 2 ^ k.
Proof using Hdec Hk.
  intros Hf Hm Hfl old v. assert (0 < 2 ^ f <= 2 ^ k) as Hp by (split; [apply Z.pow_pos_nonneg; lia|apply Z.pow_le_mono_r; lia]).
  assert (2 ^ k < 2 ^ 32) as Hp2 by (apply Z.pow_lt_mono_r; lia).
  assert (2 ^ 32 = 2 ^ (32 - k) * 2 ^ k) as E32 by (rewrite <- Z.pow_add_r by lia; f_equal; lia).
  assert (uint 32 old) as Hold by (unfold uint, old; nia).
  assert (forall i, 0 <= i -> Z.testbit old i = if i <? k then Z.testbit fl i else Z.testbit m (i - k)) as Hbits.
  { intros i Hi. unfold old. rewrite <- lor_shift_add, Z.lor_spec by lia. rewrite <- Z.shiftl_mul_pow2, Z.shiftl_spec by lia. destruct (Z.ltb_spec i k).
    - rewrite (Z.testbit_neg_r m) by lia. done.
    - rewrite (testbit_uint k fl) by (try unfold uint; lia). apply orb_false_r. }
  assert (forall i, f <= i -> Z.testbit fl i = false) as Hfl0 by (intros i Hi; apply (testbit_uint f); [lia|done|done]).
  split; [done|]. split; [|split].
  - unfold v. rewrite store_ones by done. assert (Z.land old (2 ^ k - 2 ^ f) = 0) as ->.
    { apply Z.bits_inj'. intros i Hi. rewrite Z.land_spec, Z.bits_0. replace (2 ^ k - 2 ^ f) with (Z.shiftl (Z.ones (k - f)) f).
      2: { rewrite Z.shiftl_mul_pow2, Z.ones_equiv by lia. replace (2 ^ k) with (2 ^ (k - f) * 2 ^ f) by (rewrite <- Z.pow_add_r by lia; f_equal; lia). lia. }
      rewrite Z.shiftl_spec by lia. destruct (Z.lt_ge_cases i f); [rewrite (Z.testbit_neg_r (Z.ones _)) by lia; apply andb_false_r|].
      destruct (Z.lt_ge_cases i k); [|rewrite Z.ones_spec_high by lia; apply andb_false_r].
      rewrite Hbits by lia. rewrite (proj2 (Z.ltb_lt _ _)) by lia. by rewrite Hfl0. }
    rewrite Z.lor_0_r, lxor_ones by (unfold uint; lia). change 0xffffffff with (2 ^ 32 - 1). rewrite wrap_small by (unfold uint; lia). lia.
  - assert (uint 32 (Z.lor (2 ^ 32 - 2 ^ f) (Z.land old (Z.ones f)))) as Hw.
    { apply lor_uint; [unfold uint; lia|apply land_uint; [done|rewrite Z.ones_equiv; lia]]. }
    apply store_back; [done|..]; unfold v; rewrite Hdec by done.
    + apply lor_uint; [apply land_uint; [done|lia]|apply land_uint; [done|rewrite Z.ones_equiv; lia]].
    + intros i Hi. rewrite Z.lor_spec, !Z.land_spec, high_mask, Z.ones_spec_low by lia. rewrite (proj2 (Z.leb_gt _ _)) by lia.
      by rewrite andb_false_r, andb_true_r.
  - apply Z.bits_inj'. intros i Hi. rewrite Z.land_spec, high_mask by lia. rewrite Hbits by lia.
    rewrite <- Z.shiftl_mul_pow2, Z.shiftl_spec by lia. destruct (Z.ltb_spec i k).
    + rewrite (Z.testbit_neg_r m) by lia. destruct (Z.leb_spec f i); [by rewrite Hfl0|apply andb_false_r].
    + rewrite (proj2 (Z.leb_le _ _)) by lia. destruct (Z.ltb_spec i 32); [by rewrite andb_true_r|].
      rewrite (testbit_uint (32 - k) m) by (done || lia). done.
Qed.

End sizing.

(** [bar_parse] finds the size of the region of [2^k] bytes a register decodes
    and leaves the register as it was.  For an I/O region the start is the base
    address; for a memory region it still has the flags in its low four bits. *)
Theorem bar_parse_ok k bar_store m fl :
  decodes k bar_store -> 4 <= k < 32 -> 0 <= m < 2 ^ (32 - k) ->
  (0 <= fl < 4 -> Z.odd fl = true -> bar_parse bar_store (m * 2 ^ k + fl) = (mkBar (m * 2 ^ k) (2 ^ k) true, m * 2 ^ k + fl)) /\
  (0 <= fl < 16 -> Z.odd fl = false -> bar_parse bar_store (m * 2 ^ k + fl) = (mkBar (m * 2 ^ k + fl) (2 ^ k) false, m * 2 ^ k + fl)).
Proof.
  intros Hdec Hk Hm. assert (Z.land (m * 2 ^ k + fl) 1 = if Z.odd fl then 1 else 0) as E1.
  { change 1 with (Z.ones 1) at 1. rewrite Z.land_ones by lia. change (2 ^ 1) with 2. rewrite Zmod_odd, Z.odd_add, Z.odd_mul.
    replace k with (Z.succ (k - 1)) by lia. rewrite Z.pow_succ_r, Z.odd_mul by lia. cbn. by rewrite andb_false_r, xorb_false_l. }
  split; intros Hfl Eo; unfold bar_parse; rewrite E1, Eo; cbn [Z.eqb negb].
  - destruct (sizing_steps k bar_store Hdec ltac:(lia) 2 m fl) as (_ & H2 & H3 & H4); [lia|done|done|].
    change (2 ^ 32 - 2 ^ 2) with 0xfffffffc in *. change (Z.ones 2) with 3 in *. by rewrite H2, H3, H4.
  - destruct (sizing_steps k bar_store Hdec ltac:(lia) 4 m fl) as (H1 & H2 & H3 & _); [lia|done|done|].
    change (2 ^ 32 - 2 ^ 4) with 0xfffffff0 in *. change (Z.ones 4) with 0xf in *. rewrite H2, H3. do 2 f_equal.
    change 0xffffffff with (Z.ones 32). rewrite Z.land_ones by lia. apply Z.mod_small. exact H1.
Qed.

(** ** Concrete runs *)

Definition ex_store (k old v : Z) : Z := Z.lor (Z.land v (2 ^ 32 - 2 ^ k)) (Z.land old (Z.ones k)).

Lemma bar_parse_ok_witness :
  bar_parse (ex_store 8) (0xc0 * 2 ^ 8 + 1) = (mkBar 0xc000 256 true, 0xc001) /\
  bar_parse (ex_store 8) (0xfeb910 * 2 ^ 8 + 0) = (mkBar 0xfeb91000 256 false, 0xfeb91000) /\
  bar_parse (ex_store 8) (0xfeb910 * 2 ^ 8 + 8) = (mkBar 0xfeb91008 256 false, 0xfeb91008).
Proof.
  split; [|split].
  - apply (bar_parse_ok 8 (ex_store 8) 0xc0 1); [by intros|lia|lia|lia|done].
  - apply (bar_parse_ok 8 (ex_store 8) 0xfeb910 0); [by intros|lia|lia|lia|done].
  - apply (bar_parse_ok 8 (ex_store 8) 0xfeb910 8); [by intros|lia|lia|lia|done].
Defined.

(** One bus with the network card as function 0 of device 3. *)
Definition ex_config (a : Z) : ExtendedConfigSpace :=
  if a =? 0xb0018000 then mkConfig 0x10ec 0x8139 [0xc001; 0xfeb91000; 0; 0; 0; 0] else mkConfig 0xffff 0xffff [].
Definition ex_bus : PCIBusDriver KernelDriver :=
  match register_pci_devices (mkBus [] []) with Ret (_, b) => b | _ => mkBus [] [] end.

Lemma enumerate_scans_witness :
  Enumerate (ex_store 8) ex_config (fun _ _ => true) [mkGroup 0xb0000000 0 0 1] ex_bus = mkBus (drivers_ ex_bus) [RTL8139Driver].
Proof.
  rewrite (enumerate_scans (ex_store 8) ex_config (fun _ _ => true) [mkGroup 0xb0000000 0 0 1] ex_bus).
  - by vm_compute.
  - repeat constructor; done.
Defined.

End Pci.
