(* ===== verification/Acpi.v ===== *)
(** * device/efi.cpp and the interrupt controllers

    [efi_table_init] (device/efi.cpp), [ioapic_init] (device/rtl8139.cpp) and the
    local controller (device/apic.cpp).  The tables of the firmware are in memory;
    the registers of the controllers are finite maps, zero where nothing was
    stored. *)
From S2P Require Import Prelude CpuDefs LibString Process Elf Pci.

Module Acpi.
Import LibString Elf Pci.

Definition IOAPIC_IRQ_START : Z := 0x40.
Definition IOAPIC_IRQ_COUNT : Z := 0x18.
Definition IOAPIC_ISA_IRQ_COM1 : Z := 0x44.
Definition IOAPIC_PCI_IRQ_START : Z := 0x50.
Definition IOAPIC_PCI_IRQ_COUNT : Z := 0x8.

(** [SystemDescriptionTable] *)
Definition sizeof_SystemDescriptionTable : Z := 36.
Definition sdt_length (m : memory) (table : Z) : Z := le_read 4 m (table + 4).
Definition sdt_data (table : Z) : Z := wrap64 (table + sizeof_SystemDescriptionTable).
(** [memcmp(table->signature, sig, 4) == 0] *)
Definition has_signature (m : memory) (table : Z) (sig : list Z) : bool := bool_decide (read_bytes m table 4 = sig).
Definition sig_XSDT : list Z := [88; 83; 68; 84].
Definition ACPI_TABLE_SIGNATURE_PCIE_CONFIG : list Z := [77; 67; 70; 71].
Definition ACPI_TABLE_SIGNATURE_APIC : list Z := [65; 80; 73; 67].

(** ** The I/O interrupt controller *)

(** The selected register and the contents of all. *)
Record IoApic := mkIoApic { ioregsel : Z; regs : gmap Z Z }.
Definition reg (a : IoApic) (k : Z) : Z := default 0 (regs a !! k).

Definition write_ioapic_register (offset val : Z) (a : IoApic) : IoApic :=
  let sel := wrap8 offset in mkIoApic sel (<[sel := wrap32 val]> (regs a)).
Definition read_ioapic_register (offset : Z) (a : IoApic) : Z * IoApic :=
  let sel := wrap8 offset in (reg a sel, mkIoApic sel (regs a)).

Definition ioapic_disable_irq (irq_base irq : Z) (a : IoApic) : IoApic :=
  write_ioapic_register (0x10 + 2 * (irq - irq_base)) (Z.shiftl 1 16) a.
(** The registers are read back for the log. *)
Definition ioapic_enable_irq (target_lapic_id irq_base irq : Z) (a : IoApic) : IoApic :=
  let a := write_ioapic_register (0x10 + 2 * (irq - irq_base)) (Z.lor irq (Z.shiftl 1 13)) a in
  let a := write_ioapic_register (0x11 + 2 * (irq - irq_base)) (wrap32 (Z.shiftl target_lapic_id 24)) a in
  let a := snd (read_ioapic_register (0x10 + 2 * (irq - irq_base)) a) in
  snd (read_ioapic_register (0x11 + 2 * (irq - irq_base)) a).

(** ** Machine state *)

Record Machine (D : Type) := mkMachine { mem : memory; ioapic0 : IoApic; pic_masked : bool; pci_bus : PCIBusDriver D }.
Arguments mkMachine {D}.
Arguments mem {D}.
Arguments ioapic0 {D}.
Arguments pic_masked {D}.
Arguments pci_bus {D}.

Section init.
Context {D : Type}.
Local Abbreviation M := (ST (Machine D)).
Definition on_ioapic (f : IoApic -> IoApic) : M unit := modify (fun s => mkMachine (mem s) (f (ioapic0 s)) (pic_masked s) (pci_bus s)).
Definition mask_pic : M unit := modify (fun s => mkMachine (mem s) (ioapic0 s) true (pci_bus s)).

(** The search for an entry of type 1 among the entries at [p]: the address and
    the first interrupt of the controller. *)
Fixpoint madt_loop (fuel : nat) (m : memory) (p rest offset : Z) : outcome (Z * Z) :=
  match fuel with
  | O => OutOfFuel
  | S fuel =>
      if offset <? rest then
        let entry_type := m (wrap64 (p + offset)) in
        let len := m (wrap64 (p + offset + 1)) in
        if entry_type =? 1 then Ret (le_read 4 m (p + offset + 4), le_read 4 m (p + offset + 8))
        else madt_loop fuel m p rest (wrap64 (offset + len))
      else Ret (0, 0)
  end.

Definition lift_pure {A} (o : outcome A) : M A := fun s =>
  match o with Ret a => Ret (a, s) | Panic m => Panic m | Halt => Halt | Fault => Fault | OutOfFuel => OutOfFuel end.

(** Every entry has at least one byte unless its length is zero, so a round per
    byte is enough; an entry of length zero is read again and again. *)
Definition ioapic_init (table : Z) : M unit :=
  m ← gets mem;
  (if negb (Z.land (le_read 4 m (sdt_data table + 4)) 1 =? 0) then mask_pic else mret tt);;
  let rest := wrap64 (wrap64 (sdt_length m table - sizeof_SystemDescriptionTable) - 8) in
  '(phy, gsb) ← lift_pure (madt_loop (S (Z.to_nat rest)) m (sdt_data table + 8) rest 0);
  do_assert (negb (phy =? 0)) "No IO APIC available!";;
  v ← gets (fun s => fst (read_ioapic_register 1 (ioapic0 s)));
  on_ioapic (fun a => snd (read_ioapic_register 1 a));;
  let max_redir_entry := Z.land (Z.shiftr v 16) 0xff + 1 in
  do_assert (1 <=? max_redir_entry) "NO IRQ avaialble for this IO APIC";;
  do_assert (max_redir_entry =? IOAPIC_IRQ_COUNT) "";;
  on_ioapic (for_loop (Z.to_nat IOAPIC_IRQ_COUNT) 0 (fun irq => ioapic_disable_irq IOAPIC_IRQ_START (IOAPIC_IRQ_START + irq)));;
  on_ioapic (for_loop (Z.to_nat IOAPIC_PCI_IRQ_COUNT) IOAPIC_PCI_IRQ_START (ioapic_enable_irq 0 IOAPIC_IRQ_START));;
  on_ioapic (ioapic_enable_irq 0 IOAPIC_IRQ_START IOAPIC_ISA_IRQ_COM1).

(** ** device/efi.cpp *)

(** The loop over the tables listed at [tables_phy]: the last interrupt and the
    last configuration table found, 0 for none. *)
Fixpoint tables_loop (n : nat) (m : memory) (tables_phy i : Z) (pcie_sdt apic_sdt : Z) : Z * Z :=
  match n with
  | O => (pcie_sdt, apic_sdt)
  | S n =>
      let phy := le_read 8 m (tables_phy + 8 * i) in
      if phy <? IDENTITY_MAP_PHY_END then
        let sdt := wrap64 (phy + KERNEL_START) in
        if has_signature m sdt ACPI_TABLE_SIGNATURE_PCIE_CONFIG then tables_loop n m tables_phy (i + 1) sdt apic_sdt
        else if has_signature m sdt ACPI_TABLE_SIGNATURE_APIC then tables_loop n m tables_phy (i + 1) pcie_sdt sdt
        else tables_loop n m tables_phy (i + 1) pcie_sdt apic_sdt
      else tables_loop n m tables_phy (i + 1) pcie_sdt apic_sdt
  end.

(** [ECMGroup] at address [a]. *)
Definition read_group (m : memory) (a : Z) : ECMGroup :=
  mkGroup (le_read 8 m a) (le_read 2 m (a + 8)) (le_read 1 m (a + 10)) (le_read 1 m (a + 11)).

(** [efi_table_init] up to the call of [Enumerate], with the segments it is called
    on. *)
Definition efi_tables (xsdt_phy : Z) : M (list ECMGroup) :=
  do_assert (negb (xsdt_phy =? 0)) "";;
  do_assert (xsdt_phy <? IDENTITY_MAP_PHY_END) "XSDT out of range";;
  let xsdt := wrap64 (xsdt_phy + KERNEL_START) in
  m ← gets mem;
  do_assert (has_signature m xsdt sig_XSDT) "Invalid root xsdt, signature not match";;
  let n_entries := wrap64 (sdt_length m xsdt - sizeof_SystemDescriptionTable) / 8 in
  let '(pcie_sdt, apic_sdt) := tables_loop (Z.to_nat n_entries) m (sdt_data xsdt) 0 0 0 in
  if apic_sdt =? 0 then panic "Cannot find APIC SDT"
  else
    ioapic_init apic_sdt;;
    if pcie_sdt =? 0 then panic "Cannot find PCIE Config SDT"
    else
      let n := wrap64 (sdt_length m pcie_sdt - sizeof_SystemDescriptionTable) / 16 in
      mret ((fun i => read_group m (sdt_data pcie_sdt + 8 + 16 * i)) <$> seqZ 0 n).

Context (bar_store : Z -> Z -> Z) (config : Z -> ExtendedConfigSpace) (driver_Enumerate : D -> PCIDeviceInfo -> bool).

Definition efi_table_init (xsdt_phy : Z) : M unit :=
  groups ← efi_tables xsdt_phy;
  modify (fun s => mkMachine (mem s) (ioapic0 s) (pic_masked s) (Enumerate bar_store config driver_Enumerate groups (pci_bus s))).

End init.

End Acpi.
