(* ===== verification/AcpiThms.v ===== *)
(** * Theorems about the firmware's tables and the I/O interrupt controller *)
From S2P Require Import Prelude CpuDefs LibString KMap Process Elf Pci Acpi.
Import LibString Elf Pci Acpi.

(** ** Redirection entries *)

Lemma reg_write off v a j : reg (write_ioapic_register off v a) j = if decide (wrap8 off = j) then wrap32 v else reg a j.
Proof. unfold reg, write_ioapic_register. cbn [regs]. rewrite lookup_insert. by case_decide. Qed.
Lemma reg_read off a j : reg (snd (read_ioapic_register off a)) j = reg a j.
Proof. done. Qed.

Lemma reg_enable k a j : 0 <= k < 24 -> reg (ioapic_enable_irq 0 0x40 (0x40 + k) a) j =
  if decide (j = 0x10 + 2 * k) then 0x2040 + k else if decide (j = 0x11 + 2 * k) then 0 else reg a j.
Proof.
  intros Hk. unfold ioapic_enable_irq. rewrite !reg_read, !reg_write. replace (0x40 + k - 0x40) with k by lia.
  rewrite !(wrap_small 8) by (unfold uint; lia).
  assert (wrap32 (Z.lor (0x40 + k) (Z.shiftl 1 13)) = 0x2040 + k) as ->.
  { rewrite Z.lor_comm. change (Z.shiftl 1 13) with (1 * 2 ^ 13). rewrite lor_shift_add by lia. rewrite wrap_small by (unfold uint; lia). lia. }
  repeat case_decide; try lia; done.
Qed.

(** What [ioapic_init] does to the controller. *)
Definition ioapic_setup (a : IoApic) : IoApic :=
  ioapic_enable_irq 0 IOAPIC_IRQ_START IOAPIC_ISA_IRQ_COM1
    (for_loop (Z.to_nat IOAPIC_PCI_IRQ_COUNT) IOAPIC_PCI_IRQ_START (ioapic_enable_irq 0 IOAPIC_IRQ_START)
      (for_loop (Z.to_nat IOAPIC_IRQ_COUNT) 0 (fun irq => ioapic_disable_irq IOAPIC_IRQ_START (IOAPIC_IRQ_START + irq))
        (snd (read_ioapic_register 1 a)))).

(** The pins of the PCI interrupts and of the serial port. *)
Definition pin_enabled (k : Z) : bool := ((16 <=? k) && (k <? 24)) || (k =? 4).

(** Pin [k] raises vector [0x40 + k] on processor 0, active low, or is masked. *)
Definition routes (a a' : IoApic) : Prop :=
  (forall k, 0 <= k < 24 ->
     reg a' (0x10 + 2 * k) = (if pin_enabled k then 0x2040 + k else 0x10000) /\
     reg a' (0x11 + 2 * k) = (if pin_enabled k then 0 else reg a (0x11 + 2 * k))) /\
  (forall j, j < 0x10 \/ 0x40 <= j -> reg a' j = reg a j).

Lemma disable_all a j : reg (for_loop 24 0 (fun irq => ioapic_disable_irq 0x40 (0x40 + irq)) a) j =
  if decide (0x10 <= j < 0x40 /\ Z.even j = true) then 0x10000 else reg a j.
Proof.
  pose proof (for_loop_ind (fun n a' => forall j, reg a' j = if decide (0x10 <= j < 0x10 + 2 * n /\ Z.even j = true) then 0x10000 else reg a j)
    24 0 (fun irq => ioapic_disable_irq 0x40 (0x40 + irq)) a) as H.
  apply H; clear H.
  - intros i. by rewrite decide_False by lia.
  - intros k a' Hk IH i. unfold ioapic_disable_irq. rewrite reg_write. replace (0x40 + k - 0x40) with k by lia.
    rewrite wrap_small by (unfold uint; lia). rewrite IH. change (wrap32 (Z.shiftl 1 16)) with 0x10000.
    destruct (decide (0x10 + 2 * k = i)) as [<-|Hne].
    + rewrite decide_True; [done|]. split; [lia|]. replace (16 + 2 * k) with (2 * (8 + k)) by lia. by rewrite Z.even_mul.
    + destruct (decide (0x10 <= i < 0x10 + 2 * k /\ Z.even i = true)) as [[H1 H2]|Hn].
      * by rewrite decide_True by (split; [lia|done]).
      * rewrite decide_False; [done|]. intros [H1 H2]. apply Hn. split; [|done]. apply Z.even_spec in H2 as [q ->]. lia.
Qed.

Lemma enable_pci a j : reg (for_loop 8 0x50 (ioapic_enable_irq 0 0x40) a) j =
  if decide (0x30 <= j < 0x40) then (if Z.even j then 0x2040 + (j - 0x10) / 2 else 0) else reg a j.
Proof.
  pose proof (for_loop_ind (fun n a' => forall j, reg a' j = if decide (0x30 <= j < 0x30 + 2 * (n - 0x50)) then (if Z.even j then 0x2040 + (j - 0x10) / 2 else 0) else reg a j)
    8 0x50 (ioapic_enable_irq 0 0x40) a) as H.
  apply H; clear H.
  - intros i. by rewrite decide_False by lia.
  - intros n a' Hn IH i. replace n with (0x40 + (n - 0x40)) at 1 by lia. rewrite reg_enable by lia.
    destruct (decide (i = 0x10 + 2 * (n - 0x40))) as [->|H1].
    + rewrite decide_True by lia. replace (16 + 2 * (n - 64)) with (2 * (n - 56)) at 1 by lia. rewrite Z.even_mul. cbn. dlia.
    + destruct (decide (i = 0x11 + 2 * (n - 0x40))) as [->|H2].
      * rewrite decide_True by lia. replace (17 + 2 * (n - 64)) with (1 + 2 * (n - 56)) by lia. by rewrite Z.even_add_mul_2.
      * rewrite IH. destruct (decide (48 <= i < 48 + 2 * (n - 80))); [by rewrite decide_True by lia|by rewrite decide_False by lia].
Qed.

Lemma ioapic_setup_routes a : routes a (ioapic_setup a).
Proof.
  unfold ioapic_setup, IOAPIC_IRQ_START, IOAPIC_ISA_IRQ_COM1, IOAPIC_PCI_IRQ_START, IOAPIC_PCI_IRQ_COUNT, IOAPIC_IRQ_COUNT.
  change (Z.to_nat 8) with 8%nat. change (Z.to_nat 24) with 24%nat. change 0x44 with (0x40 + 4).
  assert (forall j, reg (ioapic_enable_irq 0 64 (64 + 4) (for_loop 8 80 (ioapic_enable_irq 0 64)
    (for_loop 24 0 (fun irq => ioapic_disable_irq 64 (64 + irq)) (snd (read_ioapic_register 1 a))))) j =
    if decide (j = 0x18) then 0x2044 else if decide (j = 0x19) then 0
    else if decide (0x30 <= j < 0x40) then (if Z.even j then 0x2040 + (j - 0x10) / 2 else 0)
    else if decide (0x10 <= j < 0x40 /\ Z.even j = true) then 0x10000 else reg a j) as Hj.
  { intros j. rewrite reg_enable by lia. rewrite enable_pci, disable_all, reg_read. done. }
  split.
  - intros k Hk. rewrite !Hj. unfold pin_enabled.
    assert (Z.even (16 + 2 * k) = true /\ Z.even (17 + 2 * k) = false) as [-> ->].
    { replace (17 + 2 * k) with (1 + 2 * (8 + k)) by lia. rewrite !Z.even_add_mul_2. done. }
    destruct (Z.leb_spec 16 k), (Z.ltb_spec k 24), (Z.eqb_spec k 4); cbn [andb orb]; try lia.
    all: split; repeat case_decide; try done; try dlia.
  - intros j Hout. rewrite Hj. repeat case_decide; try lia; done.
Qed.

(** ** Entries of the interrupt table *)

(** Memory holds [bs] from [a] on. *)
Definition holds (m : memory) (a : Z) (bs : list Z) : Prop := forall k b, bs !! k = Some b -> m (a + Z.of_nat k) = b.

Lemma holds_app m a bs cs : holds m a (bs ++ cs) <-> holds m a bs /\ holds m (a + Z.of_nat (length bs)) cs.
Proof.
  split.
  - intros H. split; intros k b Hk.
    + apply H. by apply lookup_app_l_Some.
    + replace (a + Z.of_nat (length bs) + Z.of_nat k) with (a + Z.of_nat (length bs + k)) by lia. apply H.
      rewrite lookup_app_r by lia. by replace (length bs + k - length bs)%nat with k by lia.
  - intros [H1 H2] k b [Hk|[Hge Hk]]%lookup_app_Some; [by apply H1|].
    replace (a + Z.of_nat k) with (a + Z.of_nat (length bs) + Z.of_nat (k - length bs)) by lia. by apply H2.
Qed.

Lemma holds_cons m a b bs : holds m a (b :: bs) -> m a = b /\ holds m (a + 1) bs.
Proof. intros H. apply (holds_app m a [b] bs) in H as [H1 H2]. split; [|done]. rewrite <- (Z.add_0_r a). by apply (H1 0%nat). Qed.

Lemma le_read_value m a bs : holds m a bs -> 0 <= a -> a + Z.of_nat (length bs) <= 2 ^ 64 -> le_read (length bs) m a = le_value bs.
Proof.
  revert a. induction bs as [|b bs IH]; intros a H Ha Hb; [done|]. cbn [length] in *. apply holds_cons in H as [H1 H2].
  cbn [le_read le_value]. rewrite wrap_small by (unfold uint; lia). rewrite H1. rewrite IH; [done|done|lia|lia].
Qed.

(** An entry is its type, its length and what follows. *)
Definition entry_bytes (e : Z * list Z) : list Z := fst e :: 2 + Z.of_nat (length (snd e)) :: snd e.
Definition madt_bytes (es : list (Z * list Z)) : list Z := es ≫= entry_bytes.

(** Address and first interrupt in an entry of type 1; they follow a byte of
    identification and a reserved one. *)
Definition entry_ioapic (payload : list Z) : Z * Z := (le_value (take 4 (drop 2 payload)), le_value (take 4 (drop 6 payload))).
Fixpoint first_ioapic (es : list (Z * list Z)) : Z * Z :=
  match es with
  | [] => (0, 0)
  | (ty, payload) :: es => if ty =? 1 then entry_ioapic payload else first_ioapic es
  end.
Definition wf_entry (e : Z * list Z) : Prop := Z.of_nat (length (snd e)) <= 253 /\ (fst e = 1 -> (10 <= length (snd e))%nat).

Lemma madt_loop_ok fuel m p rest off es : Forall wf_entry es -> holds m (p + off) (madt_bytes es) -> rest = off + Z.of_nat (length (madt_bytes es)) ->
  0 <= off -> 0 <= p -> p + rest < 2 ^ 64 -> (length (madt_bytes es) < fuel)%nat ->
  madt_loop fuel m p rest off = Ret (first_ioapic es).
Proof.
  revert fuel off. induction es as [|[ty pl] es IH]; intros fuel off Hw Hh Hr Ho Hp Hb Hf; (destruct fuel as [|fuel]; [lia|]); cbn [madt_loop].
  - cbn in Hr. by rewrite (proj2 (Z.ltb_ge _ _)) by lia.
  - unfold madt_bytes in Hh, Hr, Hf. rewrite bind_cons in Hh, Hr, Hf. fold (madt_bytes es) in Hh, Hr, Hf. rewrite length_app in Hr, Hf.
    unfold entry_bytes in Hr, Hf, Hh. cbn [fst snd length] in Hr, Hf. cbn [fst snd] in Hh. apply Forall_cons in Hw as [[Hw1 Hw2] Hw]. cbn [fst snd] in Hw1, Hw2.
    rewrite (proj2 (Z.ltb_lt _ _)) by lia. rewrite <- app_comm_cons in Hh. apply holds_cons in Hh as [Ht Hh]. rewrite <- app_comm_cons in Hh.
    apply holds_cons in Hh as [Hl Hh]. apply holds_app in Hh as [Hpl Hh].
    rewrite (wrap_small 64 (p + off)), (wrap_small 64 (p + off + 1)) by (unfold uint; lia). rewrite Ht, Hl.
    rewrite wrap_small by (unfold uint; lia). cbn [first_ioapic]. destruct (Z.eqb_spec ty 1) as [->|_].
    + specialize (Hw2 eq_refl). f_equal. unfold entry_ioapic.
      assert (forall n, (n + 4 <= length pl)%nat -> le_read 4 m (p + off + 2 + Z.of_nat n) = le_value (take 4 (drop n pl))) as Hv.
      { intros n Hn. assert (length (take 4 (drop n pl)) = 4%nat) as El by (rewrite length_take, length_drop; lia).
        rewrite <- El at 1. apply le_read_value; [|lia|lia]. intros k b Hk. apply lookup_take_Some in Hk as [Hk _]. rewrite lookup_drop in Hk.
        replace (p + off + 2 + Z.of_nat n + Z.of_nat k) with (p + off + 1 + 1 + Z.of_nat (n + k)) by lia. by apply Hpl. }
      rewrite <- (Hv 2%nat), <- (Hv 6%nat) by lia. do 2 f_equal; lia.
    + apply IH; [done| |lia|lia|lia|lia|lia].
      replace (p + (off + (2 + Z.of_nat (length pl)))) with (p + off + 1 + 1 + Z.of_nat (length pl)) by lia. done.
Qed.

(** An interrupt table at [table]. *)
Record madt_at (m : memory) (table flags : Z) (es : list (Z * list Z)) : Prop := {
  ma_place : 0 <= table /\ table + 44 + Z.of_nat (length (madt_bytes es)) < 2 ^ 64;
  ma_length : sdt_length m table = 44 + Z.of_nat (length (madt_bytes es));
  ma_flags : le_read 4 m (table + 40) = flags;
  ma_entries : holds m (table + 44) (madt_bytes es);
  ma_wf : Forall wf_entry es
}.

Lemma ioapic_init_ok {D} (s : Machine D) table flags es : madt_at (mem s) table flags es ->
  (fst (first_ioapic es) = 0 -> ioapic_init table s = Panic "No IO APIC available!") /\
  (fst (first_ioapic es) <> 0 -> get_bits 16 8 (reg (ioapic0 s) 1) = 23 ->
     ioapic_init table s = Ret (tt, mkMachine (mem s) (ioapic_setup (ioapic0 s)) (Z.odd flags || pic_masked s) (pci_bus s))).
Proof.
  intros [[Hp1 Hp2] Hlen Hfl Hh Hw]. set (s1 := mkMachine (mem s) (ioapic0 s) (Z.odd flags || pic_masked s) (pci_bus s)).
  assert (forall k : ST (Machine D) unit, ((if negb (Z.land flags 1 =? 0) then mask_pic else mret tt);; k) s = k s1) as Hpic.
  { intros k. assert (Z.land flags 1 = if Z.odd flags then 1 else 0) as ->.
    { change 1 with (Z.ones 1) at 1. rewrite Z.land_ones by lia. change (2 ^ 1) with 2. apply Zmod_odd. }
    unfold s1. destruct (Z.odd flags); [done|]. by destruct s. }
  assert (forall k : unit -> ST (Machine D) unit,
    lift_pure (madt_loop (S (Z.to_nat (Z.of_nat (length (madt_bytes es))))) (mem s) (table + 44) (Z.of_nat (length (madt_bytes es))) 0) s1 = Ret (first_ioapic es, s1)) as Hloop.
  { intros _. unfold lift_pure. rewrite (madt_loop_ok _ _ _ _ _ es); [done|done|by rewrite Z.add_0_r|lia|lia|lia|lia|lia]. }
  unfold ioapic_init. rewrite bind_ret with (a := mem s) (s' := s) by done. unfold sdt_data, sizeof_SystemDescriptionTable.
  rewrite (wrap_small 64 (table + 36)) by (unfold uint; lia). replace (table + 36 + 4) with (table + 40) by lia. rewrite Hfl, Hpic.
  cbv zeta. rewrite Hlen. rewrite (wrap_small 64 (44 + _ - 36)) by (unfold uint; lia). rewrite wrap_small by (unfold uint; lia).
  replace (44 + Z.of_nat (length (madt_bytes es)) - 36 - 8) with (Z.of_nat (length (madt_bytes es))) by lia.
  replace (table + 36 + 8) with (table + 44) by lia. rewrite bind_ret with (a := first_ioapic es) (s' := s1) by (by apply (Hloop (fun _ => mret tt))).
  destruct (first_ioapic es) as [phy gsb]. cbn [fst]. split.
  - intros ->. done.
  - intros Hne Hv. rewrite (proj2 (Z.eqb_neq _ _) Hne). cbn [negb]. cbn [do_assert]. rewrite bind_mret_l.
    assert (Z.land (Z.shiftr (reg (ioapic0 s) 1) 16) 0xff = 23) as Hv' by exact Hv.
    unfold mbind, st_bind, gets, on_ioapic, modify, do_assert. cbn [fst read_ioapic_register ioapic0 s1]. change (wrap8 1) with 1. rewrite Hv'. done.
Qed.

(** With the interrupt table of the firmware at [table], [ioapic_init] uses the
    first I/O controller listed; without one it panics.  Otherwise, when the
    controller has 24 pins, the PCI pins 16 to 23 and the serial port's pin 4 raise
    vector 0x40 plus their number on processor 0, every other pin is masked, and
    the old controller is masked if the table asks for it. *)
Theorem ioapic_init_routes {D} (s : Machine D) table flags es :
  madt_at (mem s) table flags es ->
  (fst (first_ioapic es) = 0 -> ioapic_init table s = Panic "No IO APIC available!") /\
  (fst (first_ioapic es) <> 0 -> get_bits 16 8 (reg (ioapic0 s) 1) = 23 -> exists a,
     ioapic_init table s = Ret (tt, mkMachine (mem s) a (Z.odd flags || pic_masked s) (pci_bus s)) /\ routes (ioapic0 s) a).
Proof.
  intros Hm. destruct (ioapic_init_ok s table flags es Hm) as [H1 H2]. split; [done|]. intros Hne Hv.
  exists (ioapic_setup (ioapic0 s)). split; [by apply H2|apply ioapic_setup_routes].
Qed.

(** ** Finding the tables *)

Definition sdt_at (phy : Z) : Z := wrap64 (phy + KERNEL_START).
Definition table_with (m : memory) (sig : list Z) (phy : Z) : Prop := phy < IDENTITY_MAP_PHY_END /\ has_signature m (sdt_at phy) sig = true.
#[local] Instance table_with_dec m sig phy : Decision (table_with m sig phy).
Proof. apply and_dec; [apply _|]. exact (decide (has_signature m (sdt_at phy) sig = true)). Defined.

(** The last table of a kind among those listed. *)
Definition last_table (m : memory) (sig : list Z) (l : list Z) (dflt : Z) : Z := foldl (fun d phy => if decide (table_with m sig phy) then sdt_at phy else d) dflt l.

Lemma signatures_differ m a : has_signature m a ACPI_TABLE_SIGNATURE_PCIE_CONFIG = true -> has_signature m a ACPI_TABLE_SIGNATURE_APIC = true -> False.
Proof. unfold has_signature. intros E1%bool_decide_eq_true E2%bool_decide_eq_true. rewrite E1 in E2. done. Qed.

Lemma tables_loop_ok m tp l i p a : (forall j x, l !! j = Some x -> le_read 8 m (tp + 8 * (i + Z.of_nat j)) = x) ->
  tables_loop (length l) m tp i p a = (last_table m ACPI_TABLE_SIGNATURE_PCIE_CONFIG l p, last_table m ACPI_TABLE_SIGNATURE_APIC l a).
Proof.
  revert i p a. induction l as [|x l IH]; intros i p a Hl; [done|]. cbn [length tables_loop].
  pose proof (Hl 0%nat x eq_refl) as E0. cbn [Z.of_nat] in E0. rewrite Z.add_0_r in E0. rewrite E0. fold (sdt_at x).
  assert (forall p a, tables_loop (length l) m tp (i + 1) p a = (last_table m ACPI_TABLE_SIGNATURE_PCIE_CONFIG l p, last_table m ACPI_TABLE_SIGNATURE_APIC l a)) as IH'.
  { intros p' a'. apply IH. intros j y Hj. rewrite <- (Hl (S j) y Hj). do 2 f_equal. lia. }
  unfold last_table. cbn [foldl]. fold (last_table m ACPI_TABLE_SIGNATURE_PCIE_CONFIG l) (last_table m ACPI_TABLE_SIGNATURE_APIC l).
  destruct (Z.ltb_spec x IDENTITY_MAP_PHY_END) as [Hx|Hx].
  - destruct (has_signature m (sdt_at x) ACPI_TABLE_SIGNATURE_PCIE_CONFIG) eqn:Ep.
    + rewrite IH'. rewrite (decide_True (P := table_with m ACPI_TABLE_SIGNATURE_PCIE_CONFIG x)) by done.
      rewrite (decide_False (P := table_with m ACPI_TABLE_SIGNATURE_APIC x)); [done|]. intros [_ Ea]. by eapply signatures_differ.
    + rewrite (decide_False (P := table_with m ACPI_TABLE_SIGNATURE_PCIE_CONFIG x)) by (intros [_ E]; congruence).
      destruct (has_signature m (sdt_at x) ACPI_TABLE_SIGNATURE_APIC) eqn:Ea; rewrite IH'.
      * by rewrite (decide_True (P := table_with m ACPI_TABLE_SIGNATURE_APIC x)).
      * by rewrite (decide_False (P := table_with m ACPI_TABLE_SIGNATURE_APIC x)) by (intros [_ E]; congruence).
  - rewrite IH'. rewrite !decide_False by (intros [? _]; lia). done.
Qed.

(** The root table at physical address [xsdt] lists the addresses [l]. *)
Record xsdt_at (m : memory) (xsdt : Z) (l : list Z) : Prop := {
  xa_range : 0 < xsdt < IDENTITY_MAP_PHY_END;
  xa_signature : has_signature m (sdt_at xsdt) sig_XSDT = true;
  xa_length : sdt_length m (sdt_at xsdt) = 36 + 8 * Z.of_nat (length l) /\ 8 * Z.of_nat (length l) < 2 ^ 32;
  xa_tables j x : l !! j = Some x -> le_read 8 m (sdt_at xsdt + 36 + 8 * Z.of_nat j) = x
}.

Lemma efi_tables_ok {D} (s : Machine D) xsdt l :
  xsdt_at (mem s) xsdt l ->
  let apic := last_table (mem s) ACPI_TABLE_SIGNATURE_APIC l 0 in
  let pcie := last_table (mem s) ACPI_TABLE_SIGNATURE_PCIE_CONFIG l 0 in
  (apic = 0 -> efi_tables xsdt s = Panic "Cannot find APIC SDT") /\
  (forall flags es n, apic <> 0 -> madt_at (mem s) apic flags es -> fst (first_ioapic es) <> 0 -> get_bits 16 8 (reg (ioapic0 s) 1) = 23 ->
     pcie <> 0 -> 0 <= pcie -> pcie + 36 < 2 ^ 64 -> 0 <= n < 2 ^ 28 -> sdt_length (mem s) pcie = 44 + 16 * n ->
     efi_tables xsdt s = Ret ((fun i => read_group (mem s) (pcie + 44 + 16 * i)) <$> seqZ 0 n,
                              mkMachine (mem s) (ioapic_setup (ioapic0 s)) (Z.odd flags || pic_masked s) (pci_bus s))).
Proof.
  intros [Hr Hsig [Hlen Hsz] Hl] apic pcie. unfold efi_tables. rewrite (proj2 (Z.eqb_neq _ _)) by lia. rewrite (proj2 (Z.ltb_lt _ _)) by lia.
  cbn [negb do_assert]. rewrite !bind_mret_l. cbv zeta. fold (sdt_at xsdt).
  rewrite bind_ret with (a := mem s) (s' := s) by done. rewrite Hsig. cbn [do_assert]. rewrite bind_mret_l. rewrite Hlen.
  unfold sizeof_SystemDescriptionTable.
  assert (sdt_at xsdt = KERNEL_START + xsdt) as Ex.
  { unfold sdt_at. rewrite Z.add_comm. apply wrap_small. change IDENTITY_MAP_PHY_END with (2 ^ 32) in Hr. unfold uint, KERNEL_START. lia. }
  assert (sdt_data (sdt_at xsdt) = sdt_at xsdt + 36) as Ed.
  { unfold sdt_data, sizeof_SystemDescriptionTable. apply wrap_small. rewrite Ex. change IDENTITY_MAP_PHY_END with (2 ^ 32) in Hr. unfold uint, KERNEL_START. lia. }
  rewrite Ed. replace (36 + 8 * Z.of_nat (length l) - 36) with (8 * Z.of_nat (length l)) by lia.
  rewrite (wrap_small 64 (8 * _)) by (unfold uint; lia). rewrite (Z.mul_comm 8), Z.div_mul, Nat2Z.id by lia.
  rewrite (tables_loop_ok (mem s) (sdt_at xsdt + 36) l 0) by (intros j x Hj; rewrite Z.add_0_l; by apply Hl). fold pcie apic. split.
  - intros ->. done.
  - intros flags es n Ha Hm Hf Hv Hpc Hp0 Hp1 Hn Hpl. rewrite (proj2 (Z.eqb_neq _ _) Ha).
    destruct (ioapic_init_ok s apic flags es Hm) as [_ Hi].
    step_with (Hi Hf Hv). rewrite (proj2 (Z.eqb_neq _ _) Hpc). rewrite Hpl. rewrite (wrap_small 64 (44 + 16 * n - 36)) by (unfold uint; lia).
    replace ((44 + 16 * n - 36) / 16) with n by dlia.
    assert (sdt_data pcie + 8 = pcie + 44) as Ed'. { unfold sdt_data, sizeof_SystemDescriptionTable. rewrite wrap_small by (unfold uint; lia). lia. }
    by rewrite Ed'.
Qed.

(** From the root table of the firmware [efi_table_init] sets up the I/O
    interrupt controller as the interrupt table says and has the PCI bus driver
    scan the segments that the configuration table lists; it panics when the
    interrupt table is missing. *)
Theorem efi_table_init_ok {D} bar_store config (driver_Enumerate : D -> PCIDeviceInfo -> bool) (s : Machine D) xsdt l :
  xsdt_at (mem s) xsdt l ->
  let apic := last_table (mem s) ACPI_TABLE_SIGNATURE_APIC l 0 in
  let pcie := last_table (mem s) ACPI_TABLE_SIGNATURE_PCIE_CONFIG l 0 in
  (apic = 0 -> efi_table_init bar_store config driver_Enumerate xsdt s = Panic "Cannot find APIC SDT") /\
  (forall flags es n, apic <> 0 -> madt_at (mem s) apic flags es -> fst (first_ioapic es) <> 0 -> get_bits 16 8 (reg (ioapic0 s) 1) = 23 ->
     pcie <> 0 -> 0 <= pcie -> pcie + 36 < 2 ^ 64 -> 0 <= n < 2 ^ 28 -> sdt_length (mem s) pcie = 44 + 16 * n -> exists a,
     efi_table_init bar_store config driver_Enumerate xsdt s =
       Ret (tt, mkMachine (mem s) a (Z.odd flags || pic_masked s)
                  (Enumerate bar_store config driver_Enumerate ((fun i => read_group (mem s) (pcie + 44 + 16 * i)) <$> seqZ 0 n) (pci_bus s))) /\
     routes (ioapic0 s) a).
Proof.
  intros Hx apic pcie. destruct (efi_tables_ok s xsdt l Hx) as [H1 H2]. unfold efi_table_init. split.
  - intros E. unfold mbind, st_bind. by rewrite (H1 E).
  - intros flags es n Ha Hm Hf Hv Hpc Hp0 Hp1 Hn Hpl. exists (ioapic_setup (ioapic0 s)). split; [|apply ioapic_setup_routes].
    by step_with (H2 flags es n Ha Hm Hf Hv Hpc Hp0 Hp1 Hn Hpl).
Qed.

(** ** Concrete runs *)

(** The root table at 0x1000, the interrupt table at 0x2000 with a processor, an
    I/O controller and an override, and the configuration table at 0x3000. *)
Definition ex_entries : list (Z * list Z) :=
  [(0, [0; 0; 1; 0; 0; 0]); (1, [0; 0; 0; 0; 0xc0; 0xfe; 0; 0; 0; 0]); (2, [0; 0; 2; 0; 0; 0; 0; 0])].
Definition ex_tables : memory := fun a =>
  let at_ (phy : Z) (bs : list Z) (rest : Z) := if (KERNEL_START + phy <=? a) && (a <? KERNEL_START + phy + Z.of_nat (length bs)) then nth (Z.to_nat (a - KERNEL_START - phy)) bs 0 else rest in
  at_ 0x1000 (sig_XSDT ++ le_bytes 4 52 ++ repeat 0 28 ++ le_bytes 8 0x2000 ++ le_bytes 8 0x3000)
    (at_ 0x2000 (ACPI_TABLE_SIGNATURE_APIC ++ le_bytes 4 (44 + 30) ++ repeat 0 28 ++ le_bytes 4 0xfee00000 ++ le_bytes 4 1 ++ madt_bytes ex_entries)
      (at_ 0x3000 (ACPI_TABLE_SIGNATURE_PCIE_CONFIG ++ le_bytes 4 60 ++ repeat 0 36 ++ le_bytes 8 0xb0000000 ++ [0; 0; 0; 1; 0; 0; 0; 0]) 0)).
Definition ex_ioapic : IoApic := mkIoApic 0 (<[1 := 0x170020]> ∅).
Definition ex_machine : Machine KernelDriver := mkMachine ex_tables ex_ioapic false ex_bus.

Lemma ex_madt : madt_at ex_tables (KERNEL_START + 0x2000) 1 ex_entries.
Proof.
  split; [by vm_compute|by vm_compute|by vm_compute| |].
  - intros k b Hk. assert (k < 30)%nat as Hlt by (apply lookup_lt_Some in Hk; exact Hk).
    do 30 (destruct k as [|k]; [injection Hk as <-; by vm_compute|]). lia.
  - repeat (apply Forall_cons; split; [split; cbn; lia|]). apply Forall_nil; done.
Qed.

Lemma ioapic_init_routes_witness :
  exists a, ioapic_init (KERNEL_START + 0x2000) ex_machine = Ret (tt, mkMachine ex_tables a true ex_bus) /\ routes ex_ioapic a.
Proof. apply (ioapic_init_routes ex_machine (KERNEL_START + 0x2000) 1 ex_entries); [exact ex_madt|by vm_compute|by vm_compute]. Defined.

Lemma ex_xsdt : xsdt_at ex_tables 0x1000 [0x2000; 0x3000].
Proof.
  split; [by vm_compute|by vm_compute|by vm_compute|].
  intros j x Hj. destruct j as [|[|j]]; [injection Hj as <-; by vm_compute..|done].
Qed.

Lemma efi_table_init_ok_witness :
  exists a, efi_table_init (ex_store 8) ex_config (fun _ _ => true) 0x1000 ex_machine =
    Ret (tt, mkMachine ex_tables a true (Enumerate (ex_store 8) ex_config (fun _ _ => true) [mkGroup 0xb0000000 0 0 1] ex_bus)) /\ routes ex_ioapic a.
Proof.
  pose proof (proj2 (efi_table_init_ok (ex_store 8) ex_config (fun _ _ => true) ex_machine 0x1000 [0x2000; 0x3000] ex_xsdt) 1 ex_entries 1) as H.
  cbv zeta in H. assert (last_table (mem ex_machine) ACPI_TABLE_SIGNATURE_APIC [0x2000; 0x3000] 0 = KERNEL_START + 0x2000) as Ea by (by vm_compute).
  assert (last_table (mem ex_machine) ACPI_TABLE_SIGNATURE_PCIE_CONFIG [0x2000; 0x3000] 0 = KERNEL_START + 0x3000) as Ep by (by vm_compute).
  rewrite Ea, Ep in H. apply H; [by vm_compute|exact ex_madt|by vm_compute|by vm_compute|by vm_compute|by vm_compute|by vm_compute|lia|by vm_compute].
Defined.
