(* ===== verification/Lapic.v ===== *)
(** * device/apic.cpp: the local interrupt controller and its timer

    The registers are a finite map from offset to word.  What the timer counts
    down to while [setup_timer] waits is a parameter. *)
From S2P Require Import Prelude CpuDefs.

Module Lapic.

Definition APIC_TASKPRIOR : Z := 0x80.
Definition APIC_EOI : Z := 0xb0.
Definition APIC_LDR : Z := 0xd0.
Definition APIC_DFR : Z := 0xe0.
Definition APIC_SPURIOUS : Z := 0xf0.
Definition APIC_LVT_TMR : Z := 0x320.
Definition APIC_LVT_PERF : Z := 0x340.
Definition APIC_LVT_LINT0 : Z := 0x350.
Definition APIC_LVT_LINT1 : Z := 0x360.
Definition APIC_TMRINITCNT : Z := 0x380.
Definition APIC_TMRDIV : Z := 0x3e0.
Definition APIC_DISABLE : Z := 0x10000.
Definition APIC_SW_ENABLE : Z := 0x100.
Definition APIC_NMI : Z := Z.shiftl 4 8.
Definition TMR_PERIODIC : Z := 0x20000.
Definition IRQ_TIMER : Z := 32.
Definition IRQ_SPURIOUS : Z := 37.

Record APIC := mkApic { apic_base : Z; apic_regs : gmap Z Z; base_msr : Z }.
Abbreviation M := (ST APIC).

Definition read (addr : Z) : M Z := gets (fun s => default 0 (apic_regs s !! addr)).
Definition write (addr data : Z) : M unit := modify (fun s => mkApic (apic_base s) (<[addr := wrap32 data]> (apic_regs s)) (base_msr s)).
Definition eoi : M unit := write APIC_EOI 0.

(** [current] is the current count when the waiting loop is over. *)
Definition setup_timer (current : Z) : M unit :=
  write APIC_DFR 0xffffffff;;
  ldr ← read APIC_LDR;
  write APIC_LDR (Z.lor (Z.land ldr 0x00ffffff) 1);;
  write APIC_LVT_TMR APIC_DISABLE;;
  write APIC_LVT_PERF APIC_NMI;;
  write APIC_LVT_LINT0 APIC_DISABLE;;
  write APIC_LVT_LINT1 APIC_DISABLE;;
  write APIC_TASKPRIOR 0;;
  modify (fun s => mkApic (apic_base s) (apic_regs s) (Z.lor (base_msr s) (Z.shiftl 1 11)));;
  write APIC_SPURIOUS (IRQ_SPURIOUS + APIC_SW_ENABLE);;
  write APIC_LVT_TMR 32;;
  write APIC_TMRDIV 3;;
  write APIC_TMRINITCNT 0xffffffff;;
  lvt ← read APIC_LVT_TMR;
  write APIC_LVT_TMR (Z.ldiff lvt (Z.shiftl 1 16));;
  let ticks := wrap32 (0xffffffff - current) in
  write APIC_LVT_TMR (Z.lor IRQ_TIMER TMR_PERIODIC);;
  write APIC_TMRDIV 3;;
  write APIC_TMRINITCNT ticks.

(** The constructor, given the contents of the base register. *)
Definition APIC_new (msr : Z) (regs : gmap Z Z) (current : Z) : outcome APIC :=
  let apic_base_phy := Z.land msr 0xfffffffff000 in
  let apic_base := wrap64 (apic_base_phy + KERNEL_START) in
  if apic_base <? IDENTITY_MAP_END then
    match setup_timer current (mkApic apic_base regs msr) with
    | Ret (_, s) => Ret s
    | Panic m => Panic m | Halt => Halt | Fault => Fault | OutOfFuel => OutOfFuel
    end
  else Panic "APIC base must be below IDENTITY_MAP_END".

(** The local controller after initialisation: enabled, with the spurious vector
    37; the timer raises vector 32 periodically, once per number of ticks counted
    while waiting; the external pins are masked and every priority is accepted. *)
Theorem lapic_timer msr regs current :
  uint 32 current -> wrap64 (Z.land msr 0xfffffffff000 + KERNEL_START) < IDENTITY_MAP_END ->
  exists s, APIC_new msr regs current = Ret s /\ Z.testbit (base_msr s) 11 = true /\
    apic_regs s !! APIC_LVT_TMR = Some 0x20020 /\ apic_regs s !! APIC_TMRINITCNT = Some (2 ^ 32 - 1 - current) /\
    apic_regs s !! APIC_SPURIOUS = Some 0x125 /\ apic_regs s !! APIC_LVT_LINT0 = Some 0x10000 /\ apic_regs s !! APIC_LVT_LINT1 = Some 0x10000 /\
    apic_regs s !! APIC_TASKPRIOR = Some 0.
Proof.
  intros Hc Hb. unfold APIC_new. rewrite (proj2 (Z.ltb_lt _ _) Hb).
  assert (wrap32 (wrap32 (0xffffffff - current)) = 2 ^ 32 - 1 - current) as E.
  { rewrite wrap_wrap. apply wrap_small. unfold uint in *. lia. }
  cbv [setup_timer write read modify gets mbind st_bind apic_base apic_regs base_msr]. rewrite E.
  eexists. split; [reflexivity|]. cbn [apic_regs base_msr]. split; [rewrite Z.lor_spec; by rewrite orb_true_r|].
  unfold APIC_LVT_TMR, APIC_TMRINITCNT, APIC_SPURIOUS, APIC_LVT_LINT0, APIC_LVT_LINT1, APIC_TASKPRIOR, APIC_TMRDIV, APIC_LDR, APIC_DFR, APIC_LVT_PERF.
  rewrite !lookup_insert. repeat split; reflexivity.
Qed.

(** The base register keeps its address and is enabled. *)
Lemma APIC_new_msr msr regs current s : APIC_new msr regs current = Ret s -> base_msr s = Z.lor msr (Z.shiftl 1 11).
Proof.
  unfold APIC_new. destruct (_ <? _); [|done]. cbv [setup_timer write read modify gets mbind st_bind apic_base apic_regs base_msr].
  intros [= <-]. reflexivity.
Qed.

End Lapic.
