(* ===== verification/Start.v ===== *)
(** * Kernel::start up to the first process

    kernel.cpp, the constructor of irq.cpp and lapic_init of device/apic.cpp: the
    order of the initialisation calls up to the local interrupt controller, over
    the components modelled elsewhere.  What it prints, the calls of the global
    constructors included, is in [Debug]; what follows is in [StartDevices].  Interrupt handlers run over [Live]. *)
From S2P Require Import Prelude LibUtils CpuDefs LibString SmallVec Paging Buddy PageAlloc Process Syscall Irq ContextSwitch Mm Cpu MmInit Lapic.

Module Start.
Import LibString SmallVec Process Cpu.

(** What the handlers registered here work on. *)
Record Live := mkLive { live_sys : Syscall.Sys; live_apic : Lapic.APIC }.

Record System := mkSystem {
  mm : MmInit.MM;
  kern : Kernel;
  stacks_ : SmallVec (Z * Z);
  irq_ : Z;
  main_idt_ : gmap Z Z;
  interrupts_ : Irq.handler_table Live;
  fs_root_ : Z;
  apic : Lapic.APIC
}.
Abbreviation M := (ST System).

Definition on_mm {A} (c : ST MmInit.MM A) : M A := fun s =>
  match c (mm s) with
  | Ret (a, m) => Ret (a, mkSystem m (kern s) (stacks_ s) (irq_ s) (main_idt_ s) (interrupts_ s) (fs_root_ s) (apic s))
  | Panic m => Panic m | Halt => Halt | Fault => Fault | OutOfFuel => OutOfFuel
  end.
Definition on_kern {A} (c : ST Kernel A) : M A := fun s =>
  match c (kern s) with
  | Ret (a, k) => Ret (a, mkSystem (mm s) k (stacks_ s) (irq_ s) (main_idt_ s) (interrupts_ s) (fs_root_ s) (apic s))
  | Panic m => Panic m | Halt => Halt | Fault => Fault | OutOfFuel => OutOfFuel
  end.
Definition Register (id : Z) (h : Irq.InterruptHandler Live) : M unit := fun s =>
  match Irq.Register id h (interrupts_ s) with
  | Ret t => Ret (tt, mkSystem (mm s) (kern s) (stacks_ s) (irq_ s) (main_idt_ s) t (fs_root_ s) (apic s))
  | Panic m => Panic m | Halt => Halt | Fault => Fault | OutOfFuel => OutOfFuel
  end.

(** [kmalloc] in [knew]. *)
Definition knew (size : Z) : M Z := on_kern (page_alloc (PageAlloc.kmalloc size)).

Definition MaxValidStacks : Z := 8.
Definition APIC_BASE_MSR : Z := 0x1b.

(** A handler is a [std::function] of 32 bytes. *)
Definition sizeof_Interrupt : Z := Irq.MaxHandlersPerInterrupt * 32 + 8.
Definition main_idt_offset : Z := 8 + Irq.MaxInterrupts * sizeof_Interrupt.
Definition sizeof_InterruptProcessor : Z := main_idt_offset + Irq.MaxInterrupts * 16.
Definition sizeof_MemFsDirNode : Z := 8 + 48 + 8.

(** ** Interrupt handlers *)

Definition live_on_sys (c : ST Syscall.Sys unit) : ST Live unit := fun l =>
  match c (live_sys l) with
  | Ret (_, s) => Ret (tt, mkLive s (live_apic l))
  | Panic m => Panic m | Halt => Halt | Fault => Fault | OutOfFuel => OutOfFuel
  end.
Definition live_on_apic (c : ST Lapic.APIC unit) : ST Live unit := fun l =>
  match c (live_apic l) with
  | Ret (_, a) => Ret (tt, mkLive (live_sys l) a)
  | Panic m => Panic m | Halt => Halt | Fault => Fault | OutOfFuel => OutOfFuel
  end.
Definition syscall_handler : Irq.InterruptHandler Live := fun info => live_on_sys (ContextSwitch.syscall_handler info).
Definition timer_handler : Irq.InterruptHandler Live := fun _ => live_on_apic Lapic.eoi.

Section image.
(** Addresses the linker chooses. *)
Context (kernel_gdt_addr tss_addr t_vaddr : Z) (interrupt_stack interrupt_stack_bottom : Z).
Context (kernel_init_stack kernel_init_stack_bottom : Z) (handler_addr : Irq.stub -> Z).
Context (process_entrypoint main_start : Z) (raw_context : Context) (raw_cookie : Z).
(** The registers of the local controller, and the count its timer reaches. *)
Context (apic_regs : gmap Z Z) (current : Z).

(** [kernel_init_stack] is declared as a pointer here and is an array: its value
    is the first eight bytes of the array. *)
Definition stacks_init : M unit := fun s =>
  let p := le_value (read_bytes (MmInit.bytes (mm s)) kernel_init_stack 8) in
  match (push_back MaxValidStacks (p, kernel_init_stack_bottom);; push_back MaxValidStacks (interrupt_stack, interrupt_stack_bottom)) (stacks_ s) with
  | Ret (_, v) => Ret (tt, mkSystem (mm s) (kern s) v (irq_ s) (main_idt_ s) (interrupts_ s) (fs_root_ s) (apic s))
  | Panic m => Panic m | Halt => Halt | Fault => Fault | OutOfFuel => OutOfFuel
  end.

(** The constructor of [InterruptProcessor] at [this]. *)
Definition InterruptProcessor_new (this : Z) : M unit :=
  cs ← on_mm (MmInit.on_cpu get_cs);
  modify (fun s => mkSystem (mm s) (kern s) (stacks_ s) (irq_ s) (Irq.setup_idt handler_addr cs) ∅ (fs_root_ s) (apic s));;
  on_mm (MmInit.on_cpu (load_idt (wrap64 (this + main_idt_offset)) 0xfff)).
Definition irq_init : M unit :=
  processor ← knew sizeof_InterruptProcessor;
  InterruptProcessor_new processor;;
  modify (fun s => mkSystem (mm s) (kern s) (stacks_ s) processor (main_idt_ s) (interrupts_ s) (fs_root_ s) (apic s)).

Definition create_root_dir : M unit :=
  root ← knew sizeof_MemFsDirNode;
  modify (fun s => mkSystem (mm s) (kern s) (stacks_ s) (irq_ s) (main_idt_ s) (interrupts_ s) root (apic s)).

(** The kernel's part of the new process's tables is read when it is created. *)
Definition start_process_init : M unit :=
  pdpt ← on_mm MmInit.get_kernel_pdpt_phy_addr;
  on_kern (modify (fun k => mkKernel (allocator k) (processes k) (next_pid k) (current_pid k) pdpt));;
  on_kern (process_init process_entrypoint raw_context raw_cookie main_start).

Definition SetupSyscall : M unit := Register ContextSwitch.IRQ_SYSCALL syscall_handler.

Definition set_apic (o : outcome Lapic.APIC) : M unit := fun s =>
  match o with
  | Ret a => Ret (tt, mkSystem (mm s) (kern s) (stacks_ s) (irq_ s) (main_idt_ s) (interrupts_ s) (fs_root_ s) a)
  | Panic m => Panic m | Halt => Halt | Fault => Fault | OutOfFuel => OutOfFuel
  end.
(** The base register is read and written back by the constructor. *)
Definition lapic_init : M unit :=
  old ← on_mm (MmInit.on_cpu (get_msr APIC_BASE_MSR));
  set_apic (Lapic.APIC_new old apic_regs current);;
  a ← gets apic;
  on_mm (MmInit.on_cpu (set_msr APIC_BASE_MSR (Lapic.base_msr a)));;
  Register Lapic.IRQ_TIMER timer_handler.

(** The allocator that [mm_init] created. *)
Definition take_allocator : M unit :=
  b ← gets (fun s => MmInit.buddy_allocator (mm s));
  match b with Some b => on_kern (modify (with_allocator b)) | None => fault end.

(** [Kernel::start], up to [lapic_init], in two parts. *)
Definition start_early (kernel_physical_start kernel_physical_size : Z) (mds : list Mm.MemoryDescriptor) : M unit :=
  on_mm (MmInit.on_cpu cli);;
  (if negb (kernel_physical_start mod PAGE_SIZE =? 0) then panic "Kernel start address not page aligned" else mret tt);;
  on_mm (MmInit.mm_init kernel_gdt_addr tss_addr t_vaddr interrupt_stack_bottom kernel_physical_start kernel_physical_size mds);;
  take_allocator;;
  stacks_init;;
  irq_init.
Definition start (kernel_physical_start kernel_physical_size : Z) (mds : list Mm.MemoryDescriptor) : M unit :=
  start_early kernel_physical_start kernel_physical_size mds;;
  create_root_dir;;
  start_process_init;;
  SetupSyscall;;
  lapic_init.

End image.

End Start.
