(* ===== verification/StartThms.v ===== *)
(** * The kernel before the first process runs *)
From S2P Require Import Prelude LibUtils CpuDefs LibString SmallVec Paging PagingProofs PagingThms BuddyTree Buddy BuddyInv BuddyProofs BuddySpec BuddyThms PageAlloc PageAllocThms Process ProcessProofs ProcessThms AllocChain Syscall Irq ContextSwitch Threads Mm MmThms Cpu MmInit MmInitThms Lapic Start.
Import LibString SmallVec Process Cpu Start.

Lemma on_mm_run {A} (c : ST MmInit.MM A) s a m : c (mm s) = Ret (a, m) ->
  on_mm c s = Ret (a, mkSystem m (kern s) (stacks_ s) (irq_ s) (main_idt_ s) (interrupts_ s) (fs_root_ s) (apic s)).
Proof. intros H. unfold on_mm. by rewrite H. Qed.
Lemma on_kern_run {A} (c : ST Kernel A) s a k : c (kern s) = Ret (a, k) ->
  on_kern c s = Ret (a, mkSystem (mm s) k (stacks_ s) (irq_ s) (main_idt_ s) (interrupts_ s) (fs_root_ s) (apic s)).
Proof. intros H. unfold on_kern. by rewrite H. Qed.

(** ** Memory *)

(** With the whole region free, an allocation succeeds. *)
Lemma kmalloc_first b n : Inv b -> Buddy.root_log2size b = 30 -> is_free b 0 -> 0 < n <= 2 ^ 30 ->
  exists a b', PageAlloc.kmalloc n b = Ret (a, b') /\ grown b b' /\ owned b' a /\ ~ owned b a.
Proof.
  intros HI H30 Hfree Hn. rewrite kmalloc_eq by lia. set (i := class_of n).
  assert (Log2MinSize <= i <= 30) as Hi.
  { unfold i, class_of. assert (Z.log2_up n <= 30) by (apply Z.log2_up_le_pow2; lia). unfold Log2MinSize. lia. }
  destruct (kernel_page_alloc_result b i HI ltac:(lia)) as (a & b' & H & Hg & [[_ Hno]|[Ho Hn']]).
  - specialize (Hno 0 Hfree). unfold level in Hno. rewrite H30 in Hno. change (depth 0) with 0 in Hno. lia.
  - by exists a, b'.
Qed.

Lemma grown_ready s s' : alloc_ready s -> grown s s' -> alloc_ready s'.
Proof. intros [H1 H2 H3] (I & (E & _) & _). split; [done|by rewrite E..]. Qed.

(** ** Interrupts *)

Section handlers.
Context (no_handler : Irq.InterruptHandler Live).

Lemma table_wf_empty : Irq.table_wf (∅ : Irq.handler_table Live).
Proof using Type. intros j. unfold Irq.handlers_. rewrite lookup_empty. unfold wf. cbn. unfold Irq.MaxHandlersPerInterrupt. lia. Qed.

Lemma Register_run id h s : Irq.table_wf (interrupts_ s) -> 0 <= id < Irq.MaxInterrupts -> (length (Irq.registered no_handler (interrupts_ s) id) < 16)%nat ->
  exists t, Register id h s = Ret (tt, mkSystem (mm s) (kern s) (stacks_ s) (irq_ s) (main_idt_ s) t (fs_root_ s) (apic s)) /\ Irq.table_wf t /\
    Irq.registered no_handler t id = Irq.registered no_handler (interrupts_ s) id ++ [h] /\
    (forall j, j <> id -> Irq.registered no_handler t j = Irq.registered no_handler (interrupts_ s) j).
Proof using Type.
  intros Hwf Hid Hlen. destruct (Irq.Register_ok no_handler id h (interrupts_ s) Hwf Hid Hlen) as (t & H & Hr). exists t. split; [|done].
  unfold Register. by rewrite H.
Qed.

End handlers.

(** ** The steps *)

Lemma lor_width w a b : 0 <= w -> uint w a -> uint w b -> uint w (Z.lor a b).
Proof.
  intros Hw [Ha1 Ha2] [Hb1 Hb2]. split; [by apply Z.lor_nonneg|].
  destruct (decide (Z.lor a b = 0)) as [->|Hn]; [apply Z.pow_pos_nonneg; lia|]. assert (0 <= Z.lor a b) by (by apply Z.lor_nonneg).
  apply Z.log2_lt_pow2; [lia|]. rewrite Z.log2_lor by lia.
  destruct (decide (w = 0)) as [->|]; [assert (a = 0) as -> by lia; assert (b = 0) as -> by lia; done|].
  apply Z.max_lub_lt; [destruct (decide (a = 0)) as [->|]|destruct (decide (b = 0)) as [->|]]; try (cbn; lia); apply Z.log2_lt_pow2; lia.
Qed.

Lemma msr_wf i c : cpu_wf c -> uint 64 (default 0 (MSR c !! i)).
Proof. intros Hc. destruct (MSR c !! i) eqn:E; [by eapply cw_msr|by vm_compute]. Qed.

Section image.
Context (kernel_gdt_addr tss_addr t_vaddr : Z) (interrupt_stack interrupt_stack_bottom : Z).
Context (kernel_init_stack kernel_init_stack_bottom : Z) (handler_addr : Irq.stub -> Z).
Context (process_entrypoint main_start : Z) (raw_context : Context) (raw_cookie : Z).
Context (apic_regs : gmap Z Z) (current : Z).
Context (Hgdt : uint 64 kernel_gdt_addr) (Htss : uint 64 tss_addr) (Hstack : uint 64 interrupt_stack_bottom) (Hcur : uint 32 current).
Context (no_handler : Irq.InterruptHandler Live).

Lemma stacks_init_run s : stacks_ s = new -> exists v,
  stacks_init interrupt_stack interrupt_stack_bottom kernel_init_stack kernel_init_stack_bottom s =
    Ret (tt, mkSystem (mm s) (kern s) v (irq_ s) (main_idt_ s) (interrupts_ s) (fs_root_ s) (apic s)) /\
  contents (0, 0) v = [(le_value (read_bytes (MmInit.bytes (mm s)) kernel_init_stack 8), kernel_init_stack_bottom); (interrupt_stack, interrupt_stack_bottom)].
Proof using Type.
  intros Hn. unfold stacks_init. rewrite Hn.
  destruct (push_back_ok (0, 0) MaxValidStacks ltac:(done) new (le_value (read_bytes (MmInit.bytes (mm s)) kernel_init_stack 8), kernel_init_stack_bottom))
    as (v1 & H1 & W1 & C1); [done|done|].
  destruct (push_back_ok (0, 0) MaxValidStacks ltac:(done) v1 (interrupt_stack, interrupt_stack_bottom)) as (v2 & H2 & W2 & C2); [done| |].
  { pose proof (length_contents (0, 0) _ _ W1) as L. rewrite C1 in L. change (length (contents (0, 0) new ++ _)) with 1%nat in L. destruct W1. unfold MaxValidStacks. lia. }
  exists v2. rewrite bind_ret with (a := size_ new) (s' := v1) by exact H1. rewrite H2. split; [reflexivity|]. rewrite C2, C1. reflexivity.
Qed.

(** A processor after [load_idt]. *)
Lemma idtr_wf x c : uint 64 (fst x) -> uint 16 (snd x) -> cpu_wf c -> cpu_wf (with_idtr x c).
Proof using Type. intros H1 H2 Hc. by destruct Hc. Qed.

Lemma irq_init_run s b : cpu_wf (MmInit.cpu (mm s)) -> allocator (kern s) = b -> Inv b -> Buddy.root_log2size b = 30 -> is_free b 0 ->
  exists p al, irq_init handler_addr s =
    Ret (tt, mkSystem (MmInit.with_cpu (with_idtr (wrap64 (p + main_idt_offset), 0xfff) (MmInit.cpu (mm s))) (mm s)) (with_allocator al (kern s)) (stacks_ s) p
               (Irq.setup_idt handler_addr (CS (MmInit.cpu (mm s)))) ∅ (fs_root_ s) (apic s)) /\
    grown b al /\ owned al p.
Proof using Type.
  intros Hc <- HI H30 Hf. destruct (kmalloc_first (allocator (kern s)) sizeof_InterruptProcessor HI H30 Hf) as (p & al & Hk & Hg & Ho & _); [by vm_compute|].
  exists p, al. split; [|done]. unfold irq_init, knew. step_with (on_kern_run _ s p _ (page_alloc_ok _ _ _ _ Hk)).
  unfold InterruptProcessor_new. rewrite bind_assoc. step_with on_mm_run; [|apply on_cpu_run; reflexivity]. rewrite bind_assoc.
  rewrite modify_bind. step_with on_mm_run; [|apply on_cpu_run; apply load_idt_run; [by apply wrap_uint|by vm_compute]]. reflexivity.
Qed.

Lemma lapic_init_run s : cpu_wf (MmInit.cpu (mm s)) -> is_Some (MSR (MmInit.cpu (mm s)) !! APIC_BASE_MSR) ->
  let msr := default 0 (MSR (MmInit.cpu (mm s)) !! APIC_BASE_MSR) in
  wrap64 (Z.land msr 0xfffffffff000 + KERNEL_START) < IDENTITY_MAP_END ->
  Irq.table_wf (interrupts_ s) -> Irq.registered no_handler (interrupts_ s) Lapic.IRQ_TIMER = [] ->
  exists a t c, lapic_init apic_regs current s =
      Ret (tt, mkSystem (MmInit.with_cpu c (mm s)) (kern s) (stacks_ s) (irq_ s) (main_idt_ s) t (fs_root_ s) a) /\
    Lapic.APIC_new msr apic_regs current = Ret a /\ c = with_msr (<[APIC_BASE_MSR := Z.lor msr (Z.shiftl 1 11)]> (MSR (MmInit.cpu (mm s)))) (MmInit.cpu (mm s)) /\
    Irq.table_wf t /\ Irq.registered no_handler t Lapic.IRQ_TIMER = [timer_handler] /\
    (forall j, j <> Lapic.IRQ_TIMER -> Irq.registered no_handler t j = Irq.registered no_handler (interrupts_ s) j).
Proof using Hcur.
  intros Hc Hin msr Hb Hwf Hno. destruct (Lapic.lapic_timer msr apic_regs current Hcur Hb) as (a & Ha & _).
  pose proof (Lapic.APIC_new_msr _ _ _ _ Ha) as Em. unfold lapic_init.
  step_with on_mm_run; [|apply on_cpu_run, get_msr_run; [exact Hin|exact Hc]]. fold msr.
  set (s1 := mkSystem _ _ _ _ _ _ _ _).
  rewrite bind_ret with (a := tt) (s' := mkSystem (mm s1) (kern s1) (stacks_ s1) (irq_ s1) (main_idt_ s1) (interrupts_ s1) (fs_root_ s1) a) by (unfold set_apic; by rewrite Ha).
  match goal with |- context [(gets apic ≫= _) ?x] => rewrite bind_ret with (c := gets apic) (a := a) (s' := x) by done end.
  step_with on_mm_run; [|apply on_cpu_run, set_msr_run; [exact Hin|]; rewrite Em; apply lor_width; [lia|by apply msr_wf|by vm_compute]].
  match goal with |- context [Register _ _ ?x] => destruct (Register_run no_handler Lapic.IRQ_TIMER timer_handler x) as (t & Hr & W & E1 & E2) end.
  { exact Hwf. } { by vm_compute. } { cbn [interrupts_ s1]. rewrite Hno. cbn. lia. }
  eexists a, t, _. split; [exact Hr|]. split; [exact Ha|]. split; [rewrite Em; reflexivity|]. split; [exact W|]. split; [rewrite E1; cbn [interrupts_ s1]; by rewrite Hno|exact E2].
Qed.

(** Reading tables depends on memory and [CR3] only. *)
Lemma tables_readable_cpu c m x : CR3 c = CR3 (MmInit.cpu m) -> tables_readable m x -> tables_readable (MmInit.with_cpu c m) x.
Proof using Type.
  intros Hc. assert (forall y, readable m y -> readable (MmInit.with_cpu c m) y) as H.
  { intros y Hy i Hi. specialize (Hy i Hi). unfold MmInit.load in *. cbn [MmInit.phys MmInit.cpu MmInit.with_cpu]. rewrite Hc.
    destruct (Paging.walk _ _ _); [|done]. by injection Hy as ->. }
  intros [H1 H2]. split; [auto|]. intros p Hp. destruct (H2 p Hp) as (H3 & H3' & H4). split; [auto|]. split; [exact H3'|]. intros d Hd. destruct (H4 d Hd) as [H5 H6]. split; [auto|].
  intros t Ht. auto.
Qed.

Lemma process_init_grown k k' : Inv (allocator k) ->
  process_init process_entrypoint raw_context raw_cookie main_start k = Ret (tt, k') -> grown (allocator k) (allocator k').
Proof using Type.
  intros HI H. assert (preserves (fun k1 => grown (allocator k) (allocator k1)) (process_init process_entrypoint raw_context raw_cookie main_start)) as Hp.
  { unfold process_init. apply preserves_bind; [apply modify_preserves; intros; reflexivity|intros _].
    apply preserves_bind; [unfold create_process; allocates; apply preserves_mret|intros _].
    apply preserves_bind; [|intros p; apply update_process_preserves].
    unfold process_at. apply preserves_bind; [apply slot_preserves|]. intros [p|]; [apply preserves_mret|apply preserves_fault]. }
  apply (Hp k tt k' H). by apply grown_refl.
Qed.

(** ** The first half: memory and interrupts *)

Lemma early_run s kphy ksize mds :
  cpu_wf (MmInit.cpu (mm s)) -> tables_readable (mm s) (MmInit.next_table (CR3 (MmInit.cpu (mm s)))) -> Z.of_nat (length (firmware_gdt (mm s))) <= Mm.gdt_entries ->
  kphy mod 4096 = 0 -> MmInit.available_memory (mm s) = new -> stacks_ s = new ->
  Forall (fun md => Mm.md_Type md = Mm.EfiConventionalMemory -> Mm.intersects kphy ksize md = false) mds ->
  Z.of_nat (length (flat_map listing mds)) < PageAlloc.max_regions ->
  exists s1 c, start_early kernel_gdt_addr tss_addr t_vaddr interrupt_stack interrupt_stack_bottom kernel_init_stack kernel_init_stack_bottom handler_addr
      kphy ksize mds s = Ret (tt, s1) /\
    MmInit.cpu (mm s1) = with_idtr (wrap64 (irq_ s1 + main_idt_offset), 0xfff) (with_cr3 (kernel_cr3 t_vaddr kphy) c) /\
    segments_loaded kernel_gdt_addr (with_if false (MmInit.cpu (mm s))) c /\ cpu_wf (MmInit.cpu (mm s1)) /\
    holds_tables t_vaddr kphy (MmInit.phys (mm s1)) /\ alloc_ready (allocator (kern s1)) /\ Buddy.phy_start (allocator (kern s1)) = 0x4000000 /\
    owned (allocator (kern s1)) (irq_ s1) /\ main_idt_ s1 = Irq.setup_idt handler_addr KERNEL_CODE_SELECTOR /\ interrupts_ s1 = ∅ /\
    contents (0, 0) (stacks_ s1) = [(le_value (read_bytes (MmInit.bytes (mm s1)) kernel_init_stack 8), kernel_init_stack_bottom); (interrupt_stack, interrupt_stack_bottom)] /\
    MmInit.bytes (mm s1) = MmInit.bytes (mm s).
Proof using Hgdt Htss Hstack.
  intros Hc Hr Hf Hk Hv Hs0 Hm Hl. unfold start_early. step_with (on_mm_run (MmInit.on_cpu cli) s tt _ (on_cpu_run cli (mm s) tt _ eq_refl)).
  set (m0 := MmInit.with_cpu (with_if false (MmInit.cpu (mm s))) (mm s)). unfold PAGE_SIZE. rewrite Hk. cbn [Z.eqb negb]. rewrite bind_mret_l.
  assert (cpu_wf (MmInit.cpu m0)) as Hc0 by (by destruct Hc).
  destruct (mm_init_run kernel_gdt_addr tss_addr t_vaddr interrupt_stack_bottom Hgdt Htss Hstack m0 kphy ksize mds Hc0) as
    (m1 & c & b & H1 & E1 & E2 & E3 & _ & _ & E4 & _ & E5 & HI & Hb1 & Hb2 & Hb3 & Eby).
  { apply tables_readable_cpu; [reflexivity|exact Hr]. } { exact Hf. } { exact Hv. } { exact Hm. } { exact Hl. }
  step_with on_mm_run; [|exact H1]. set (s2 := mkSystem _ _ _ _ _ _ _ _).
  unfold take_allocator. rewrite bind_assoc. rewrite bind_ret with (a := Some b) (s' := s2) by (unfold gets; cbn [mm s2]; by rewrite E5).
  step_with on_kern_run; [|reflexivity]. set (s3 := mkSystem _ _ _ _ _ _ _ _).
  destruct (stacks_init_run s3 Hs0) as (v & H4 & C4). step_with H4. set (s4 := mkSystem _ _ _ _ _ _ _ _).
  destruct (irq_init_run s4 b E3 eq_refl HI Hb2) as (p & al & H5 & Hg & Ho); [by apply Hb3|].
  rewrite H5. eexists _, c. split; [reflexivity|]. cbn [mm kern stacks_ irq_ main_idt_ interrupts_ fs_root_ apic s4 s3 s2 MmInit.cpu MmInit.phys MmInit.bytes MmInit.with_cpu allocator with_allocator].
  rewrite E1 in *. split; [reflexivity|]. split; [exact E2|]. split; [apply idtr_wf; [by apply wrap_uint|by vm_compute|exact E3]|]. split; [exact E4|].
  destruct Hg as (G1 & (G2 & G2') & G3). split; [split; [exact G1|by rewrite G2, Hb1|rewrite G2, Hb1; lia]|]. split; [by rewrite G2|]. split; [exact Ho|].
  split; [|split; [reflexivity|split; [exact C4|exact Eby]]]. destruct E2 as (_ & _ & E2 & _). cbn [CS with_cr3]. by rewrite E2.
Qed.

(** ** The second half *)

Lemma create_root_dir_run s : Inv (allocator (kern s)) -> exists root al,
  create_root_dir s = Ret (tt, mkSystem (mm s) (with_allocator al (kern s)) (stacks_ s) (irq_ s) (main_idt_ s) (interrupts_ s) root (apic s)) /\
  grown (allocator (kern s)) al.
Proof using Type.
  intros HI. destruct (kmalloc_fresh (allocator (kern s)) sizeof_MemFsDirNode HI ltac:(by vm_compute)) as (root & al & Hroot & Hg & _).
  exists root, al. split; [|exact Hg]. unfold create_root_dir, knew. step_with (on_kern_run _ s root _ (page_alloc_ok _ _ _ _ Hroot)). reflexivity.
Qed.

Lemma start_process_init_run s kphy : well_placed t_vaddr kphy -> holds_tables t_vaddr kphy (MmInit.phys (mm s)) -> CR3 (MmInit.cpu (mm s)) = kernel_cr3 t_vaddr kphy ->
  IDENTITY_MAP_PHY_START <= t_phys t_vaddr kphy -> t_phys t_vaddr kphy + 4096 <= IDENTITY_MAP_PHY_END ->
  alloc_ready (allocator (kern s)) -> Buddy.phy_start (allocator (kern s)) < 2 ^ 46 ->
  exists k p, start_process_init process_entrypoint main_start raw_context raw_cookie s =
      Ret (tt, mkSystem (mm s) k (stacks_ s) (irq_ s) (main_idt_ s) (interrupts_ s) (fs_root_ s) (apic s)) /\
    grown (allocator (kern s)) (allocator k) /\ sched_inv k /\ alloc_ready (allocator k) /\ next_pid k = 2 /\ current_pid k = 1 /\
    kernel_pdpt k = t_phys t_vaddr kphy + 4096 /\ processes k !! 1 = Some p /\ tmp_start p = main_start /\
    context p = initial_context raw_context (this p) (pts_paddr p) process_entrypoint /\ KERNEL_START <= this p < KERNEL_START + 2 ^ 47 - 2 ^ 40 /\
    user_stack p = 33 * 1024 * 1024 /\ user_stack_size p = USER_STACK_SIZE.
Proof using Type.
  intros Hw Hh Hc Ht1 Ht2 HR Hp.
  assert (MmInit.get_kernel_pdpt_phy_addr (mm s) = Ret (t_phys t_vaddr kphy + 4096, mm s)) as Hpdpt.
  { rewrite (get_kernel_pdpt_run t_vaddr kphy (mm s) Hw Hh) by (first [exact Ht2|exact Hc]).
    rewrite decide_False by lia. rewrite (kernel_pdpt_high t_vaddr kphy _ Hw Hh). reflexivity. }
  unfold start_process_init. step_with on_mm_run; [|exact Hpdpt]. step_with on_kern_run; [|reflexivity]. set (s3 := mkSystem _ _ _ _ _ _ _ _).
  destruct (Threads.process_init_fresh process_entrypoint raw_context raw_cookie main_start (kern s3) HR Hp) as (k4 & p & H4 & S4 & R4 & N4 & U4 & P4 & F4).
  destruct (process_init_ok process_entrypoint main_start raw_context raw_cookie (kern s3) HR) as (k4' & H4' & _ & _ & _ & _ & D4).
  rewrite H4 in H4'. injection H4' as <-. exists k4, (set_start main_start (name p) (cookie p) p).
  split; [apply (on_kern_run _ s3); exact H4|]. split; [exact (process_init_grown (kern s3) k4 (ar_inv _ HR) H4)|].
  do 4 (split; [assumption|]). split; [exact D4|]. split; [exact P4|]. split; [reflexivity|]. destruct F4 as (F4 & F6 & F7 & F5 & _). exact (conj F4 (conj F5 (conj F6 F7))).
Qed.

(** The kernel before its first process runs.  From the state the boot loader
    leaves, with the kernel's tables above 64 MiB of physical memory,
    [Kernel::start] gets through the initialisation of its core: interrupts are off;
    the processor uses the kernel's segments, task state segment, page tables and
    an interrupt table in allocated memory, whose gates are those of
    [setup_idt]; exactly the system call and the timer have a handler; the local
    controller is enabled; the stacks are listed; and process 1 exists, is current,
    would start in [main_start], and shares the kernel's half of the address
    space. *)
Theorem kernel_start_ok s kphy ksize mds :
  cpu_wf (MmInit.cpu (mm s)) -> tables_readable (mm s) (MmInit.next_table (CR3 (MmInit.cpu (mm s)))) -> Z.of_nat (length (firmware_gdt (mm s))) <= Mm.gdt_entries ->
  well_placed t_vaddr kphy -> IDENTITY_MAP_PHY_START <= t_phys t_vaddr kphy -> t_phys t_vaddr kphy + 4096 <= IDENTITY_MAP_PHY_END ->
  MmInit.available_memory (mm s) = new -> stacks_ s = new ->
  Forall (fun md => Mm.md_Type md = Mm.EfiConventionalMemory -> Mm.intersects kphy ksize md = false) mds ->
  Z.of_nat (length (flat_map listing mds)) < PageAlloc.max_regions ->
  is_Some (MSR (MmInit.cpu (mm s)) !! APIC_BASE_MSR) ->
  let msr := default 0 (MSR (MmInit.cpu (mm s)) !! APIC_BASE_MSR) in
  wrap64 (Z.land msr 0xfffffffff000 + KERNEL_START) < IDENTITY_MAP_END ->
  exists s' p, start kernel_gdt_addr tss_addr t_vaddr interrupt_stack interrupt_stack_bottom kernel_init_stack kernel_init_stack_bottom handler_addr
      process_entrypoint main_start raw_context raw_cookie apic_regs current kphy ksize mds s = Ret (tt, s') /\
    let c := MmInit.cpu (mm s') in
    cpu_wf c /\ IF_ c = false /\ GDTR c = (kernel_gdt_addr, 1023) /\ TR c = TSS_SELECTOR /\ CS c = KERNEL_CODE_SELECTOR /\ DS c = KERNEL_DATA_SELECTOR /\
    CR3 c = kernel_cr3 t_vaddr kphy /\ holds_tables t_vaddr kphy (MmInit.phys (mm s')) /\
    IDTR c = (wrap64 (irq_ s' + main_idt_offset), 0xfff) /\ owned (allocator (kern s')) (irq_ s') /\
    main_idt_ s' = Irq.setup_idt handler_addr KERNEL_CODE_SELECTOR /\
    (forall j, Irq.registered no_handler (interrupts_ s') j =
       if j =? ContextSwitch.IRQ_SYSCALL then [syscall_handler] else if j =? Lapic.IRQ_TIMER then [timer_handler] else []) /\
    Lapic.APIC_new msr apic_regs current = Ret (apic s') /\ MSR c !! APIC_BASE_MSR = Some (Z.lor msr 2048) /\
    contents (0, 0) (stacks_ s') = [(le_value (read_bytes (MmInit.bytes (mm s')) kernel_init_stack 8), kernel_init_stack_bottom); (interrupt_stack, interrupt_stack_bottom)] /\
    sched_inv (kern s') /\ alloc_ready (allocator (kern s')) /\ next_pid (kern s') = 2 /\ current_pid (kern s') = 1 /\
    kernel_pdpt (kern s') = t_phys t_vaddr kphy + 4096 /\ processes (kern s') !! 1 = Some p /\ tmp_start p = main_start /\
    context p = initial_context raw_context (this p) (pts_paddr p) process_entrypoint /\ MmInit.bytes (mm s') = MmInit.bytes (mm s) /\
    Irq.table_wf (interrupts_ s') /\ KERNEL_START <= this p < KERNEL_START + 2 ^ 47 - 2 ^ 40 /\ user_stack p = 33 * 1024 * 1024 /\ user_stack_size p = USER_STACK_SIZE.
Proof using Hgdt Htss Hstack Hcur.
  intros Hc Hr Hf Hw Ht1 Ht2 Hv Hs0 Hm Hl Hin msr Hmsr.
  destruct (early_run s kphy ksize mds Hc Hr Hf (wp_palign _ _ Hw) Hv Hs0 Hm Hl) as (s1 & c & H1 & E1 & E2 & W1 & T1 & R1 & P1 & O1 & I1 & N1 & C1 & Eby).
  unfold start. step_with H1.
  destruct (create_root_dir_run s1 (ar_inv _ R1)) as (root & al & H2 & G2). step_with H2. set (s2 := mkSystem _ _ _ _ _ _ _ _).
  destruct (start_process_init_run s2 kphy Hw T1) as (k4 & p & H4 & G4 & S4 & R4 & N4 & U4 & D4 & P4 & F4 & Ectx & Hthis).
  { change (mm s2) with (mm s1). by rewrite E1. } { exact Ht1. } { exact Ht2. } { exact (grown_ready _ _ R1 G2). }
  { destruct G2 as (_ & (G2 & _) & _). change (allocator (kern s2)) with al. rewrite G2, P1. lia. }
  step_with H4. set (s4 := mkSystem _ _ _ _ _ _ _ _).
  assert (forall j, Irq.registered no_handler (interrupts_ s4) j = []) as N5 by (intros j; change (interrupts_ s4) with (interrupts_ s1); rewrite N1; unfold Irq.registered, Irq.handlers_; by rewrite lookup_empty).
  unfold SetupSyscall. destruct (Register_run no_handler ContextSwitch.IRQ_SYSCALL syscall_handler s4) as (t5 & H5 & W5 & A5 & B5).
  { change (interrupts_ s4) with (interrupts_ s1). rewrite N1. apply table_wf_empty. } { by vm_compute. } { rewrite N5. cbn. lia. }
  step_with H5. set (s5 := mkSystem _ _ _ _ _ _ _ _).
  assert (MSR (MmInit.cpu (mm s5)) = MSR (MmInit.cpu (mm s))) as M5.
  { change (mm s5) with (mm s1). rewrite E1. cbn [MSR with_idtr with_cr3]. by destruct E2 as (_ & _ & _ & _ & _ & _ & E & _). }
  destruct (lapic_init_run s5 W1) as (a & t6 & c6 & H6 & A6 & -> & W6 & B6 & D6).
  { rewrite M5. exact Hin. } { rewrite M5. exact Hmsr. } { exact W5. } { cbn [interrupts_ s5]. rewrite B5 by (by vm_compute). apply N5. }
  exists (mkSystem (MmInit.with_cpu (with_msr (<[APIC_BASE_MSR := Z.lor (default 0 (MSR (MmInit.cpu (mm s5)) !! APIC_BASE_MSR)) (Z.shiftl 1 11)]> (MSR (MmInit.cpu (mm s5)))) (MmInit.cpu (mm s5))) (mm s5))
    (kern s5) (stacks_ s5) (irq_ s5) (main_idt_ s5) t6 (fs_root_ s5) a), p.
  split; [exact H6|]. cbv zeta. cbn [mm kern stacks_ irq_ main_idt_ interrupts_ fs_root_ apic MmInit.cpu MmInit.with_cpu MmInit.phys MmInit.bytes].
  change (mm s5) with (mm s1). change (kern s5) with k4. change (stacks_ s5) with (stacks_ s1). change (irq_ s5) with (irq_ s1). change (main_idt_ s5) with (main_idt_ s1).
  change (mm s5) with (mm s1) in M5, A6. rewrite M5 in *. fold msr in A6 |- *. rewrite E1 in *.
  destruct E2 as (F1 & F2 & F3 & F4' & _ & _ & _ & _ & _ & _ & F5).
  split.
  { destruct W1 as [J1 J2 J3 J4 J5]. split; [exact J1|exact J2| |exact J4|exact J5]. intros i v. cbn [MSR with_msr]. rewrite lookup_insert.
    case_decide; [|rewrite <- M5; apply J3]. intros [= <-]. apply lor_width; [lia|by apply msr_wf|by vm_compute]. }
  do 5 (split; [assumption|]). split; [reflexivity|]. split; [exact T1|]. split; [reflexivity|]. split; [exact (owned_grown _ _ _ (grown_trans _ _ _ G2 G4) O1)|].
  split; [exact I1|]. split.
  { intros j. destruct (Z.eqb_spec j ContextSwitch.IRQ_SYSCALL) as [->|Hne].
    - rewrite D6 by (by vm_compute). cbn [interrupts_ s5]. rewrite A5, N5. reflexivity.
    - destruct (Z.eqb_spec j Lapic.IRQ_TIMER) as [->|Hne']; [exact B6|]. rewrite D6 by done. cbn [interrupts_ s5]. rewrite B5 by done. apply N5. }
  split; [exact A6|]. split; [cbn [MSR with_msr]; apply lookup_insert_eq|]. split; [exact C1|].
  split; [exact S4|]. split; [exact R4|]. split; [exact N4|]. split; [exact U4|]. split; [exact D4|]. split; [exact P4|]. split; [exact F4|].
  exact (conj Ectx (conj Eby (conj W6 Hthis))).
Qed.

End image.

(** The machine of [MmInitThms], before anything is initialised. *)
Definition ex_start : System := mkSystem ex_mm ex_kernel new 0 ∅ ∅ 0 (Lapic.mkApic 0 ∅ 0).
Definition ex_no_handler : Irq.InterruptHandler Live := fun _ => mret tt.

Lemma kernel_start_ok_witness :
  exists s' p, start 0xffff800000123000 0xffff800000125000 ex_vaddr 0xffff800000120000 0xffff80000012ff80 0xffff800000110000 0xffff800000117f80 Irq.ex_addr
      ex_entry ex_main zero_context 0 ∅ 1000 ex_kphy 0x4000000 ex_kernel_map ex_start = Ret (tt, s') /\
    IF_ (MmInit.cpu (mm s')) = false /\ GDTR (MmInit.cpu (mm s')) = (0xffff800000123000, 1023) /\
    Irq.registered ex_no_handler (interrupts_ s') 42 = [syscall_handler] /\ MSR (MmInit.cpu (mm s')) !! APIC_BASE_MSR = Some 0xfee00900 /\
    kernel_pdpt (kern s') = 0x11001000 /\ processes (kern s') !! 1 = Some p /\ tmp_start p = ex_main.
Proof.
  destruct (kernel_start_ok 0xffff800000123000 0xffff800000125000 ex_vaddr 0xffff800000120000 0xffff80000012ff80 0xffff800000110000 0xffff800000117f80 Irq.ex_addr
    ex_entry ex_main zero_context 0 ∅ 1000 ltac:(by vm_compute) ltac:(by vm_compute) ltac:(by vm_compute) ltac:(by vm_compute) ex_no_handler
    ex_start ex_kphy 0x4000000 ex_kernel_map) as (s' & p & H1 & _ & H2 & H3 & _ & _ & _ & _ & _ & _ & _ & _ & H4 & _ & H5 & _ & _ & _ & _ & _ & H6 & H7 & H8 & _).
  - exact reset_cpu_wf.
  - exact ex_mm_readable.
  - by vm_compute.
  - exact ex_placed.
  - by vm_compute.
  - by vm_compute.
  - reflexivity.
  - reflexivity.
  - repeat (constructor; [intros E; vm_compute; first [reflexivity|discriminate E]|]). constructor.
  - by vm_compute.
  - by eexists.
  - by vm_compute.
  - exists s', p. exact (conj H1 (conj H2 (conj H3 (conj (H4 42) (conj H5 (conj H6 (conj H7 H8))))))).
Defined.
