(* ===== verification/Rtl8139Init.v ===== *)
(** * device/rtl8139.cpp: bringing up the network card

    The constructor of the device, its reset, and the driver's [Enumerate], over
    the kernel of [Process] (memory and threads) and a card that is accessed by
    its registers.  The card is a parameter of class [Card]. *)
From S2P Require Import Prelude LibUtils CpuDefs LibString SSQueue PacketQueue KMap Crc Net Rtl8139 Paging BuddyTree Buddy PageAlloc Process ProcessProofs AllocChain Pci.

Module Rtl8139Init.
Import LibString SSQueue PacketQueue Net Rtl8139.

(** ** Registers *)

(** The members of [Rtl8139Register] and their sizes, in order. *)
Inductive register :=
  | MacReg | Unuseda | Mar | TxStatus | TxStartAddr | RxBufferStartAddr | Unused2 | EarlyRxStatus | Cmd
  | CurrentAddressOfPacketRead | CurrentBufferAddress | Imr | Isr | TxConfig | RxConfig | Unused42 | Unused5 | Config1.
#[export] Instance register_eq_dec : EqDecision register.
Proof. solve_decision. Defined.

Definition Rtl8139Register : list (register * Z) :=
  [(MacReg, 6); (Unuseda, 2); (Mar, 8); (TxStatus, 4 * 4); (TxStartAddr, 4 * 4); (RxBufferStartAddr, 4); (Unused2, 2);
   (EarlyRxStatus, 1); (Cmd, 1); (CurrentAddressOfPacketRead, 2); (CurrentBufferAddress, 2); (Imr, 2); (Isr, 2);
   (TxConfig, 4); (RxConfig, 4); (Unused42, 8); (Unused5, 2); (Config1, 1)].

(** Offset of a member of a packed structure. *)
Fixpoint offset_in (l : list (register * Z)) (r : register) : option Z :=
  match l with
  | [] => None
  | (r', n) :: l => if decide (r = r') then Some 0 else Z.add n <$> offset_in l r
  end.
Definition offset_of (r : register) : option Z := offset_in Rtl8139Register r.

(** The offsets the comments of the structure give, and those of the command and
    interrupt registers. *)
Lemma register_offsets :
  offset_of TxStatus = Some 0x10 /\ offset_of TxStartAddr = Some 0x20 /\ offset_of RxBufferStartAddr = Some 0x30 /\
  offset_of Cmd = Some 0x37 /\ offset_of Imr = Some 0x3c /\ offset_of Isr = Some 0x3e /\ offset_of TxConfig = Some 0x40 /\
  offset_of RxConfig = Some 0x44 /\ offset_of Unused5 = Some 0x50 /\ offset_of Config1 = Some 0x52.
Proof. by vm_compute. Qed.

(** Access to element [i] of a register (0 for those that are no array). *)
Class Card (C : Type) := {
  reg_read : register -> Z -> C -> Z * C;
  reg_write : register -> Z -> Z -> C -> C
}.

(** ** The device object *)

Record Device := mkDevice {
  d_this : Z;
  d_mac : EthernetAddress;
  d_rx_buffer : Z;
  d_tx_buffer_raw : Z;
  d_tx_buffer_raw_phy : Z;
  d_tx_buffer : list Z;
  d_tx_buffer_phy : list Z;
  d_tx_queue : list Z;
  d_regs : Z
}.

Definition set_mac (m : EthernetAddress) (d : Device) : Device :=
  mkDevice (d_this d) m (d_rx_buffer d) (d_tx_buffer_raw d) (d_tx_buffer_raw_phy d) (d_tx_buffer d) (d_tx_buffer_phy d) (d_tx_queue d) (d_regs d).

(** Sizes of the objects allocated. *)
Definition sizeof_KEthernetPacket : Z := 8 + 8 + 6 + 6 + 2.
Definition sizeof_ArpPacket : Z := 2 + 2 + 1 + 1 + 2 + (6 + 4 + 6 + 4).
Definition tx_member_offset : Z := 8 + 8 + 8 + 8 + 8 + 8.
Definition sizeof_Rtl8139Device : Z := tx_member_offset + tx_members_size.
Definition sizeof_IPDriver : Z := 16.
(** [eth_driver_], [ip_driver_], [arp_kthread_id], the lock, two maps, [tmp_pkt],
    and the queue: a vector and two indices. *)
Definition sizeof_ArpDriver : Z := 8 + 8 + 8 + 8 + 48 + 48 + 8 + (24 + 8 + 8).

Section host.
Context {C : Type} `{Card C}.

(** The kernel, the card and the command register of its configuration space. *)
Record Host := mkHost { kern : Process.Kernel; card : C; command : Z }.
Abbreviation HM := (ST Host).

Definition lift_k {A} (c : ST Process.Kernel A) : HM A := fun h =>
  match c (kern h) with
  | Ret (a, k) => Ret (a, mkHost k (card h) (command h))
  | Panic m => Panic m | Halt => Halt | Fault => Fault | OutOfFuel => OutOfFuel
  end.
Definition read_reg (r : register) (i : Z) : HM Z := fun h =>
  let '(v, c) := reg_read r i (card h) in Ret (v, mkHost (kern h) c (command h)).
Definition write_reg (r : register) (i v : Z) : HM unit := modify (fun h => mkHost (kern h) (reg_write r i v (card h)) (command h)).

Definition kmalloc (n : Z) : ST Process.Kernel Z := Process.page_alloc (PageAlloc.kmalloc n).
Definition create_packet : ST Process.Kernel Z := kmalloc (sizeof_KEthernetPacket + L2MTU).

(** [kvector<...> ret(TxQueueSize)] asks its allocator for [TxQueueSize] bytes. *)
Definition init_tx_queue : ST Process.Kernel (list Z) :=
  kmalloc TxQueueSize;;
  repeatM (Z.to_nat TxQueueSize) create_packet.

(** The constructor; [raw_mac] is what the memory of the object held. *)
Definition Rtl8139Device_new (this : Z) (raw_mac : EthernetAddress) (regs : Z) : HM Device :=
  tx_queue ← lift_k init_tx_queue;
  rx_buffer ← lift_k (Process.page_alloc (PageAlloc.kernel_page_alloc 16));
  raw ← lift_k (Process.page_alloc (PageAlloc.kernel_page_alloc 16));
  let raw_phy := wrap32 (raw - KERNEL_START) in
  modify (fun h => mkHost (kern h) (card h) (wrap16 (Z.lor (command h) (Z.shiftl 1 2))));;
  modify (fun h => mkHost (kern h) (card h) (wrap16 (Z.land (command h) (Z.lnot (Z.shiftl 1 10)))));;
  mret (mkDevice this raw_mac rx_buffer raw raw_phy
          ((fun i => wrap64 (raw + 4096 * i)) <$> seqZ 0 4) ((fun i => wrap32 (raw_phy + 4096 * i)) <$> seqZ 0 4) tx_queue regs).

(** [while ((regs->cmd & 0x10) != 0);] *)
Fixpoint wait_reset (fuel : nat) : HM unit :=
  match fuel with
  | O => out_of_fuel
  | S fuel =>
      v ← read_reg Cmd 0;
      if negb (Z.land v 0x10 =? 0) then wait_reset fuel else mret tt
  end.

(** [memcpy] from the address registers. *)
Fixpoint read_mac (n : nat) (i : Z) : HM (list Z) :=
  match n with
  | O => mret []
  | S n => b ← read_reg MacReg i; l ← read_mac n (i + 1); mret (b :: l)
  end.

Fixpoint write_tx_start (i : Z) (l : list Z) : HM unit :=
  match l with
  | [] => mret tt
  | a :: l => write_reg TxStartAddr i a;; write_tx_start (i + 1) l
  end.

Definition reset (fuel : nat) (d : Device) : HM Device :=
  write_reg Config1 0 0;;
  write_reg Cmd 0 0x10;;
  wait_reset fuel;;
  mac ← read_mac 6 0;
  write_reg RxBufferStartAddr 0 (wrap32 (d_rx_buffer d - KERNEL_START));;
  write_reg RxConfig 0 (Z.lor 0xf (Z.shiftl 1 7));;
  write_reg TxConfig 0 (Z.lor (Z.lor (Z.shiftl 3 24) (Z.shiftl 7 8)) (Z.shiftl 8 4));;
  write_tx_start 0 (d_tx_buffer_phy d);;
  write_reg Cmd 0 0xc;;
  write_reg Imr 0 0xe07f;;
  mret (set_mac mac d).

(** ** The driver *)

(** The link addresses of the thread functions and of [process_entrypoint]; what
    fresh memory holds. *)
Context (process_entrypoint : Z) (raw_context : Process.Context) (raw_cookie : Z).
Context (ArpThreadStart KthreadEntry : Z) (raw_mac : EthernetAddress).
Context (raw_mem : memory) (raw_status : list Z) (raw_capr : Z).

Definition create_kthread := Process.create_kthread process_entrypoint raw_context raw_cookie.

(** [knew<ArpDriver>(this)]: the object, its packets and its thread; [tmp_pkt] is
    the packet it fills and the thread allocates its own. *)
Definition ArpDriver_new : ST Process.Kernel (Z * Z * list Z) :=
  arp ← kmalloc sizeof_ArpDriver;
  tmp_pkt ← kmalloc sizeof_ArpPacket;
  kmalloc 4;;
  packets ← repeatM 4 (kmalloc sizeof_ArpPacket);
  create_kthread "arp" ArpThreadStart arp;;
  mret (arp, tmp_pkt, packets).

Definition start_kthread (d : Device) : ST Process.Kernel Z := create_kthread "rtl8139" KthreadEntry (d_this d).

(** The first region that is not in I/O space; registers that are zero count as
    memory. *)
Definition memory_bar (bars : list Pci.PCIBar) : option Pci.PCIBar := List.find (fun b => negb (Pci.is_io b)) bars.

(** The device as the rest of the driver sees it: [mine] is the packet the driver
    fills, [theirs] the one its thread sends. *)
Definition device_of (d : Device) (mine theirs : Z) : Dev :=
  mkDev (d_mac d) (d_rx_buffer d) 0 (d_tx_buffer d) (wrap64 (d_this d + tx_member_offset)) 0 false raw_status raw_capr raw_mem
    (mkPQ ∅ (SSQueue.new (d_tx_queue d)) mine theirs).

Definition lift_o {A} (o : outcome A) : HM A := fun h =>
  match o with
  | Ret a => Ret (a, h)
  | Panic m => Panic m | Halt => Halt | Fault => Fault | OutOfFuel => OutOfFuel
  end.

(** [RTL8139Driver()]: the packet the driver fills. *)
Definition RTL8139Driver_new : HM Z := lift_k create_packet.

(** [RTL8139Driver::Enumerate]: the device below the ARP driver, which records its
    own address in [SetIPDriver], before the reset.  The packets of the threads
    are null until they run. *)
Definition Enumerate (fuel : nat) (bars : list Pci.PCIBar) (tx_packet : Z) : HM (ArpDriver Dev) :=
  match memory_bar bars with
  | None => panic "found"
  | Some b =>
      regs_base ← lift_o (Paging.phy2virt (Pci.start b));
      this ← lift_k (kmalloc sizeof_Rtl8139Device);
      dev ← Rtl8139Device_new this raw_mac regs_base;
      arp ← lift_k ArpDriver_new;
      let '(_, tmp_pkt, packets) := arp in
      lift_k (kmalloc sizeof_IPDriver);;
      stack ← lift_o (SetIPDriver fuel (mkArp (device_of dev tx_packet 0) false false [] [] (mkPQ ∅ (SSQueue.new packets) tmp_pkt 0)));
      let s := snd stack in
      dev ← reset fuel dev;
      lift_k (start_kthread dev);;
      mret (mkArp (device_of dev tx_packet 0) (ip_driver_ s) (lock_ s) (eth2ip s) (ip2eth s) (rx s))
  end.

(** The first statements of [kthread_entry] and of [ArpThreadStart]. *)
Definition kthread_start (s : ArpDriver Dev) : HM (ArpDriver Dev) :=
  packet ← lift_k create_packet;
  let d := eth_driver_ s in
  mret (with_driver (with_tx (mkPQ (store (tx d)) (ring (tx d)) (mine (tx d)) packet) d) s).
Definition arp_thread_start (s : ArpDriver Dev) : HM (ArpDriver Dev) :=
  packet ← lift_k (kmalloc sizeof_ArpPacket);
  mret (with_rx (mkPQ (store (rx s)) (ring (rx s)) (mine (rx s)) packet) s).

(** From the construction of the driver to both threads running. *)
Definition bring_up (fuel : nat) (bars : list Pci.PCIBar) : HM (ArpDriver Dev) :=
  tx_packet ← RTL8139Driver_new;
  s ← Enumerate fuel bars tx_packet;
  s ← arp_thread_start s;
  kthread_start s.

End host.

(** [RTL8139Driver::HandleInterrupt]; the second result counts the calls of
    [lapic_eoi].  The handler of the PCI bus that calls it acknowledges the
    interrupt once more. *)
Definition HandleInterrupt (spins : nat) (isr : nat -> Z) : ST (ArpDriver Dev) (bool * nat) :=
  handled ← irq spins isr;
  mret (handled : bool, if handled then 1%nat else 0%nat).

End Rtl8139Init.
