(* ===== verification/Rtl8139InitThms.v ===== *)
(** * Bringing up the network card: what the card and the driver hold afterwards *)
From S2P Require Import Prelude LibUtils CpuDefs LibString SSQueue PacketQueue KMap Crc Net Rtl8139 Paging BuddyTree Buddy BuddyInv BuddyProofs BuddySpec BuddyThms PageAlloc PageAllocThms Process ProcessProofs ProcessThms AllocChain Pci Rtl8139Init.
Import LibString SSQueue PacketQueue Net Rtl8139 Rtl8139Init.

(** ** The card *)

Section card.
Context {C : Type} `{Card C}.

(** The command register reads busy [n] times, then ready. *)
Fixpoint idle_after (n : nat) (c : C) : Prop :=
  let '(v, c') := reg_read Cmd 0 c in
  match n with O => Z.land v 0x10 = 0 | S n => Z.land v 0x10 <> 0 /\ idle_after n c' end.

(** The bits of a register that hold a setting of the driver, by the data sheet:
    buffer addresses are multiples of four, the configuration registers have
    reserved and read-only bits (the version of the chip is in [TxConfig]), the
    command register has the switches of receiver and transmitter.  Status
    registers hold no settings. *)
Definition setting_bits (r : register) : Z :=
  match r with
  | MacReg => 0xff
  | TxStartAddr | RxBufferStartAddr => 0xfffffffc
  | RxConfig => 0x0f03ffbf
  | TxConfig => 0x030707f0
  | Imr => 0xe07f
  | Cmd => 0xc
  | _ => 0
  end.

(** [view c r i] is what register [r] holds; a setting is the bits of it that the
    driver can set.  The driver never writes the address registers. *)
Definition setting (view : C -> register -> Z -> Z) (c : C) (r : register) (i : Z) : Z := Z.land (view c r i) (setting_bits r).
Definition plain_write (r : register) (v : Z) : Prop := r <> MacReg /\ (r = Cmd -> Z.land v 0x10 = 0).

(** Reading the command and address registers changes no setting; a write sets the
    setting of its register, if it has one, and no other.  A software reset keeps
    the address of the card and is over after at most [n] reads of the command
    register; what it does to the settings is not said.  Nor is anything said of
    the other registers, the interrupt status among them. *)
Record card_laws (view : C -> register -> Z -> Z) (n : nat) : Prop := {
  cl_mac_read i c : 0 <= i < 6 -> fst (reg_read MacReg i c) = setting view c MacReg i;
  cl_read_keeps r i c r' j : r = Cmd \/ r = MacReg -> setting view (snd (reg_read r i c)) r' j = setting view c r' j;
  cl_write r i v c : plain_write r v -> setting view (reg_write r i v c) r i = Z.land v (setting_bits r);
  cl_write_other r i v c r' j : plain_write r v -> (r', j) <> (r, i) -> setting view (reg_write r i v c) r' j = setting view c r' j;
  cl_mac c i : setting view (reg_write Cmd 0 0x10 c) MacReg i = setting view c MacReg i;
  cl_reset c : exists m, (m <= n)%nat /\ idle_after m (reg_write Cmd 0 0x10 c)
}.

Context (view : C -> register -> Z -> Z) (polls : nat) (Hcard : card_laws view polls).

Lemma read_reg_run r i h : read_reg r i h = Ret (fst (reg_read r i (card h)), mkHost (kern h) (snd (reg_read r i (card h))) (command h)).
Proof using Type. unfold read_reg. by destruct (reg_read r i (card h)). Qed.

Lemma wait_reset_run n fuel h : idle_after n (card h) -> (n < fuel)%nat ->
  exists c, wait_reset fuel h = Ret (tt, mkHost (kern h) c (command h)) /\ forall r j, setting view c r j = setting view (card h) r j.
Proof using Hcard.
  revert fuel h. induction n as [|n IH]; intros [|fuel] h Hi Hf; try lia; cbn [idle_after wait_reset] in *; step_with read_reg_run; try done.
  all: destruct (reg_read Cmd 0 (card h)) as [v c] eqn:E; cbn [fst snd].
  - rewrite Hi. cbn. exists c. split; [done|]. intros r j.
    pose proof (cl_read_keeps _ _ Hcard Cmd 0 (card h) r j ltac:(by left)) as K. by rewrite E in K.
  - destruct Hi as [Hv Hi]. rewrite (proj2 (Z.eqb_neq _ _) Hv). cbn [negb].
    destruct (IH fuel (mkHost (kern h) c (command h)) Hi ltac:(lia)) as (c' & H1 & H2). exists c'. split; [exact H1|].
    intros r j. rewrite H2. pose proof (cl_read_keeps _ _ Hcard Cmd 0 (card h) r j ltac:(by left)) as K. by rewrite E in K.
Qed.

Lemma read_mac_run n i h : 0 <= i -> i + Z.of_nat n <= 6 ->
  exists c, read_mac n i h = Ret ((fun j => setting view (card h) MacReg j) <$> seqZ i (Z.of_nat n), mkHost (kern h) c (command h)) /\
  forall r j, setting view c r j = setting view (card h) r j.
Proof using Hcard.
  revert i h. induction n as [|n IH]; intros i h Hi Hn; cbn [read_mac].
  - exists (card h). split; [by destruct h|done].
  - step_with read_reg_run. rewrite (cl_mac_read _ _ Hcard) by lia. set (h1 := mkHost _ _ _).
    destruct (IH (i + 1) h1) as (c & H1 & H2); [lia..|]. step_with H1. exists c.
    assert (forall r j, setting view (card h1) r j = setting view (card h) r j) as Hk by (intros r j; by apply (cl_read_keeps _ _ Hcard); right).
    split; [|intros r j; by rewrite H2, Hk].
    rewrite (seqZ_cons i) by lia. unfold mret, st_ret. cbn [fmap list_fmap]. do 3 f_equal.
    replace (Z.pred (Z.of_nat (S n))) with (Z.of_nat n) by lia. apply list_fmap_ext. intros k x _. apply Hk.
Qed.

(** The settings after [reset]. *)
Record programmed (rx_phy : Z) (tx_phy : list Z) (c : C) : Prop := {
  pg_rx : setting view c RxBufferStartAddr 0 = Z.land rx_phy 0xfffffffc;
  pg_tx i : (i < 4)%nat -> setting view c TxStartAddr (Z.of_nat i) = Z.land (nth i tx_phy 0) 0xfffffffc;
  pg_rx_config : setting view c RxConfig 0 = 0x8f;
  pg_tx_config : setting view c TxConfig 0 = 0x3000780;
  pg_cmd : setting view c Cmd 0 = 0xc;
  pg_imr : setting view c Imr 0 = 0xe07f
}.

(** Read a setting of a card that was written register by register. *)
Ltac view_regs := repeat first
  [ rewrite (cl_write _ _ Hcard) by (split; done)
  | rewrite (cl_write_other _ _ Hcard) by first [split; done|done] ].

Lemma reset_run fuel d h : (polls < fuel)%nat -> length (d_tx_buffer_phy d) = 4%nat ->
  exists c, reset fuel d h = Ret (set_mac ((fun j => setting view (card h) MacReg j) <$> seqZ 0 6) d, mkHost (kern h) c (command h)) /\
    programmed (wrap32 (d_rx_buffer d - KERNEL_START)) (d_tx_buffer_phy d) c.
Proof using Hcard.
  intros Hf Hl. destruct (d_tx_buffer_phy d) as [|t0 [|t1 [|t2 [|t3 [|]]]]] eqn:Et; try done. clear Hl.
  unfold reset. rewrite Et. set (h1 := mkHost (kern h) (reg_write Cmd 0 0x10 (reg_write Config1 0 0 (card h))) (command h)).
  destruct (cl_reset _ _ Hcard (reg_write Config1 0 0 (card h))) as (m & Hm & Hidle).
  destruct (wait_reset_run m fuel h1) as (c1 & H1 & V1); [exact Hidle|lia|].
  destruct (read_mac_run 6 0 (mkHost (kern h) c1 (command h))) as (c2 & H2 & V2); [lia..|].
  assert ((fun j => setting view c1 MacReg j) <$> seqZ 0 (Z.of_nat 6) = (fun j => setting view (card h) MacReg j) <$> seqZ 0 6) as Em.
  { apply list_fmap_ext. intros k x _. rewrite V1.
    unfold h1. cbn [card]. rewrite (cl_mac _ _ Hcard). by apply (cl_write_other _ _ Hcard). }
  cbn [card] in H2. rewrite Em in H2.
  rewrite bind_ret with (a := tt) (s' := mkHost (kern h) (reg_write Config1 0 0 (card h)) (command h)) by done.
  rewrite bind_ret with (a := tt) (s' := h1) by done. step_with H1. step_with H2.
  eexists. split.
  - unfold write_tx_start, write_reg. unfold mbind, st_bind, modify, mret, st_ret. cbn [kern card command].
    reflexivity.
  - split; [| |..]; cbn [kern card command]; view_regs; try done.
    intros i Hi. do 4 (destruct i as [|i]; [cbn [nth Z.of_nat Pos.of_succ_nat Pos.succ]; view_regs; done|]). lia.
Qed.

End card.

(** ** Memory and threads *)

Lemma lift_k_ok {C A} (c : ST Process.Kernel A) (h : @Host C) a k : c (kern h) = Ret (a, k) -> lift_k c h = Ret (a, mkHost k (card h) (command h)).
Proof. intros H. unfold lift_k. by rewrite H. Qed.

Lemma alloc_ready_grown s s' : alloc_ready s -> grown s s' -> alloc_ready s'.
Proof. intros [_ Ha Hr] (HI & (E & _) & _). split; [done|by rewrite E..]. Qed.

Lemma new_blocks_none s s' : new_blocks s s' [].
Proof. intros _. split; constructor. Qed.

(** Allocations whose address does not matter. *)
Lemma new_blocks_skip s s1 s2 l : Inv s -> grown s s1 -> grown s1 s2 -> new_blocks s1 s2 l -> new_blocks s s2 l.
Proof. intros HI G1 G2 N. apply (new_blocks_app s s1 s2 []); [done|done|apply new_blocks_none|done]. Qed.
Lemma new_blocks_then s s1 s2 l : grown s s1 -> grown s1 s2 -> new_blocks s s1 l -> new_blocks s s2 l.
Proof. intros G1 G2 N. rewrite <- (app_nil_r l). apply (new_blocks_app s s1 s2); [done|done|done|apply new_blocks_none]. Qed.

Lemma init_tx_queue_run k : Inv (Process.allocator k) ->
  exists q al, init_tx_queue k = Ret (q, Process.with_allocator al k) /\ length q = 32%nat /\
    grown (Process.allocator k) al /\ new_blocks (Process.allocator k) al q.
Proof.
  intros HI. unfold init_tx_queue. destruct (page_alloc_kmalloc k TxQueueSize HI) as (a & al & H1 & G1 & _); [done|].
  unfold kmalloc at 1. step_with H1.
  destruct (repeat_kmalloc 32 (Process.with_allocator al k) (sizeof_KEthernetPacket + L2MTU)) as (q & al' & H2 & Hl & G2 & N2); [apply G1|done|].
  exists q, al'. split; [exact H2|]. split; [done|]. split; [by eapply grown_trans|]. by eapply new_blocks_skip.
Qed.

(** The addresses the constructor derives from the transmit buffer. *)
Definition tx_addresses (raw : Z) : list Z := (fun i => wrap64 (raw + 4096 * i)) <$> seqZ 0 4.
Definition tx_dma_addresses (raw : Z) : list Z := (fun i => wrap32 (wrap32 (raw - KERNEL_START) + 4096 * i)) <$> seqZ 0 4.

(** Bus mastering on, legacy interrupts not disabled. *)
Definition command_after (c : Z) : Z := wrap16 (Z.land (wrap16 (Z.lor c (Z.shiftl 1 2))) (Z.lnot (Z.shiftl 1 10))).

Lemma device_new_run {C} `{Card C} this raw_mac regs (h : @Host C) : Inv (Process.allocator (kern h)) ->
  exists q rx raw al, Rtl8139Device_new this raw_mac regs h =
      Ret (mkDevice this raw_mac rx raw (wrap32 (raw - KERNEL_START)) (tx_addresses raw) (tx_dma_addresses raw) q regs,
           mkHost (Process.with_allocator al (kern h)) (card h) (command_after (command h))) /\
    length q = 32%nat /\ grown (Process.allocator (kern h)) al /\ new_blocks (Process.allocator (kern h)) al (q ++ [rx; raw]).
Proof.
  intros HI. destruct h as [k c cmd]. cbn [kern card command] in *. unfold Rtl8139Device_new.
  destruct (init_tx_queue_run k HI) as (q & al1 & H1 & Hl & G1 & N1). step_with lift_k_ok; [|exact H1].
  destruct (page_alloc_kernel (Process.with_allocator al1 k) 16) as (rx & al2 & H2 & G2 & N2); [apply G1|done|]. step_with lift_k_ok; [|exact H2].
  destruct (page_alloc_kernel (Process.with_allocator al2 k) 16) as (raw & al3 & H3 & G3 & N3); [apply G2|done|]. step_with lift_k_ok; [|exact H3].
  exists q, rx, raw, al3. split; [reflexivity|]. split; [done|]. cbn in G2, G3, N2, N3.
  split; [eauto using grown_trans|].
  apply (new_blocks_app _ al1); [done|by eapply grown_trans|done|]. by apply (new_blocks_app _ al2 _ [rx]).
Qed.

Section threads.
Context (entry : Z) (raw : Process.Context) (ck : Z).

(** A new thread takes the next slot and leaves the others alone. *)
Lemma create_kthread_run k nm start c : sched_inv k -> alloc_ready (Process.allocator k) -> Process.next_pid k < Process.MAX_PROCESS ->
  exists k' p, Process.create_kthread entry raw ck nm start c k = Ret (Process.next_pid k, k') /\ sched_inv k' /\ alloc_ready (Process.allocator k') /\
    Process.next_pid k' = Process.next_pid k + 1 /\ grown (Process.allocator k) (Process.allocator k') /\
    Process.processes k' = <[Process.next_pid k := p]> (Process.processes k) /\
    Process.current_pid k' = Process.current_pid k /\ Process.kernel_pdpt k' = Process.kernel_pdpt k /\
    Process.tmp_start p = start /\ Process.name p = nm /\ Process.cookie p = c /\ Process.state p = Process.Wait.
Proof using Type.
  intros Hi Hr Hlt. destruct (create_kthread_ok entry raw ck k nm start c Hi Hr Hlt) as (k' & H & Hi' & Hr' & Hn & _ & p & Hp & F1 & F2 & F3 & F4).
  exists k', p. split; [done|]. split; [done|]. split; [done|]. split; [done|].
  split; [eapply create_kthread_grown; [apply Hr|exact H]|].
  pose proof (si_current _ Hi) as Hc. destruct (create_process_ok entry raw ck k Hr ltac:(lia)) as (p0 & k0 & H0 & E0 & _ & U0 & D0 & _).
  { apply eq_None_not_Some. rewrite (si_used _ Hi). lia. }
  unfold Process.create_kthread in H. rewrite (bind_ret _ _ _ _ _ H0) in H.
  assert (Process.processes k0 !! Process.next_pid k = Some p0) as Hp0 by (by rewrite E0, lookup_insert_eq).
  rewrite (bind_ret _ _ _ _ _ (update_process_ok k0 (Process.next_pid k) (Process.set_start start nm c) p0 ltac:(lia) Hp0)) in H. injection H as <-. cbn in Hp |- *.
  rewrite lookup_insert_eq in Hp. injection Hp as <-. split; [by rewrite E0, insert_insert_eq|]. done.
Qed.

Lemma arp_new_run start k : sched_inv k -> alloc_ready (Process.allocator k) -> Process.next_pid k < Process.MAX_PROCESS ->
  exists arp tmp pk k' p, ArpDriver_new entry raw ck start k = Ret ((arp, tmp, pk), k') /\ length pk = 4%nat /\
    sched_inv k' /\ alloc_ready (Process.allocator k') /\ Process.next_pid k' = Process.next_pid k + 1 /\
    grown (Process.allocator k) (Process.allocator k') /\ new_blocks (Process.allocator k) (Process.allocator k') (tmp :: pk) /\
    Process.processes k' = <[Process.next_pid k := p]> (Process.processes k) /\
    Process.current_pid k' = Process.current_pid k /\ Process.kernel_pdpt k' = Process.kernel_pdpt k /\
    Process.tmp_start p = start /\ Process.name p = "arp"%string /\ Process.cookie p = arp /\ Process.state p = Process.Wait.
Proof using Type.
  intros Hi Hr Hlt. unfold ArpDriver_new, kmalloc, create_kthread.
  destruct (page_alloc_kmalloc k sizeof_ArpDriver) as (arp & al1 & H1 & G1 & _); [apply Hr|done|]. step_with H1.
  destruct (page_alloc_kmalloc (Process.with_allocator al1 k) sizeof_ArpPacket) as (tmp & al2 & H2 & G2 & N2); [apply G1|done|]. step_with H2.
  destruct (page_alloc_kmalloc (Process.with_allocator al2 k) 4) as (v & al3 & H3 & G3 & _); [apply G2|done|]. step_with H3.
  destruct (repeat_kmalloc 4 (Process.with_allocator al3 k) sizeof_ArpPacket) as (pk & al4 & H4 & Hl & G4 & N4); [apply G3|done|]. step_with H4.
  cbn in G2, G3, G4, N2, N4. assert (grown (Process.allocator k) al4) as G by eauto using grown_trans.
  destruct (create_kthread_run (Process.with_allocator al4 k) "arp" start arp) as (k' & p & H5 & I5 & R5 & N5 & G5 & E5 & U5 & D5 & F5);
    [by destruct Hi; split|by eapply alloc_ready_grown|done|].
  step_with H5. exists arp, tmp, pk, k', p. split; [reflexivity|]. do 4 (split; [done|]). split; [by eapply grown_trans|].
  split; [|done]. apply (new_blocks_then _ al4); [done|done|]. apply (new_blocks_app _ al2 _ [tmp]).
  - eauto using grown_trans.
  - eauto using grown_trans.
  - apply (new_blocks_skip _ al1); [apply Hr|done..].
  - apply (new_blocks_skip _ al3); [apply G2|done..].
Qed.

End threads.

(** ** Bringing up the card *)

Section bring_up.
Context {C : Type} `{Card C} (view : C -> register -> Z -> Z) (polls : nat) (Hcard : card_laws view polls).
Context (entry : Z) (raw_context : Process.Context) (raw_cookie ArpThreadStart KthreadEntry : Z) (raw_mac : EthernetAddress).
Context (raw_mem : memory) (raw_status : list Z) (raw_capr : Z).

Abbreviation bring_up := (bring_up entry raw_context raw_cookie ArpThreadStart KthreadEntry raw_mac raw_mem raw_status raw_capr).
Abbreviation Enumerate := (Enumerate entry raw_context raw_cookie ArpThreadStart KthreadEntry raw_mac raw_mem raw_status raw_capr).
Abbreviation allocator_of h := (Process.allocator (kern h)).

(** The address of the card. *)
Definition card_mac (c : C) : EthernetAddress := (fun j => setting view c MacReg j) <$> seqZ 0 6.

(** The threads a driver has created: process, start, name and cookie. *)
Definition has_thread (k : Process.Kernel) (pid start : Z) (nm : string) (c : Z) : Prop :=
  exists p, Process.processes k !! pid = Some p /\ Process.tmp_start p = start /\ Process.name p = nm /\ Process.cookie p = c /\ Process.state p = Process.Wait.

(** What [Enumerate] leaves: [q] and [pk] are the packets of the two queues. *)
Record enumerated (h h' : Host) (mine this rx raw : Z) (q : list Z) (tmp : Z) (pk : list Z) (s : ArpDriver Dev) : Prop := {
  en_stack : s = mkArp (mkDev (card_mac (card h)) rx 0 (tx_addresses raw) (wrap64 (this + tx_member_offset)) 0 false raw_status raw_capr raw_mem
                          (mkPQ ∅ (SSQueue.new q) mine 0)) true false [(raw_mac, ip_address)] [(ip_address, raw_mac)] (mkPQ ∅ (SSQueue.new pk) tmp 0);
  en_sizes : length q = 32%nat /\ length pk = 4%nat;
  en_card : programmed view (wrap32 (rx - KERNEL_START)) (tx_dma_addresses raw) (card h');
  en_command : command h' = command_after (command h);
  en_grown : grown (allocator_of h) (allocator_of h');
  en_new : new_blocks (allocator_of h) (allocator_of h') ((q ++ [rx; raw]) ++ (tmp :: pk));
  en_inv : sched_inv (kern h') /\ alloc_ready (allocator_of h');
  en_threads : Process.next_pid (kern h') = Process.next_pid (kern h) + 2 /\
    (exists arp, has_thread (kern h') (Process.next_pid (kern h)) ArpThreadStart "arp" arp) /\
    has_thread (kern h') (Process.next_pid (kern h) + 1) KthreadEntry "rtl8139" this;
  en_old : Process.current_pid (kern h') = Process.current_pid (kern h) /\ Process.kernel_pdpt (kern h') = Process.kernel_pdpt (kern h) /\
    forall pid, pid < Process.next_pid (kern h) -> Process.processes (kern h') !! pid = Process.processes (kern h) !! pid
}.

Lemma enumerate_run fuel bars b h mine : memory_bar bars = Some b -> Pci.start b < IDENTITY_MAP_PHY_END ->
  sched_inv (kern h) -> alloc_ready (allocator_of h) -> Process.next_pid (kern h) + 1 < Process.MAX_PROCESS -> (polls < fuel)%nat ->
  exists s h' this rx raw q tmp pk, Enumerate fuel bars mine h = Ret (s, h') /\ enumerated h h' mine this rx raw q tmp pk s.
Proof using Hcard.
  intros Hb Hst Hi Hr Hn Hf. destruct h as [k c cmd]. cbn [kern card command] in *. unfold Rtl8139Init.Enumerate. rewrite Hb.
  unfold Paging.phy2virt. rewrite (proj2 (Z.ltb_lt _ _) Hst).
  rewrite bind_ret with (a := wrap64 (Pci.start b + KERNEL_START)) (s' := mkHost k c cmd); [|done].
  destruct (page_alloc_kmalloc k sizeof_Rtl8139Device) as (this & al1 & H1 & G1 & _); [apply Hr|done|]. step_with lift_k_ok; [|exact H1].
  destruct (device_new_run this raw_mac (wrap64 (Pci.start b + KERNEL_START)) (mkHost (Process.with_allocator al1 k) c cmd))
    as (q & rx & raw & al2 & H2 & Hl & G2 & N2); [apply G1|]. cbn [kern card command Process.allocator Process.with_allocator] in *. step_with H2.
  set (k2 := Process.with_allocator al2 (Process.with_allocator al1 k)).
  assert (grown (Process.allocator k) al2) as G02 by eauto using grown_trans.
  destruct (arp_new_run entry raw_context raw_cookie ArpThreadStart k2) as (arp & tmp & pk & k3 & p3 & H3 & Hl3 & I3 & R3 & Np3 & G3 & N3 & E3 & U3 & D3 & F3);
    [by destruct Hi; split|by eapply alloc_ready_grown|cbn; lia|]. step_with lift_k_ok; [|exact H3]. cbn [kern card command].
  destruct (page_alloc_kmalloc k3 sizeof_IPDriver) as (ip & al4 & H4 & G4 & _); [apply R3|done|]. step_with lift_k_ok; [|exact H4].
  destruct fuel as [|fuel]; [lia|].
  match goal with |- context [lift_o (SetIPDriver _ ?s0)] => set (st0 := s0) end.
  rewrite bind_ret with (a := (tt, mkArp (eth_driver_ st0) true false [(raw_mac, ip_address)] [(ip_address, raw_mac)] (Net.rx st0)))
    (s' := mkHost (Process.with_allocator al4 k3) c (command_after cmd)); [|reflexivity].
  cbn [snd ip_driver_ lock_ eth2ip ip2eth Net.rx st0].
  match goal with |- context [reset _ ?d0] => set (d0' := d0) end. set (k4 := Process.with_allocator al4 k3).
  destruct (reset_run view polls Hcard (S fuel) d0' (mkHost k4 c (command_after cmd)) Hf) as (c5 & H5 & P5); [done|].
  step_with H5. cbn [kern card command].
  destruct (create_kthread_run entry raw_context raw_cookie k4 "rtl8139" KthreadEntry this) as (k6 & p6 & H6 & I6 & R6 & Np6 & G6 & E6 & U6 & D6 & F6);
    [by destruct I3; split|by eapply alloc_ready_grown|cbn; rewrite Np3; cbn; lia|].
  unfold start_kthread, create_kthread. step_with lift_k_ok; [|exact H6].
  eexists _, _, this, rx, raw, q, tmp, pk. split; [reflexivity|].
  assert (Process.next_pid k2 = Process.next_pid k) as En2 by done. assert (Process.next_pid k4 = Process.next_pid k3) as En4 by done.
  assert (grown (Process.allocator k3) (Process.allocator k6)) as G36 by eauto using grown_trans.
  split; cbn [kern card command]; [reflexivity|exact (conj Hl Hl3)|exact P5|reflexivity| | |exact (conj I6 R6)| |].
  - eauto using grown_trans.
  - apply (new_blocks_app _ al2); [done|by eauto using grown_trans| |].
    + eapply new_blocks_skip; [apply Hr|exact G1|done|done].
    + by eapply new_blocks_then.
  - split; [lia|]. split.
    + exists arp, p3. split; [|done]. rewrite E6, lookup_insert_ne by lia. change (Process.processes k4) with (Process.processes k3).
      by rewrite E3, En2, lookup_insert_eq.
    + exists p6. split; [|done]. rewrite E6, En4, Np3, En2, lookup_insert_eq. done.
  - split; [rewrite U6; exact U3|]. split; [rewrite D6; exact D3|]. intros pid Hpid. rewrite E6, lookup_insert_ne by lia.
    change (Process.processes k4) with (Process.processes k3). rewrite E3, lookup_insert_ne by lia. done.
Qed.

(** The pointers whose distinctness the queues rest on, and the two buffers. *)
Definition pointers (s : ArpDriver Dev) (raw : Z) : list Z :=
  mine (tx (eth_driver_ s)) :: (rx_queue_ (ring (tx (eth_driver_ s))) ++ [rx_buffer (eth_driver_ s); raw]) ++
  (mine (Net.rx s) :: rx_queue_ (ring (Net.rx s))) ++ [theirs (Net.rx s)] ++ [theirs (tx (eth_driver_ s))].

Record brought_up (h h' : Host) (raw : Z) (s : ArpDriver Dev) : Prop := {
  bu_mac : mac (eth_driver_ s) = card_mac (card h);
  bu_tx : tx_buffer (eth_driver_ s) = tx_addresses raw;
  bu_card : programmed view (wrap32 (rx_buffer (eth_driver_ s) - KERNEL_START)) (tx_dma_addresses raw) (card h');
  bu_command : command h' = command_after (command h);
  bu_tables : eth2ip s = [(raw_mac, ip_address)] /\ ip2eth s = [(ip_address, raw_mac)];
  bu_rings : rx_start_ (ring (tx (eth_driver_ s))) = 0 /\ rx_end_ (ring (tx (eth_driver_ s))) = 0 /\
    rx_start_ (ring (Net.rx s)) = 0 /\ rx_end_ (ring (Net.rx s)) = 0 /\
    length (rx_queue_ (ring (tx (eth_driver_ s)))) = 32%nat /\ length (rx_queue_ (ring (Net.rx s))) = 4%nat;
  bu_grown : grown (allocator_of h) (allocator_of h');
  bu_new : new_blocks (allocator_of h) (allocator_of h') (pointers s raw);
  bu_inv : sched_inv (kern h') /\ alloc_ready (allocator_of h');
  bu_threads : exists arp this, has_thread (kern h') (Process.next_pid (kern h)) ArpThreadStart "arp" arp /\
    has_thread (kern h') (Process.next_pid (kern h) + 1) KthreadEntry "rtl8139" this
}.

Lemma bring_up_run fuel bars b h : memory_bar bars = Some b -> Pci.start b < IDENTITY_MAP_PHY_END ->
  sched_inv (kern h) -> alloc_ready (allocator_of h) -> Process.next_pid (kern h) + 1 < Process.MAX_PROCESS -> (polls < fuel)%nat ->
  exists s h' raw, bring_up fuel bars h = Ret (s, h') /\ brought_up h h' raw s.
Proof using Hcard.
  intros Hb Hst Hi Hr Hn Hf. unfold Rtl8139Init.bring_up, RTL8139Driver_new, create_packet, kmalloc at 1.
  destruct (page_alloc_kmalloc (kern h) (sizeof_KEthernetPacket + L2MTU)) as (mine & al1 & H1 & G1 & N1); [apply Hr|done|].
  step_with lift_k_ok; [|exact H1]. set (h1 := mkHost (Process.with_allocator al1 (kern h)) (card h) (command h)).
  destruct (enumerate_run fuel bars b h1 mine Hb Hst) as (s & h2 & this & rx & raw & q & tmp & pk & H2 & [-> [Hl1 Hl2] Hc Hcmd G2 N2 [I2 R2] (Np & T1 & T2)]);
    [by destruct Hi; split|by eapply alloc_ready_grown|done|done|]. step_with H2. unfold arp_thread_start, kmalloc.
  destruct (page_alloc_kmalloc (kern h2) sizeof_ArpPacket) as (at_ & al3 & H3 & G3 & N3); [apply R2|done|]. step_with lift_k_ok; [|exact H3].
  rewrite bind_mret_l. unfold kthread_start, create_packet, kmalloc.
  destruct (page_alloc_kmalloc (Process.with_allocator al3 (kern h2)) (sizeof_KEthernetPacket + L2MTU)) as (th & al4 & H4 & G4 & N4); [apply G3|done|].
  step_with lift_k_ok; [|exact H4]. cbn in G2, G4, N2, N4.
  eexists _, _, raw. split; [reflexivity|].
  assert (grown al1 al4) as G14 by eauto using grown_trans. assert (grown (allocator_of h2) al4) as G24 by eauto using grown_trans.
  split; cbn [kern card command]; [reflexivity|reflexivity|exact Hc|exact Hcmd|done|exact (conj eq_refl (conj eq_refl (conj eq_refl (conj eq_refl (conj Hl1 Hl2)))))| | | |].
  - cbn. eauto using grown_trans.
  - unfold pointers. cbn. apply (new_blocks_app _ al1 _ [mine]); [done|done|done|].
    change (q ++ [rx; raw]) with (q ++ [rx; raw]). rewrite app_comm_cons, app_assoc.
    apply (new_blocks_app _ (allocator_of h2)); [done|done|done|]. by apply (new_blocks_app _ al3 _ [at_]).
  - split; [by destruct I2; split|]. cbn. eapply alloc_ready_grown; [exact R2|done].
  - destruct T1 as [arp T1]. by exists arp, this.
Qed.

End bring_up.

(** ** Buffers *)

(** All blocks of the region lie below 4 GiB, as the card requires. *)
Definition below_4g (s : Buddy.BuddyAllocator) : Prop :=
  0 <= Buddy.phy_start s /\ Buddy.phy_start s + 2 ^ (Buddy.root_log2size s + 1) <= 2 ^ 32.

Lemma owned_address s a : Inv s -> below_4g s -> owned s a ->
  exists b, 0 <= b /\ a = KERNEL_START + Buddy.phy_start s + 65536 * b /\ a - KERNEL_START + 65536 <= 2 ^ 32.
Proof.
  intros HI [H0 H4] (b & _ & Hreg & ->). pose proof (Inv_inv _ HI) as Hinv. pose proof (bi_params _ _ Hinv) as Hp.
  pose proof Hp as [Hroot _ _]. destruct Hreg as [Hb Hl]. unfold level, depth, Log2MinSize, Log2MaxSize in *. exists b.
  assert (b + 1 < 2 ^ (Buddy.root_log2size s - 16 + 1)) as Hlt by (apply Z.log2_lt_pow2; lia).
  assert (2 ^ (Buddy.root_log2size s + 1) = 65536 * 2 ^ (Buddy.root_log2size s - 16 + 1)) as E.
  { replace (Buddy.root_log2size s + 1) with (16 + (Buddy.root_log2size s - 16 + 1)) by lia. rewrite Z.pow_add_r by lia. done. }
  unfold block_vaddr, Buddy.get_block_phy_addr, Buddy.BlockSize, PAGE_SIZE, KERNEL_START.
  rewrite !wrap_small by (unfold uint; rewrite ?wrap_small by (unfold uint; lia); lia). lia.
Qed.


Lemma nth_tx_dma raw i : (i < 4)%nat -> nth i (tx_dma_addresses raw) 0 = wrap32 (wrap32 (raw - KERNEL_START) + 4096 * Z.of_nat i).
Proof. intros Hi. do 4 (destruct i as [|i]; [reflexivity|]). lia. Qed.

(** Addresses of buffers lose nothing in the address registers. *)
Lemma land_aligned x : 0 <= x < 2 ^ 32 -> x mod 4 = 0 -> Z.land x 0xfffffffc = x.
Proof.
  intros Hx H4. assert (x = Z.shiftl (x / 4) 2) as E by (rewrite Z.shiftl_mul_pow2 by lia; dlia).
  rewrite E. change 0xfffffffc with (Z.shiftl (Z.ones 30) 2). rewrite <- Z.shiftl_land, Z.land_ones by lia. f_equal. apply Z.mod_small. dlia.
Qed.


(** C17: the card reads and writes memory where the driver does.  With all memory
    below 4 GiB and unless memory ran out, the addresses programmed into the card
    are the physical addresses of the driver's buffers, the four transmit buffers
    of 4096 bytes do not meet each other or the 64 KiB receive buffer, and all of
    them lie below 4 GiB. *)
Theorem rtl8139_dma_bounds {C} `{Card C} view polls entry raw_context raw_cookie arp_start kthread_start raw_mac raw_mem raw_status raw_capr fuel bars b (h : @Host C) :
  card_laws view polls -> memory_bar bars = Some b -> Pci.start b < IDENTITY_MAP_PHY_END ->
  sched_inv (kern h) -> alloc_ready (Process.allocator (kern h)) -> Process.next_pid (kern h) + 1 < Process.MAX_PROCESS -> (polls < fuel)%nat ->
  below_4g (Process.allocator (kern h)) ->
  exists s h' raw, bring_up entry raw_context raw_cookie arp_start kthread_start raw_mac raw_mem raw_status raw_capr fuel bars h = Ret (s, h') /\
    tx_buffer (eth_driver_ s) = tx_addresses raw /\
    let rx := rx_buffer (eth_driver_ s) in
    let txb i := nth i (tx_buffer (eth_driver_ s)) 0 in
    (Forall (fun a => a <> KERNEL_START) (pointers s raw) ->
     Paging.kernel2phy rx = setting view (card h') RxBufferStartAddr 0 /\ Paging.kernel2phy rx + 65536 <= 2 ^ 32 /\
     (forall i, (i < 4)%nat -> Paging.kernel2phy (txb i) = setting view (card h') TxStartAddr (Z.of_nat i) /\ Paging.kernel2phy (txb i) + 4096 <= 2 ^ 32) /\
     (forall i j x y, (i < 4)%nat -> (j < 4)%nat -> i <> j -> 0 <= x < 4096 -> 0 <= y < 4096 -> txb i + x <> txb j + y) /\
     (forall i x y, (i < 4)%nat -> 0 <= x < 4096 -> 0 <= y < 65536 -> txb i + x <> rx + y)).
Proof.
  intros Hc Hb Hst Hi Hr Hn Hf H4.
  destruct (bring_up_run view polls Hc entry raw_context raw_cookie arp_start kthread_start raw_mac raw_mem raw_status raw_capr fuel bars b h Hb Hst Hi Hr Hn Hf)
    as (s & h' & raw & Hrun & [_ E2 E3 _ _ _ (HI' & (P1 & P2 & _) & _) N _ _]).
  exists s, h', raw. split; [done|]. split; [done|]. cbv zeta. intros Hp. destruct (N Hp) as [Hd Ho]. rewrite Forall_forall in Ho.
  assert (below_4g (Process.allocator (kern h'))) as H4' by (unfold below_4g; rewrite P1, P2; exact H4).
  destruct (owned_address _ (rx_buffer (eth_driver_ s)) HI' H4') as (b1 & B1 & R1 & R2); [apply Ho; unfold pointers; set_solver|].
  destruct (owned_address _ raw HI' H4') as (b2 & B2 & T1 & T2); [apply Ho; unfold pointers; set_solver|].
  assert (rx_buffer (eth_driver_ s) <> raw) as Hne.
  { unfold pointers in Hd. apply NoDup_cons in Hd as [_ Hd]. apply NoDup_app in Hd as (Hd & _ & _). apply NoDup_app in Hd as (_ & _ & Hd).
    apply NoDup_cons in Hd as [Hd _]. intros E. apply Hd. rewrite E. set_solver. }
  destruct H4' as [H4a _]. unfold KERNEL_START in *. pose proof (ar_align _ Hr) as Hal. rewrite <- P1 in Hal.
  assert (forall i, (i < 4)%nat -> nth i (tx_buffer (eth_driver_ s)) 0 = raw + 4096 * Z.of_nat i) as Htx.
  { intros i Hlt. rewrite E2. unfold tx_addresses. do 4 (destruct i as [|i]; [cbn; apply wrap_small; unfold uint; lia|]). lia. }
  destruct E3 as [V1 V2 _ _ _ _]. unfold Paging.kernel2phy, KERNEL_START in *. split_and!.
  - rewrite V1. rewrite !wrap_small by (unfold uint; lia). rewrite land_aligned; [done|lia|dlia].
  - rewrite wrap_small by (unfold uint; lia). lia.
  - intros i Hlt. rewrite Htx by done. rewrite V2, nth_tx_dma by done. unfold KERNEL_START.
    rewrite (wrap_small 32 (raw - _)) by (unfold uint; lia). rewrite !wrap_small by (unfold uint; lia).
    rewrite land_aligned; [lia|lia|dlia].
  - intros i j x y Hx Hy Hij Hxr Hyr. rewrite !Htx by done. lia.
  - intros i x y Hx Hxr Hyr. rewrite Htx by done. lia.
Qed.

(** ** A card with a register file *)

(** [busy] reads of the command register until a reset is over.  [TxConfig] shows the
    version of the chip, a write to [Isr] clears the bits written as 1, the address
    registers and [Config1] are locked. *)
Record reg_card := mkCard { file : register -> Z -> Z; busy : nat }.

Definition set_file (f : register -> Z -> Z) (r : register) (i v : Z) : register -> Z -> Z :=
  fun r' j => if decide ((r', j) = (r, i)) then v else f r' j.
Definition reg_view (c : reg_card) (r : register) (i : Z) : Z :=
  match r with TxConfig => Z.lor (Z.land (file c r i) 0x030707f0) 0x74000000 | MacReg => Z.land (file c r i) 0xff | _ => file c r i end.

#[export] Instance reg_card_card : Card reg_card := {|
  reg_read r i c :=
    match r, busy c with
    | Cmd, S n => (0x10, mkCard (file c) n)
    | _, _ => (reg_view c r i, c)
    end;
  reg_write r i v c :=
    match r with
    | Cmd => if Z.land v 0x10 =? 0 then mkCard (set_file (file c) Cmd i v) (busy c)
             else mkCard (fun r j => if decide (r = MacReg) then file c r j else 0) 3
    | Isr => mkCard (set_file (file c) Isr i (Z.ldiff (file c Isr i) v)) (busy c)
    | MacReg | Config1 => c
    | _ => mkCard (set_file (file c) r i v) (busy c)
    end
|}.

Lemma reg_setting c r i : setting reg_view c r i = Z.land (file c r i) (setting_bits r).
Proof.
  unfold setting, reg_view. destruct r; try done; cbn [setting_bits].
  - by rewrite <- Z.land_assoc, Z.land_diag.
  - rewrite Z.land_lor_distr_l, <- Z.land_assoc, Z.land_diag. change (Z.land 0x74000000 0x030707f0) with 0. by rewrite Z.lor_0_r.
Qed.

Lemma reg_card_laws : card_laws reg_view 3.
Proof.
  split.
  - intros i c _. cbn. rewrite reg_setting. cbn. by destruct (busy c).
  - intros r i c r' j [->| ->]; cbn; destruct (busy c); cbn [snd]; rewrite ?reg_setting; done.
  - intros r i v c [Hm Hc]. rewrite reg_setting. destruct r; try done; cbn [reg_write reg_card_card]; rewrite ?(Hc eq_refl); cbn [Z.eqb file];
      unfold set_file; rewrite ?decide_True by done; cbn [setting_bits]; rewrite ?Z.land_0_r; done.
  - intros r i v c r' j [Hm Hc] Hne. rewrite !reg_setting. destruct r; try done; cbn [reg_write reg_card_card]; rewrite ?(Hc eq_refl); cbn [Z.eqb file];
      unfold set_file; rewrite ?decide_False by done; done.
  - intros c i. rewrite !reg_setting. done.
  - intros c. exists 3%nat. split; [done|]. cbn. done.
Qed.

Definition ex_card : reg_card := mkCard (fun r i => if decide (r = MacReg) then 0x52 + i else 0xdead) 0.
Definition ex_bars : list Pci.PCIBar := [Pci.mkBar 0xc000 256 true; Pci.mkBar 0xfebf1000 256 false].
Definition ex_host : @Host reg_card := mkHost ex_two ex_card 0x407.

Definition ex_bring_up := bring_up ex_entry zero_context 0 0x5000 0x6000 (replicate 6 0xcc) (fun _ => 0) [] 0 4 ex_bars ex_host.

(** None of the pointers is the address that stands for failure. *)
Definition ex_ok : bool :=
  match ex_bring_up with
  | Ret (s, _) => forallb (fun a => negb (a =? KERNEL_START)) (pointers s (hd 0 (tx_buffer (eth_driver_ s))))
  | _ => false
  end.

(** No allocation of the run fails. *)
Lemma ex_pointers s h' raw : ex_bring_up = Ret (s, h') -> tx_buffer (eth_driver_ s) = tx_addresses raw ->
  Forall (fun a => a <> KERNEL_START) (pointers s raw).
Proof.
  intros Hrun Htx. assert (ex_ok = true) as Hok by (by vm_compute). unfold ex_ok in Hok. rewrite Hrun in Hok.
  rewrite forallb_forall in Hok. apply Forall_forall. intros a Ha ->.
  assert (forall x, x ∈ pointers s (hd 0 (tx_buffer (eth_driver_ s))) -> x <> KERNEL_START) as K.
  { intros x Hx E. apply list_elem_of_In, Hok in Hx. by rewrite E, Z.eqb_refl in Hx. }
  destruct (decide (raw = KERNEL_START)) as [->|Hr].
  - apply (K KERNEL_START); [|done]. rewrite Htx. change (hd 0 (tx_addresses KERNEL_START)) with KERNEL_START. exact Ha.
  - apply (K KERNEL_START); [|done]. revert Ha Hr. clear. unfold pointers. intros Ha Hr. set_solver.
Qed.

Lemma ex_host_ready : sched_inv (kern ex_host) /\ alloc_ready (Process.allocator (kern ex_host)) /\ below_4g (Process.allocator (kern ex_host)).
Proof. split; [exact ex_two_inv|]. split; [exact ex_ready|]. split; vm_compute; done. Qed.

Lemma ex_host_room : Process.next_pid (kern ex_host) + 1 < Process.MAX_PROCESS.
Proof. change (Process.next_pid (kern ex_host)) with 3. unfold Process.MAX_PROCESS. lia. Qed.


Lemma rtl8139_dma_bounds_witness :
  exists s h', ex_bring_up = Ret (s, h') /\
    Paging.kernel2phy (rx_buffer (eth_driver_ s)) = setting reg_view (card h') RxBufferStartAddr 0.
Proof.
  destruct ex_host_ready as (Hi & Hr & H4).
  destruct (rtl8139_dma_bounds reg_view 3 ex_entry zero_context 0 0x5000 0x6000 (replicate 6 0xcc) (fun _ => 0) [] 0 4 ex_bars (Pci.mkBar 0xfebf1000 256 false) ex_host
    reg_card_laws eq_refl ltac:(reflexivity) Hi Hr ex_host_room ltac:(lia) H4) as (s & h' & raw & Hrun & Htx & Hd).
  fold ex_bring_up in Hrun. exists s, h'. split; [exact Hrun|]. apply Hd, (ex_pointers s h' raw Hrun Htx).
Defined.
