(* ===== verification/AhciInit.v ===== *)
(** * device/ahci.cpp: finding the disks behind a controller

    [AHCIDriver::Enumerate], [Init] and the start of its thread.  The registers
    of the controller are accessed by their offset in its register page; the
    controller is a parameter of class [Hba], and what a port does with a command
    is a parameter as in [Ahci]. *)
From S2P Require Import Prelude LibUtils CpuDefs LibString Paging BuddyTree Buddy BuddyInv BuddyProofs BuddySpec BuddyThms PageAlloc PageAllocThms Process ProcessProofs ProcessThms AllocChain Irq Serial Crc Ahci Elf Gpt.

Module AhciInit.
Import LibString.

Definition SATA_SIG_SATA : Z := 0x00000101.
Definition SATA_SIG_ATAPI : Z := 0xEB140101.
Definition HBA_PxCMD_ST : Z := 0x0001.
Definition HBA_PxCMD_FRE : Z := 0x0010.
Definition HBA_PxCMD_FR : Z := 0x4000.
Definition HBA_PxCMD_CR : Z := 0x8000.

(** The page the registers are mapped at. *)
Definition ahci_phy : Z := 0xcabcd000.
Definition ahci_reg_page : Z := wrap64 (ahci_phy + KERNEL_START).

Definition port_register (ahci_reg_page port : Z) : Z := wrap64 (wrap64 (ahci_reg_page + 0x100) + 0x80 * port).

(** Offsets in the register page: global control, implemented ports, and the
    members of a port's [HBA_PORT]. *)
Definition ghc_reg : Z := 0x04.
Definition pi_reg : Z := 0x0c.
Definition port_reg (i member : Z) : Z := 0x100 + 0x80 * i + member.
Definition clb_member : Z := 0x00.
Definition fb_member : Z := 0x08.
Definition cmd_member : Z := 0x18.
Definition sig_member : Z := 0x24.
Definition ssts_member : Z := 0x28.

Class Hba (H : Type) := {
  hba_read : Z -> H -> Z * H;
  hba_write : Z -> Z -> H -> H
}.

Section init.
Context {H : Type} `{Hba H}.
(** What each port does with a command, when it is ready, and what [read] finds in
    its registers. *)
Context (issue : Z -> Ahci.Command -> memory -> memory * Ahci.completion) (ready : Z -> option Z) (port : Z -> Ahci.HBA_PORT).

Record Ctl := mkCtl {
  hba : H;
  kern : Process.Kernel;
  amem : memory;
  abar : Z;
  sata_devices : list Z
}.
Abbreviation CM := (ST Ctl).

Definition read32 (off : Z) : CM Z := fun c =>
  let '(v, h) := hba_read off (hba c) in Ret (v, mkCtl h (kern c) (amem c) (abar c) (sata_devices c)).
Definition write32 (off v : Z) : CM unit :=
  modify (fun c => mkCtl (hba_write off (wrap32 v) (hba c)) (kern c) (amem c) (abar c) (sata_devices c)).

Definition lift_kern {A} (f : ST Process.Kernel A) : CM A := fun c =>
  match f (kern c) with
  | Ret (a, k) => Ret (a, mkCtl (hba c) k (amem c) (abar c) (sata_devices c))
  | Panic m => Panic m | Halt => Halt | Fault => Fault | OutOfFuel => OutOfFuel
  end.

(** Reads of [Ahci], over the same memory and allocator. *)
Definition lift_ahci {A} (f : ST Ahci.Ahci A) : CM A := fun c =>
  match f (Ahci.mkAhci (amem c) (Process.allocator (kern c))) with
  | Ret (a, s) => Ret (a, mkCtl (hba c) (Process.with_allocator (Ahci.allocator s) (kern c)) (Ahci.amem s) (abar c) (sata_devices c))
  | Panic m => Panic m | Halt => Halt | Fault => Fault | OutOfFuel => OutOfFuel
  end.

(** [while (port->cmd & HBA_PxCMD_CR);] *)
Fixpoint wait_cr (fuel : nat) (i : Z) : CM unit :=
  match fuel with
  | O => out_of_fuel
  | S fuel =>
      v ← read32 (port_reg i cmd_member);
      if negb (Z.land v HBA_PxCMD_CR =? 0) then wait_cr fuel i else mret tt
  end.

(** [port->cmd = port->cmd | bits] *)
Definition or_cmd (i bits : Z) : CM unit :=
  v ← read32 (port_reg i cmd_member);
  write32 (port_reg i cmd_member) (Z.lor v bits).

Definition start_cmd (fuel : nat) (i : Z) : CM unit :=
  wait_cr fuel i;;
  or_cmd i HBA_PxCMD_FRE;;
  or_cmd i HBA_PxCMD_ST.

(** [stop_cmd], which nothing calls: the bits are cleared one by one, then both
    engines must have stopped. *)
Definition clear_cmd (i bits : Z) : CM unit :=
  v ← read32 (port_reg i cmd_member);
  write32 (port_reg i cmd_member) (Z.land v (Z.lnot bits)).
Fixpoint wait_stopped (fuel : nat) (i : Z) : CM unit :=
  match fuel with
  | O => out_of_fuel
  | S fuel =>
      v ← read32 (port_reg i cmd_member);
      if negb (Z.land v HBA_PxCMD_FR =? 0) then wait_stopped fuel i
      else
        v ← read32 (port_reg i cmd_member);
        if negb (Z.land v HBA_PxCMD_CR =? 0) then wait_stopped fuel i else mret tt
  end.
Definition stop_cmd (fuel : nat) (i : Z) : CM unit :=
  clear_cmd i HBA_PxCMD_ST;;
  clear_cmd i HBA_PxCMD_FRE;;
  wait_stopped fuel i.

(** A 64-bit register without its low 12 bits. *)
Definition read_base (off : Z) : CM Z :=
  lo ← read32 off;
  hi ← read32 (off + 4);
  mret (Z.land (lo + 2 ^ 32 * hi) 0xfffffffffffff000).

Definition ahci_port_init (fuel : nat) (i : Z) : CM unit :=
  v ← read32 (port_reg i cmd_member);
  (if Z.land v 2 =? 0 then or_cmd i 2 else mret tt);;
  start_cmd fuel i;;
  read32 (port_reg i cmd_member);;
  command_list_addr ← read_base (port_reg i clb_member);
  fis_base_addr ← read_base (port_reg i fb_member);
  do_assert (command_list_addr <? IDENTITY_MAP_PHY_END) "";;
  do_assert (fis_base_addr <? IDENTITY_MAP_PHY_END) "";;
  buf ← lift_kern (Process.page_alloc (PageAlloc.kernel_page_alloc 16));
  let buf_phy := wrap64 (buf - KERNEL_START) in
  lift_ahci (Ahci.read (issue i) (ready i) (port i) 1 0 1 buf_phy);;
  mret tt.

(** Round [i] of the loop over the ports. *)
Definition scan_port (fuel : nat) (pi i : Z) : CM unit :=
  if Z.land (Z.shiftl 1 i) pi =? 0 then mret tt
  else
    sstatus ← read32 (port_reg i ssts_member);
    let det := Z.land sstatus 0xf in
    let spd := Z.land (Z.shiftr sstatus 4) 0xf in
    let ipm := Z.land (Z.shiftr sstatus 8) 0xf in
    if negb ((det =? 3) && negb (spd =? 0) && (ipm =? 1)) then mret tt
    else
      sig ← read32 (port_reg i sig_member);
      if sig =? SATA_SIG_SATA then
        ahci_port_init fuel i;;
        modify (fun c => mkCtl (hba c) (kern c) (amem c) (abar c) (sata_devices c ++ [port_register ahci_reg_page i]))
      else mret tt.

Fixpoint scan_ports (fuel n : nat) (pi i : Z) : CM unit :=
  match n with
  | O => mret tt
  | S n => scan_port fuel pi i;; scan_ports fuel n pi (i + 1)
  end.

(** [AHCIDriver::Init] *)
Definition Init (fuel : nat) : CM unit :=
  modify (fun c => mkCtl (hba c) (kern c) (amem c) ahci_phy (sata_devices c));;
  read32 0;;
  v ← read32 ghc_reg;
  (if Z.land (Z.shiftr v 31) 1 =? 0 then v ← read32 ghc_reg; write32 ghc_reg (Z.lor v 0x80000000) else mret tt);;
  v ← read32 ghc_reg;
  if Z.land (Z.shiftr v 31) 1 =? 0 then panic "AHCI not enabled"
  else
    v ← read32 ghc_reg;
    (if negb (Z.land v 2 =? 0) then v ← read32 ghc_reg; write32 ghc_reg (Z.lor v 2) else mret tt);;
    v ← read32 ghc_reg;
    if negb (Z.land v 2 =? 0) then panic "Interrupt not enabled"
    else
      pi ← read32 pi_reg;
      read32 0x10;;
      scan_ports fuel 32 pi 0.

(** [AHCIDriver::Enumerate]; [this] is the address of the driver. *)
Definition Enumerate (process_entrypoint : Z) (raw_context : Process.Context) (raw_cookie KthreadEntry this : Z) (fuel : nat) : CM bool :=
  Init fuel;;
  lift_kern (Process.create_kthread process_entrypoint raw_context raw_cookie "ahci" KthreadEntry this);;
  mret true.

(** ** The thread *)

Context {D : Type} `{Serial.PortIO D} (pfuel : nat).
Abbreviation KM := (ST (Ctl * @Serial.SerialPort D)%type).

Definition lift_ctl {A} (f : CM A) : KM A := fun '(c, sp) =>
  match f c with
  | Ret (a, c') => Ret (a, (c', sp))
  | Panic m => Panic m | Halt => Halt | Fault => Fault | OutOfFuel => OutOfFuel
  end.
Definition lift_sp {A} (f : ST (@Serial.SerialPort D) A) : KM A := fun '(c, sp) =>
  match f sp with
  | Ret (a, sp') => Ret (a, (c, sp'))
  | Panic m => Panic m | Halt => Halt | Fault => Fault | OutOfFuel => OutOfFuel
  end.

(** One round of the loop that prints the partitions. *)
Definition partition_line (part : Gpt.GPTPrimaryPartition) : list Serial.item :=
  [Serial.Str (Serial.lit "  partition: 0x"); Serial.Radix Hex; Serial.Int (Gpt.start_offset part); Serial.Str (Serial.lit ", size = 0x"); Serial.Radix Hex; Serial.Int (Gpt.size part); Serial.Str [10]].

(** [KthreadEntry] up to the loop in which it only yields; [index] finds the port
    of a register address.  The first message is the one [ListPrimaryPartitions]
    prints on its way. *)
Definition KthreadEntry (index : Z -> Z) (header_buf entry_buf : Z) (fuel : nat) : KM unit :=
  devices ← lift_ctl (gets sata_devices);
  match devices with
  | [] => panic "No AHCI device found"
  | d :: _ =>
      partitions ← lift_ctl (lift_ahci (Gpt.ListPrimaryPartitions (H := Gpt.ahci_device (issue (index d)) (ready (index d)) (port (index d))) header_buf entry_buf fuel));
      lift_sp (Serial.print pfuel [Serial.Str (Serial.lit "EFI magic matched!"); Serial.Str [10]]);;
      lift_sp (Serial.print pfuel [Serial.Str (Serial.lit "GPT partition table on the first SATA device"); Serial.Str [10]]);;
      lift_sp (Serial.print pfuel (mjoin (partition_line <$> Gpt.items partitions)))
  end.

End init.

End AhciInit.
