(* ===== verification/AhciInitThms.v ===== *)
(** * The disks the AHCI driver finds, and what its thread prints

    [hba_laws] is what a controller is relied on for: register reads disturb
    nothing, the driver's own writes are kept where the registers have the bits,
    and a port that is not started stops running within some reads. *)
From S2P Require Import Prelude LibUtils CpuDefs LibString Paging BuddyTree Buddy BuddyInv BuddyProofs BuddySpec BuddyThms PageAlloc PageAllocThms Process ProcessProofs ProcessThms AllocChain Irq Serial SerialThms Crc Ahci Elf Gpt AhciInit.
Import LibString AhciInit.

Section hba.
Context {H : Type} `{Hba H}.

(** The command registers of the ports. *)
Definition is_cmd (off : Z) : Prop := exists i, 0 <= i < 32 /\ off = port_reg i cmd_member.

(** The command register of port [i] reads [n] times with the running bit set. *)
Fixpoint runs_for (n : nat) (i : Z) (h : H) : Prop :=
  let '(v, h') := hba_read (port_reg i cmd_member) h in
  match n with O => Z.land v HBA_PxCMD_CR = 0 | S n => Z.land v HBA_PxCMD_CR <> 0 /\ runs_for n i h' end.

(** Registers that keep their value while no disk is plugged in or out: global
    control, the implemented ports, and of a port the addresses of its command list
    and of its FIS area, its signature and its status. *)
Definition stable (off : Z) : Prop :=
  off = ghc_reg \/ off = pi_reg \/
  exists i m, 0 <= i < 32 /\ off = port_reg i m /\ m ∈ [clb_member; clb_member + 4; fb_member; fb_member + 4; sig_member; ssts_member].

(** What the driver writes: global control in AHCI mode and without a reset, and
    command registers. *)
Definition driver_write (off v : Z) : Prop := (off = ghc_reg /\ Z.testbit v 31 = true /\ Z.testbit v 0 = false) \/ is_cmd off.

(** The start bit (PxCMD.ST) of port [i]. *)
Definition started (view : H -> Z -> Z) (h : H) (i : Z) : bool := Z.testbit (view h (port_reg i cmd_member)) 0.

(** [view h off] is what the register at [off] reads as.  Stable registers change
    by writes to them only; of global control, AHCI mode and interrupt enable read
    as written, and a reset is not reported when none was asked for.  The start bit of
    a port changes by writes to its command register only, and reads as 0 after it was
    written so; the command list of a port that is not started stops running after
    at most [n] reads.  Nothing is said of a port that is started. *)
Record hba_laws (view : H -> Z -> Z) (n : nat) : Prop := {
  hl_word off h : uint 32 (view h off);
  hl_read off h : fst (hba_read off h) = view h off;
  hl_keeps off h off' : stable off' -> view (snd (hba_read off h)) off' = view h off';
  hl_write off v h off' : driver_write off v -> stable off' -> off' <> off -> view (hba_write off v h) off' = view h off';
  hl_ghc v h : driver_write ghc_reg v -> let g := view (hba_write ghc_reg v h) ghc_reg in
    Z.testbit g 31 = true /\ Z.testbit g 1 = Z.testbit v 1 /\ Z.testbit g 0 = false;
  hl_started off h i : started view (snd (hba_read off h)) i = started view h i;
  hl_start_write off v h i : driver_write off v -> off <> port_reg i cmd_member -> started view (hba_write off v h) i = started view h i;
  hl_start_clear i v h : 0 <= i < 32 -> Z.testbit v 0 = false -> started view (hba_write (port_reg i cmd_member) v h) i = false;
  hl_runs i h : 0 <= i < 32 -> started view h i = false -> exists m, (m <= n)%nat /\ runs_for m i h
}.

Context (view : H -> Z -> Z) (spins : nat) (Hl : hba_laws view spins).
Context (issue : Z -> Ahci.Command -> memory -> memory * Ahci.completion) (ready : Z -> option Z) (port : Z -> Ahci.HBA_PORT).

Lemma port_reg_next i m : port_reg i m + 4 = port_reg i (m + 4).
Proof using Type. unfold port_reg. lia. Qed.
Lemma stable_port i m : 0 <= i < 32 -> m ∈ [clb_member; clb_member + 4; fb_member; fb_member + 4; sig_member; ssts_member] -> stable (port_reg i m).
Proof using Type. intros Hi Hm. right. right. by exists i, m. Qed.
Lemma stable_not_cmd off : stable off -> ~ is_cmd off.
Proof using Type.
  intros [->|[->|(i & m & Hi & -> & Hm)]] (j & Hj & E); unfold port_reg, cmd_member, ghc_reg, pi_reg in *; [lia..|].
  unfold clb_member, fb_member, sig_member, ssts_member in Hm. apply list_elem_of_In in Hm. cbn in Hm. lia.
Qed.
Lemma cmd_write i v : 0 <= i < 32 -> driver_write (port_reg i cmd_member) v.
Proof using Type. intros Hi. right. by exists i. Qed.

(** [c'] differs from [c] in registers that are not stable, memory and new
    allocations only, and the ports after [k] are started as before. *)
Record keeps (k : Z) (c c' : @Ctl H) : Prop := {
  kp_view off : stable off -> view (hba c') off = view (hba c) off;
  kp_started j : k < j -> started view (hba c') j = started view (hba c) j;
  kp_abar : abar c' = abar c;
  kp_devices : sata_devices c' = sata_devices c;
  kp_pid : Process.next_pid (kern c') = Process.next_pid (kern c);
  kp_inv : sched_inv (kern c) -> sched_inv (kern c');
  kp_alloc : alloc_ready (Process.allocator (kern c)) -> alloc_ready (Process.allocator (kern c'))
}.

#[local] Instance keeps_refl k : Reflexive (keeps k).
Proof using Type. by split. Qed.
#[local] Instance keeps_trans k : Transitive (keeps k).
Proof using Type. intros a b c [A1 A0 A2 A3 A4 A5 A6] [B1 B0 B2 B3 B4 B5 B6]. split; [intros; by rewrite B1, A1|intros; by rewrite B0, A0|congruence..|auto|auto]. Qed.
Lemma keeps_le k k' c c' : k <= k' -> keeps k c c' -> keeps k' c c'.
Proof using Type. intros Hk [A1 A0 A2 A3 A4 A5 A6]. split; try done. intros j Hj. apply A0. lia. Qed.

Definition with_hba (h : H) (c : @Ctl H) : @Ctl H := mkCtl h (kern c) (amem c) (abar c) (sata_devices c).

Lemma keeps_hba k h c : (forall off, stable off -> view h off = view (hba c) off) -> (forall j, k < j -> started view h j = started view (hba c) j) -> keeps k c (with_hba h c).
Proof using Type. intros E1 E2. by split. Qed.

Lemma read32_run k off c : exists c', read32 off c = Ret (view (hba c) off, c') /\ keeps k c c' /\ hba c' = snd (hba_read off (hba c)).
Proof using Hl.
  unfold read32. rewrite <- (hl_read _ _ Hl). destruct (hba_read off (hba c)) as [v h] eqn:E. exists (with_hba h c).
  split; [done|]. split; [|done]. apply keeps_hba.
  - intros off' Ho. by rewrite <- (hl_keeps _ _ Hl off (hba c) off' Ho), E.
  - intros j _. by rewrite <- (hl_started _ _ Hl off (hba c) j), E.
Qed.

(** The started bit of port [i], in the state of the driver. *)
Local Abbreviation running i c := (started view (hba c) i).

Lemma wait_cr_run k m fuel i c : runs_for m i (hba c) -> (m < fuel)%nat -> exists c', wait_cr fuel i c = Ret (tt, c') /\ keeps k c c'.
Proof using Hl.
  revert fuel c. induction m as [|m IH]; intros [|fuel] c Hr Hf; try lia; cbn [wait_cr runs_for] in *.
  all: destruct (read32_run k (port_reg i cmd_member) c) as (c1 & H1 & K1 & E1); step_with H1.
  all: rewrite <- (hl_read _ _ Hl). all: destruct (hba_read (port_reg i cmd_member) (hba c)) as [v h]; cbn [fst snd] in *.
  - rewrite Hr. by exists c1.
  - destruct Hr as [Hv Hr]. rewrite (proj2 (Z.eqb_neq _ _) Hv). cbn [negb]. rewrite <- E1 in Hr.
    destruct (IH fuel c1 Hr ltac:(lia)) as (c' & H' & K'). exists c'. split; [done|]. by transitivity c1.
Qed.

Lemma or_cmd_run i bits c : 0 <= i < 32 -> exists c', or_cmd i bits c = Ret (tt, c') /\ keeps i c c' /\
  (running i c = false -> Z.testbit bits 0 = false -> running i c' = false).
Proof using Hl.
  intros Hi. unfold or_cmd. destruct (read32_run i (port_reg i cmd_member) c) as (c1 & H1 & K1 & E1). step_with H1.
  eexists. split; [reflexivity|]. split.
  - transitivity c1; [done|]. apply (keeps_hba i _ c1).
    + intros off Ho. apply (hl_write _ _ Hl); [by apply cmd_write|done|]. intros ->. apply (stable_not_cmd _ Ho). by exists i.
    + intros j Hj. apply (hl_start_write _ _ Hl); [by apply cmd_write|]. unfold port_reg. lia.
  - intros Hs Hb. cbn [hba]. apply (hl_start_clear _ _ Hl); [done|]. unfold wrap. rewrite Z.mod_pow2_bits_low, Z.lor_spec, Hb by lia. unfold started in Hs. by rewrite Hs.
Qed.

Lemma start_cmd_run fuel i c : 0 <= i < 32 -> (spins < fuel)%nat -> running i c = false -> exists c', start_cmd fuel i c = Ret (tt, c') /\ keeps i c c'.
Proof using Hl.
  intros Hi Hf Hs. unfold start_cmd. destruct (hl_runs _ _ Hl i (hba c) Hi Hs) as (m & Hm & Hr).
  destruct (wait_cr_run i m fuel i c Hr ltac:(lia)) as (c1 & H1 & K1). step_with H1.
  destruct (or_cmd_run i HBA_PxCMD_FRE c1 Hi) as (c2 & H2 & K2 & _). step_with H2.
  destruct (or_cmd_run i HBA_PxCMD_ST c2 Hi) as (c3 & H3 & K3 & _). exists c3. split; [done|]. by transitivity c2; [transitivity c1|].
Qed.

(** A 64-bit register of the controller. *)
Definition base_of (h : H) (off : Z) : Z := Z.land (view h off + 2 ^ 32 * view h (off + 4)) 0xfffffffffffff000.

Lemma read_base_run k off c : stable (off + 4) -> exists c', read_base off c = Ret (base_of (hba c) off, c') /\ keeps k c c'.
Proof using Hl.
  intros Hn4. unfold read_base. destruct (read32_run k off c) as (c1 & H1 & K1 & _). step_with H1.
  destruct (read32_run k (off + 4) c1) as (c2 & H2 & K2 & _). step_with H2. exists c2.
  split; [|by transitivity c1]. unfold base_of. by rewrite (kp_view _ _ _ K1) by done.
Qed.

(** What the driver relies on of a port with a disk: it is not started, its tables
    are in the kernel's identity map, and a read command ends, with or without
    success. *)
Record port_ok (h : H) (i : Z) : Prop := {
  po_stopped : started view h i = false;
  po_clb : base_of h (port_reg i clb_member) < IDENTITY_MAP_PHY_END;
  po_fb : base_of h (port_reg i fb_member) < IDENTITY_MAP_PHY_END;
  po_tables : Ahci.tables_mapped (port i);
  po_ends cmd m : Ahci.read_dma_ext cmd -> snd (issue i cmd m) <> Ahci.Hangs
}.

(** The command for the first sector after the header. *)
Lemma first_command slot buf : 0 <= slot < 32 -> 0 <= buf -> buf + 8192 < 2 ^ 64 -> Z.even buf = true -> Ahci.read_dma_ext (Ahci.make_command slot 1 0 1 buf).
Proof using Type. intros Hs B0 B1 He. by destruct (Ahci.make_command_read slot 1 1 buf Hs ltac:(lia) ltac:(lia) B0 B1 He) as [Hr _]. Qed.

Lemma ahci_read_ends k i h c buf : port_ok h i -> 0 <= buf -> buf + 8192 < 2 ^ 64 -> Z.even buf = true ->
  exists b c', lift_ahci (Ahci.read (issue i) (ready i) (port i) 1 0 1 buf) c = Ret (b, c') /\ keeps k c c'.
Proof using Type.
  intros [_ _ _ Ht He] B0 B1 Hev. unfold lift_ahci.
  assert (exists b m, Ahci.read (issue i) (ready i) (port i) 1 0 1 buf (Ahci.mkAhci (amem c) (Process.allocator (kern c))) =
    Ret (b, Ahci.mkAhci m (Process.allocator (kern c)))) as (b & m & ->).
  2: { eexists _, _. split; [reflexivity|]. split; try done. by destruct c as [? []]. }
  destruct (decide (Ahci.find_cmdslot (port i) = -1)) as [E|Hslot]; [unfold Ahci.read; rewrite E; by eexists _, _|].
  destruct (Ahci.port_ready (ready i)) eqn:Er.
  - rewrite Ahci.read_issues by done. cbn [Ahci.amem Ahci.allocator].
    destruct (Ahci.cmdslot_range 32 0 (Z.lor (Ahci.sact (port i)) (Ahci.ci (port i)))) as [?|Hr]; [done|].
    specialize (He _ (amem c) (first_command (Ahci.find_cmdslot (port i)) buf Hr B0 B1 Hev)).
    destruct (issue i _ _) as [m []]; [by eexists _, _..|done].
  - unfold Ahci.read. rewrite (proj2 (Z.eqb_neq _ _) Hslot). destruct Ht as [[L1 L2] [T1 T2]].
    rewrite (proj2 (Z.ltb_lt _ _) L2), (proj2 (Z.ltb_lt _ _) T2), (proj2 (Z.ltb_ge _ _) L1), (proj2 (Z.ltb_ge _ _) T1), Er.
    unfold do_assert. rewrite !bind_mret_l. by eexists _, _.
Qed.

Lemma port_init_run fuel i c : 0 <= i < 32 -> (spins < fuel)%nat -> port_ok (hba c) i -> alloc_ready (Process.allocator (kern c)) ->
  exists c', ahci_port_init issue ready port fuel i c = Ret (tt, c') /\ keeps i c c'.
Proof using Hl.
  intros Hi Hf Hp Ha. unfold ahci_port_init.
  destruct (read32_run (i - 1) (port_reg i cmd_member) c) as (c1 & H1 & K1 & _). step_with H1.
  pose proof (keeps_le (i - 1) i _ _ ltac:(lia) K1) as K1'.
  assert (running i c1 = false) as Hs1 by (rewrite (kp_started _ _ _ K1) by lia; apply Hp).
  assert (exists c2, (if Z.land (view (hba c) (port_reg i cmd_member)) 2 =? 0 then or_cmd i 2 else mret tt) c1 = Ret (tt, c2) /\ keeps i c1 c2 /\ running i c2 = false) as (c2 & H2 & K2 & Hs2).
  { destruct (_ =? 0); [|by exists c1]. destruct (or_cmd_run i 2 c1 Hi) as (c2 & H2 & K2 & Hk). exists c2. auto. }
  step_with H2. destruct (start_cmd_run fuel i c2 Hi Hf Hs2) as (c3 & H3 & K3). step_with H3.
  destruct (read32_run i (port_reg i cmd_member) c3) as (c4 & H4 & K4 & _). step_with H4.
  assert (keeps i c c4) as K by (transitivity c3; [transitivity c2; [by transitivity c1|done]|done]).
  assert (stable (port_reg i clb_member + 4) /\ stable (port_reg i fb_member + 4) /\ stable (port_reg i clb_member) /\ stable (port_reg i fb_member)) as (S1 & S2 & S3 & S4).
  { rewrite !port_reg_next. split_and!; apply stable_port; try done; repeat constructor. }
  destruct (read_base_run i (port_reg i clb_member) c4 S1) as (c5 & H5 & K5). step_with H5.
  destruct (read_base_run i (port_reg i fb_member) c5 S2) as (c6 & H6 & K6). step_with H6.
  assert (keeps i c c5) as K5' by (by transitivity c4). assert (keeps i c c6) as K6' by (by transitivity c5).
  assert (base_of (hba c4) (port_reg i clb_member) = base_of (hba c) (port_reg i clb_member)) as -> by (unfold base_of; by rewrite !(kp_view _ _ _ K) by done).
  assert (base_of (hba c5) (port_reg i fb_member) = base_of (hba c) (port_reg i fb_member)) as -> by (unfold base_of; by rewrite !(kp_view _ _ _ K5') by done).
  rewrite (proj2 (Z.ltb_lt _ _) (po_clb _ _ Hp)), (proj2 (Z.ltb_lt _ _) (po_fb _ _ Hp)). cbn [do_assert]. rewrite !bind_mret_l.
  pose proof (kp_alloc _ _ _ K6' Ha) as Ha6. destruct (page_alloc_kernel (kern c6) 16) as (buf & al & H7 & G7 & Hbuf); [apply Ha6|done|].
  set (c7 := mkCtl (hba c6) (Process.with_allocator al (kern c6)) (amem c6) (abar c6) (sata_devices c6)).
  rewrite bind_ret with (a := buf) (s' := c7); [|unfold lift_kern; by rewrite H7].
  assert (alloc_ready al) as Ha7 by (destruct Ha6 as [_ E1 E2], G7 as (HI & (P & _) & _); split; [done|by rewrite P..]).
  destruct (page_phys al buf Ha7) as (Q1 & Q2 & Q3); [destruct (decide (buf = KERNEL_START)) as [?|Hne]; [by left|right]; destruct (Hbuf ltac:(by apply Forall_singleton)) as [_ Hown]; by apply Forall_singleton in Hown as [? _]|].
  destruct (ahci_read_ends i i (hba c) c7 (wrap64 (buf - KERNEL_START)) Hp Q1 Q2 Q3) as (b & c8 & H8 & K8). cbv zeta. step_with H8.
  exists c8. split; [done|]. transitivity c6; [done|]. transitivity c7; [|done]. split; try done. by intros [? ? ? ? ?].
Qed.

(** ** The scan *)

(** A disk is present and active at port [i], by the port's status and signature. *)
Definition active (sstatus : Z) : bool :=
  (Z.land sstatus 0xf =? 3) && negb (Z.land (Z.shiftr sstatus 4) 0xf =? 0) && (Z.land (Z.shiftr sstatus 8) 0xf =? 1).
Definition sata_port (h : H) (i : Z) : bool :=
  Z.testbit (view h pi_reg) i && active (view h (port_reg i ssts_member)) && (view h (port_reg i sig_member) =? SATA_SIG_SATA).

(** [c'] is [c] with the devices [l] added; the ports after [k] were left alone. *)
Definition scanned (k : Z) (c c' : @Ctl H) (l : list Z) : Prop :=
  keeps k c (mkCtl (hba c') (kern c') (amem c') (abar c') (sata_devices c)) /\ sata_devices c' = sata_devices c ++ l.

Lemma scanned_nil k c c' : keeps k c c' -> scanned k c c' [].
Proof using Type. intros [K1 K0 K2 K3 K4 K5 K6]. split; [by split|by rewrite app_nil_r]. Qed.
Lemma scanned_app k c c1 c2 l l' : scanned k c c1 l -> scanned k c1 c2 l' -> scanned k c c2 (l ++ l').
Proof using Type.
  intros [[A1 A0 A2 A3 A4 A5 A6] E1] [[B1 B0 B2 B3 B4 B5 B6] E2]. cbn in *. split; [|by rewrite E2, E1, app_assoc].
  split; cbn; [intros off Ho; rewrite <- A1, <- B1 by done; done|intros j Hj; rewrite <- A0, <- B0 by done; done|congruence|done|congruence|auto|auto].
Qed.
Lemma scanned_le k k' c c' l : k <= k' -> scanned k c c' l -> scanned k' c c' l.
Proof using Type. intros Hk [K E]. split; [by eapply keeps_le|done]. Qed.
Lemma scanned_view k c c' l off : scanned k c c' l -> stable off -> view (hba c') off = view (hba c) off.
Proof using Type. intros [K _]. apply (kp_view _ _ _ K). Qed.
Lemma scanned_alloc k c c' l : scanned k c c' l -> alloc_ready (Process.allocator (kern c)) -> alloc_ready (Process.allocator (kern c')).
Proof using Type. intros [K _]. apply (kp_alloc _ _ _ K). Qed.

(** The registers that tell about a port. *)
Lemma sata_port_stable h h' i : 0 <= i < 32 -> (forall off, stable off -> off <> ghc_reg -> view h' off = view h off) -> sata_port h' i = sata_port h i.
Proof using Type.
  intros Hi E. unfold sata_port. rewrite !E; try done; try (unfold port_reg, ghc_reg, sig_member, ssts_member; lia); [apply stable_port; [done|repeat constructor]..|by right; left].
Qed.
Lemma port_ok_stable h h' i : 0 <= i < 32 -> (forall off, stable off -> off <> ghc_reg -> view h' off = view h off) -> started view h' i = started view h i ->
  port_ok h i -> port_ok h' i.
Proof using Type.
  intros Hi E Es [P0 P1 P2 P3 P4]. split; [by rewrite Es| | |done|done]; unfold base_of in *; rewrite port_reg_next in *;
    (rewrite !E; [done|..]); first [apply stable_port; [done|repeat constructor]|unfold port_reg, ghc_reg, clb_member, fb_member; lia].
Qed.

Lemma land_bit i x : 0 <= i -> (Z.land (Z.shiftl 1 i) x =? 0) = negb (Z.testbit x i).
Proof using Type.
  intros Hi. destruct (Z.eqb_spec (Z.land (Z.shiftl 1 i) x) 0) as [E|E].
  - assert (Z.testbit (Z.land (Z.shiftl 1 i) x) i = false) as K by (rewrite E; apply Z.bits_0).
    rewrite Z.land_spec, Z.shiftl_spec, Z.sub_diag in K by lia. cbn in K. by rewrite K.
  - destruct (Z.testbit x i) eqn:Et; [done|]. exfalso. apply E. apply Z.bits_inj'. intros j Hj.
    rewrite Z.land_spec, Z.shiftl_spec, Z.bits_0 by done. destruct (decide (j = i)) as [->|Hne]; [by rewrite Et, andb_false_r|].
    assert (Z.testbit 1 (j - i) = false) as ->; [|done].
    destruct (Z.lt_ge_cases j i); [apply Z.testbit_neg_r; lia|]. apply Z.bits_above_log2; [done|]. cbn. lia.
Qed.

Lemma scan_port_run fuel i c : 0 <= i < 32 -> (spins < fuel)%nat -> (sata_port (hba c) i = true -> port_ok (hba c) i) ->
  alloc_ready (Process.allocator (kern c)) ->
  exists c', scan_port issue ready port fuel (view (hba c) pi_reg) i c = Ret (tt, c') /\
    scanned i c c' (if sata_port (hba c) i then [port_register ahci_reg_page i] else []).
Proof using Hl.
  intros Hi Hf Hp Ha. unfold scan_port. rewrite land_bit by lia. unfold sata_port in *. destruct (Z.testbit (view (hba c) pi_reg) i); cbn [negb andb] in *.
  2: { exists c. split; [done|]. apply scanned_nil. reflexivity. }
  destruct (read32_run (i - 1) (port_reg i ssts_member) c) as (c1 & H1 & K1 & _). step_with H1. cbv zeta.
  fold (active (view (hba c) (port_reg i ssts_member))). destruct (active _); cbn [negb andb] in *.
  2: { exists c1. split; [done|]. apply scanned_nil. apply (keeps_le (i - 1)); [lia|done]. }
  destruct (read32_run (i - 1) (port_reg i sig_member) c1) as (c2 & H2 & K2 & _). step_with H2.
  assert (keeps (i - 1) c c2) as K by (by transitivity c1). pose proof (keeps_le (i - 1) i _ _ ltac:(lia) K) as K'.
  rewrite (kp_view _ _ _ K1) by (apply stable_port; [done|repeat constructor]).
  destruct (view (hba c) (port_reg i sig_member) =? SATA_SIG_SATA) eqn:Es.
  2: { exists c2. split; [done|]. by apply scanned_nil. }
  specialize (Hp eq_refl). destruct (port_init_run fuel i c2 Hi Hf) as (c3 & H3 & K3).
  { apply (port_ok_stable (hba c)); [done|intros off Ho _; by apply (kp_view _ _ _ K)|apply (kp_started _ _ _ K); lia|done]. }
  { by apply (kp_alloc _ _ _ K). }
  step_with H3. eexists. split; [reflexivity|]. assert (keeps i c c3) as [E1 E0 E2 E3 E4 E5 E6] by (by transitivity c2).
  split; cbn; [by split|by rewrite E3].
Qed.

Lemma scan_ports_run fuel n i c : 0 <= i -> i + Z.of_nat n <= 32 -> (spins < fuel)%nat ->
  (forall j, i <= j < 32 -> sata_port (hba c) j = true -> port_ok (hba c) j) -> alloc_ready (Process.allocator (kern c)) ->
  exists c', scan_ports issue ready port fuel n (view (hba c) pi_reg) i c = Ret (tt, c') /\
    scanned 32 c c' (port_register ahci_reg_page <$> List.filter (sata_port (hba c)) (seqZ i (Z.of_nat n))).
Proof using Hl.
  intros Hi Hn Hf Hp Ha. revert i c Hi Hn Hp Ha. induction n as [|n IH]; intros i c Hi Hn Hp Ha; cbn [scan_ports].
  - exists c. split; [done|]. apply scanned_nil. reflexivity.
  - destruct (scan_port_run fuel i c ltac:(lia) Hf (Hp i ltac:(lia)) Ha) as (c1 & H1 & S1). step_with H1.
    assert (forall off, stable off -> off <> ghc_reg -> view (hba c1) off = view (hba c) off) as Ev by (intros off Ho _; by apply (scanned_view _ _ _ _ _ S1)).
    assert (forall j, 0 <= j < 32 -> sata_port (hba c1) j = sata_port (hba c) j) as Es by (intros j Hj; by apply sata_port_stable).
    assert (view (hba c1) pi_reg = view (hba c) pi_reg) as Epi by (apply Ev; [by right; left|done]).
    destruct (IH (i + 1) c1) as (c2 & H2 & S2); [lia|lia| |by eapply scanned_alloc|].
    { intros j Hj Hs. rewrite Es in Hs by lia. apply (port_ok_stable (hba c)); [lia|done|apply (kp_started _ _ _ (proj1 S1)); lia|apply Hp; [lia|done]]. }
    rewrite Epi in H2. exists c2. split; [done|].
    rewrite (seqZ_cons i) by lia. replace (Z.pred (Z.of_nat (S n))) with (Z.of_nat n) by lia. cbn [List.filter].
    assert (List.filter (sata_port (hba c1)) (seqZ (i + 1) (Z.of_nat n)) = List.filter (sata_port (hba c)) (seqZ (i + 1) (Z.of_nat n))) as Ef.
    { apply List.filter_ext_in. intros j Hj. apply Es. apply list_elem_of_In, elem_of_seqZ in Hj. lia. }
    rewrite Ef in S2. pose proof (scanned_app _ _ _ _ _ _ (scanned_le i 32 _ _ _ ltac:(lia) S1) S2) as S. by destruct (sata_port (hba c) i).
Qed.

(** ** Init *)

Definition set_abar (c : @Ctl H) : @Ctl H := mkCtl (hba c) (kern c) (amem c) ahci_phy (sata_devices c).

Lemma bit31 v : (Z.land (Z.shiftr v 31) 1 =? 0) = negb (Z.testbit v 31).
Proof using Type.
  change 1 with (Z.ones 1). rewrite Z.land_ones, Z.shiftr_div_pow2 by lia. change (2 ^ 1) with 2.
  rewrite Zmod_even, <- Z.negb_odd. rewrite (Z.testbit_odd v 31), Z.shiftr_div_pow2 by lia. by destruct (Z.odd _).
Qed.
Lemma bit1 v : (Z.land v 2 =? 0) = negb (Z.testbit v 1).
Proof using Type. rewrite Z.land_comm. by apply (land_bit 1 v). Qed.

Definition rd (off : Z) (h : H) : H := snd (hba_read off h).

Lemma read32_eq off c : read32 off c = Ret (view (hba c) off, with_hba (rd off (hba c)) c).
Proof using Hl. unfold read32, rd. rewrite <- (hl_read _ _ Hl). by destruct (hba_read off (hba c)). Qed.

Lemma view_rd off h off' : stable off' -> view (rd off h) off' = view h off'.
Proof using Hl. apply (hl_keeps _ _ Hl). Qed.
Lemma stable_ghc : stable ghc_reg. Proof using Type. by left. Qed.
Lemma stable_pi : stable pi_reg. Proof using Type. by right; left. Qed.

(** Turning on AHCI mode: the registers after the first part of [Init]. *)
Definition enabled (h : H) : H :=
  let h := rd ghc_reg (rd 0 h) in
  if Z.testbit (view h ghc_reg) 31 then h else hba_write ghc_reg (wrap32 (Z.lor (view h ghc_reg) 0x80000000)) (rd ghc_reg h).

Lemma enable_write v : uint 32 v -> Z.testbit v 0 = false -> driver_write ghc_reg (wrap32 (Z.lor v 0x80000000)).
Proof using Type.
  intros Hv H0'. left. split; [done|]. unfold wrap. rewrite !Z.mod_pow2_bits_low, !Z.lor_spec, H0' by lia. by rewrite orb_true_r.
Qed.

Lemma enabled_view h off : Z.testbit (view h ghc_reg) 0 = false -> stable off -> off <> ghc_reg -> view (enabled h) off = view h off.
Proof using Hl.
  intros Hb Ho Hne. unfold enabled. assert (view (rd ghc_reg (rd 0 h)) ghc_reg = view h ghc_reg) as -> by (by rewrite !view_rd by apply stable_ghc).
  destruct (Z.testbit _ 31); [by rewrite !view_rd|]. rewrite (hl_write _ _ Hl) by (done || by apply enable_write, Hb; apply (hl_word _ _ Hl)). by rewrite !view_rd.
Qed.
Lemma enabled_started h i : Z.testbit (view h ghc_reg) 0 = false -> 0 <= i -> started view (enabled h) i = started view h i.
Proof using Hl.
  intros Hb Hi. unfold enabled, rd. assert (view (snd (hba_read ghc_reg (snd (hba_read 0 h)))) ghc_reg = view h ghc_reg) as -> by (by rewrite !(hl_keeps _ _ Hl) by apply stable_ghc).
  destruct (Z.testbit _ 31); [by rewrite !(hl_started _ _ Hl)|].
  rewrite (hl_start_write _ _ Hl); [by rewrite !(hl_started _ _ Hl)|apply enable_write; [apply (hl_word _ _ Hl)|done]|unfold port_reg, ghc_reg, cmd_member; lia].
Qed.

Lemma enabled_ghc h : Z.testbit (view h ghc_reg) 0 = false ->
  let g := view (enabled h) ghc_reg in Z.testbit g 31 = true /\ Z.testbit g 1 = Z.testbit (view h ghc_reg) 1 /\ Z.testbit g 0 = false.
Proof using Hl.
  intros Hb. cbv zeta. unfold enabled. assert (view (rd ghc_reg (rd 0 h)) ghc_reg = view h ghc_reg) as -> by (by rewrite !view_rd by apply stable_ghc).
  destruct (Z.testbit (view h ghc_reg) 31) eqn:E; [by rewrite !view_rd by apply stable_ghc|].
  destruct (hl_ghc _ _ Hl (wrap32 (Z.lor (view h ghc_reg) 0x80000000)) (rd ghc_reg (rd ghc_reg (rd 0 h)))) as (G1 & G2 & G3); [apply enable_write; [apply (hl_word _ _ Hl)|done]|].
  split; [done|]. split; [|done]. rewrite G2. unfold wrap. by rewrite Z.mod_pow2_bits_low, Z.lor_spec, orb_false_r by lia.
Qed.

(** The registers when the scan starts. *)
Definition scan_start (h : H) : H := rd 0x10 (rd pi_reg (rd ghc_reg (rd ghc_reg (rd ghc_reg (enabled h))))).

Lemma init_head fuel (c : @Ctl H) : Z.testbit (view (hba c) ghc_reg) 0 = false ->
  Init issue ready port fuel c =
    if Z.testbit (view (hba c) ghc_reg) 1 then Panic "Interrupt not enabled"
    else scan_ports issue ready port fuel 32 (view (hba c) pi_reg) 0 (with_hba (scan_start (hba c)) (set_abar c)).
Proof using Hl.
  intros Hr. destruct (enabled_ghc (hba c) Hr) as (E31 & E1 & E0). unfold Init. pose proof stable_ghc as Sg. pose proof stable_pi as Sp.
  rewrite bind_ret with (a := tt) (s' := set_abar c) by done.
  step_with read32_eq. step_with read32_eq. rewrite bit31. cbn [hba with_hba set_abar].
  rewrite bind_ret with (a := tt) (s' := with_hba (enabled (hba c)) (set_abar c)).
  2: { unfold enabled. rewrite !view_rd by done. destruct (Z.testbit (view (hba c) ghc_reg) 31); [done|]. cbn [negb].
       step_with read32_eq. cbn [hba with_hba]. by rewrite !view_rd by done. }
  step_with read32_eq. rewrite bit31. cbn [hba with_hba]. rewrite E31. cbn [negb].
  step_with read32_eq. cbn [hba with_hba]. rewrite bit1, negb_involutive, view_rd, E1 by done.
  destruct (Z.testbit (view (hba c) ghc_reg) 1) eqn:Eb.
  - set (v := wrap32 (Z.lor (view (rd ghc_reg (rd ghc_reg (enabled (hba c)))) ghc_reg) 2)). set (h := rd ghc_reg (rd ghc_reg (rd ghc_reg (enabled (hba c))))).
    rewrite bind_ret with (a := tt) (s' := with_hba (hba_write ghc_reg v h) (set_abar c)); [|by step_with read32_eq].
    step_with read32_eq. cbn [hba with_hba]. rewrite bit1, negb_involutive.
    assert (driver_write ghc_reg v /\ Z.testbit v 1 = true) as [Hw Hv].
    { unfold v, driver_write, wrap. rewrite !Z.mod_pow2_bits_low, !Z.lor_spec, !view_rd, E31, E0, orb_true_r by (done || lia). split; [by left|done]. }
    destruct (hl_ghc _ _ Hl v h Hw) as (_ & -> & _). by rewrite Hv.
  - rewrite bind_mret_l. step_with read32_eq. cbn [hba with_hba]. rewrite bit1, negb_involutive, !view_rd, E1 by done.
    step_with read32_eq. step_with read32_eq. cbn [hba with_hba]. rewrite !view_rd by done. by rewrite enabled_view.
Qed.

Lemma scan_start_view h off : Z.testbit (view h ghc_reg) 0 = false -> stable off -> off <> ghc_reg -> view (scan_start h) off = view h off.
Proof using Hl. intros Hb Ho Hne. unfold scan_start. rewrite !view_rd by done. by apply enabled_view. Qed.

Lemma init_run fuel c : Z.testbit (view (hba c) ghc_reg) 0 = false -> Z.testbit (view (hba c) ghc_reg) 1 = false -> (spins < fuel)%nat ->
  (forall j, 0 <= j < 32 -> sata_port (hba c) j = true -> port_ok (hba c) j) -> alloc_ready (Process.allocator (kern c)) ->
  exists c', Init issue ready port fuel c = Ret (tt, c') /\
    sata_devices c' = sata_devices c ++ (port_register ahci_reg_page <$> List.filter (sata_port (hba c)) (seqZ 0 32)) /\
    abar c' = ahci_phy /\ Z.testbit (view (hba c') ghc_reg) 31 = true /\ Process.next_pid (kern c') = Process.next_pid (kern c) /\
    (sched_inv (kern c) -> sched_inv (kern c')) /\ alloc_ready (Process.allocator (kern c')).
Proof using Hl.
  intros Hr Hb Hf Hp Ha. rewrite init_head, Hb by done. set (c1 := with_hba (scan_start (hba c)) (set_abar c)).
  assert (forall off, stable off -> off <> ghc_reg -> view (hba c1) off = view (hba c) off) as Ev by (intros; by apply scan_start_view).
  assert (forall j, 0 <= j -> started view (hba c1) j = started view (hba c) j) as Est.
  { intros j Hj. cbn [hba c1 with_hba]. unfold scan_start, rd. rewrite !(hl_started _ _ Hl). by apply enabled_started. }
  assert (view (hba c1) pi_reg = view (hba c) pi_reg) as Epi by (by apply Ev; [apply stable_pi|]).
  assert (forall j, 0 <= j < 32 -> sata_port (hba c1) j = sata_port (hba c) j) as Es by (intros j Hj; by apply sata_port_stable).
  destruct (scan_ports_run fuel 32 0 c1) as (c2 & H2 & [[K1 K0 K2 _ K4 K5 K6] Ed]); [done|done|done| |done|].
  { intros j Hj Hs. rewrite Es in Hs by lia. apply (port_ok_stable (hba c)); [lia|done|apply Est; lia|by apply Hp]. }
  rewrite Epi in H2. exists c2. split; [exact H2|]. cbn [hba kern amem abar sata_devices] in K1, K2, K4, K5, K6. split.
  - rewrite Ed. apply (f_equal (fun l => sata_devices c ++ (port_register ahci_reg_page <$> l))). apply List.filter_ext_in. intros j Hj. apply Es. apply list_elem_of_In, elem_of_seqZ in Hj. lia.
  - split; [done|]. split; [|auto]. rewrite K1 by apply stable_ghc. unfold c1, scan_start. cbn [hba with_hba]. rewrite !view_rd by apply stable_ghc. by apply enabled_ghc.
Qed.

End hba.

(** C26: finding disks.  [AHCIDriver::Enumerate], on a controller that is not being
    reset and whose ports with disks are stopped, switches the controller to AHCI
    mode at its address and collects, in order of their numbers, exactly the
    implemented ports whose status shows an active device and whose signature is
    that of a SATA disk; then its thread waits to run.  A controller that has
    interrupts enabled is rejected with a panic: the test of the bit is the wrong
    way round. *)
Theorem ahci_enumerate {H} `{Hba H} view spins issue ready port entry raw ck start this fuel (c : @Ctl H) :
  hba_laws view spins -> Z.testbit (view (hba c) ghc_reg) 0 = false -> (spins < fuel)%nat ->
  sched_inv (kern c) -> alloc_ready (Process.allocator (kern c)) -> Process.next_pid (kern c) < Process.MAX_PROCESS ->
  (forall j, 0 <= j < 32 -> sata_port view (hba c) j = true -> port_ok view issue port (hba c) j) ->
  (Z.testbit (view (hba c) ghc_reg) 1 = true -> Enumerate issue ready port entry raw ck start this fuel c = Panic "Interrupt not enabled") /\
  (Z.testbit (view (hba c) ghc_reg) 1 = false ->
   exists c', Enumerate issue ready port entry raw ck start this fuel c = Ret (true, c') /\
     sata_devices c' = sata_devices c ++ (port_register ahci_reg_page <$> List.filter (sata_port view (hba c)) (seqZ 0 32)) /\
     abar c' = ahci_phy /\ Z.testbit (view (hba c') ghc_reg) 31 = true /\ sched_inv (kern c') /\
     exists p, Process.processes (kern c') !! Process.next_pid (kern c) = Some p /\
       Process.tmp_start p = start /\ Process.name p = "ahci"%string /\ Process.cookie p = this /\ Process.state p = Process.Wait).
Proof.
  intros Hl Hr Hf Hi Ha Hn Hp. split; intros Hb.
  - unfold Enumerate, mbind, st_bind. by rewrite (init_head view spins Hl issue ready port fuel c Hr), Hb.
  - destruct (init_run view spins Hl issue ready port fuel c Hr Hb Hf Hp Ha) as (c1 & H1 & Ed & Ea & Eg & En & Hi1 & Ha1).
    destruct (create_kthread_ok entry raw ck (kern c1) "ahci" start this (Hi1 Hi) Ha1) as (k & H2 & Hi2 & _ & _ & _ & p & Hpr & F); [lia|].
    unfold Enumerate. step_with H1. rewrite bind_ret with (a := Process.next_pid (kern c1)) (s' := mkCtl (hba c1) k (amem c1) (abar c1) (sata_devices c1));
      [|unfold lift_kern; by rewrite H2].
    eexists. split; [reflexivity|]. cbn. do 4 (split; [done|]). exists p. rewrite <- En. done.
Qed.

(** ** The report of the thread *)






(** ** A controller with a register file *)

(** A port that is started runs its command list.  Only global control and the
    command registers can be written; a reset ends at once. *)
Definition is_cmd_b (off : Z) : bool := (0x100 <=? off) && (off mod 0x80 =? cmd_member).
Definition file_read (f : Z -> Z) (off : Z) : Z :=
  wrap32 (if is_cmd_b off then (if Z.testbit (f off) 0 then Z.lor (f off) HBA_PxCMD_CR else Z.ldiff (f off) HBA_PxCMD_CR) else f off).

#[export] Instance file_hba : Hba (Z -> Z) := {|
  hba_read off f := (file_read f off, f);
  hba_write off v f := if off =? ghc_reg then <[off := Z.ldiff v 1]> f else if is_cmd_b off then <[off := v]> f else f
|}.

Lemma is_cmd_b_cmd i : 0 <= i -> is_cmd_b (port_reg i cmd_member) = true.
Proof. intros Hi. unfold is_cmd_b, port_reg, cmd_member. rewrite (proj2 (Z.leb_le _ _)), (proj2 (Z.eqb_eq ((_ + _ + _) mod _) _)) by dlia. done. Qed.
Lemma file_write_other off v (f : Z -> Z) off' : off' <> off -> hba_write off v f off' = f off'.
Proof. intros Hne. cbn. destruct (off =? ghc_reg), (is_cmd_b off); try done; by rewrite fn_lookup_insert_ne. Qed.
Lemma file_started f i : 0 <= i -> started file_read f i = Z.testbit (f (port_reg i cmd_member)) 0.
Proof.
  intros Hi. unfold started, file_read, wrap. rewrite is_cmd_b_cmd, Z.mod_pow2_bits_low by lia.
  destruct (Z.testbit (f (port_reg i cmd_member)) 0) eqn:E; [by rewrite Z.lor_spec, E|by rewrite Z.ldiff_spec, E].
Qed.

Lemma file_laws : hba_laws file_read 0.
Proof.
  split; try done.
  - intros off h. apply wrap_uint. lia.
  - intros off v f off' _ _ Hne. unfold file_read. by rewrite file_write_other.
  - intros v f [(_ & H31 & H0)|(i & Hi & E)]; [|unfold ghc_reg, port_reg, cmd_member in E; lia]. cbv zeta.
    assert (file_read (hba_write ghc_reg v f) ghc_reg = wrap32 (Z.ldiff v 1)) as -> by (unfold file_read; cbn; by rewrite fn_lookup_insert).
    unfold wrap. rewrite !Z.mod_pow2_bits_low, !Z.ldiff_spec, H31, H0 by lia. cbn. by rewrite andb_true_r.
  - intros off v f i _ Hne. unfold started, file_read. by rewrite file_write_other.
  - intros i v f Hi Hv. rewrite file_started by lia. cbn. rewrite is_cmd_b_cmd by lia.
    rewrite (proj2 (Z.eqb_neq _ _)) by (unfold ghc_reg, port_reg, cmd_member; lia). by rewrite fn_lookup_insert.
  - intros i f Hi Hs. exists 0%nat. split; [done|]. cbn. rewrite file_started in Hs by lia. unfold file_read. rewrite is_cmd_b_cmd, Hs by lia.
    apply Z.bits_inj'. intros j Hj. rewrite Z.land_spec, Z.bits_0. unfold wrap. destruct (Z.lt_ge_cases j 32); [|by rewrite Z.mod_pow2_bits_high by lia].
    rewrite Z.mod_pow2_bits_low, Z.ldiff_spec by lia. destruct (Z.testbit HBA_PxCMD_CR j); by rewrite ?andb_false_r.
Qed.

(** Ports 0, 1, 3 and 5 exist: disks at 0 and 5, a packet device at 1, nothing at 3.
    The firmware put the tables of the ports at 256 MiB. *)
Definition ex_file : Z -> Z := fun off =>
  if off =? ghc_reg then 0
  else if off =? pi_reg then 0x2b
  else if (off =? port_reg 0 ssts_member) || (off =? port_reg 1 ssts_member) || (off =? port_reg 5 ssts_member) then 0x113
  else if (off =? port_reg 0 sig_member) || (off =? port_reg 5 sig_member) then SATA_SIG_SATA
  else if off =? port_reg 1 sig_member then SATA_SIG_ATAPI
  else if (off =? port_reg 0 clb_member) || (off =? port_reg 5 clb_member) then 0x10000000
  else 0.
Definition ex_issue : Z -> Ahci.Command -> memory -> memory * Ahci.completion := fun _ _ m => (m, Ahci.Completed).
Definition ex_port : Z -> Ahci.HBA_PORT := fun _ => Ahci.mkPort 0x10000000 0 0 0 (fun _ => 0x10001000).
Definition ex_ctl : @Ctl (Z -> Z) := mkCtl ex_file ex_two (fun _ => 0) 0 [].

Lemma ex_ctl_ready : sched_inv (kern ex_ctl) /\ alloc_ready (Process.allocator (kern ex_ctl)) /\ Process.next_pid (kern ex_ctl) < Process.MAX_PROCESS.
Proof.
  split; [exact ex_two_inv|]. split; [exact ex_ready|]. change (Process.next_pid (kern ex_ctl)) with 3. unfold Process.MAX_PROCESS. lia.
Qed.

Lemma ex_port_ok j : 0 <= j < 32 -> sata_port file_read (hba ex_ctl) j = true -> port_ok file_read ex_issue ex_port (hba ex_ctl) j.
Proof.
  intros Hj Hs. assert (In j (List.filter (sata_port file_read ex_file) (seqZ 0 32))) as Hin.
  { apply filter_In. split; [|exact Hs]. apply list_elem_of_In, elem_of_seqZ. lia. }
  assert (List.filter (sata_port file_read ex_file) (seqZ 0 32) = [0; 5]) as E by (by vm_compute).
  rewrite E in Hin. destruct Hin as [<-|[<-|[]]]; split; try done; vm_compute; done.
Qed.

Lemma ahci_enumerate_witness :
  exists c', Enumerate ex_issue (fun _ => Some 0) ex_port ex_entry zero_context 0 0x7000 0x8000 1 ex_ctl = Ret (true, c') /\
    sata_devices c' = [port_register ahci_reg_page 0; port_register ahci_reg_page 5].
Proof.
  destruct ex_ctl_ready as (Hi & Ha & Hn).
  destruct (ahci_enumerate file_read 0 ex_issue (fun _ => Some 0) ex_port ex_entry zero_context 0 0x7000 0x8000 1 ex_ctl
    file_laws ltac:(vm_compute; done) ltac:(lia) Hi Ha Hn ex_port_ok) as [_ Hok].
  destruct (Hok ltac:(vm_compute; done)) as (c' & H1 & H2 & _). exists c'. split; [exact H1|].
  refine (eq_trans H2 _). assert (List.filter (sata_port file_read (hba ex_ctl)) (seqZ 0 32) = [0; 5]) as E by (by vm_compute).
  exact (f_equal (fun l => port_register ahci_reg_page <$> l) E).
Defined.

