(* ===== verification/StartDevices.v ===== *)
(** * The rest of Kernel::start: devices and the first process

    kernel.cpp from [pci_bus_driver_ = knew<PCIBusDriver>()] to the end,
    [RegisterDriver] of include/device/pci.h, and [PCIBusDriver::Enumerate] as a
    computation: a driver that is asked for its device allocates, programs the
    device and creates threads.  What the drivers do is behind the class
    [PciDrivers].  The storage of the containers of the bus driver is left out, as
    is console output. *)
From S2P Require Import Prelude LibUtils CpuDefs LibString SmallVec KMap Paging Buddy PageAlloc Process Syscall Irq ContextSwitch Threads Mm Cpu MmInit Lapic Pci Acpi Serial Start.

Module StartDevices.
Import LibString SmallVec Process Start Pci.

(** A driver object is named by its class and its address; [W] is the state of
    the devices and of the driver objects. *)
Class PciDrivers (W : Type) := {
  driver_new : KernelDriver -> Z -> ST (Kernel * W) unit;
  driver_Enumerate : KernelDriver -> Z -> PCIDeviceInfo -> ST (Kernel * W) bool;
  driver_HandleInterrupt : KernelDriver -> Z -> Z -> ST (W * Lapic.APIC) bool
}.

(** Two bases and two pointers; a base, a vector and a pointer. *)
Definition sizeof_driver (d : KernelDriver) : Z := match d with RTL8139Driver => 8 + 8 + 8 + 8 | AHCIDriver => 8 + 24 + 8 end.
(** A map and a vector. *)
Definition sizeof_PCIBusDriver : Z := 48 + 24.
Definition sizeof_Serial8250 : Z := 2.
Definition com1_base : Z := 0x3f8.

Abbreviation Driver := (KernelDriver * Z)%type.

Section devices.
Context {W D : Type} `{PciDrivers W} `{Serial.PortIO D}.

(** ** Interrupt handlers *)

(** What the handlers work on once the devices are there. *)
Record LiveDev := mkLiveDev { live : Live; live_world : W; live_active : list Driver; live_port : @Serial.SerialPort D }.

Definition live_on {A} (c : ST Live A) : ST LiveDev A := fun l =>
  match c (live l) with
  | Ret (a, x) => Ret (a, mkLiveDev x (live_world l) (live_active l) (live_port l))
  | Panic m => Panic m | Halt => Halt | Fault => Fault | OutOfFuel => OutOfFuel
  end.
Definition live_on_world {A} (c : ST (W * Lapic.APIC) A) : ST LiveDev A := fun l =>
  match c (live_world l, live_apic (live l)) with
  | Ret (a, (w, ap)) => Ret (a, mkLiveDev (mkLive (live_sys (live l)) ap) w (live_active l) (live_port l))
  | Panic m => Panic m | Halt => Halt | Fault => Fault | OutOfFuel => OutOfFuel
  end.
Definition live_on_port (c : ST (@Serial.SerialPort D) unit) : ST LiveDev unit := fun l =>
  match c (live_port l) with
  | Ret (a, p) => Ret (a, mkLiveDev (live l) (live_world l) (live_active l) p)
  | Panic m => Panic m | Halt => Halt | Fault => Fault | OutOfFuel => OutOfFuel
  end.

(** A handler registered before the devices were there. *)
Definition widen (h : Irq.InterruptHandler Live) : Irq.InterruptHandler LiveDev := fun info => live_on (h info).
Definition widen_table (t : Irq.handler_table Live) : Irq.handler_table LiveDev :=
  (fun v => mkVec (widen <$> buf_ v) (size_ v)) <$> t.

(** The active drivers are asked in turn until one has handled the interrupt;
    then it is acknowledged, whether or not it was handled. *)
Fixpoint ask (l : list Driver) (irq_num : Z) : ST LiveDev bool :=
  match l with
  | [] => mret false
  | (d, obj) :: l =>
      handled ← live_on_world (driver_HandleInterrupt d obj irq_num);
      if handled : bool then mret true else ask l irq_num
  end.
Definition pci_handler : Irq.InterruptHandler LiveDev := fun info =>
  l ← gets live_active;
  ask l (Irq.irq_num info);;
  live_on (live_on_apic Lapic.eoi).

Definition com1_handler (fuel : nat) : Irq.InterruptHandler LiveDev := fun info => live_on_port (Serial.com1_handler fuel com1_base info).

(** ** The whole kernel *)

Record Full := mkFull {
  system : System;
  world : W;
  ioapic : Acpi.IoApic;
  pic_masked : bool;
  pci_bus_driver_ : Z;
  bus : PCIBusDriver Driver;
  handlers : Irq.handler_table LiveDev;
  com1_ : Z
}.
Abbreviation M := (ST Full).

Definition with_kern (k : Kernel) (s : System) : System :=
  mkSystem (mm s) k (stacks_ s) (irq_ s) (main_idt_ s) (interrupts_ s) (fs_root_ s) (apic s).
Definition with_world (k : Kernel) (w : W) (s : Full) : Full :=
  mkFull (with_kern k (system s)) w (ioapic s) (pic_masked s) (pci_bus_driver_ s) (bus s) (handlers s) (com1_ s).
Definition with_bus (b : PCIBusDriver Driver) (s : Full) : Full :=
  mkFull (system s) (world s) (ioapic s) (pic_masked s) (pci_bus_driver_ s) b (handlers s) (com1_ s).

Definition on_devices {A} (c : ST (Kernel * W) A) : M A := fun s =>
  match c (kern (system s), world s) with
  | Ret (a, (k, w)) => Ret (a, with_world k w s)
  | Panic m => Panic m | Halt => Halt | Fault => Fault | OutOfFuel => OutOfFuel
  end.
Definition on_kernel {A} (c : ST Kernel A) : M A := fun s =>
  match c (kern (system s)) with
  | Ret (a, k) => Ret (a, with_world k (world s) s)
  | Panic m => Panic m | Halt => Halt | Fault => Fault | OutOfFuel => OutOfFuel
  end.
Definition knew (size : Z) : M Z := on_kernel (page_alloc (PageAlloc.kmalloc size)).

(** The tables of the firmware are read from the kernel's memory. *)
Definition on_acpi {A} (c : ST (Acpi.Machine Driver) A) : M A := fun s =>
  match c (Acpi.mkMachine (MmInit.bytes (mm (system s))) (ioapic s) (pic_masked s) (bus s)) with
  | Ret (a, m) => Ret (a, mkFull (system s) (world s) (Acpi.ioapic0 m) (Acpi.pic_masked m) (pci_bus_driver_ s) (Acpi.pci_bus m) (handlers s) (com1_ s))
  | Panic m => Panic m | Halt => Halt | Fault => Fault | OutOfFuel => OutOfFuel
  end.
Definition set_handlers (o : Irq.handler_table LiveDev -> outcome (Irq.handler_table LiveDev)) : M unit := fun s =>
  match o (handlers s) with
  | Ret t => Ret (tt, mkFull (system s) (world s) (ioapic s) (pic_masked s) (pci_bus_driver_ s) (bus s) t (com1_ s))
  | Panic m => Panic m | Halt => Halt | Fault => Fault | OutOfFuel => OutOfFuel
  end.

(** ** Drivers *)

Definition RegisterDriver (vendor device : Z) (d : KernelDriver) : M unit :=
  b ← gets bus;
  match KMap.find key_lt (vendor, device) (drivers_ b) with
  | Some _ => panic ""
  | None =>
      obj ← knew (sizeof_driver d);
      on_devices (driver_new d obj);;
      modify (fun s => with_bus (mkBus (KMap.emplace key_lt (vendor, device) (d, obj) (drivers_ (bus s))) (active_drivers_ (bus s))) s)
  end.

Definition register_pci_devices : M unit :=
  RegisterDriver 0x10ec 0x8139 RTL8139Driver;;
  RegisterDriver 0x8086 0x2922 AHCIDriver;;
  RegisterDriver 0x8086 0x2829 AHCIDriver.

(** Configuration space, as in [Pci]. *)
Context (bar_store : Z -> Z -> Z) (config : Z -> ExtendedConfigSpace).

Definition scan_function (base j device function : Z) : M unit :=
  let a := config_addr base j device function in
  let cs := config a in
  if vendor cs =? PCI_INVALID_VENDOR then mret tt
  else
    b ← gets bus;
    match KMap.find key_lt (vendor cs, Pci.device cs) (drivers_ b) with
    | Some (d, obj) =>
        ok ← on_devices (driver_Enumerate d obj (mkInfo a (parse_bars bar_store (bars cs))));
        if ok : bool
        then modify (fun s => with_bus (mkBus (drivers_ (bus s)) (active_drivers_ (bus s) ++ [(d, obj)])) s)
        else mret tt
    | None => mret tt
    end.

Definition scan_device (base j device : Z) : M unit :=
  if vendor (config (config_addr base j device 0)) =? PCI_INVALID_VENDOR then mret tt
  else forM (seqZ 0 8) (scan_function base j device).

Definition scan_bus (base j : Z) : M unit := forM (seqZ 0 32) (scan_device base j).

Definition scan_group (g : ECMGroup) : M unit :=
  if IDENTITY_MAP_START <=? base g then mret tt
  else forM (seqZ 0 (wrap64 (bus_end g - bus_start g))) (scan_bus (base g)).

(** [PCIBusDriver::Enumerate] *)
Definition Enumerate (segment_groups : list ECMGroup) : M unit :=
  forM segment_groups scan_group;;
  set_handlers (Irq.Register_range (Z.to_nat Acpi.IOAPIC_PCI_IRQ_COUNT) Acpi.IOAPIC_PCI_IRQ_START pci_handler).

Definition efi_table_init (xsdt_phy : Z) : M unit :=
  groups ← on_acpi (Acpi.efi_tables xsdt_phy);
  Enumerate groups.

(** [com1_ = knew<Serial8250>(0x3f8)] *)
Definition com1_init (fuel : nat) : M unit :=
  obj ← knew sizeof_Serial8250;
  set_handlers (Irq.Register Acpi.IOAPIC_ISA_IRQ_COM1 (com1_handler fuel));;
  modify (fun s => mkFull (system s) (world s) (ioapic s) (pic_masked s) (pci_bus_driver_ s) (bus s) (handlers s) obj).

(** The drivers, and the process that [return_from_syscall(current_context())]
    enters. *)
Definition start_devices (fuel : nat) (xsdt_phy : Z) : M Process :=
  obj ← knew sizeof_PCIBusDriver;
  modify (fun s => mkFull (system s) (world s) (ioapic s) (pic_masked s) obj (mkBus [] []) (handlers s) (com1_ s));;
  register_pci_devices;;
  efi_table_init xsdt_phy;;
  com1_init fuel;;
  on_kernel (pid ← gets current_pid; process_at pid).

(** ** Kernel::start *)

(** As in [Start]. *)
Context (kernel_gdt_addr tss_addr t_vaddr : Z) (interrupt_stack interrupt_stack_bottom : Z).
Context (kernel_init_stack kernel_init_stack_bottom : Z) (handler_addr : Irq.stub -> Z).
Context (process_entrypoint main_start : Z) (raw_context : Context) (raw_cookie : Z).
Context (apic_regs : gmap Z Z) (current : Z).

(** The part in [Start]; its handlers are kept. *)
Definition start_core (kernel_physical_start kernel_physical_size : Z) (mds : list Mm.MemoryDescriptor) : M unit := fun s =>
  match Start.start kernel_gdt_addr tss_addr t_vaddr interrupt_stack interrupt_stack_bottom kernel_init_stack kernel_init_stack_bottom handler_addr
          process_entrypoint main_start raw_context raw_cookie apic_regs current kernel_physical_start kernel_physical_size mds (system s) with
  | Ret (_, sys) => Ret (tt, mkFull sys (world s) (ioapic s) (pic_masked s) (pci_bus_driver_ s) (bus s) (widen_table (interrupts_ sys)) (com1_ s))
  | Panic m => Panic m | Halt => Halt | Fault => Fault | OutOfFuel => OutOfFuel
  end.

Definition Kernel_start (fuel : nat) (kernel_physical_start kernel_physical_size xsdt_phy : Z) (mds : list Mm.MemoryDescriptor) : M Process :=
  start_core kernel_physical_start kernel_physical_size mds;;
  start_devices fuel xsdt_phy.

End devices.

End StartDevices.
