(* ===== verification/StartDevicesThms.v ===== *)
(** * Kernel::start reaches the first process

    Against the interface of the PCI bus: [PciLaws] is what the drivers keep, and
    [kernel_start_run] what Kernel::start does with drivers that keep it.  The
    kernel's own drivers are shown to do so in [KernelDrivers]. *)
From S2P Require Import Prelude LibUtils CpuDefs LibString SmallVec KMap Paging PagingProofs PagingThms BuddyTree Buddy BuddyInv BuddyProofs BuddySpec BuddyThms PageAlloc PageAllocThms Process ProcessProofs ProcessThms AllocChain Elf Syscall Irq ContextSwitch ContextSwitchThms Threads Mm MmThms Cpu MmInit MmInitThms Lapic Pci Acpi AcpiThms Serial Start StartThms StartDevices.
Import LibString SmallVec Process ContextSwitch Cpu Start Pci StartDevices.

(** ** What a driver may do to the kernel *)

(** It allocates, and creates [n] processes. *)
Record advances (n : Z) (k k' : Kernel) : Prop := {
  ad_inv : sched_inv k';
  ad_grown : grown (allocator k) (allocator k');
  ad_next : next_pid k' = next_pid k + n;
  ad_current : current_pid k' = current_pid k;
  ad_pdpt : kernel_pdpt k' = kernel_pdpt k;
  ad_old pid : pid < next_pid k -> processes k' !! pid = processes k !! pid
}.

Lemma advances_refl k : sched_inv k -> Inv (allocator k) -> advances 0 k k.
Proof. intros Hi HI. split; try done; try (by apply grown_refl); lia. Qed.
Lemma advances_trans n m k1 k2 k3 : 0 <= n -> advances n k1 k2 -> advances m k2 k3 -> advances (n + m) k1 k3.
Proof.
  intros Hn0 [A1 A2 A3 A4 A5 A6] [B1 B2 B3 B4 B5 B6]. split; [done|by eapply grown_trans|lia|congruence|congruence|].
  intros pid Hp. rewrite B6 by lia. by apply A6.
Qed.
Lemma advances_alloc k al : sched_inv k -> grown (allocator k) al -> advances 0 k (with_allocator al k).
Proof. intros Hi Hg. split; try done; [by destruct Hi|cbn; lia..]. Qed.
Lemma advances_ready n k k' : advances n k k' -> alloc_ready (allocator k) -> alloc_ready (allocator k').
Proof. intros [_ Hg _ _ _ _] Hr. by eapply grown_ready. Qed.

(** The promise of the drivers to the bus.  [dev_ok l]: the devices are in order for
    the drivers [l] to be asked one after the other.  Then construction returns, and
    [Enumerate] of the first of them returns true after creating its threads. *)
Class PciLaws (W : Type) `{PciDrivers W} := {
  dev_ok : list KernelDriver -> W -> Prop;
  info_ok : KernelDriver -> PCIDeviceInfo -> Prop;
  threads_of : KernelDriver -> Z;
  law_threads d : 0 <= threads_of d;
  law_new d obj l k w : dev_ok l w -> sched_inv k -> alloc_ready (allocator k) ->
    exists k' w', driver_new d obj (k, w) = Ret (tt, (k', w')) /\ dev_ok l w' /\ advances 0 k k';
  law_enumerate d obj info l k w : dev_ok (d :: l) w -> info_ok d info -> sched_inv k -> alloc_ready (allocator k) -> next_pid k + threads_of d <= MAX_PROCESS ->
    exists k' w', driver_Enumerate d obj info (k, w) = Ret (true, (k', w')) /\ dev_ok l w' /\ advances (threads_of d) k k'
}.

(** The drivers [l] were constructed in order, each in a new object. *)
Inductive constructed {W} `{PciDrivers W} : list Driver -> Kernel * W -> Kernel * W -> Prop :=
  | constructed_nil kw : constructed [] kw kw
  | constructed_cons d obj l k w k1 kw2 kw3 :
      page_alloc (PageAlloc.kmalloc (sizeof_driver d)) k = Ret (obj, k1) -> driver_new d obj (k1, w) = Ret (tt, kw2) ->
      constructed l kw2 kw3 -> constructed ((d, obj) :: l) (k, w) kw3.

(** The drivers [l] were asked in order, each for its device, and all said yes. *)
Inductive asked {W} `{PciDrivers W} : list (Driver * PCIDeviceInfo) -> Kernel * W -> Kernel * W -> Prop :=
  | asked_nil kw : asked [] kw kw
  | asked_cons d obj info l kw kw1 kw2 :
      driver_Enumerate d obj info kw = Ret (true, kw1) -> asked l kw1 kw2 -> asked (((d, obj), info) :: l) kw kw2.

Lemma asked_app {W} `{PciDrivers W} l l' kw kw1 kw2 : asked l kw kw1 -> asked l' kw1 kw2 -> asked (l ++ l') kw kw2.
Proof. induction 1 as [|d obj info l kw kw' kw1 E _ IH]; [done|]. intros H2. cbn. econstructor; [exact E|by apply IH]. Qed.

(** The threads the drivers [l] create. *)
Definition threads {W} `{PciLaws W} (l : list KernelDriver) : Z := foldr (fun d n => threads_of d + n) 0 l.
Lemma threads_app {W} `{PciLaws W} l l' : threads (l ++ l') = threads l + threads l'.
Proof. unfold threads. induction l as [|d l IH]; [done|]. cbn. lia. Qed.
Lemma threads_nonneg {W} `{PciLaws W} l : 0 <= threads l.
Proof. unfold threads. induction l as [|d l IH]; cbn; [done|]. pose proof (law_threads d). lia. Qed.

Section scan.
Context {W D : Type} {drv : PciDrivers W} {laws : PciLaws W} {pio : Serial.PortIO D}.
Context (bar_store : Z -> Z -> Z) (config : Z -> ExtendedConfigSpace).
Abbreviation Full := (@Full W D).

(** The kind of driver of a call. *)
Definition kind (c : Driver * PCIDeviceInfo) : KernelDriver := fst (fst c).

(** [s'] is [s] after the calls [cs]; their drivers became active. *)
Record scanned (cs : list (Driver * PCIDeviceInfo)) (s s' : Full) : Prop := {
  sc_state : s' = with_bus (mkBus (drivers_ (bus s)) (active_drivers_ (bus s) ++ (fst <$> cs))) (with_world (kern (system s')) (world s') s);
  sc_asked : asked cs (kern (system s), world s) (kern (system s'), world s');
  sc_kern : advances (threads (kind <$> cs)) (kern (system s)) (kern (system s'))
}.

Lemma scanned_refl s : sched_inv (kern (system s)) -> Inv (allocator (kern (system s))) -> scanned [] s s.
Proof using Type.
  intros Hi HI. split; [|constructor|by apply advances_refl]. rewrite app_nil_r. by destruct s as [[] ? ? ? ? [] ? ?].
Qed.
Lemma scanned_trans l l' s1 s2 s3 : scanned l s1 s2 -> scanned l' s2 s3 -> scanned (l ++ l') s1 s3.
Proof using Type.
  intros [A1 A2 A3] [B1 B2 B3]. split; [|by eapply asked_app|rewrite fmap_app, threads_app; eapply advances_trans; [apply threads_nonneg|done|done]].
  rewrite A1 in B1. etransitivity; [exact B1|]. unfold with_bus, with_world, with_kern. cbn. by rewrite fmap_app, app_assoc.
Qed.

(** Visiting a function. *)
Definition visit (base : Z) (x : Z * Z * Z) : ST Full unit :=
  let '(j, dev, f) := x in if present_at config base x then scan_function bar_store config base j dev f else mret tt.

(** The nested loops visit the functions in order. *)
Lemma scan_group_visits g s : 0 <= bus_end g - bus_start g < 2 ^ 64 -> scan_group bar_store config g s = forM (functions_of g) (visit (base g)) s.
Proof using Type.
  intros Hb. unfold scan_group, functions_of. destruct (IDENTITY_MAP_START <=? base g); [done|]. rewrite wrap_small by done.
  rewrite forM_bind. apply forM_ext. intros j s1 _. unfold scan_bus. rewrite forM_bind. apply forM_ext. intros dev s2 _. rewrite forM_fmap.
  unfold scan_device, visit, present_at. destruct (vendor (config (config_addr (base g) j dev 0)) =? PCI_INVALID_VENDOR); cbn [negb andb].
  - generalize (seqZ 0 8) as l. induction l as [|x l IH]; [done|]. cbn [forM]. by rewrite bind_mret_l.
  - apply forM_ext. intros f s3 _. unfold scan_function. by destruct (vendor (config (config_addr (base g) j dev f)) =? PCI_INVALID_VENDOR).
Qed.

(** The driver registered for the function. *)
Definition candidate (ds : list ((Z * Z) * Driver)) (base : Z) : Z * Z * Z -> option Driver := driver_at bar_store config (fun _ _ => true) ds base.
Definition info_at (base : Z) (x : Z * Z * Z) : PCIDeviceInfo :=
  let '(j, dev, f) := x in let a := config_addr base j dev f in mkInfo a (parse_bars bar_store (bars (config a))).

(** The call for a function. *)
Definition call_at (ds : list ((Z * Z) * Driver)) (base : Z) (x : Z * Z * Z) : option (Driver * PCIDeviceInfo) :=
  (fun d => (d, info_at base x)) <$> candidate ds base x.

(** What is found fits the drivers. *)
Definition fits (ds : list ((Z * Z) * Driver)) (base : Z) (x : Z * Z * Z) : Prop :=
  forall d, candidate ds base x = Some d -> info_ok (fst d) (info_at base x).

Lemma on_devices_run {A} (c : ST (Kernel * W) A) (s : Full) a k w : c (kern (system s), world s) = Ret (a, (k, w)) -> on_devices c s = Ret (a, with_world k w s).
Proof using Type. intros E. unfold on_devices. by rewrite E. Qed.
Lemma on_kernel_run {A} (c : ST Kernel A) (s : Full) a k : c (kern (system s)) = Ret (a, k) -> on_kernel c s = Ret (a, with_world k (world s) s).
Proof using Type. intros E. unfold on_kernel. by rewrite E. Qed.

Lemma visit_run base x rest (s : Full) : fits (drivers_ (bus s)) base x ->
  sched_inv (kern (system s)) -> alloc_ready (allocator (kern (system s))) ->
  let cs := option_list (call_at (drivers_ (bus s)) base x) in
  dev_ok ((kind <$> cs) ++ rest) (world s) -> next_pid (kern (system s)) + threads (kind <$> cs) <= MAX_PROCESS ->
  exists s', visit base x s = Ret (tt, s') /\ scanned cs s s' /\ dev_ok rest (world s').
Proof using Type.
  intros Hfit Hi Hr cs Hd Hn. subst cs. unfold fits, call_at, candidate, driver_at in *. destruct x as [[j dev] f]. unfold visit. cbn [info_at] in *.
  destruct (present_at config base (j, dev, f)) eqn:Ep.
  2: { exists s. split; [done|]. split; [|done]. apply scanned_refl; [done|apply Hr]. }
  unfold scan_function. assert ((vendor (config (config_addr base j dev f)) =? PCI_INVALID_VENDOR) = false) as -> by (unfold present_at in Ep; by destruct (_ =? _), (_ =? _)).
  rewrite bind_ret with (a := bus s) (s' := s) by done.
  destruct (KMap.find key_lt _ (drivers_ (bus s))) as [[d obj]|].
  2: { exists s. split; [done|]. split; [|done]. apply scanned_refl; [done|apply Hr]. }
  specialize (Hfit _ eq_refl). cbn in Hd, Hn, Hfit |- *.
  destruct (law_enumerate d obj _ rest (kern (system s)) (world s) Hd Hfit Hi Hr ltac:(lia)) as (k' & w' & H1 & Hd' & A).
  step_with on_devices_run; [|exact H1].
  eexists. split; [reflexivity|]. split; [|exact Hd']. split; cbn; [done|econstructor; [exact H1|constructor]|by rewrite Z.add_0_r].
Qed.

(** Visiting a list of functions. *)
Lemma visits_run base l rest (s : Full) : Forall (fits (drivers_ (bus s)) base) l ->
  sched_inv (kern (system s)) -> alloc_ready (allocator (kern (system s))) ->
  let cs := omap (call_at (drivers_ (bus s)) base) l in
  dev_ok ((kind <$> cs) ++ rest) (world s) -> next_pid (kern (system s)) + threads (kind <$> cs) <= MAX_PROCESS ->
  exists s', forM l (visit base) s = Ret (tt, s') /\ scanned cs s s' /\ dev_ok rest (world s').
Proof using Type.
  revert s. induction l as [|x l IH]; intros s Hl Hi Hr cs Hd Hn.
  - exists s. split; [done|]. split; [|done]. apply scanned_refl; [done|apply Hr].
  - apply Forall_cons in Hl as [Hx Hl]. cbn [forM]. set (c1 := option_list (call_at (drivers_ (bus s)) base x)).
    assert (cs = c1 ++ omap (call_at (drivers_ (bus s)) base) l) as Ecs by (unfold cs, c1; cbn; by destruct (call_at _ base x)).
    rewrite Ecs, fmap_app, threads_app in Hn. rewrite Ecs, fmap_app, <- app_assoc in Hd.
    pose proof (threads_nonneg (kind <$> omap (call_at (drivers_ (bus s)) base) l)) as H0.
    destruct (visit_run base x _ s Hx Hi Hr Hd) as (s1 & H1 & S1 & D1); [fold c1; lia|]. fold c1 in S1. step_with H1.
    assert (drivers_ (bus s1) = drivers_ (bus s)) as Eb by (by rewrite (sc_state _ _ _ S1)).
    pose proof (sc_kern _ _ _ S1) as A. destruct (IH s1) as (s2 & H2 & S2 & D2).
    + by rewrite Eb. + apply A. + by eapply advances_ready. + by rewrite Eb. + rewrite Eb, (ad_next _ _ _ A). lia.
    + rewrite Eb in S2. exists s2. split; [done|]. rewrite Ecs. split; [by apply (scanned_trans _ _ s s1 s2)|done].
Qed.

(** The calls for all functions of all groups. *)
Definition calls (ds : list ((Z * Z) * Driver)) (groups : list ECMGroup) : list (Driver * PCIDeviceInfo) :=
  groups ≫= (fun g => omap (call_at ds (base g)) (functions_of g)).

Lemma groups_run groups rest (s : Full) : Forall (fun g => 0 <= bus_end g - bus_start g < 2 ^ 64) groups ->
  Forall (fun g => Forall (fits (drivers_ (bus s)) (base g)) (functions_of g)) groups ->
  sched_inv (kern (system s)) -> alloc_ready (allocator (kern (system s))) ->
  let cs := calls (drivers_ (bus s)) groups in
  dev_ok ((kind <$> cs) ++ rest) (world s) -> next_pid (kern (system s)) + threads (kind <$> cs) <= MAX_PROCESS ->
  exists s', forM groups (scan_group bar_store config) s = Ret (tt, s') /\ scanned cs s s' /\ dev_ok rest (world s').
Proof using Type.
  revert s. induction groups as [|g gs IH]; intros s Hg Hl Hi Hr cs Hd Hn.
  - exists s. split; [done|]. split; [|done]. apply scanned_refl; [done|apply Hr].
  - apply Forall_cons in Hl as [Hx Hl]. apply Forall_cons in Hg as [Hb Hg]. cbn [forM].
    subst cs. unfold calls in *. rewrite bind_cons in *. rewrite fmap_app, threads_app in Hn. rewrite fmap_app, <- app_assoc in Hd.
    pose proof (threads_nonneg (kind <$> (gs ≫= (fun g => omap (call_at (drivers_ (bus s)) (base g)) (functions_of g))))) as H0.
    destruct (visits_run (base g) (functions_of g) _ s Hx Hi Hr Hd) as (s1 & H1 & S1 & D1); [lia|].
    rewrite <- scan_group_visits in H1 by done. step_with H1.
    assert (drivers_ (bus s1) = drivers_ (bus s)) as Eb by (by rewrite (sc_state _ _ _ S1)).
    pose proof (sc_kern _ _ _ S1) as A. destruct (IH s1) as (s2 & H2 & S2 & D2).
    + done. + by rewrite Eb. + apply A. + by eapply advances_ready. + by rewrite Eb. + rewrite Eb, (ad_next _ _ _ A). lia.
    + rewrite Eb in S2. exists s2. split; [done|]. split; [by apply (scanned_trans _ _ s s1 s2)|done].
Qed.

End scan.

(** ** Handlers *)

Section handlers.
Context {K : Type} (no_handler : Irq.InterruptHandler K).

Lemma Register_range_ok n id h (t : Irq.handler_table K) : Irq.table_wf t -> 0 <= id -> id + Z.of_nat n <= Irq.MaxInterrupts ->
  (forall j, id <= j < id + Z.of_nat n -> (length (Irq.registered no_handler t j) < 16)%nat) ->
  exists t', Irq.Register_range n id h t = Ret t' /\ Irq.table_wf t' /\
    (forall j, Irq.registered no_handler t' j = Irq.registered no_handler t j ++ (if (id <=? j) && (j <? id + Z.of_nat n) then [h] else [])).
Proof using Type.
  revert id t. induction n as [|n IH]; intros id t Hwf H0 Hn Hl; cbn [Irq.Register_range].
  - exists t. split; [done|]. split; [done|]. intros j. destruct (Z.leb_spec id j), (Z.ltb_spec j (id + Z.of_nat 0)); try lia; by rewrite app_nil_r.
  - destruct (Irq.Register_ok no_handler id h t Hwf) as (t1 & H1 & W1 & E1 & O1); [lia|apply Hl; lia|]. rewrite H1.
    destruct (IH (id + 1) t1 W1) as (t2 & H2 & W2 & E2); [lia|lia|intros j Hj; rewrite O1 by lia; apply Hl; lia|].
    exists t2. split; [done|]. split; [done|]. intros j. rewrite E2. destruct (decide (j = id)) as [->|Hne].
    + rewrite E1, <- app_assoc. destruct (Z.leb_spec (id + 1) id), (Z.leb_spec id id), (Z.ltb_spec id (id + 1 + Z.of_nat n)), (Z.ltb_spec id (id + Z.of_nat (S n))); try lia; done.
    + rewrite O1 by done. f_equal.
      destruct (Z.leb_spec (id + 1) j), (Z.leb_spec id j), (Z.ltb_spec j (id + 1 + Z.of_nat n)), (Z.ltb_spec j (id + Z.of_nat (S n))); try lia; done.
Qed.

End handlers.

Section start.
Context {W D : Type} {drv : PciDrivers W} {laws : PciLaws W} {pio : Serial.PortIO D}.
Abbreviation Full := (@Full W D).
Abbreviation widen := (@widen W D).

Lemma widen_wf t : Irq.table_wf t -> Irq.table_wf (@widen_table W D t).
Proof using Type.
  intros Ht j. specialize (Ht j). unfold widen_table, Irq.handlers_ in *. rewrite lookup_fmap. by destruct (t !! j).
Qed.
Lemma widen_registered no_handler t j : Irq.registered (widen no_handler) (@widen_table W D t) j = widen <$> Irq.registered no_handler t j.
Proof using Type.
  unfold Irq.registered, widen_table, Irq.handlers_. rewrite lookup_fmap. destruct (t !! j) as [v|]; [|done].
  change (contents (widen no_handler) (mkVec (widen <$> buf_ v) (size_ v)) = widen <$> contents no_handler v). unfold contents. cbn [size_]. rewrite <- list_fmap_compose. apply list_fmap_ext. intros i x Hx. unfold compose, cell. cbn [buf_].
  rewrite lookup_fmap. by destruct (buf_ v !! x).
Qed.

Lemma set_handlers_run o (s : Full) t : o (handlers s) = Ret t ->
  set_handlers o s = Ret (tt, mkFull (system s) (world s) (ioapic s) (pic_masked s) (pci_bus_driver_ s) (bus s) t (com1_ s)).
Proof using Type. intros E. unfold set_handlers. by rewrite E. Qed.

(** ** Registration *)

Lemma knew_run n (s : Full) : sched_inv (kern (system s)) -> Inv (allocator (kern (system s))) -> 0 < n < 2 ^ 64 ->
  exists a al, StartDevices.knew n s = Ret (a, with_world (with_allocator al (kern (system s))) (world s) s) /\ advances 0 (kern (system s)) (with_allocator al (kern (system s))).
Proof using Type.
  intros Hi HI Hn. destruct (page_alloc_kmalloc (kern (system s)) n HI Hn) as (a & al & H1 & Hg & _). exists a, al.
  split; [by apply on_kernel_run|by apply advances_alloc].
Qed.

Lemma RegisterDriver_run v dv d l (s : Full) : KMap.find key_lt (v, dv) (drivers_ (bus s)) = None ->
  sched_inv (kern (system s)) -> alloc_ready (allocator (kern (system s))) -> dev_ok l (world s) ->
  exists obj k1 k w, page_alloc (PageAlloc.kmalloc (sizeof_driver d)) (kern (system s)) = Ret (obj, k1) /\ driver_new d obj (k1, world s) = Ret (tt, (k, w)) /\
    RegisterDriver v dv d s =
      Ret (tt, with_bus (mkBus (KMap.emplace key_lt (v, dv) (d, obj) (drivers_ (bus s))) (active_drivers_ (bus s))) (with_world k w s)) /\
    advances 0 (kern (system s)) k /\ dev_ok l w.
Proof using Type.
  intros Hf Hi Hr Hd. unfold RegisterDriver. rewrite bind_ret with (a := bus s) (s' := s) by done. rewrite Hf.
  destruct (page_alloc_kmalloc (kern (system s)) (sizeof_driver d) (ar_inv _ Hr)) as (obj & al & H1 & Hg & _); [by destruct d|].
  pose proof (advances_alloc _ _ Hi Hg) as A1. step_with on_kernel_run; [|exact H1].
  destruct (law_new d obj l (with_allocator al (kern (system s))) (world s) Hd) as (k & w & H2 & Hd2 & A2); [apply A1|by eapply advances_ready|].
  step_with on_devices_run; [|exact H2]. exists obj, (with_allocator al (kern (system s))), k, w. split; [done|]. split; [done|]. split; [reflexivity|]. split; [|done].
  exact (advances_trans 0 0 _ _ _ ltac:(done) A1 A2).
Qed.

(** The drivers after [register_pci_devices], with their objects. *)
Definition driver_map (rtl ahci1 ahci2 : Z) : list ((Z * Z) * Driver) :=
  [((0x10ec, 0x8139), (RTL8139Driver, rtl)); ((0x8086, 0x2829), (AHCIDriver, ahci2)); ((0x8086, 0x2922), (AHCIDriver, ahci1))].
Definition driver_kinds : list ((Z * Z) * KernelDriver) :=
  [((0x10ec, 0x8139), RTL8139Driver); ((0x8086, 0x2829), AHCIDriver); ((0x8086, 0x2922), AHCIDriver)].

Definition driver_objects (rtl ahci1 ahci2 : Z) : list Driver := [(RTL8139Driver, rtl); (AHCIDriver, ahci1); (AHCIDriver, ahci2)].

Lemma register_run l (s : Full) : bus s = mkBus [] [] -> sched_inv (kern (system s)) -> alloc_ready (allocator (kern (system s))) -> dev_ok l (world s) ->
  exists r a1 a2 k w, register_pci_devices s = Ret (tt, with_bus (mkBus (driver_map r a1 a2) []) (with_world k w s)) /\
    constructed (driver_objects r a1 a2) (kern (system s), world s) (k, w) /\ advances 0 (kern (system s)) k /\ dev_ok l w.
Proof using Type.
  intros Eb Hi Hr Hd. unfold register_pci_devices.
  destruct (RegisterDriver_run 0x10ec 0x8139 RTL8139Driver l s) as (r & j1 & k1 & w1 & M1 & N1 & H1 & A1 & D1); [by rewrite Eb|done..|]. step_with H1. rewrite Eb.
  match goal with |- context [with_bus ?b ?x] => set (s1 := with_bus b x) end.
  destruct (RegisterDriver_run 0x8086 0x2922 AHCIDriver l s1) as (a1 & j2 & k2 & w2 & M2 & N2 & H2 & A2 & D2); [reflexivity|apply A1|by eapply advances_ready|done|]. step_with H2.
  match goal with |- context [with_bus ?b ?x] => set (s2 := with_bus b x) end.
  assert (advances 0 (kern (system s)) k2) as A12 by exact (advances_trans 0 0 _ _ _ ltac:(done) A1 A2).
  destruct (RegisterDriver_run 0x8086 0x2829 AHCIDriver l s2) as (a2 & j3 & k3 & w3 & M3 & N3 & H3 & A3 & D3); [reflexivity|apply A12|by eapply advances_ready|done|].
  exists r, a1, a2, k3, w3. split; [rewrite H3; reflexivity|]. split; [|split; [exact (advances_trans 0 0 _ _ _ ltac:(done) A12 A3)|done]].
  econstructor; [exact M1|exact N1|]. econstructor; [exact M2|exact N2|]. econstructor; [exact M3|exact N3|]. constructor.
Qed.

(** Which driver a function gets does not depend on the objects' addresses. *)
Lemma find_kinds k r a1 a2 : KMap.find key_lt k driver_kinds = fst <$> KMap.find key_lt k (driver_map r a1 a2).
Proof using Type.
  unfold driver_kinds, driver_map. cbn [KMap.find]. repeat (case_match; [first [done|idtac]|]); repeat case_match; done.
Qed.
Lemma candidate_kind bar_store config base x r a1 a2 :
  driver_at bar_store config (fun _ _ => true) driver_kinds base x = fst <$> candidate bar_store config (driver_map r a1 a2) base x.
Proof using Type.
  unfold candidate, driver_at. destruct x as [[j dev] f]. destruct (present_at config base (j, dev, f)); [|done]. rewrite (find_kinds _ r a1 a2).
  by destruct (KMap.find key_lt _ (driver_map r a1 a2)).
Qed.

(** ** The second half of Kernel::start *)

Context (bar_store : Z -> Z -> Z) (config : Z -> ExtendedConfigSpace).

(** The drivers of the functions the segments contain. *)
Definition devices_found (groups : list ECMGroup) : list KernelDriver :=
  groups ≫= (fun g => omap (driver_at bar_store config (fun _ _ => true) driver_kinds (base g)) (functions_of g)).

(** What is found fits the drivers, and there is room for their threads. *)
Record devices_fit (groups : list ECMGroup) : Prop := {
  df_buses : Forall (fun g => 0 <= bus_end g - bus_start g < 256) groups;
  df_info g x d : g ∈ groups -> x ∈ functions_of g -> driver_at bar_store config (fun _ _ => true) driver_kinds (base g) x = Some d ->
    info_ok d (info_at bar_store config (base g) x);
  df_room : 2 + threads (devices_found groups) < MAX_PROCESS
}.

Lemma omap_compose_fmap {A B C} (f : A -> option B) (g : B -> C) (h : A -> option C) (l : list A) : (forall x, h x = g <$> f x) -> omap h l = g <$> omap f l.
Proof using Type. intros E. induction l as [|x l IH]; [done|]. cbn. rewrite E, IH. by destruct (f x). Qed.

Lemma devices_found_calls groups r a1 a2 : devices_found groups = kind <$> calls bar_store config (driver_map r a1 a2) groups.
Proof using Type.
  unfold devices_found, calls. induction groups as [|g gs IH]; [done|]. rewrite !bind_cons, fmap_app, <- IH. f_equal.
  apply omap_compose_fmap. intros x. rewrite (candidate_kind bar_store config (base g) x r a1 a2). unfold call_at. by destruct (candidate _ _ _ _ _).
Qed.

Lemma devices_fits groups r a1 a2 : devices_fit groups -> Forall (fun g => Forall (fits bar_store config (driver_map r a1 a2) (base g)) (functions_of g)) groups.
Proof using Type.
  intros [_ Hf _]. apply Forall_forall. intros g Hg. apply Forall_forall. intros x Hx d Hd. apply Hf; [done|done|].
  rewrite (candidate_kind _ _ _ _ r a1 a2). by rewrite Hd.
Qed.

(** The handlers of the drivers and of the serial port. *)
Definition device_handlers (fuel : nat) (j : Z) : list (Irq.InterruptHandler (@LiveDev W D)) :=
  if (0x50 <=? j) && (j <? 0x58) then [pci_handler] else if j =? 0x44 then [com1_handler fuel] else [].

Lemma Enumerate_run groups r a1 a2 (s : Full) (nh : Irq.InterruptHandler (@LiveDev W D)) : devices_fit groups ->
  bus s = mkBus (driver_map r a1 a2) [] ->
  sched_inv (kern (system s)) -> alloc_ready (allocator (kern (system s))) -> dev_ok (devices_found groups) (world s) -> next_pid (kern (system s)) <= 2 ->
  Irq.table_wf (handlers s) -> (forall j, 0x50 <= j < 0x58 -> Irq.registered nh (handlers s) j = []) ->
  let cs := calls bar_store config (driver_map r a1 a2) groups in
  exists (s' : Full) t, StartDevices.Enumerate bar_store config groups s =
      Ret (tt, mkFull (system s') (world s') (ioapic s) (pic_masked s) (pci_bus_driver_ s) (mkBus (driver_map r a1 a2) (fst <$> cs)) t (com1_ s)) /\
    system s' = with_kern (kern (system s')) (system s) /\ asked cs (kern (system s), world s) (kern (system s'), world s') /\
    advances (threads (devices_found groups)) (kern (system s)) (kern (system s')) /\ Irq.table_wf t /\
    (forall j, Irq.registered nh t j = if (0x50 <=? j) && (j <? 0x58) then [pci_handler] else Irq.registered nh (handlers s) j).
Proof using Type.
  intros Hfit Eb Hi Hr Hd Hn Hwf Hno cs. pose proof (df_room _ Hfit) as Hroom. unfold StartDevices.Enumerate.
  rewrite (devices_found_calls groups r a1 a2) in *. fold cs in Hroom, Hd |- *.
  destruct (groups_run bar_store config groups [] s) as (s1 & H1 & [E K A] & _); [| |done|done| | |].
  { eapply Forall_impl; [apply Hfit|]. cbn. intros g ?. lia. } { rewrite Eb. by apply devices_fits. } { rewrite Eb, app_nil_r. exact Hd. } { rewrite Eb. cbn [drivers_]. fold cs. lia. }
  rewrite Eb in E, K, A. cbn [drivers_ active_drivers_ app] in E, K, A. fold cs in E, K, A.
  step_with H1. assert (handlers s1 = handlers s) as Eh by (by rewrite E).
  destruct (Register_range_ok nh (Z.to_nat Acpi.IOAPIC_PCI_IRQ_COUNT) Acpi.IOAPIC_PCI_IRQ_START pci_handler (handlers s)) as (t & H2 & W2 & E2); [done|done|done| |].
  { intros j Hj. rewrite Hno by exact Hj. cbn. lia. }
  exists s1, t. split.
  { rewrite (set_handlers_run _ s1 t) by (by rewrite Eh). rewrite E. done. }
  split; [rewrite E at 1; done|]. split; [done|]. split; [done|]. split; [done|].
  intros j. rewrite E2. change (Acpi.IOAPIC_PCI_IRQ_START + Z.of_nat (Z.to_nat Acpi.IOAPIC_PCI_IRQ_COUNT)) with 0x58. change Acpi.IOAPIC_PCI_IRQ_START with 0x50.
  destruct (Z.leb_spec 0x50 j), (Z.ltb_spec j 0x58); cbn [andb]; rewrite ?app_nil_r; try done. by rewrite Hno by lia.
Qed.

(** The firmware's tables: [l] are listed at [xsdt], the interrupt table has the
    entries [es], the configuration table [n] segments. *)
Record acpi_state (m : memory) (io : Acpi.IoApic) (xsdt : Z) (l : list Z) (flags : Z) (es : list (Z * list Z)) (n : Z) : Prop := {
  as_xsdt : xsdt_at m xsdt l;
  as_apic : last_table m Acpi.ACPI_TABLE_SIGNATURE_APIC l 0 <> 0;
  as_madt : madt_at m (last_table m Acpi.ACPI_TABLE_SIGNATURE_APIC l 0) flags es;
  as_ioapic : fst (first_ioapic es) <> 0;
  as_entries : get_bits 16 8 (Acpi.reg io 1) = 23;
  as_pcie : last_table m Acpi.ACPI_TABLE_SIGNATURE_PCIE_CONFIG l 0 <> 0;
  as_range : 0 <= last_table m Acpi.ACPI_TABLE_SIGNATURE_PCIE_CONFIG l 0 /\ last_table m Acpi.ACPI_TABLE_SIGNATURE_PCIE_CONFIG l 0 + 36 < 2 ^ 64;
  as_count : 0 <= n < 2 ^ 28;
  as_length : Acpi.sdt_length m (last_table m Acpi.ACPI_TABLE_SIGNATURE_PCIE_CONFIG l 0) = 44 + 16 * n
}.
Definition segments (m : memory) (l : list Z) (n : Z) : list ECMGroup :=
  (fun i => Acpi.read_group m (last_table m Acpi.ACPI_TABLE_SIGNATURE_PCIE_CONFIG l 0 + 44 + 16 * i)) <$> seqZ 0 n.

Lemma acpi_run (s : Full) xsdt l flags es n : acpi_state (MmInit.bytes (mm (system s))) (ioapic s) xsdt l flags es n ->
  on_acpi (Acpi.efi_tables xsdt) s = Ret (segments (MmInit.bytes (mm (system s))) l n,
    mkFull (system s) (world s) (ioapic_setup (ioapic s)) (Z.odd flags || pic_masked s) (pci_bus_driver_ s) (bus s) (handlers s) (com1_ s)).
Proof using Type.
  intros [A1 A2 A3 A4 A5 A6 [A7 A7'] A8 A9]. unfold on_acpi.
  destruct (efi_tables_ok (Acpi.mkMachine (MmInit.bytes (mm (system s))) (ioapic s) (pic_masked s) (bus s)) xsdt l A1) as [_ E].
  by rewrite (E flags es n A2 A3 A4 A5 A6 A7 A7' A8 A9).
Qed.

Lemma com1_run fuel (s : Full) nh : sched_inv (kern (system s)) -> Inv (allocator (kern (system s))) -> Irq.table_wf (handlers s) -> Irq.registered nh (handlers s) 0x44 = [] ->
  exists obj al t, com1_init fuel s =
      Ret (tt, mkFull (with_kern (with_allocator al (kern (system s))) (system s)) (world s) (ioapic s) (pic_masked s) (pci_bus_driver_ s) (bus s) t obj) /\
    advances 0 (kern (system s)) (with_allocator al (kern (system s))) /\
    (forall j, Irq.registered nh t j = if j =? 0x44 then [com1_handler fuel] else Irq.registered nh (handlers s) j).
Proof using Type.
  intros Hi HI Hwf Hno. unfold com1_init. destruct (knew_run sizeof_Serial8250 s Hi HI) as (obj & al & H1 & A1); [done|]. step_with H1.
  destruct (Irq.Register_ok nh Acpi.IOAPIC_ISA_IRQ_COM1 (com1_handler fuel) (handlers s) Hwf) as (t & H2 & _ & E2 & O2); [done|change Acpi.IOAPIC_ISA_IRQ_COM1 with 0x44; rewrite Hno; cbn; lia|].
  step_with set_handlers_run; [|exact H2]. exists obj, al, t. split; [reflexivity|]. split; [done|].
  change Acpi.IOAPIC_ISA_IRQ_COM1 with 0x44 in E2. rewrite Hno in E2.
  intros j. destruct (Z.eqb_spec j 0x44) as [->|Hne]; [exact E2|by apply O2].
Qed.

(** The drivers: constructed by [register_pci_devices], then asked for the devices
    found; [k0] to [k1] and [k2] to [k] are allocations before and after. *)
Definition drivers_ran (groups : list ECMGroup) (k : Kernel) (s s' : Full) : Prop :=
  exists r a1 a2 k0 kw1 k2, let cs := calls bar_store config (driver_map r a1 a2) groups in
    bus s' = mkBus (driver_map r a1 a2) (fst <$> cs) /\ advances 0 k k0 /\
    constructed (driver_objects r a1 a2) (k0, world s) kw1 /\ asked cs kw1 (k2, world s') /\ advances 0 k2 (kern (system s')).

(** What the second half leaves as it was, and what it adds. *)
Record devices_started (fuel : nat) (groups : list ECMGroup) (flags : Z) (nh : Irq.InterruptHandler (@LiveDev W D)) (s s' : Full) : Prop := {
  ds_system : system s' = with_kern (kern (system s')) (system s);
  ds_kern : advances (threads (devices_found groups)) (kern (system s)) (kern (system s'));
  ds_ioapic : routes (ioapic s) (ioapic s');
  ds_pic : pic_masked s' = Z.odd flags || pic_masked s;
  ds_drivers : drivers_ran groups (kern (system s)) s s';
  ds_handlers j : Irq.registered nh (handlers s') j = Irq.registered nh (handlers s) j ++ device_handlers fuel j
}.

Lemma start_devices_run fuel xsdt l flags es n (s : Full) nh p :
  acpi_state (MmInit.bytes (mm (system s))) (ioapic s) xsdt l flags es n ->
  let groups := segments (MmInit.bytes (mm (system s))) l n in devices_fit groups ->
  sched_inv (kern (system s)) -> alloc_ready (allocator (kern (system s))) -> dev_ok (devices_found groups) (world s) ->
  next_pid (kern (system s)) = 2 -> current_pid (kern (system s)) = 1 -> processes (kern (system s)) !! 1 = Some p ->
  Irq.table_wf (handlers s) -> (forall j, 0x50 <= j < 0x58 \/ j = 0x44 -> Irq.registered nh (handlers s) j = []) ->
  exists s', start_devices bar_store config fuel xsdt s = Ret (p, s') /\ devices_started fuel groups flags nh s s'.
Proof using Type.
  intros Ha groups Hfit Hi Hr Hd Hn Hc Hp Hwf Hno. unfold start_devices.
  destruct (knew_run sizeof_PCIBusDriver s Hi (ar_inv _ Hr)) as (obj & al & H1 & A1); [done|]. step_with H1. rewrite modify_bind.
  match goal with |- context [mkFull ?a ?b ?c ?d ?e ?f ?g ?h] => set (s1 := mkFull a b c d e f g h) end.
  destruct (register_run (devices_found groups) s1) as (r & a1 & a2 & k2 & w2 & H2 & C2 & A2 & D2); [done|apply A1|by eapply advances_ready|done|]. step_with H2.
  set (s2 := with_bus _ _). assert (advances 0 (kern (system s)) k2) as A12 by exact (advances_trans 0 0 _ _ _ ltac:(done) A1 A2).
  unfold efi_table_init. rewrite bind_assoc. step_with (acpi_run s2 xsdt l flags es n); [|exact Ha].
  set (s3 := mkFull _ _ _ _ _ _ _ _). change (segments _ l n) with groups.
  destruct (Enumerate_run groups r a1 a2 s3 nh) as (x & t & H4 & E4 & K4 & A4 & W4 & R4); [exact Hfit|done|apply A12|by eapply (advances_ready 0 (kern (system s)))|exact D2| |exact Hwf| |].
  { pose proof (ad_next _ _ _ A12). cbn. lia. } { intros j Hj. apply Hno. by left. }
  step_with H4. set (s4 := mkFull _ _ _ _ _ _ _ _). change (kern (system s3)) with k2 in A4, K4. change (world s3) with w2 in K4.
  set (N := threads (devices_found groups)) in *.
  assert (advances N (kern (system s)) (kern (system x))) as A14 by exact (advances_trans 0 N _ _ _ ltac:(done) A12 A4).
  destruct (com1_run fuel s4 nh) as (o5 & al5 & t5 & H5 & A5 & R5); [apply A14|apply A14|exact W4|cbn [handlers s4]; rewrite R4; apply Hno; by right|].
  step_with H5. set (s5 := mkFull _ _ _ _ _ _ _ _).
  assert (advances N (kern (system s)) (kern (system s5))) as A15 by (rewrite <- (Z.add_0_r N); exact (advances_trans N 0 _ _ _ (threads_nonneg _) A14 A5)).
  exists s5. split.
  - rewrite (on_kernel_run _ s5 p (kern (system s5))); [by destruct s5 as [[]]|].
    rewrite bind_ret with (a := 1) (s' := kern (system s5)) by (unfold gets; by rewrite (ad_current _ _ _ A15), Hc).
    unfold process_at. step_with (slot_ok (kern (system s5)) 1 ltac:(by vm_compute)). by rewrite (ad_old _ _ _ A15), Hp by lia.
  - split; [|exact A15|apply ioapic_setup_routes|reflexivity| |].
    + cbn [system s5 s4]. rewrite E4. done.
    + exists r, a1, a2, (with_allocator al (kern (system s))), (k2, w2), (kern (system x)). cbv zeta. split; [done|]. split; [exact A1|]. split; [exact C2|]. split; [exact K4|exact A5].
    + intros j. cbn [handlers s5]. rewrite R5. cbn [handlers s4]. rewrite R4. unfold device_handlers. change (handlers s3) with (handlers s).
      destruct (Z.eqb_spec j 0x44) as [->|Hne]; [rewrite Hno by (by right); done|].
      destruct ((0x50 <=? j) && (j <? 0x58)) eqn:Ej; [|by rewrite app_nil_r]. rewrite Hno; [done|]. left. bool_cases. lia.
Qed.

End start.

(** The program of process 1 enters user mode. *)
Lemma user_mode_run entry raw ck thread2 start size u r mm k p :
  sched_inv k -> alloc_ready (allocator k) -> next_pid k < MAX_PROCESS -> current_pid k = 1 -> processes k !! 1 = Some p ->
  user_stack p = 33 * 1024 * 1024 -> user_stack_size p = USER_STACK_SIZE -> context_addr p + sizeof_Context < 2 ^ 64 -> cr3 (context p) = pts_paddr p ->
  Threads.program_at start u ->
  exists p' s2 m2 q, Threads.main_start entry raw ck thread2 start size (Syscall.mkSys k u []) = Ret (p', s2) /\
    Threads.return_to p' (mkMachine r mm s2) = Ret (tt, m2) /\ sys m2 = s2 /\
    r_rip (regs m2) = Elf.e_entry u start /\ r_rsp (regs m2) = 34 * 2 ^ 20 /\ r_cs (regs m2) = USER_CODE_SELECTOR /\
    r_ss (regs m2) = USER_DATA_SELECTOR /\ r_rflags (regs m2) = 0x200 /\ r_cr3 (regs m2) = pts_paddr p /\
    (forall a, Syscall.umem s2 a = Elf.image_after start u (Z.to_nat (Elf.e_phnum u start)) a) /\
    current_pid (Syscall.kern s2) = 1 /\ processes (Syscall.kern s2) !! next_pid k = Some q /\ tmp_start q = thread2 /\ state q = Wait.
Proof.
  intros Hi Hr Hn Hc Hp Hus Huss Hb Hcr3 Hprog.
  destruct (Threads.main_start_run entry raw ck thread2 start size (Syscall.mkSys k u []) p) as (c & s2 & q & H2 & Hu & R1 & R2 & R3 & R4 & R5 & R6 & R7 & N2 & C2 & _ & Q1 & Q2 & Q3);
    [exact Hi|exact Hr|exact Hn|cbn; by rewrite Hc|exact Hprog|].
  destruct (Threads.return_to_loads (set_context c p) (mkMachine r mm s2) Hb R7) as (m2 & Hm2 & (J1 & _ & J3 & J4 & J5 & J6 & J7 & J8) & Es).
  exists (set_context c p), s2, m2, q. split; [done|]. split; [done|]. split; [done|].
  rewrite J4, J7, J5, J8, J6, J3. cbn [context set_context regs_of r_rip r_rsp r_cs r_ss r_rflags r_cr3].
  rewrite R2, R6, Hus, Huss, Hcr3. cbn in C2, Q1, R1. rewrite Hc in C2. done.
Qed.

(** ** Kernel::start *)

Section image.
Context {W D : Type} {drv : PciDrivers W} {laws : PciLaws W} {pio : Serial.PortIO D}.
Context (bar_store : Z -> Z -> Z) (config : Z -> ExtendedConfigSpace).
Context (kernel_gdt_addr tss_addr t_vaddr : Z) (interrupt_stack interrupt_stack_bottom : Z).
Context (kernel_init_stack kernel_init_stack_bottom : Z) (handler_addr : Irq.stub -> Z).
Context (process_entrypoint main_start : Z) (raw_context : Context) (raw_cookie : Z).
Context (apic_regs : gmap Z Z) (current : Z).
Context (Hgdt : uint 64 kernel_gdt_addr) (Htss : uint 64 tss_addr) (Hstack : uint 64 interrupt_stack_bottom) (Hcur : uint 32 current).

(** The machine as the boot loader leaves it. *)
Record boot_state (s : System) (kphy ksize : Z) (mds : list Mm.MemoryDescriptor) : Prop := {
  bs_cpu : cpu_wf (MmInit.cpu (mm s));
  bs_tables : tables_readable (mm s) (MmInit.next_table (CR3 (MmInit.cpu (mm s))));
  bs_gdt : Z.of_nat (length (firmware_gdt (mm s))) <= Mm.gdt_entries;
  bs_placed : well_placed t_vaddr kphy;
  bs_high : IDENTITY_MAP_PHY_START <= t_phys t_vaddr kphy /\ t_phys t_vaddr kphy + 4096 <= IDENTITY_MAP_PHY_END;
  bs_zeroed : MmInit.available_memory (mm s) = new /\ stacks_ s = new;
  bs_disjoint : Forall (fun md => Mm.md_Type md = Mm.EfiConventionalMemory -> Mm.intersects kphy ksize md = false) mds;
  bs_regions : Z.of_nat (length (flat_map listing mds)) < PageAlloc.max_regions;
  bs_msr : is_Some (MSR (MmInit.cpu (mm s)) !! APIC_BASE_MSR);
  bs_apic : wrap64 (Z.land (default 0 (MSR (MmInit.cpu (mm s)) !! APIC_BASE_MSR)) 0xfffffffff000 + KERNEL_START) < IDENTITY_MAP_END
}.

(** The handlers after start-up. *)
Definition kernel_handlers (fuel : nat) (j : Z) : list (Irq.InterruptHandler (@LiveDev W D)) :=
  (if j =? ContextSwitch.IRQ_SYSCALL then [widen syscall_handler] else if j =? Lapic.IRQ_TIMER then [widen timer_handler] else []) ++ device_handlers fuel j.

(** What [Kernel::start] leaves when it enters process [p]: [groups] are the
    segments of the bus, [flags] those of the interrupt table, [n] counts the
    drivers' threads. *)
Definition started_ok (fuel : nat) (kphy : Z) (groups : list ECMGroup) (flags n : Z) (no_handler : Irq.InterruptHandler Live) (s s' : @Full W D) (p : Process) : Prop :=
  let c := MmInit.cpu (mm (system s')) in
  let k := kern (system s') in
  IF_ c = false /\ GDTR c = (kernel_gdt_addr, 1023) /\ TR c = TSS_SELECTOR /\ CR3 c = kernel_cr3 t_vaddr kphy /\
  holds_tables t_vaddr kphy (MmInit.phys (mm (system s'))) /\
  IDTR c = (wrap64 (irq_ (system s') + main_idt_offset), 0xfff) /\ owned (allocator k) (irq_ (system s')) /\
  main_idt_ (system s') = Irq.setup_idt handler_addr KERNEL_CODE_SELECTOR /\
  (forall j, Irq.registered (widen no_handler) (handlers s') j = kernel_handlers fuel j) /\
  routes (ioapic s) (ioapic s') /\ pic_masked s' = Z.odd flags || pic_masked s /\
  (exists k0, next_pid k0 = 2 /\ drivers_ran bar_store config groups k0 s s') /\
  sched_inv k /\ alloc_ready (allocator k) /\ next_pid k = 2 + n /\
  current_pid k = 1 /\ processes k !! 1 = Some p /\ tmp_start p = main_start /\
  (forall m, exists m', Threads.return_to p m = Ret (tt, m') /\
    r_rip (regs m') = process_entrypoint /\ gpr (regs m') RDI = this p /\ r_rsp (regs m') = kernel_stack_bottom (this p) /\
    r_cr3 (regs m') = pts_paddr p /\ r_cs (regs m') = KERNEL_CODE_SELECTOR /\ r_rflags (regs m') = 0x200) /\
  (forall thread2 start size u r mm, Threads.program_at start u -> exists p' s2 m2 q,
    Threads.main_start process_entrypoint raw_context raw_cookie thread2 start size (Syscall.mkSys k u []) = Ret (p', s2) /\
    Threads.return_to p' (mkMachine r mm s2) = Ret (tt, m2) /\ sys m2 = s2 /\
    r_rip (regs m2) = Elf.e_entry u start /\ r_rsp (regs m2) = 34 * 2 ^ 20 /\ r_cs (regs m2) = USER_CODE_SELECTOR /\
    r_ss (regs m2) = USER_DATA_SELECTOR /\ r_rflags (regs m2) = 0x200 /\ r_cr3 (regs m2) = pts_paddr p /\
    (forall a, Syscall.umem s2 a = Elf.image_after start u (Z.to_nat (Elf.e_phnum u start)) a) /\
    current_pid (Syscall.kern s2) = 1 /\ processes (Syscall.kern s2) !! next_pid k = Some q /\ tmp_start q = thread2 /\ state q = Wait).

(** [Kernel::start] with drivers that keep the promise of [PciLaws]. *)
Lemma kernel_start_run fuel kphy ksize mds xsdt l flags es n (s : @Full W D) no_handler :
  let groups := segments (MmInit.bytes (mm (system s))) l n in
  boot_state (system s) kphy ksize mds -> dev_ok (devices_found bar_store config groups) (world s) ->
  acpi_state (MmInit.bytes (mm (system s))) (ioapic s) xsdt l flags es n -> devices_fit bar_store config groups ->
  exists s' p, Kernel_start bar_store config kernel_gdt_addr tss_addr t_vaddr interrupt_stack interrupt_stack_bottom kernel_init_stack kernel_init_stack_bottom
      handler_addr process_entrypoint main_start raw_context raw_cookie apic_regs current fuel kphy ksize xsdt mds s = Ret (p, s') /\
    started_ok fuel kphy groups flags (threads (devices_found bar_store config groups)) no_handler s s' p.
Proof using Hgdt Htss Hstack Hcur.
  intros groups [B1 B2 B3 B4 [B5 B5'] [B6 B6'] B7 B8 B8' B9] Hd Ha Hfit.
  destruct (kernel_start_ok kernel_gdt_addr tss_addr t_vaddr interrupt_stack interrupt_stack_bottom kernel_init_stack kernel_init_stack_bottom handler_addr
    process_entrypoint main_start raw_context raw_cookie apic_regs current Hgdt Htss Hstack Hcur no_handler (system s) kphy ksize mds B1 B2 B3 B4 B5 B5' B6 B6' B7 B8 B8' B9)
    as (y & p & H1 & C1 & C2 & C3 & C4 & _ & _ & C5 & C6 & C7 & C8 & C9 & C10 & _ & _ & _ & S1 & R1 & N1 & U1 & _ & P1 & T1 & X1 & E1 & W1 & Q1 & Q2 & Q3).
  unfold Kernel_start. set (s1 := @mkFull W D y (world s) (ioapic s) (pic_masked s) (pci_bus_driver_ s) (bus s) (widen_table (interrupts_ y)) (com1_ s)).
  rewrite bind_ret with (a := tt) (s' := s1) by (unfold start_core; by rewrite H1).
  destruct (start_devices_run bar_store config fuel xsdt l flags es n s1 (widen no_handler) p) as (s' & H2 & [F1 F2 F4 F5 F6 F7]);
    [cbn [system s1]; rewrite E1; exact Ha|cbn [system s1]; rewrite E1; exact Hfit|exact S1|exact R1|cbn [system s1]; rewrite E1; exact Hd|exact N1|exact U1|exact P1|by apply widen_wf| |].
  { intros j Hj. cbn [handlers s1]. rewrite widen_registered, C10. unfold ContextSwitch.IRQ_SYSCALL, Lapic.IRQ_TIMER. repeat case_match; try done; bool_cases; lia. }
  exists s', p. split; [exact H2|]. unfold started_ok. rewrite F1. cbv zeta. cbn [mm kern irq_ main_idt_ with_kern system s1] in F2, F6 |- *. rewrite E1 in F2, F6. fold groups in F2, F6.
  split; [exact C2|]. split; [exact C3|]. split; [exact C4|]. split; [exact C5|]. split; [exact C6|]. split; [exact C7|].
  split; [exact (owned_grown _ _ _ (ad_grown _ _ _ F2) C8)|]. split; [exact C9|]. split.
  { intros j. rewrite F7. cbn [handlers s1]. rewrite widen_registered, C10. unfold kernel_handlers. by repeat case_match. }
  split; [exact F4|]. split; [exact F5|]. split; [by exists (kern y)|]. split; [exact (ad_inv _ _ _ F2)|]. split; [by eapply advances_ready|].
  split; [rewrite (ad_next _ _ _ F2); lia|]. split; [by rewrite (ad_current _ _ _ F2)|]. split; [by rewrite (ad_old _ _ _ F2) by lia|]. split; [exact T1|].
  assert (context_addr p + sizeof_Context < 2 ^ 64) as Hb.
  { unfold context_addr, kernel_stack_bottom, sizeof_Context, sizeof_kstring, THREAD_KERNEL_STACK_SIZE, PAGE_SIZE, KERNEL_START in *. rewrite wrap_small by (unfold uint; lia). lia. }
  split.
  - intros m. destruct (Threads.return_to_loads p m Hb) as (m' & Hm & (G1 & _ & G3 & G4 & G5 & G6 & G7 & _) & _); [rewrite X1; by intros []|].
    exists m'. split; [exact Hm|]. rewrite G4, G7, G3, G5, G6, (G1 RDI), X1. done.
  - intros thread2 start size u r mm0 Hprog. pose proof (df_room _ _ _ Hfit) as Hroom. fold groups in Hroom. pose proof (ad_next _ _ _ F2) as Hnx.
    apply (user_mode_run process_entrypoint raw_context raw_cookie thread2 start size u r mm0 (kern (system s')) p); try done.
    + exact (ad_inv _ _ _ F2). + by eapply advances_ready. + lia. + by rewrite (ad_current _ _ _ F2). + by rewrite (ad_old _ _ _ F2) by lia. + by rewrite X1.
Qed.

End image.
