(* ===== verification/KernelDrivers.v ===== *)
(** * The kernel's drivers behind the interface of the PCI bus

    The network card's driver of [Rtl8139Init] and the disk driver of [AhciInit] as
    an instance of [PciDrivers], the proof that they keep [PciLaws], and the start
    of the kernel with them, which assumes laws of the devices only.  All objects of the network driver share the global [dev]; each
    object of the disk driver has its own list of disks. *)
From S2P Require Import Prelude LibUtils CpuDefs LibString SSQueue PacketQueue Net Rtl8139 Paging BuddyTree Buddy BuddyInv BuddyProofs BuddySpec BuddyThms PageAlloc PageAllocThms Process ProcessProofs ProcessThms AllocChain Ahci Lapic Pci Rtl8139Init Rtl8139InitThms AhciInit AhciInitThms Start StartThms StartDevices StartDevicesThms SmallVec Mm Cpu MmInit MmInitThms PagingThms Acpi AcpiThms Serial SerialThms Irq ContextSwitch Threads.
Import LibString Process Cpu Pci StartDevices.

Module KernelDrivers.

Section drivers.
Context {C H : Type} {card_reg : Rtl8139Init.Card C} {hba_reg : AhciInit.Hba H}.

(** The devices; [net] is the network stack above [dev], [disks] are [abar] and
    [sata_devices] of each disk driver, [amem] is memory as the disks see it. *)
Record World := mkWorld {
  card : C;
  command : Z;
  tx_packet_ : Z;
  net : option (Net.ArpDriver Rtl8139.Dev);
  hba : H;
  amem : memory;
  disks : gmap Z (Z * list Z)
}.

Context (process_entrypoint : Z) (raw_context : Context) (raw_cookie : Z).
Context (ArpThreadStart rtl_KthreadEntry ahci_KthreadEntry : Z) (raw_mac : Net.EthernetAddress).
Context (raw_mem : memory) (raw_status : list Z) (raw_capr raw_abar : Z).
Context (issue : Z -> Ahci.Command -> memory -> memory * Ahci.completion) (ready : Z -> option Z) (port : Z -> Ahci.HBA_PORT).
Context (fuel : nat) (isr : nat -> Z).

Abbreviation DM := (ST (Kernel * World)).

(** Computations on the card and on the controller. *)
Definition on_host {A} (c : ST (@Rtl8139Init.Host C) A) : DM A := fun '(k, w) =>
  match c (Rtl8139Init.mkHost k (card w) (command w)) with
  | Ret (a, h) => Ret (a, (Rtl8139Init.kern h, mkWorld (Rtl8139Init.card h) (Rtl8139Init.command h) (tx_packet_ w) (net w) (hba w) (amem w) (disks w)))
  | Panic m => Panic m | Halt => Halt | Fault => Fault | OutOfFuel => OutOfFuel
  end.
Definition disk_of (obj : Z) (w : World) : Z * list Z := default (raw_abar, []) (disks w !! obj).
Definition on_ctl {A} (obj : Z) (c : ST (@AhciInit.Ctl H) A) : DM A := fun '(k, w) =>
  match c (AhciInit.mkCtl (hba w) k (amem w) (fst (disk_of obj w)) (snd (disk_of obj w))) with
  | Ret (a, x) => Ret (a, (AhciInit.kern x, mkWorld (card w) (command w) (tx_packet_ w) (net w) (AhciInit.hba x) (AhciInit.amem x)
                             (<[obj := (AhciInit.abar x, AhciInit.sata_devices x)]> (disks w))))
  | Panic m => Panic m | Halt => Halt | Fault => Fault | OutOfFuel => OutOfFuel
  end.

Definition set_packet (p : Z) : DM unit := modify (fun '(k, w) => (k, mkWorld (card w) (command w) p (net w) (hba w) (amem w) (disks w))).
Definition set_net (s : Net.ArpDriver Rtl8139.Dev) : DM unit := modify (fun '(k, w) => (k, mkWorld (card w) (command w) (tx_packet_ w) (Some s) (hba w) (amem w) (disks w))).

(** The constructors: the network driver allocates a packet. *)
Definition new_driver (d : KernelDriver) (obj : Z) : DM unit :=
  match d with
  | RTL8139Driver => p ← on_host Rtl8139Init.RTL8139Driver_new; set_packet p
  | AHCIDriver => modify (fun '(k, w) => (k, mkWorld (card w) (command w) (tx_packet_ w) (net w) (hba w) (amem w) (<[obj := (raw_abar, [])]> (disks w))))
  end.

Definition enumerate (d : KernelDriver) (obj : Z) (info : PCIDeviceInfo) : DM bool :=
  match d with
  | RTL8139Driver =>
      packet ← gets (fun '(_, w) => tx_packet_ w);
      s ← on_host (Rtl8139Init.Enumerate process_entrypoint raw_context raw_cookie ArpThreadStart rtl_KthreadEntry raw_mac raw_mem raw_status raw_capr fuel (info_bars info) packet);
      set_net s;;
      mret true
  | AHCIDriver => on_ctl obj (AhciInit.Enumerate issue ready port process_entrypoint raw_context raw_cookie ahci_KthreadEntry obj fuel)
  end.

(** [lapic_eoi] [n] times. *)
Fixpoint eois (n : nat) (a : Lapic.APIC) : outcome Lapic.APIC :=
  match n with
  | O => Ret a
  | S n => match Lapic.eoi a with Ret (_, a) => eois n a | Panic m => Panic m | Halt => Halt | Fault => Fault | OutOfFuel => OutOfFuel end
  end.

(** Before [Enumerate], [dev] is null. *)
Definition handle_interrupt (d : KernelDriver) (obj irq_num : Z) : ST (World * Lapic.APIC) bool := fun '(w, a) =>
  match d with
  | RTL8139Driver =>
      match net w with
      | None => Fault
      | Some s =>
          match Rtl8139Init.HandleInterrupt fuel isr s with
          | Ret ((handled, n), s) =>
              match eois n a with
              | Ret a => Ret (handled, (mkWorld (card w) (command w) (tx_packet_ w) (Some s) (hba w) (amem w) (disks w), a))
              | Panic m => Panic m | Halt => Halt | Fault => Fault | OutOfFuel => OutOfFuel
              end
          | Panic m => Panic m | Halt => Halt | Fault => Fault | OutOfFuel => OutOfFuel
          end
      end
  | AHCIDriver => Ret (false, (w, a))
  end.

Definition kernel_drivers : PciDrivers World := {|
  driver_new := new_driver;
  driver_Enumerate := enumerate;
  driver_HandleInterrupt := handle_interrupt
|}.

(** ** What the drivers promise *)

(** [k] is [k0] after allocations. *)
Definition allocs (k0 k : Kernel) : Prop := exists al, k = with_allocator al k0 /\ grown (allocator k0) al.

Lemma lift_kern_allocs {A} k0 (c : ST Buddy.BuddyAllocator A) : preserves (grown (allocator k0)) c ->
  preserves (fun x : @AhciInit.Ctl H => allocs k0 (AhciInit.kern x)) (AhciInit.lift_kern (page_alloc c)).
Proof using Type.
  intros Hc x a x' Hx (al & E & Hg). unfold AhciInit.lift_kern, page_alloc in Hx. rewrite E in Hx. cbn [allocator with_allocator] in Hx.
  destruct (c al) as [[v al']| | | |] eqn:Ec; try done. injection Hx as <- <-. exists al'. split; [done|]. by eapply Hc.
Qed.
Lemma read_keeps_allocator i l h n b x v x' : Ahci.read (issue i) (ready i) (port i) l h n b x = Ret (v, x') -> Ahci.allocator x' = Ahci.allocator x.
Proof using Type.
  unfold Ahci.read. destruct (_ =? -1); [by intros [= _ <-]|]. intros Hr.
  apply bind_inv in Hr as ([] & x1 & H1 & Hr). apply bind_inv in Hr as ([] & x2 & H2 & Hr). apply bind_inv in Hr as ([] & x3 & H3 & Hr). apply bind_inv in Hr as ([] & x4 & H4 & Hr).
  assert (x1 = x /\ x2 = x1 /\ x3 = x2 /\ x4 = x3) as (-> & -> & -> & ->).
  { unfold do_assert, fault in *. destruct (_ <? _) in H1; [|done]. destruct (_ <? _) in H2; [done|]. destruct (_ <? _) in H3; [|done]. destruct (_ <? _) in H4; [done|].
    injection H1 as <-. injection H2 as <-. injection H3 as <-. by injection H4 as <-. }
  destruct (negb _); [by injection Hr as _ <-|]. apply bind_inv in Hr as (y & x5 & [= <- <-] & Hr).
  destruct (issue i _ (Ahci.amem x)) as [m c]. apply bind_inv in Hr as (? & x6 & [= _ <-] & Hr). by destruct c; [injection Hr as _ <-..|].
Qed.
Lemma read_allocs k0 i l h n b : preserves (fun x : @AhciInit.Ctl H => allocs k0 (AhciInit.kern x)) (AhciInit.lift_ahci (Ahci.read (issue i) (ready i) (port i) l h n b)).
Proof using Type.
  intros x a x' Hx (al & E & Hg). unfold AhciInit.lift_ahci in Hx.
  destruct (Ahci.read _ _ _ _ _ _ _ _) as [[v s']| | | |] eqn:Er; try done. injection Hx as <- <-.
  rewrite (read_keeps_allocator _ _ _ _ _ _ _ _ Er). exists al. rewrite E. by split.
Qed.

Section frame.
Context (k0 : Kernel).
Abbreviation keeps_kernel := (preserves (fun x : @AhciInit.Ctl H => allocs k0 (AhciInit.kern x))).

Lemma read32_allocs off : keeps_kernel (AhciInit.read32 off).
Proof using Type. intros x a x' Hx E. unfold AhciInit.read32 in Hx. destruct (AhciInit.hba_read off _). by injection Hx as _ <-. Qed.
Lemma modify_allocs f : (forall x, AhciInit.kern (f x) = AhciInit.kern x) -> keeps_kernel (modify f).
Proof using Type. intros Hf x a x' [= _ <-] E. by rewrite Hf. Qed.
Lemma write32_allocs off v : keeps_kernel (AhciInit.write32 off v).
Proof using Type. by apply modify_allocs. Qed.
Lemma page_allocs i : Log2MinSize <= i -> keeps_kernel (AhciInit.lift_kern (page_alloc (PageAlloc.kernel_page_alloc i))).
Proof using Type. intros Hi. by apply lift_kern_allocs, kernel_page_alloc_preserves. Qed.
#[local] Hint Resolve read32_allocs write32_allocs read_allocs : preserves.

Lemma wait_cr_allocs n i : keeps_kernel (AhciInit.wait_cr n i).
Proof using Type. induction n as [|n IH]; cbn [AhciInit.wait_cr]; preserve. Qed.
Lemma or_cmd_allocs i b : keeps_kernel (AhciInit.or_cmd i b).
Proof using Type. unfold AhciInit.or_cmd. preserve. Qed.
#[local] Hint Resolve wait_cr_allocs or_cmd_allocs : preserves.

Lemma port_init_allocs i : keeps_kernel (AhciInit.ahci_port_init issue ready port fuel i).
Proof using Type. unfold AhciInit.ahci_port_init, AhciInit.start_cmd, AhciInit.read_base. preserve. by apply page_allocs. Qed.
Lemma scan_port_allocs p i : keeps_kernel (AhciInit.scan_port issue ready port fuel p i).
Proof using Type. unfold AhciInit.scan_port. pose proof (port_init_allocs i). preserve. all: by apply modify_allocs. Qed.
Lemma scan_ports_allocs n p i : keeps_kernel (AhciInit.scan_ports issue ready port fuel n p i).
Proof using Type. revert i. induction n as [|n IH]; intros i; cbn [AhciInit.scan_ports]; [preserve|]. apply preserves_bind; [apply scan_port_allocs|auto]. Qed.
Lemma Init_allocs : keeps_kernel (AhciInit.Init issue ready port fuel).
Proof using Type.
  unfold AhciInit.Init. pose proof (scan_ports_allocs 32). apply preserves_bind; [by apply modify_allocs|intros _]. preserve.
Qed.

End frame.

(** The registers of card and controller behave. *)
Context (card_view : C -> Rtl8139Init.register -> Z -> Z) (polls : nat) (Hcard : card_laws card_view polls).
Context (hba_view : H -> Z -> Z) (spins : nat) (Hhba : hba_laws hba_view spins).
Context (Hpolls : (polls < fuel)%nat) (Hspins : (spins < fuel)%nat).

(** The disk controller is not being reset, has interrupts disabled, and its disks
    answer. *)
Definition controller_ready (w : World) : Prop :=
  Z.testbit (hba_view (hba w) AhciInit.ghc_reg) 0 = false /\ Z.testbit (hba_view (hba w) AhciInit.ghc_reg) 1 = false /\
  (forall j, 0 <= j < 32 -> sata_port hba_view (hba w) j = true -> port_ok hba_view issue port (hba w) j).

(** There is at most one disk controller, and it is ready: the driver puts every
    controller at the same address, and does not stop ports that run. *)
Fixpoint devices_ok (l : list KernelDriver) (w : World) : Prop :=
  match l with
  | [] => True
  | RTL8139Driver :: l => devices_ok l w
  | AHCIDriver :: l => controller_ready w /\ Forall (fun d => d = RTL8139Driver) l
  end.
Lemma devices_ok_hba l w w' : hba w' = hba w -> devices_ok l w -> devices_ok l w'.
Proof using Type. intros E. induction l as [|[] l IH]; [done|done|]. unfold devices_ok, controller_ready. by rewrite E. Qed.
Lemma devices_ok_cards l w : Forall (fun d => d = RTL8139Driver) l -> devices_ok l w.
Proof using Type. by induction 1 as [|d l -> _ IH]. Qed.

(** The threads of a driver. *)
Definition driver_threads (d : KernelDriver) : Z := match d with RTL8139Driver => 2 | AHCIDriver => 1 end.

(** The card has a region in memory below the end of the identity map. *)
Definition fits_driver (d : KernelDriver) (info : PCIDeviceInfo) : Prop :=
  match d with
  | RTL8139Driver => exists b, Rtl8139Init.memory_bar (info_bars info) = Some b /\ Pci.start b < IDENTITY_MAP_PHY_END
  | AHCIDriver => True
  end.

Lemma create_packet_run k : sched_inv k -> alloc_ready (allocator k) -> exists p al,
  Rtl8139Init.create_packet k = Ret (p, with_allocator al k) /\ advances 0 k (with_allocator al k).
Proof using Type.
  intros Hi Hr. destruct (page_alloc_kmalloc k (Rtl8139Init.sizeof_KEthernetPacket + Rtl8139.L2MTU) (ar_inv _ Hr)) as (p & al & H1 & Hg & _); [by vm_compute|].
  exists p, al. split; [exact H1|by apply advances_alloc].
Qed.

Lemma new_driver_run d obj l k w : devices_ok l w -> sched_inv k -> alloc_ready (allocator k) ->
  exists k' w', new_driver d obj (k, w) = Ret (tt, (k', w')) /\ devices_ok l w' /\ advances 0 k k'.
Proof using Type.
  intros Hw Hi Hr. destruct d; cbn [new_driver].
  - destruct (create_packet_run k Hi Hr) as (p & al & H1 & A1).
    assert (on_host Rtl8139Init.RTL8139Driver_new (k, w) = Ret (p, (with_allocator al k, w))) as H2.
    { unfold on_host, Rtl8139Init.RTL8139Driver_new, Rtl8139Init.lift_k. cbn [Rtl8139Init.kern]. rewrite H1. by destruct w. }
    step_with H2. eexists _, _. split; [reflexivity|]. split; [|done]. by apply (devices_ok_hba l w).
  - eexists k, _. split; [reflexivity|]. split; [by apply (devices_ok_hba l w)|]. by apply advances_refl, Hr.
Qed.

Lemma rtl_enumerate_run obj info k w : fits_driver RTL8139Driver info -> sched_inv k -> alloc_ready (allocator k) -> next_pid k + 2 <= MAX_PROCESS ->
  exists k' w', enumerate RTL8139Driver obj info (k, w) = Ret (true, (k', w')) /\ hba w' = hba w /\ advances 2 k k'.
Proof using Hcard Hpolls Hspins.
  intros (b & Hb & Hst) Hi Hr Hn. cbn [enumerate]. rewrite bind_ret with (a := tx_packet_ w) (s' := (k, w)) by done.
  destruct (enumerate_run card_view polls Hcard process_entrypoint raw_context raw_cookie ArpThreadStart rtl_KthreadEntry raw_mac raw_mem raw_status raw_capr fuel
    (info_bars info) b (Rtl8139Init.mkHost k (card w) (command w)) (tx_packet_ w) Hb Hst Hi Hr) as (s & h' & ? & ? & ? & ? & ? & ? & H1 & E); [cbn; lia|exact Hpolls|].
  unfold mbind at 1, st_bind at 1. unfold on_host at 1. rewrite H1.
  eexists _, _. split; [reflexivity|]. split; [done|]. destruct E as [_ _ _ _ Eg _ [Ei _] (En & _) (Eu & Ed & Eo)]. cbn in *.
  split; [exact Ei|exact Eg|lia|exact Eu|exact Ed|exact Eo].
Qed.

Lemma allocs_advances k0 k : sched_inv k0 -> allocs k0 k -> advances 0 k0 k.
Proof using Type. intros Hi (al & -> & Hg). by apply advances_alloc. Qed.

Lemma ahci_enumerate_run obj info k w : controller_ready w -> sched_inv k -> alloc_ready (allocator k) -> next_pid k + 1 <= MAX_PROCESS ->
  exists k' w', enumerate AHCIDriver obj info (k, w) = Ret (true, (k', w')) /\ advances 1 k k'.
Proof using Hhba Hpolls Hspins.
  intros (Hu & Hb & Hp) Hi Hr Hn. cbn [enumerate]. unfold on_ctl. set (x := AhciInit.mkCtl _ _ _ _ _).
  destruct (init_run hba_view spins Hhba issue ready port fuel x Hu Hb Hspins Hp Hr) as (x1 & H1 & _ & _ & _ & _ & _ & R1).
  assert (allocs k (AhciInit.kern x1)) as Hal by (apply (Init_allocs k x tt x1 H1); exists (allocator k); split; [by destruct k|by apply grown_refl, Hr]).
  pose proof (allocs_advances k _ Hi Hal) as A1. pose proof (ad_next _ _ _ A1) as N1.
  destruct (create_kthread_run process_entrypoint raw_context raw_cookie (AhciInit.kern x1) "ahci" ahci_KthreadEntry obj (ad_inv _ _ _ A1) R1)
    as (k2 & p & H2 & I2 & R2 & N2 & G2 & P2 & U2 & D2 & _); [lia|].
  unfold AhciInit.Enumerate. step_with H1.
  rewrite bind_ret with (a := next_pid (AhciInit.kern x1)) (s' := AhciInit.mkCtl (AhciInit.hba x1) k2 (AhciInit.amem x1) (AhciInit.abar x1) (AhciInit.sata_devices x1));
    [|unfold AhciInit.lift_kern; by rewrite H2].
  eexists _, _. split; [reflexivity|]. cbn [AhciInit.kern].
  assert (advances 1 (AhciInit.kern x1) k2) as A2.
  { split; [exact I2|exact G2|lia|exact U2|exact D2|]. intros pid Hpid. rewrite P2, lookup_insert_ne by lia. done. }
  exact (advances_trans 0 1 _ _ _ ltac:(done) A1 A2).
Qed.

Definition kernel_laws : PciLaws World (H := kernel_drivers).
Proof using Hcard Hhba Hpolls Hspins.
  refine {| dev_ok := devices_ok; info_ok := fits_driver; threads_of := driver_threads |}.
  - by intros [].
  - exact new_driver_run.
  - intros [] obj info l k w Hw Hf Hi Hr Hn.
    + destruct (rtl_enumerate_run obj info k w Hf Hi Hr Hn) as (k' & w' & H1 & E & A). exists k', w'. split; [exact H1|]. split; [|exact A]. by apply (devices_ok_hba l w).
    + destruct Hw as [Hw Hl]. destruct (ahci_enumerate_run obj info k w Hw Hi Hr Hn) as (k' & w' & H1 & A). exists k', w'. split; [exact H1|]. split; [|exact A]. by apply devices_ok_cards.
Defined.

End drivers.

(** ** Kernel::start with the kernel's drivers *)

Definition thread_count (l : list KernelDriver) : Z := foldr (fun d n => driver_threads d + n) 0 l.

Section start.
Context {C H D : Type} {card_reg : Rtl8139Init.Card C} {hba_reg : AhciInit.Hba H} {pio : Serial.PortIO D}.
Context (bar_store : Z -> Z -> Z) (config : Z -> ExtendedConfigSpace).
Context (kernel_gdt_addr tss_addr t_vaddr interrupt_stack interrupt_stack_bottom kernel_init_stack kernel_init_stack_bottom : Z) (handler_addr : Irq.stub -> Z).
Context (process_entrypoint main_start : Z) (raw_context : Context) (raw_cookie : Z) (apic_regs : gmap Z Z) (current : Z).
Context (ArpThreadStart rtl_KthreadEntry ahci_KthreadEntry : Z) (raw_mac : Net.EthernetAddress).
Context (raw_mem : memory) (raw_status : list Z) (raw_capr raw_abar : Z).
Context (issue : Z -> Ahci.Command -> memory -> memory * Ahci.completion) (ready : Z -> option Z) (port : Z -> Ahci.HBA_PORT).
Context (fuel : nat) (isr : nat -> Z).
Context (card_view : C -> Rtl8139Init.register -> Z -> Z) (polls : nat) (hba_view : H -> Z -> Z) (spins : nat).
Local Abbreviation drv := (kernel_drivers process_entrypoint raw_context raw_cookie ArpThreadStart rtl_KthreadEntry ahci_KthreadEntry raw_mac raw_mem raw_status raw_capr raw_abar
  issue ready port fuel isr).

(** C5: [Kernel::start] from its first statement to its last, with the kernel's own
    drivers; only the devices are assumed to behave.  From the state the boot
    loader leaves, with tables of the firmware that name an I/O interrupt
    controller, network cards that have their registers in memory and at most one
    disk controller, it initialises the core, registers the drivers, routes the
    interrupts and enters process 1 in [process_entrypoint] on its kernel stack, in
    its address space and with interrupts enabled.  On the way, the three driver
    objects are constructed, and the driver of every function found on the bus is
    asked to enumerate it, in order, with the function's address and regions; all
    of them accept and are the active drivers, in that order.  There are then
    exactly process 1, two threads for each network card and one for the disk
    controller.  The system call, the timer, the eight PCI interrupts and the serial
    port have exactly one handler each and no other interrupt has one; the interrupt
    table is in memory that stays allocated.  The [main_start] of process 1
    creates one more process, copies the program to its place and enters it in
    user mode at its entry point, on top of the user stack. *)
Theorem kernel_start_enters kphy ksize mds xsdt l flags es n (s : @Full World D) no_handler :
  card_laws card_view polls -> hba_laws hba_view spins -> (polls < fuel)%nat -> (spins < fuel)%nat ->
  uint 64 kernel_gdt_addr -> uint 64 tss_addr -> uint 64 interrupt_stack_bottom -> uint 32 current ->
  let groups := segments (MmInit.bytes (Start.mm (system s))) l n in
  boot_state t_vaddr (system s) kphy ksize mds -> devices_ok issue port hba_view (devices_found bar_store config groups) (world s) ->
  acpi_state (MmInit.bytes (Start.mm (system s))) (ioapic s) xsdt l flags es n ->
  Forall (fun g => 0 <= bus_end g - bus_start g < 256) groups ->
  (forall g x d, g ∈ groups -> x ∈ functions_of g -> driver_at bar_store config (fun _ _ => true) driver_kinds (base g) x = Some d ->
     fits_driver d (info_at bar_store config (base g) x)) ->
  2 + thread_count (devices_found bar_store config groups) < MAX_PROCESS ->
  exists s' p, Kernel_start (H := drv) bar_store config kernel_gdt_addr tss_addr t_vaddr interrupt_stack interrupt_stack_bottom kernel_init_stack kernel_init_stack_bottom
      handler_addr process_entrypoint main_start raw_context raw_cookie apic_regs current fuel kphy ksize xsdt mds s = Ret (p, s') /\
    started_ok (drv := drv) bar_store config kernel_gdt_addr t_vaddr handler_addr process_entrypoint main_start raw_context raw_cookie
      fuel kphy groups flags (thread_count (devices_found bar_store config groups)) no_handler s s' p.
Proof using Type.
  intros Hcard Hhba Hpolls Hspins Hgdt Htss Hstack Hcur groups Hboot Hdev Hacpi Hbuses Hinfo Hroom.
  pose (laws := kernel_laws process_entrypoint raw_context raw_cookie ArpThreadStart rtl_KthreadEntry ahci_KthreadEntry raw_mac raw_mem raw_status raw_capr raw_abar
    issue ready port fuel isr card_view polls Hcard hba_view spins Hhba Hpolls Hspins).
  assert (devices_fit (laws := laws) bar_store config groups) as Hfit by (split; [exact Hbuses|exact Hinfo|exact Hroom]).
  exact (kernel_start_run (laws := laws)
    bar_store config kernel_gdt_addr tss_addr t_vaddr interrupt_stack interrupt_stack_bottom kernel_init_stack kernel_init_stack_bottom handler_addr
    process_entrypoint main_start raw_context raw_cookie apic_regs current Hgdt Htss Hstack Hcur fuel kphy ksize mds xsdt l flags es n s no_handler
    Hboot Hdev Hacpi Hfit).
Qed.

End start.

(** ** A machine with a network card and a disk controller *)

Definition pc_config (a : Z) : ExtendedConfigSpace :=
  if a =? 0xb0018000 then mkConfig 0x10ec 0x8139 [0xc001; 0xfeb91000; 0; 0; 0; 0]
  else if a =? 0xb00f8000 then mkConfig 0x8086 0x2918 [0; 0; 0; 0; 0; 0]
  else if a =? 0xb00fa000 then mkConfig 0x8086 0x2922 [0; 0; 0; 0; 0xc081; 0xfeb92000]
  else mkConfig 0xffff 0xffff [].
Definition pc_world : @World reg_card (Z -> Z) := mkWorld ex_card 0x407 0 None ex_file (fun _ => 0) ∅.
Definition pc_drivers : PciDrivers World :=
  @kernel_drivers reg_card (Z -> Z) _ _ ex_entry zero_context 0 0x5000 0x6000 0x7000 (replicate 6 0xcc) (fun _ => 0) [] 0 0 ex_issue (fun _ => Some 0) ex_port 4 (fun _ => 0).
Definition pc_mm : MmInit.MM := MmInit.mkMM reset_cpu (fun a => default 0 (ex_boot_words !! a)) ex_tables ∅ 0 SmallVec.new None 0.
Definition pc_start : @Full World Line :=
  mkFull (Start.mkSystem pc_mm ex_kernel SmallVec.new 0 ∅ ∅ 0 (Lapic.mkApic 0 ∅ 0)) pc_world ex_ioapic false 0 (mkBus [] []) ∅ 0.

Lemma pc_found : devices_found (ex_store 8) pc_config (segments ex_tables [0x2000; 0x3000] 1) = [RTL8139Driver; AHCIDriver].
Proof. by vm_compute. Qed.
Lemma pc_world_ok : devices_ok ex_issue ex_port file_read (devices_found (ex_store 8) pc_config (segments ex_tables [0x2000; 0x3000] 1)) pc_world.
Proof. rewrite pc_found. split; [|constructor]. split; [by vm_compute|]. split; [by vm_compute|]. exact ex_port_ok. Qed.

(** The functions of the only bus, checked one by one. *)
Definition fits_b (d : KernelDriver) (info : PCIDeviceInfo) : bool :=
  match d with
  | RTL8139Driver => match Rtl8139Init.memory_bar (info_bars info) with Some b => Pci.start b <? IDENTITY_MAP_PHY_END | None => false end
  | AHCIDriver => true
  end.
Lemma fits_b_ok d info : fits_b d info = true -> fits_driver d info.
Proof. destruct d; cbn; [|done]. destruct (Rtl8139Init.memory_bar _) as [b|]; [|done]. intros Hb%Z.ltb_lt. by exists b. Qed.
Definition function_ok (g : ECMGroup) (x : Z * Z * Z) : bool :=
  match driver_at (ex_store 8) pc_config (fun _ _ => true) driver_kinds (base g) x with
  | Some d => fits_b d (info_at (ex_store 8) pc_config (base g) x)
  | None => true
  end.

Lemma pc_fits g x d : g ∈ segments ex_tables [0x2000; 0x3000] 1 -> x ∈ functions_of g ->
  driver_at (ex_store 8) pc_config (fun _ _ => true) driver_kinds (base g) x = Some d -> fits_driver d (info_at (ex_store 8) pc_config (base g) x).
Proof.
  assert (segments ex_tables [0x2000; 0x3000] 1 = [mkGroup 0xb0000000 0 0 1]) as -> by (by vm_compute).
  intros ->%list_elem_of_singleton Hx Hd. apply fits_b_ok.
  assert (forallb (function_ok (mkGroup 0xb0000000 0 0 1)) (functions_of (mkGroup 0xb0000000 0 0 1)) = true) as Hall by (by vm_compute).
  rewrite forallb_forall in Hall. specialize (Hall x ltac:(by apply list_elem_of_In)). unfold function_ok in Hall. by rewrite Hd in Hall.
Qed.

Lemma pc_buses : Forall (fun g => 0 <= bus_end g - bus_start g < 256) (segments ex_tables [0x2000; 0x3000] 1).
Proof. assert (segments ex_tables [0x2000; 0x3000] 1 = [mkGroup 0xb0000000 0 0 1]) as -> by (by vm_compute). apply Forall_singleton. cbn. lia. Qed.
Lemma pc_threads : 2 + thread_count (devices_found (ex_store 8) pc_config (segments ex_tables [0x2000; 0x3000] 1)) = 5.
Proof. by rewrite pc_found. Qed.
Lemma pc_room : 2 + thread_count (devices_found (ex_store 8) pc_config (segments ex_tables [0x2000; 0x3000] 1)) < MAX_PROCESS.
Proof. rewrite pc_threads. by vm_compute. Qed.

Lemma pc_acpi : acpi_state ex_tables ex_ioapic 0x1000 [0x2000; 0x3000] 1 ex_entries 1.
Proof.
  assert (last_table ex_tables Acpi.ACPI_TABLE_SIGNATURE_APIC [0x2000; 0x3000] 0 = KERNEL_START + 0x2000) as Ea by (by vm_compute).
  assert (last_table ex_tables Acpi.ACPI_TABLE_SIGNATURE_PCIE_CONFIG [0x2000; 0x3000] 0 = KERNEL_START + 0x3000) as Ep by (by vm_compute).
  split; rewrite ?Ea, ?Ep; [exact ex_xsdt|by vm_compute|exact ex_madt|by vm_compute|by vm_compute|by vm_compute|by vm_compute|lia|by vm_compute].
Qed.

Lemma pc_boot_state : boot_state ex_vaddr (system pc_start) ex_kphy 0x4000000 ex_kernel_map.
Proof.
  split; [exact reset_cpu_wf| |by vm_compute|exact ex_placed|by vm_compute|by split| |by vm_compute|by eexists|by vm_compute].
  - apply tables_readable_b_ok. by vm_compute.
  - repeat (constructor; [intros E; vm_compute; first [reflexivity|discriminate E]|]). constructor.
Qed.

Lemma kernel_start_enters_witness :
  exists s' p, Kernel_start (H := pc_drivers) (ex_store 8) pc_config 0xffff800000123000 0xffff800000125000 ex_vaddr 0xffff800000120000 0xffff80000012ff80 0xffff800000110000 0xffff800000117f80
      Irq.ex_addr ex_entry ex_main zero_context 0 ∅ 1000 4 ex_kphy 0x4000000 0x1000 ex_kernel_map pc_start = Ret (p, s') /\
    Irq.registered (widen (W := World) (D := Line) ex_no_handler) (handlers s') 0x50 = [pci_handler (H := pc_drivers)] /\ pic_masked s' = true /\
    (fst <$> active_drivers_ (bus s')) = [RTL8139Driver; AHCIDriver] /\
    next_pid (Start.kern (system s')) = 5 /\ processes (Start.kern (system s')) !! 1 = Some p.
Proof.
  destruct (kernel_start_enters (ex_store 8) pc_config 0xffff800000123000 0xffff800000125000 ex_vaddr 0xffff800000120000 0xffff80000012ff80 0xffff800000110000
    0xffff800000117f80 Irq.ex_addr ex_entry ex_main zero_context 0 ∅ 1000 0x5000 0x6000 0x7000 (replicate 6 0xcc) (fun _ => 0) [] 0 0 ex_issue (fun _ => Some 0) ex_port 4 (fun _ => 0)
    reg_view 3 file_read 0 ex_kphy 0x4000000 ex_kernel_map 0x1000 [0x2000; 0x3000] 1 ex_entries 1 pc_start ex_no_handler
    reg_card_laws file_laws ltac:(lia) ltac:(lia) ltac:(by vm_compute) ltac:(by vm_compute) ltac:(by vm_compute) ltac:(by vm_compute)
    pc_boot_state pc_world_ok pc_acpi)
    as (s' & p & H1 & _ & _ & _ & _ & _ & _ & _ & _ & H2 & _ & H3 & (k0 & _ & r & a1 & a2 & _ & _ & _ & Hb & _) & _ & _ & H4 & _ & H5 & _).
  - exact pc_buses.
  - exact pc_fits.
  - exact pc_room.
  - exists s', p. split; [exact H1|]. split; [exact (H2 0x50)|]. split; [exact H3|]. split; [|split; [refine (eq_trans H4 _); exact pc_threads|exact H5]].
    rewrite Hb. cbn [active_drivers_]. rewrite <- list_fmap_compose. refine (eq_trans _ pc_found). symmetry. apply (devices_found_calls (ex_store 8) pc_config _ r a1 a2).
Defined.

End KernelDrivers.
