(* ===== verification/Unwind.v ===== *)
(** * common/unwind.cpp and Kernel::stack_dump: walking the frames of a stack *)
From S2P Require Import Prelude CpuDefs LibString Process Elf.

Module Unwind.
Import LibString Elf.

Record Unwind := mkUnwind { rbp : Z; valid_stacks : list (Z * Z); kthread_stack_range : Z * Z }.

(** [start <= rbp && rbp + 16 <= end], in 64 bits. *)
Definition in_stack (rbp : Z) (r : Z * Z) : bool := (fst r <=? rbp) && (wrap64 (rbp + 16) <=? snd r).
Definition ValidRbp (u : Unwind) (rbp : Z) : bool := in_stack rbp (kthread_stack_range u) || existsb (in_stack rbp) (valid_stacks u).

(** [Iterate]: [callback] gets the saved frame pointer and the return address and
    a state of its own, and says whether to go on.  A chain of frames that never
    leaves the stacks is followed for ever. *)
Fixpoint iterate {St} (fuel : nat) (u : Unwind) (m : memory) (callback : Z -> Z -> St -> bool * St) (rbp : Z) (st : St) : outcome St :=
  match fuel with
  | O => OutOfFuel
  | S fuel =>
      if negb (ValidRbp u rbp) then Ret st
      else
        let prev_rbp := le_read 8 m rbp in
        let ret_addr := le_read 8 m (rbp + 8) in
        let '(go_on, st) := callback prev_rbp ret_addr st in
        if negb go_on then Ret st else iterate fuel u m callback prev_rbp st
  end.
Definition Iterate {St} (fuel : nat) (u : Unwind) (m : memory) (callback : Z -> Z -> St -> bool * St) (st : St) : outcome St :=
  iterate fuel u m callback (rbp u) st.

(** [Kernel::stack_dump]: the lines printed, each a return address and a saved
    frame pointer. *)
Definition stack_dump (fuel : nat) (m : memory) (stacks : list (Z * Z)) (kstack : Z * Z) (rbp : Z) : outcome (list (Z * Z)) :=
  Iterate fuel (mkUnwind rbp stacks kstack) m (fun rbp ret_addr out => (true, out ++ [(ret_addr, rbp)])) [].

(** ** What is printed *)

(** A chain of frames: a frame at [rbp] holds the next frame pointer and a return
    address; the chain ends with a pointer outside the stacks. *)
Inductive frames (valid : Z -> Prop) (m : memory) : Z -> list (Z * Z) -> Prop :=
  | frames_end rbp : ~ valid rbp -> frames valid m rbp []
  | frames_next rbp prev ret l :
      valid rbp -> le_read 8 m rbp = prev -> le_read 8 m (rbp + 8) = ret ->
      frames valid m prev l -> frames valid m rbp ((ret, prev) :: l).

(** The 16 bytes of a frame lie in one of the stacks. *)
Definition on_stack (stacks : list (Z * Z)) (rbp : Z) : Prop := exists r, r ∈ stacks /\ fst r <= rbp /\ rbp + 16 <= snd r.

Lemma in_stack_iff rbp r : 0 <= rbp -> rbp + 16 < 2 ^ 64 -> in_stack rbp r = true <-> fst r <= rbp /\ rbp + 16 <= snd r.
Proof. intros H1 H2. unfold in_stack. rewrite wrap_small by (unfold uint; lia). rewrite andb_true_iff, !Z.leb_le. done. Qed.

Lemma ValidRbp_iff b stacks k rbp : 0 <= rbp -> rbp + 16 < 2 ^ 64 -> ValidRbp (mkUnwind b stacks k) rbp = true <-> on_stack (k :: stacks) rbp.
Proof.
  intros H1 H2. unfold ValidRbp, on_stack. cbn [kthread_stack_range valid_stacks]. rewrite orb_true_iff, existsb_exists. split.
  - intros [E|(r & Hr & E)]; apply in_stack_iff in E; try done.
    + exists k. split; [left|done].
    + exists r. split; [right; by apply list_elem_of_In|done].
  - intros (r & [->|Hr]%elem_of_cons & E).
    + left. by apply in_stack_iff.
    + right. exists r. split; [by apply list_elem_of_In|by apply in_stack_iff].
Qed.

(** Frames are passed to a callback that always goes on, innermost first. *)
Lemma iterate_frames {St} b stacks k m rbp l fuel (f : Z -> Z -> St -> St) st :
  frames (on_stack (k :: stacks)) m rbp l -> 0 <= rbp < 2 ^ 64 - 16 -> Forall (fun x => snd x < 2 ^ 64 - 16) l -> (forall x, 0 <= m x) -> (length l < fuel)%nat ->
  iterate fuel (mkUnwind b stacks k) m (fun rbp ret_addr st => (true, f rbp ret_addr st)) rbp st = Ret (foldl (fun st x => f (snd x) (fst x) st) st l).
Proof.
  intros H. revert fuel st. induction H as [rbp Hv|rbp prev ret l Hv Ep Er Hfr IH]; intros fuel st Hr Hl Hm Hf; (destruct fuel as [|fuel]; [cbn in Hf; lia|]); cbn [iterate].
  - destruct (ValidRbp _ rbp) eqn:E; [|done]. exfalso. apply Hv. eapply ValidRbp_iff; [lia|lia|exact E].
  - rewrite (proj2 (ValidRbp_iff b stacks k rbp ltac:(lia) ltac:(lia)) Hv). cbn [negb]. rewrite Ep, Er.
    apply Forall_cons in Hl as [Hp Hl]. cbn [snd] in Hp. rewrite IH; [done| |done|done|cbn in Hf; lia].
    split; [|lia]. rewrite <- Ep. clear -Hm. generalize 8%nat as n. intros n. revert rbp. induction n as [|n IH]; intros rbp; [done|]. cbn [le_read].
    specialize (IH (rbp + 1)). pose proof (Hm (wrap64 rbp)). lia.
Qed.

Lemma foldl_snoc (l out : list (Z * Z)) : foldl (fun out x => out ++ [(fst x, snd x)]) out l = out ++ l.
Proof. revert out. induction l as [|[x y] l IH]; intros out; cbn; [by rewrite app_nil_r|]. by rewrite IH, <- app_assoc. Qed.

(** The stack dump prints the return address and the saved frame pointer of
    every frame, innermost first, and stops at the first frame pointer that is not
    inside one of the stacks; only a chain of frames that never leaves the stacks
    would keep it going. *)
Theorem stack_dump_frames m stacks kstack rbp l fuel :
  frames (on_stack (kstack :: stacks)) m rbp l -> 0 <= rbp < 2 ^ 64 - 16 -> Forall (fun x => snd x < 2 ^ 64 - 16) l -> (forall x, 0 <= m x) -> (length l < fuel)%nat ->
  stack_dump fuel m stacks kstack rbp = Ret l.
Proof.
  intros. unfold stack_dump, Iterate. cbn [Unwind.rbp].
  rewrite (iterate_frames rbp stacks kstack m rbp l fuel (fun rbp ret_addr out => out ++ [(ret_addr, rbp)])) by done.
  by rewrite foldl_snoc.
Qed.

(** The check wraps around: a frame pointer in the last 16 bytes of the address
    space passes for any stack, and the frame is read there. *)
Theorem valid_rbp_wraps u rbp :
  2 ^ 64 - 16 <= rbp < 2 ^ 64 -> 16 <= snd (kthread_stack_range u) -> fst (kthread_stack_range u) <= rbp -> ValidRbp u rbp = true.
Proof.
  intros H1 H2 H3. unfold ValidRbp, in_stack. rewrite (proj2 (Z.leb_le _ _) H3).
  assert (wrap64 (rbp + 16) = rbp + 16 - 2 ^ 64) as -> by (unfold wrap; dlia). by rewrite (proj2 (Z.leb_le _ _)) by lia.
Qed.

(** ** Concrete runs *)

(** Two frames on a stack of 64 bytes. *)
Definition ex_stack : memory := fun a => if (0x1000 <=? a) && (a <? 0x1020) then nth (Z.to_nat (a - 0x1000)) (le_bytes 8 0x1010 ++ le_bytes 8 0x2222 ++ le_bytes 8 0 ++ le_bytes 8 0x3333) 0 else 0.

Lemma ex_stack_bytes x : 0 <= ex_stack x.
Proof.
  unfold ex_stack. destruct (_ && _); [|lia].
  match goal with |- _ <= nth ?i ?l _ => assert (Forall (fun b => 0 <= b) l) as Hf by (repeat constructor; discriminate);
    destruct (nth_in_or_default i l 0) as [Hin| ->]; [|lia]; rewrite Forall_forall in Hf; apply Hf; by apply list_elem_of_In end.
Qed.

Lemma stack_dump_frames_witness : stack_dump 3 ex_stack [] (0x1000, 0x1040) 0x1000 = Ret [(0x2222, 0x1010); (0x3333, 0)].
Proof.
  apply stack_dump_frames.
  - apply frames_next; [exists (0x1000, 0x1040); split; [left|cbn; lia]|by vm_compute|by vm_compute|].
    apply frames_next; [exists (0x1000, 0x1040); split; [left|cbn; lia]|by vm_compute|by vm_compute|].
    apply frames_end. intros (r & [->|Hr]%elem_of_cons & H1 & H2); [cbn in H1; lia|by apply elem_of_nil in Hr].
  - lia.
  - repeat (apply Forall_cons; split; [cbn; lia|]). by apply Forall_nil.
  - exact ex_stack_bytes.
  - cbn. lia.
Defined.

End Unwind.
