(* ===== verification/Debug.v ===== *)
(** * What the kernel reports before it stops

    debug.cpp, Kernel::panic and Kernel::stack_dump of kernel.cpp, the report of an
    unhandled interrupt of irq.cpp, and the run-time functions of
    cxx/placeholder.cpp, as output on the serial port.  The registers that the
    compiler is free to use, and those that no other part of the kernel reads, are
    the parameter [reg].  [stop] is what runs after the report, which is [halt]. *)
From S2P Require Import Prelude LibUtils CpuDefs LibString SmallVec Paging Process ProcessProofs ProcessThms Elf Irq Cpu Serial SerialThms Unwind.

Module Debug.
Import LibString Serial Process.

(** Literals are bytes. *)
Lemma lit_ok s : Forall (fun b => 0 <= b < 256) (lit s).
Proof.
  unfold lit. apply Forall_fmap, Forall_true. intros a. cbn. pose proof (Ascii.N_ascii_bounded a). lia.
Qed.
Lemma lits_ok s l : Forall (fun b => 0 <= b < 256) l -> Forall (fun b => 0 <= b < 256) (lit s ++ l).
Proof. intros H. apply Forall_app. split; [apply lit_ok|done]. Qed.

Lemma field_ok l n v : 0 <= snd (field l n) <= 8 -> 0 <= read_field l n v < 2 ^ 64.
Proof.
  intros Hw. unfold read_field, get_bits. rewrite Z.land_ones by lia.
  assert (2 ^ snd (field l n) <= 2 ^ 8) by (apply Z.pow_le_mono_r; lia). pose proof (Z.mod_pos_bound (Z.shiftr v (fst (field l n))) (2 ^ snd (field l n)) ltac:(lia)). lia.
Qed.

(** A literal holds no zero byte, so all of it is printed. *)
Definition printable (l : list Z) : bool := forallb (fun b => negb (b =? 0)) l.
Lemma chars_printable l : printable l = true -> chars l = l.
Proof.
  induction l as [|b l IH]; [done|]. unfold printable. cbn [forallb chars]. intros [Hb Hl]%andb_true_iff.
  destruct (b =? 0); [done|]. f_equal. by apply IH.
Qed.

Section report.
Context {D : Type} {ports : PortIO D}.
(** Bound of the waits for the transmitter, and of the frames on a stack. *)
Context (fuel depth : nat) (reg : string -> Z).

(** [serial_port_] and [stacks_] of the kernel object. *)
Record Dbg := mkDbg { cpu : Cpu.Cpu; serial_port_ : @SerialPort D; bytes : memory; kern : Kernel; stacks_ : list (Z * Z) }.
Abbreviation M := (ST Dbg).

(** [Kernel::sp() << ... << ...] *)
Definition say (l : list item) : M unit := fun s =>
  match print fuel l (serial_port_ s) with
  | Ret (_, p) => Ret (tt, mkDbg (cpu s) p (bytes s) (kern s) (stacks_ s))
  | Panic m => Panic m | Halt => Halt | Fault => Fault | OutOfFuel => OutOfFuel
  end.
Definition on_cpu {A} (c : ST Cpu.Cpu A) : M A := fun s =>
  match c (cpu s) with
  | Ret (a, x) => Ret (a, mkDbg x (serial_port_ s) (bytes s) (kern s) (stacks_ s))
  | Panic m => Panic m | Halt => Halt | Fault => Fault | OutOfFuel => OutOfFuel
  end.

Definition newline : item := Str [10].

(** ** debug.cpp *)

Definition PRINT_REG (name : string) (v : Z) : M unit := say [Str (lit name ++ lit " = 0x"); Radix Hex; Int v; newline].

Definition print_segment_descriptor (selector gdt : Z) : M unit :=
  m ← gets bytes;
  let desc := Elf.le_read 8 m (gdt + Z.land selector 0xfff8) in
  say [Str (lit "Segment descriptor 0x"); Radix Hex; Int selector; Str (lit " ")];;
  say [Str (lit " dpl "); Radix Hex; Int (read_field SegmentDescriptor "_dpl" desc); Str (lit " ")];;
  say [Str (lit "long_mode "); Radix Hex; Int (read_field SegmentDescriptor "_long_mode" desc); Str (lit " ")];;
  say [Str (lit "default_operand_size "); Radix Hex; Int (read_field SegmentDescriptor "_default_operand_size" desc); newline].

(** The loop over the interrupt descriptors at the end has no effect. *)
Definition dump_all : M unit :=
  c ← gets cpu;
  PRINT_REG "cs" (Cpu.CS c);; PRINT_REG "ds" (Cpu.DS c);; PRINT_REG "es" (Cpu.ES c);;
  PRINT_REG "fs" (Cpu.FS c);; PRINT_REG "gs" (Cpu.GS c);; PRINT_REG "ss" (Cpu.SS c);;
  PRINT_REG "rax" (reg "rax");; PRINT_REG "rcx" (reg "rcx");; PRINT_REG "rdx" (reg "rdx");; PRINT_REG "rbx" (reg "rbx");;
  PRINT_REG "rsi" (reg "rsi");; PRINT_REG "rdi" (reg "rdi");; PRINT_REG "rbp" (Cpu.RBP c);; PRINT_REG "rsp" (reg "rsp");;
  say [Str (lit "rflags = 0x"); Radix Hex; Int (reg "rflags"); newline];;
  PRINT_REG "cr0" (reg "cr0");; PRINT_REG "cr3" (Cpu.CR3 c);; PRINT_REG "cr4" (reg "cr4");;
  '(gdt_addr, _) ← on_cpu Cpu.get_gdt;
  say [Str (lit "GDT address = 0x"); Radix Hex; Int gdt_addr; Chr 10];;
  print_segment_descriptor (Cpu.CS c) gdt_addr;;
  '(idt_addr, idt_size) ← on_cpu Cpu.get_idt;
  say [Str (lit "IDT address = 0x"); Radix Hex; Int idt_addr; Str (lit " limit 0x"); Int idt_size; Chr 10].

Definition debug_init : M unit := dump_all.

(** ** kernel.cpp *)

(** [stop] stands for [halt()], which does not return: what has been done when it is
    reached is the state it gets.  The kernel's is [halt] of the prelude. *)

(** Everything [Kernel::panic] does before it halts. *)
Definition panic_report (msg : list Z) : M unit :=
  say [Str (lit "Kernel panic: '"); Str msg; Str (lit "'" ++ [10])];;
  dump_all.
Definition Kernel_panic (stop : M unit) (msg : list Z) : M unit := panic_report msg;; stop.

(** [processes[current_pid]] *)
Definition current : M Process := fun s =>
  match (pid ← gets current_pid; process_at pid) (kern s) with
  | Ret (p, _) => Ret (p, s)
  | Panic m => Panic m | Halt => Halt | Fault => Fault | OutOfFuel => OutOfFuel
  end.

(** The first byte of the kernel stack of the process at [p]. *)
Definition kernel_stack (p : Z) : Z := wrap64 (p + (8 + 8 + sizeof_kstring + 8 + 8 + 8 + 8)).

Definition frame_items (rbp ret_addr : Z) : list item :=
  [Str (lit "  0x"); Int ret_addr; Str (lit " rbp 0x"); Int rbp; newline].

(** The callback prints a frame and goes on; the radix is the one that was set
    last. *)
Definition dump_frames (rbp : Z) (kstack : Z * Z) : M unit := fun s =>
  match Unwind.Iterate depth (Unwind.mkUnwind rbp (stacks_ s) kstack) (bytes s)
          (fun rbp ret_addr (c : M unit) => (true, c;; say (frame_items rbp ret_addr))) (mret tt) with
  | Ret c => c s
  | Panic m => Panic m | Halt => Halt | Fault => Fault | OutOfFuel => OutOfFuel
  end.
Definition stack_dump (rbp : Z) : M unit :=
  p ← current;
  say [Str (lit "Stack dump:" ++ [10])];;
  dump_frames rbp (kernel_stack (this p), kernel_stack_bottom (this p)).

(** ** irq.cpp: an interrupt without a handler *)

Definition IRQ_INVALID_OPCODE : Z := 6.
Definition IRQ_PAGE_FAULT : Z := 14.

Definition unhandled_report (irq_num error_code : Z) : M unit :=
  p ← current;
  pid ← gets (fun s => current_pid (kern s));
  let c := context p in
  say [Str (lit "unhandled interrupt: "); Str (lit "IRQ = 0x"); Radix Hex; Int irq_num; Str (lit " error = 0x"); Int error_code;
       Str (lit " pid = 0x"); Int pid; Str (lit "("); Str (lit (name p)); Str (lit ")"); newline;
       Str (lit "rip = 0x"); Int (rip c); Str (lit " rsp = 0x"); Int (rsp c); newline];;
  (if irq_num =? IRQ_PAGE_FAULT then
     cr2 ← on_cpu Cpu.get_cr2;
     say [Str (lit "page fault cr2 = "); Radix Hex; Int cr2; newline]
   else if irq_num =? IRQ_INVALID_OPCODE then say [Str (lit "Invalid Opcode" ++ [10])]
   else mret tt);;
  if Paging.is_kernel (rbp c) then stack_dump (rbp c)
  else say [Str (lit "exception happens in userspace programs" ++ [10])].
Definition unhandled_interrupt (stop : M unit) (irq_num error_code : Z) : M unit := unhandled_report irq_num error_code;; stop.

(** ** cxx/placeholder.cpp *)

Inductive runtime_function := throw_bad_function_call | throw_length_error | throw_logic_error | cxa_pure_virtual | abort.
Definition runtime_name (f : runtime_function) : string :=
  match f with
  | throw_bad_function_call => "__throw_bad_function_call"
  | throw_length_error => "__throw_length_error"
  | throw_logic_error => "__throw_logic_error"
  | cxa_pure_virtual => "__cxa_pure_virtual"
  | abort => "abort"
  end.
Definition runtime_failure (stop : M unit) (f : runtime_function) : M unit :=
  rbp ← on_cpu Cpu.get_rbp;
  stack_dump rbp;;
  Kernel_panic stop (lit (runtime_name f)).

(** ** The first lines of Kernel::start *)

(** A [SerialPort] object on the stack, with its own radix. *)
Definition com1 : Z := 0x3f8.
Definition local_port (r : IntRadix) (c : ST (@SerialPort D) unit) : M IntRadix := fun s =>
  match c (mkSP (dev (serial_port_ s)) com1 r 0) with
  | Ret (_, p) =>
      let q := serial_port_ s in
      Ret (int_radix_ p, mkDbg (cpu s) (mkSP (dev p) (port q) (int_radix_ q) (eois q)) (bytes s) (kern s) (stacks_ s))
  | Panic m => Panic m | Halt => Halt | Fault => Fault | OutOfFuel => OutOfFuel
  end.

(** The initialisation functions of kernel.cpp. *)
Definition GlobalConstructorTest : M unit := say [Str (lit "    Testing global C++ initialization" ++ [10])].
Definition test_c_init_func : M unit := say [Str (lit "    Testing GCC's constructor attribute initialization" ++ [10])].

(** [_INIT_ARRAY_START_] to [_INIT_ARRAY_END_]: addresses and functions. *)
Fixpoint call_initializers (i : Z) (ctors : list (Z * M unit)) (r : IntRadix) : M unit :=
  match ctors with
  | [] => mret tt
  | (addr, ctor) :: ctors =>
      r ← local_port r (print fuel [Str (lit "  before calling ctor "); Int i; Str (lit " at 0x"); Radix Hex; Int addr; newline]);
      ctor;;
      call_initializers (i + 1) ctors r
  end.

(** Up to the call of [debug_init], which follows; [raw] is what fresh memory holds
    for the radix. *)
Definition start_messages (raw : IntRadix) (kernel_physical_start : Z) (ctors : list (Z * M unit)) : M unit :=
  on_cpu Cpu.cli;;
  r ← local_port raw (SerialPort_init;; print fuel [Str (lit "Hello from kernel! " ++ [10])]);
  if negb (kernel_physical_start mod PAGE_SIZE =? 0) then Kernel_panic halt (lit "Kernel start address not page aligned")
  else
    r ← local_port r (print fuel [Str (lit "Calling global initilizers" ++ [10])]);
    call_initializers 0 ctors r;;
    debug_init.

(** ** Output *)

Context (sent : D -> list Z) (base : Z) (polls : nat) (Hu : uart_laws sent base polls) (Hf : (polls < fuel)%nat).

(** [s'] is [s] after the items [l] were printed. *)
Definition told (s s' : Dbg) (l : list item) : Prop :=
  cpu s' = cpu s /\ bytes s' = bytes s /\ kern s' = kern s /\ stacks_ s' = stacks_ s /\
  sent (dev (serial_port_ s')) = sent (dev (serial_port_ s)) ++ render_all (int_radix_ (serial_port_ s)) l /\
  int_radix_ (serial_port_ s') = radix_after (int_radix_ (serial_port_ s)) l /\ port (serial_port_ s') = base.

Lemma told_refl s : port (serial_port_ s) = base -> told s s [].
Proof using Type. intros Hp. unfold told. cbn [render_all radix_after]. by rewrite app_nil_r. Qed.
Lemma told_trans s1 s2 s3 l l' : told s1 s2 l -> told s2 s3 l' -> told s1 s3 (l ++ l').
Proof using Type.
  intros (A1 & A2 & A3 & A4 & A5 & A6 & A7) (B1 & B2 & B3 & B4 & B5 & B6 & B7).
  unfold told. rewrite B5, A5, render_all_app, radix_after_app, <- app_assoc, <- A6. split_and!; congruence.
Qed.

Lemma say_run l s : port (serial_port_ s) = base -> Forall item_ok l -> exists s', say l s = Ret (tt, s') /\ told s s' l.
Proof using Hu Hf.
  intros Hp Hl. destruct (print_run sent base polls Hu fuel l (serial_port_ s) Hp Hf Hl) as (p & H1 & H2 & H3 & H4 & H5).
  unfold say. rewrite H1. eexists. split; [reflexivity|]. unfold told. cbn. done.
Qed.

(** Running a program that prints, one message at a time: [L] is printed in all
    since [s0], [l] so far. *)
Definition prints (s0 s : Dbg) (l : list item) (c : M unit) (L : list item) : Prop :=
  told s0 s l -> exists s', c s = Ret (tt, s') /\ told s0 s' L.

Lemma prints_say s0 s l x L (k : M unit) : Forall item_ok x -> (forall s1, prints s0 s1 (l ++ x) k L) -> prints s0 s l (say x;; k) L.
Proof using Hu Hf.
  intros Hx Hk Ht. destruct (say_run x s) as (s1 & E & T1); [apply Ht|done|].
  destruct (Hk s1 (told_trans _ _ _ _ _ Ht T1)) as (s' & E' & T'). exists s'. split; [by step_with E|done].
Qed.
Lemma prints_last s0 s l x L : Forall item_ok x -> l ++ x = L -> prints s0 s l (say x) L.
Proof using Hu Hf.
  intros Hx <- Ht. destruct (say_run x s) as (s1 & E & T1); [apply Ht|done|]. exists s1. split; [done|]. by eapply told_trans.
Qed.
(** Reading the processor, whose state is that of [s0]. *)
Lemma prints_cpu {A} s0 s l (c : ST Cpu.Cpu A) a (k : A -> M unit) L :
  c (cpu s0) = Ret (a, cpu s0) -> prints s0 s l (k a) L -> prints s0 s l (on_cpu c ≫= k) L.
Proof using Type.
  intros Hc Hk Ht. destruct (Hk Ht) as (s' & E & T). exists s'. split; [|done].
  assert (on_cpu c s = Ret (a, s)) as Ec; [|by step_with Ec]. destruct Ht as (Hcpu & _). unfold on_cpu. rewrite Hcpu, Hc, <- Hcpu. by destruct s.
Qed.
Lemma prints_gets {A} s0 s l (f : Dbg -> A) (k : A -> M unit) L :
  (told s0 s l -> f s = f s0) -> prints s0 s l (k (f s0)) L -> prints s0 s l (gets f ≫= k) L.
Proof using Type. intros Hf' Hk Ht. rewrite <- (Hf' Ht) in Hk. exact (Hk Ht). Qed.
Lemma prints_assoc {A B} s0 s l (c : M A) (k : A -> M B) (h : B -> M unit) L :
  prints s0 s l (c ≫= fun a => k a ≫= h) L -> prints s0 s l ((c ≫= k) ≫= h) L.
Proof using Type. unfold prints. by rewrite bind_assoc. Qed.

(** *** The dump *)

Definition reg_items (name : string) (v : Z) : list item := [Str (lit name ++ lit " = 0x"); Radix Hex; Int v; newline].
Definition reg_values (c : Cpu.Cpu) : list (string * Z) :=
  [("cs", Cpu.CS c); ("ds", Cpu.DS c); ("es", Cpu.ES c); ("fs", Cpu.FS c); ("gs", Cpu.GS c); ("ss", Cpu.SS c);
   ("rax", reg "rax"); ("rcx", reg "rcx"); ("rdx", reg "rdx"); ("rbx", reg "rbx"); ("rsi", reg "rsi"); ("rdi", reg "rdi");
   ("rbp", Cpu.RBP c); ("rsp", reg "rsp"); ("rflags", reg "rflags"); ("cr0", reg "cr0"); ("cr3", Cpu.CR3 c); ("cr4", reg "cr4")]%string.
Definition code_descriptor (c : Cpu.Cpu) (m : memory) : Z := Elf.le_read 8 m (fst (Cpu.GDTR c) + Z.land (Cpu.CS c) 0xfff8).
Definition table_items (c : Cpu.Cpu) (m : memory) : list item :=
  let desc := code_descriptor c m in
  [Str (lit "GDT address = 0x"); Radix Hex; Int (fst (Cpu.GDTR c)); Chr 10;
   Str (lit "Segment descriptor 0x"); Radix Hex; Int (Cpu.CS c); Str (lit " ");
   Str (lit " dpl "); Radix Hex; Int (read_field SegmentDescriptor "_dpl" desc); Str (lit " ");
   Str (lit "long_mode "); Radix Hex; Int (read_field SegmentDescriptor "_long_mode" desc); Str (lit " ");
   Str (lit "default_operand_size "); Radix Hex; Int (read_field SegmentDescriptor "_default_operand_size" desc); newline;
   Str (lit "IDT address = 0x"); Radix Hex; Int (fst (Cpu.IDTR c)); Str (lit " limit 0x"); Int (snd (Cpu.IDTR c)); Chr 10].
Definition dump_items (c : Cpu.Cpu) (m : memory) : list item := (x ← reg_values c; reg_items (fst x) (snd x)) ++ table_items c m.

(** Every register fits in 64 bits. *)
Definition regs_ok (c : Cpu.Cpu) : Prop := Cpu.cpu_wf c /\ forall n, uint 64 (reg n).

#[local] Hint Resolve lit_ok lits_ok : core.
Ltac items := repeat (apply Forall_cons; split); [..|apply Forall_nil]; cbn [item_ok newline];
  try first [exact I|apply lits_ok, lit_ok|apply lit_ok|apply lits_ok, Forall_singleton; done|apply Forall_singleton; done|done].

Lemma dump_all_prints s0 s l : regs_ok (cpu s0) -> prints s0 s l dump_all (l ++ dump_items (cpu s0) (bytes s0)).
Proof using Hu Hf.
  intros [Hw Hreg]. pose proof Hw as [[G1 G2] [I1 I2] _ (_ & C3 & B) (_ & S1 & S2 & S3 & S4 & S5 & S6)].
  unfold dump_all. apply prints_gets; [by intros (? & _)|]. unfold PRINT_REG.
  assert (forall v, uint 16 v -> 0 <= v < 2 ^ 64) as H16 by (unfold uint; clear; lia).
  do 18 (apply prints_say; [items; first [by apply H16|apply Hreg|done]|intros ?]).
  apply (prints_cpu _ _ _ _ (Cpu.GDTR (cpu s0))); [by apply Cpu.get_gdt_run|]. destruct (Cpu.GDTR (cpu s0)) as [gdt lim] eqn:Eg.
  apply prints_say; [items|intros ?]. unfold print_segment_descriptor. apply prints_assoc, prints_gets; [by intros (_ & ? & _)|]. cbv zeta.
  do 3 (apply prints_assoc, prints_say; [items; first [by apply H16|apply field_ok; by vm_compute]|intros ?]).
  apply prints_say; [items; apply field_ok; by vm_compute|intros ?].
  apply (prints_cpu _ _ _ _ (Cpu.IDTR (cpu s0))); [by apply Cpu.get_idt_run|]. destruct (Cpu.IDTR (cpu s0)) as [idt ilim] eqn:Ei.
  apply prints_last; [items; by apply H16|].
  unfold dump_items, table_items, code_descriptor. rewrite Eg, Ei. cbn [fst snd]. rewrite <- !app_assoc. reflexivity.
Qed.

(** *** The stack *)

Lemma prints_seq s0 s l l1 L (c k : M unit) : prints s0 s l c l1 -> (forall s1, prints s0 s1 l1 k L) -> prints s0 s l (c;; k) L.
Proof using Type. intros Hc Hk Ht. destruct (Hc Ht) as (s1 & E1 & T1). destruct (Hk s1 T1) as (s' & E & T). exists s'. split; [by step_with E1|done]. Qed.

Definition frames_items (fr : list (Z * Z)) : list item := x ← fr; frame_items (snd x) (fst x).

Lemma frames_print fr s0 s l l1 c : Forall (fun x => uint 64 (fst x) /\ uint 64 (snd x)) fr -> prints s0 s l c l1 ->
  prints s0 s l (foldl (fun (c : M unit) x => c;; say (frame_items (snd x) (fst x))) c fr) (l1 ++ frames_items fr).
Proof using Hu Hf.
  intros Hfr. revert c l1. induction Hfr as [|[ret prev] fr [H1 H2] _ IH]; intros c l1 Hc; cbn [foldl].
  - unfold frames_items. cbn. by rewrite app_nil_r.
  - change (frames_items ((ret, prev) :: fr)) with (frame_items prev ret ++ frames_items fr). rewrite app_assoc. apply IH.
    eapply prints_seq; [exact Hc|]. intros s1. apply prints_last; [items|done].
Qed.

(** The current process and the frames found from [rbp]. *)
Record stack_of (s : Dbg) (rbp : Z) (p : Process) (fr : list (Z * Z)) : Prop := {
  so_current : 0 <= current_pid (kern s) < MAX_PROCESS;
  so_process : processes (kern s) !! current_pid (kern s) = Some p;
  so_frames : Unwind.frames (Unwind.on_stack ((kernel_stack (this p), kernel_stack_bottom (this p)) :: stacks_ s)) (bytes s) rbp fr;
  so_rbp : 0 <= rbp < 2 ^ 64 - 16;
  so_values : Forall (fun x => uint 64 (fst x) /\ uint 64 (snd x) /\ snd x < 2 ^ 64 - 16) fr;
  so_bytes x : 0 <= bytes s x;
  so_depth : (length fr < depth)%nat
}.

Lemma current_run s0 s l p : 0 <= current_pid (kern s0) < MAX_PROCESS -> processes (kern s0) !! current_pid (kern s0) = Some p -> told s0 s l ->
  current s = Ret (p, s).
Proof using Type.
  intros Hr Hp (_ & _ & Ek & _). unfold current. rewrite Ek.
  assert ((pid ← gets current_pid; process_at pid) (kern s0) = Ret (p, kern s0)) as ->; [|done].
  rewrite bind_ret with (a := current_pid (kern s0)) (s' := kern s0); [|done]. unfold process_at. step_with slot_ok; [|done]. by rewrite Hp.
Qed.

Definition stack_items (fr : list (Z * Z)) : list item := Str (lit "Stack dump:" ++ [10]) :: frames_items fr.

Lemma stack_dump_prints s0 s l rbp p fr : stack_of s0 rbp p fr -> prints s0 s l (stack_dump rbp) (l ++ stack_items fr).
Proof using Hu Hf.
  intros [Hr Hp Hfr Hrbp Hv Hb Hd] Ht. unfold stack_dump. rewrite (bind_ret _ _ _ _ _ (current_run s0 s l p Hr Hp Ht)). revert Ht.
  apply prints_say; [items|]. intros s1 Ht1. change (stack_items fr) with ([Str (lit "Stack dump:" ++ [10])] ++ frames_items fr). rewrite app_assoc.
  unfold dump_frames, Unwind.Iterate. cbn [Unwind.rbp]. pose proof Ht1 as (_ & -> & _ & -> & _).
  rewrite (Unwind.iterate_frames _ _ _ _ _ fr depth (fun rbp ret_addr (c : M unit) => (c;; say (frame_items rbp ret_addr)))); try done.
  2: { eapply Forall_impl; [exact Hv|]. cbn. tauto. }
  revert Ht1. apply frames_print; [eapply Forall_impl; [exact Hv|]; cbn; tauto|]. intros Ht1. by exists s1.
Qed.

(** *** Text *)

Definition reg_line (x : string * Z) : list Z := (lit (fst x) ++ lit " = 0x") ++ digits Hex (snd x) ++ [10].
Definition frame_line (r : IntRadix) (x : Z * Z) : list Z := lit "  0x" ++ digits r (fst x) ++ lit " rbp 0x" ++ digits r (snd x) ++ [10].
Definition table_text (c : Cpu.Cpu) (m : memory) : list Z :=
  let desc := code_descriptor c m in
  lit "GDT address = 0x" ++ digits Hex (fst (Cpu.GDTR c)) ++ [10] ++
  lit "Segment descriptor 0x" ++ digits Hex (Cpu.CS c) ++ lit "  dpl " ++ digits Hex (read_field SegmentDescriptor "_dpl" desc) ++
  lit " long_mode " ++ digits Hex (read_field SegmentDescriptor "_long_mode" desc) ++
  lit " default_operand_size " ++ digits Hex (read_field SegmentDescriptor "_default_operand_size" desc) ++ [10] ++
  lit "IDT address = 0x" ++ digits Hex (fst (Cpu.IDTR c)) ++ lit " limit 0x" ++ digits Hex (snd (Cpu.IDTR c)) ++ [10].
Definition dump_text (c : Cpu.Cpu) (m : memory) : list Z := (x ← reg_values c; reg_line x) ++ table_text c m.

Lemma frames_text r fr l : render_all r (frames_items fr ++ l) = (x ← fr; frame_line r x) ++ render_all r l.
Proof using Type.
  induction fr as [|x fr IH]; [done|]. change (frames_items (x :: fr)) with (frame_items (snd x) (fst x) ++ frames_items fr).
  change ((x ← x :: fr; frame_line r x)) with (frame_line r x ++ (x ← fr; frame_line r x)). rewrite <- app_assoc.
  cbn [frame_items newline app render_all render]. rewrite IH. unfold frame_line. rewrite <- !app_assoc. reflexivity.
Qed.

Lemma regs_text r vs l : Forall (fun x => printable (lit (fst x)) = true) vs -> vs <> [] ->
  render_all r ((x ← vs; reg_items (fst x) (snd x)) ++ l) = (x ← vs; reg_line x) ++ render_all Hex l.
Proof using Type.
  intros Hv Hne. revert r Hne. induction Hv as [|x vs Hx Hv IH]; intros r Hne; [done|].
  change (x ← x :: vs; reg_items (fst x) (snd x)) with (reg_items (fst x) (snd x) ++ (x ← vs; reg_items (fst x) (snd x))).
  change (x ← x :: vs; reg_line x) with (reg_line x ++ (x ← vs; reg_line x)). rewrite <- app_assoc.
  cbn [reg_items newline app render_all render]. unfold reg_line at 1. rewrite chars_printable.
  2: { unfold printable. rewrite forallb_app. apply andb_true_iff. split; [exact Hx|reflexivity]. }
  rewrite <- !app_assoc. do 3 f_equal. cbn [chars Z.eqb app]. f_equal. destruct vs as [|y vs]; [done|]. by apply IH.
Qed.

Lemma dump_items_text r c m : render_all r (dump_items c m) = dump_text c m.
Proof using Type.
  unfold dump_items, dump_text. rewrite regs_text; [|repeat (apply Forall_cons; split; [reflexivity|]); apply Forall_nil|done]. f_equal.
  unfold table_items, table_text. cbv zeta. generalize (code_descriptor c m). intros desc. cbn [render_all render newline].
  reflexivity.
Qed.

(** *** The reports *)

Definition stack_text (r : IntRadix) (fr : list (Z * Z)) : list Z := lit "Stack dump:" ++ [10] ++ (x ← fr; frame_line r x).
Definition panic_text (msg : list Z) (c : Cpu.Cpu) (m : memory) : list Z := lit "Kernel panic: '" ++ chars msg ++ lit "'" ++ [10] ++ dump_text c m.

Lemma panic_report_prints s0 s l msg : regs_ok (cpu s0) -> Forall (fun b => 0 <= b < 256) msg ->
  prints s0 s l (panic_report msg) (l ++ [Str (lit "Kernel panic: '"); Str msg; Str (lit "'" ++ [10])] ++ dump_items (cpu s0) (bytes s0)).
Proof using Hu Hf.
  intros Hreg Hm. unfold panic_report. apply prints_say; [items|]. intros s1. rewrite app_assoc. by apply dump_all_prints.
Qed.

Lemma panic_items_text r msg c m : render_all r ([Str (lit "Kernel panic: '"); Str msg; Str (lit "'" ++ [10])] ++ dump_items c m) = panic_text msg c m.
Proof using Type. unfold panic_text. cbn [app render_all render]. by rewrite dump_items_text. Qed.

(** A run-time function reaches [stop] when all of its report is printed. *)
Lemma runtime_failure_run f s p fr : port (serial_port_ s) = base -> regs_ok (cpu s) -> stack_of s (Cpu.RBP (cpu s)) p fr ->
  exists s', (forall stop, runtime_failure stop f s = stop s') /\ cpu s' = cpu s /\ bytes s' = bytes s /\ kern s' = kern s /\ stacks_ s' = stacks_ s /\
    sent (dev (serial_port_ s')) = sent (dev (serial_port_ s)) ++
      stack_text (int_radix_ (serial_port_ s)) fr ++ panic_text (lit (runtime_name f)) (cpu s) (bytes s).
Proof using Hu Hf.
  intros Hp Hreg Hs. set (P := [Str (lit "Kernel panic: '"); Str (lit (runtime_name f)); Str (lit "'" ++ [10])] ++ dump_items (cpu s) (bytes s)).
  assert (prints s s [] (rbp ← on_cpu Cpu.get_rbp; stack_dump rbp;; panic_report (lit (runtime_name f))) (stack_items fr ++ P)) as H.
  { apply (prints_cpu _ _ _ _ (Cpu.RBP (cpu s))); [done|]. eapply prints_seq; [by apply (stack_dump_prints s s [] _ p fr)|].
    intros s1. apply panic_report_prints; [done|apply lit_ok]. }
  destruct (H (told_refl s Hp)) as (s' & E & H1 & H2 & H3 & H4 & H5 & _). exists s'. split.
  { intros stop. apply bind_inv in E as (rbp & s1 & E1 & E). apply bind_inv in E as ([] & s2 & E2 & E).
    unfold runtime_failure. step_with E1. step_with E2. unfold Kernel_panic. by step_with E. }
  split_and!; try done. rewrite H5. f_equal.
  unfold stack_items. cbn [app render_all render]. rewrite frames_text. unfold P. rewrite panic_items_text. unfold stack_text. by rewrite <- !app_assoc.
Qed.

(** The first lines of the report of an unhandled interrupt. *)
Definition unhandled_items (irq_num error_code pid : Z) (p : Process) : list item :=
  [Str (lit "unhandled interrupt: "); Str (lit "IRQ = 0x"); Radix Hex; Int irq_num; Str (lit " error = 0x"); Int error_code;
   Str (lit " pid = 0x"); Int pid; Str (lit "("); Str (lit (name p)); Str (lit ")"); newline;
   Str (lit "rip = 0x"); Int (rip (context p)); Str (lit " rsp = 0x"); Int (rsp (context p)); newline].
Definition detail_items (irq_num cr2 : Z) : list item :=
  if irq_num =? IRQ_PAGE_FAULT then [Str (lit "page fault cr2 = "); Radix Hex; Int cr2; newline]
  else if irq_num =? IRQ_INVALID_OPCODE then [Str (lit "Invalid Opcode" ++ [10])] else [].
Definition origin_items (p : Process) (fr : list (Z * Z)) : list item :=
  if Paging.is_kernel (rbp (context p)) then stack_items fr else [Str (lit "exception happens in userspace programs" ++ [10])].

Lemma unhandled_report_run irq_num error_code s p fr :
  port (serial_port_ s) = base -> regs_ok (cpu s) -> uint 64 irq_num -> uint 64 error_code ->
  0 <= current_pid (kern s) < MAX_PROCESS -> processes (kern s) !! current_pid (kern s) = Some p ->
  uint 64 (rip (context p)) -> uint 64 (rsp (context p)) ->
  (Paging.is_kernel (rbp (context p)) = true -> stack_of s (rbp (context p)) p fr) ->
  exists s', unhandled_report irq_num error_code s = Ret (tt, s') /\
    told s s' (unhandled_items irq_num error_code (current_pid (kern s)) p ++ detail_items irq_num (Cpu.CR2 (cpu s)) ++ origin_items p fr).
Proof using Hu Hf.
  intros Hp [Hw Hreg] Hi He Hr Hproc Hrip Hrsp Hst. unfold unhandled_report.
  rewrite (bind_ret _ _ _ _ _ (current_run s s [] p Hr Hproc (told_refl s Hp))). generalize (told_refl s Hp).
  match goal with |- ?A -> exists s', ?c s = _ /\ told s s' ?L => change (prints s s [] c L) end.
  apply prints_gets; [done|]. cbv zeta. apply prints_say; [items; unfold uint, MAX_PROCESS in *; clear -Hr; lia|]. intros s1. rewrite app_nil_l.
  eapply (prints_seq _ _ _ (unhandled_items irq_num error_code (current_pid (kern s)) p ++ detail_items irq_num (Cpu.CR2 (cpu s)))).
  - unfold detail_items. destruct (irq_num =? IRQ_PAGE_FAULT).
    { apply (prints_cpu _ _ _ _ (Cpu.CR2 (cpu s))); [done|]. apply prints_last; [items; by apply Hw|done]. }
    destruct (irq_num =? IRQ_INVALID_OPCODE); [apply prints_last; [items|done]|]. intros Ht. exists s1. split; [done|]. by rewrite app_nil_r.
  - intros s2. rewrite app_assoc. unfold origin_items. destruct (Paging.is_kernel (rbp (context p))).
    + by apply (stack_dump_prints s s2 _ _ p fr), Hst.
    + apply prints_last; [items|done].
Qed.

(** *** The first messages *)

(** [s'] is [s] after the bytes [bs] were sent. *)
Definition sends (s s' : Dbg) (bs : list Z) : Prop :=
  cpu s' = cpu s /\ bytes s' = bytes s /\ kern s' = kern s /\ stacks_ s' = stacks_ s /\ port (serial_port_ s') = port (serial_port_ s) /\
  sent (dev (serial_port_ s')) = sent (dev (serial_port_ s)) ++ bs.

Lemma sends_trans s1 s2 s3 l l' : sends s1 s2 l -> sends s2 s3 l' -> sends s1 s3 (l ++ l').
Proof using Type.
  intros (A1 & A2 & A3 & A4 & A5 & A6) (B1 & B2 & B3 & B4 & B5 & B6). unfold sends. rewrite B6, A6, <- app_assoc. split_and!; congruence.
Qed.

Lemma local_print_run r l s : base = com1 -> Forall item_ok l ->
  exists s', local_port r (print fuel l) s = Ret (radix_after r l, s') /\ sends s s' (render_all r l).
Proof using Hu Hf.
  intros Hb Hl. destruct (print_run sent base polls Hu fuel l (mkSP (dev (serial_port_ s)) com1 r 0) (eq_sym Hb) Hf Hl) as (p & H1 & H2 & H3 & H4 & H5).
  unfold local_port. rewrite H1, H5. eexists. split; [reflexivity|]. unfold sends. cbn. done.
Qed.

(** A function of the array and what it sends. *)
Definition ctor_ok (x : Z * M unit) (out : list Z) : Prop :=
  uint 64 (fst x) /\ forall s, port (serial_port_ s) = base -> exists s', snd x s = Ret (tt, s') /\ sends s s' out.

(** The number is in the radix of the port, which is hexadecimal after the first line. *)
Fixpoint initializers_text (r : IntRadix) (i : Z) (ctors : list (Z * M unit)) (outs : list (list Z)) : list Z :=
  match ctors, outs with
  | x :: ctors, out :: outs =>
      lit "  before calling ctor " ++ digits r i ++ lit " at 0x" ++ digits Hex (fst x) ++ [10] ++ out ++ initializers_text Hex (i + 1) ctors outs
  | _, _ => []
  end.

Lemma call_initializers_run ctors outs i r s : base = com1 -> port (serial_port_ s) = base -> Forall2 ctor_ok ctors outs ->
  0 <= i -> i + Z.of_nat (length ctors) < 2 ^ 64 ->
  exists s', call_initializers i ctors r s = Ret (tt, s') /\ sends s s' (initializers_text r i ctors outs).
Proof using Hu Hf.
  intros Hb Hp Hall. revert i r s Hp. induction Hall as [|[a c] out ctors outs [Ha Hc] _ IH]; intros i r s Hp Hi Hlen; cbn [call_initializers initializers_text].
  - exists s. split; [done|]. unfold sends. by rewrite app_nil_r.
  - cbn [length] in Hlen. edestruct (local_print_run r) as (s1 & E1 & T1); [exact Hb| |]; [|step_with E1].
    { items. clear -Hi Hlen. lia. }
    pose proof T1 as (_ & _ & _ & _ & P1 & _). destruct (Hc s1) as (s2 & E2 & T2); [congruence|]. cbn [snd] in E2. step_with E2.
    pose proof T2 as (_ & _ & _ & _ & P2 & _). cbn [radix_after].
    destruct (IH (i + 1) Hex s2) as (s3 & E3 & T3); [congruence|clear -Hi; lia|clear -Hi Hlen; lia|]. exists s3. split; [exact E3|].
    pose proof (sends_trans _ _ _ _ _ (sends_trans _ _ _ _ _ T1 T2) T3) as T. cbn [render_all render newline] in T. rewrite app_nil_r in T.
    rewrite <- !app_assoc in T. exact T.
Qed.

End report.

(** C38: a failure of the C++ run time is reported completely before the machine
    stops.  A pure virtual call, an empty function object, a length or logic error
    and [abort] reach [halt] in a state in which they have printed every frame of the
    current stack, innermost first, then the name of the function, the segment
    registers, [rax] to [rsp], [rflags], [cr0], [cr3] and [cr4] ([r8] to [r15] are not
    printed), the descriptor tables and the descriptor of the code segment, and
    nothing else; nothing but the serial port has changed.  The return addresses
    are printed in the radix that was set last, after a 0x that claims
    hexadecimal. *)
Theorem runtime_failure_reports {D} {ports : PortIO D} fuel depth reg sent base polls f s p fr :
  uart_laws sent base polls -> (polls < fuel)%nat -> port (serial_port_ s) = base -> regs_ok reg (cpu s) -> stack_of depth s (Cpu.RBP (cpu s)) p fr ->
  exists s', (forall stop, runtime_failure fuel depth reg stop f s = stop s') /\
    cpu s' = cpu s /\ bytes s' = bytes s /\ kern s' = kern s /\ stacks_ s' = stacks_ s /\
    sent (dev (serial_port_ s')) = sent (dev (serial_port_ s)) ++
      stack_text (int_radix_ (serial_port_ s)) fr ++ panic_text reg (lit (runtime_name f)) (cpu s) (bytes s).
Proof. intros Hu Hf. by apply (runtime_failure_run fuel depth reg sent base polls Hu Hf). Qed.

(** What is printed for an exception that nothing handles. *)
Definition exception_text (irq_num error_code pid cr2 : Z) (p : Process) (fr : list (Z * Z)) : list Z :=
  lit "unhandled interrupt: IRQ = 0x" ++ digits Hex irq_num ++ lit " error = 0x" ++ digits Hex error_code ++
  lit " pid = 0x" ++ digits Hex pid ++ lit "(" ++ chars (lit (name p)) ++ lit ")" ++ [10] ++
  lit "rip = 0x" ++ digits Hex (rip (context p)) ++ lit " rsp = 0x" ++ digits Hex (rsp (context p)) ++ [10] ++
  (if irq_num =? IRQ_PAGE_FAULT then lit "page fault cr2 = " ++ digits Hex cr2 ++ [10]
   else if irq_num =? IRQ_INVALID_OPCODE then lit "Invalid Opcode" ++ [10] else []) ++
  (if Paging.is_kernel (rbp (context p)) then stack_text Hex fr else lit "exception happens in userspace programs" ++ [10]).

Lemma exception_items_text r irq_num error_code pid cr2 p fr :
  render_all r (unhandled_items irq_num error_code pid p ++ detail_items irq_num cr2 ++ origin_items p fr) = exception_text irq_num error_code pid cr2 p fr.
Proof.
  assert (render_all Hex (detail_items irq_num cr2 ++ origin_items p fr) =
    (if irq_num =? IRQ_PAGE_FAULT then lit "page fault cr2 = " ++ digits Hex cr2 ++ [10]
     else if irq_num =? IRQ_INVALID_OPCODE then lit "Invalid Opcode" ++ [10] else []) ++
    (if Paging.is_kernel (rbp (context p)) then stack_text Hex fr else lit "exception happens in userspace programs" ++ [10])) as E.
  { assert (render_all Hex (origin_items p fr) =
      if Paging.is_kernel (rbp (context p)) then stack_text Hex fr else lit "exception happens in userspace programs" ++ [10]) as Eo.
    { unfold origin_items. destruct (Paging.is_kernel _); [|reflexivity]. pose proof (frames_text Hex fr []) as Ef. rewrite !app_nil_r in Ef.
      unfold stack_items. cbn [render_all render]. by rewrite Ef. }
    unfold detail_items. destruct (irq_num =? IRQ_PAGE_FAULT); [|destruct (irq_num =? IRQ_INVALID_OPCODE)]; cbn [app render_all render newline]; rewrite Eo;
      rewrite <- ?app_assoc; reflexivity. }
  unfold exception_text. rewrite <- E. reflexivity.
Qed.

(** An exception that nothing handles is reported before the machine stops: its
    number and error code, the process, the instruction and stack pointer it had
    saved, the address for a page fault, and the frames of the stack when the
    exception was in the kernel, all in hexadecimal; then the dispatcher of every
    table without a handler for it halts. *)
Theorem exception_reports {D} {ports : PortIO D} fuel depth reg sent base polls irq_num error_code s p fr :
  uart_laws sent base polls -> (polls < fuel)%nat -> port (serial_port_ s) = base -> regs_ok reg (cpu s) ->
  0 <= irq_num < Irq.MaxInterrupts -> uint 64 error_code -> 0 <= current_pid (kern s) < MAX_PROCESS -> processes (kern s) !! current_pid (kern s) = Some p ->
  uint 64 (rip (context p)) -> uint 64 (rsp (context p)) -> (Paging.is_kernel (rbp (context p)) = true -> stack_of depth s (rbp (context p)) p fr) ->
  (exists s', (forall stop, unhandled_interrupt fuel depth stop irq_num error_code s = stop s') /\ cpu s' = cpu s /\ bytes s' = bytes s /\ kern s' = kern s /\
    sent (dev (serial_port_ s')) = sent (dev (serial_port_ s)) ++ exception_text irq_num error_code (current_pid (kern s)) (Cpu.CR2 (cpu s)) p fr) /\
  (forall (K : Type) no_handler (t : Irq.handler_table K) pid k, SmallVec.empty (Irq.handlers_ t irq_num) = true ->
     Irq.HandleInterrupt no_handler t irq_num error_code pid k = Halt).
Proof.
  intros Hu Hf Hp Hreg Hi He Hr Hproc Hrip Hrsp Hst.
  destruct (unhandled_report_run fuel depth reg sent base polls Hu Hf irq_num error_code s p fr Hp Hreg) as (s' & E & H1 & H2 & H3 & _ & H5 & _); try done.
  { unfold uint, Irq.MaxInterrupts in *. lia. }
  split.
  - exists s'. split_and!; try done; [intros stop; unfold unhandled_interrupt; by step_with E|]. by rewrite H5, exception_items_text.
  - intros K no_handler t pid k Hempty. unfold Irq.HandleInterrupt. by rewrite (proj2 (Z.leb_le _ _)), (proj2 (Z.ltb_lt _ _)), Hempty by lia.
Qed.

(** ** The first messages of the kernel *)

Lemma SerialPort_init_run {D} {ports : PortIO D} (q : @SerialPort D) :
  exists q', SerialPort_init q = Ret (tt, q') /\ port q' = port q /\ int_radix_ q' = int_radix_ q.
Proof. eexists. split; [reflexivity|]. done. Qed.

Lemma dump_all_run {D} {ports : PortIO D} fuel reg sent base polls s : uart_laws sent base polls -> (polls < fuel)%nat -> port (serial_port_ s) = base ->
  regs_ok reg (cpu s) -> exists s', dump_all fuel reg s = Ret (tt, s') /\ sends sent s s' (dump_text reg (cpu s) (bytes s)).
Proof.
  intros Hu Hf Hp Hreg.
  destruct (dump_all_prints fuel reg sent base polls Hu Hf s s [] Hreg (told_refl sent base s Hp)) as (s' & E & H1 & H2 & H3 & H4 & H5 & _ & H7).
  exists s'. split; [exact E|]. rewrite app_nil_l, dump_items_text in H5. unfold sends. split_and!; try done. congruence.
Qed.

Lemma greeting_run {D} {ports : PortIO D} fuel sent polls raw (s : @Dbg D) : uart_laws sent com1 polls -> (polls < fuel)%nat ->
  (forall u q q', port q = com1 -> SerialPort_init q = Ret (u, q') -> sent (dev q') = sent (dev q)) ->
  exists s', local_port raw (SerialPort_init;; print fuel [Str (lit "Hello from kernel! " ++ [10])]) s = Ret (raw, s') /\
    sends sent s s' (lit "Hello from kernel! " ++ [10]).
Proof.
  intros Hu Hf Hinit. set (q := mkSP (dev (serial_port_ s)) com1 raw 0). destruct (SerialPort_init_run q) as (q1 & E1 & Ep1 & Er1).
  destruct (print_run sent com1 polls Hu fuel [Str (lit "Hello from kernel! " ++ [10])] q1 ltac:(by rewrite Ep1) Hf) as (q2 & E2 & H2 & H3 & H4 & H5).
  { apply Forall_singleton. apply lits_ok. by apply Forall_singleton. }
  unfold local_port. fold q. rewrite (bind_ret _ _ _ _ _ E1), E2, H5. cbn [radix_after]. rewrite Er1. eexists. split; [reflexivity|].
  unfold sends. cbn. rewrite H2, (Hinit tt q q1 eq_refl E1). done.
Qed.

(** The kernel's first lines.  Kernel::start greets, refuses a kernel that is not
    page aligned by halting, calls every function of the initialiser array once and
    in order, each after a line with its number and address, and dumps the
    registers, with interrupts disabled throughout; the output is exactly that.
    The numbers are hexadecimal from the second on, the first is printed in a
    radix that was never set. *)
Theorem start_messages_ok {D} {ports : PortIO D} fuel reg sent polls raw kernel_physical_start ctors outs (s : @Dbg D) :
  uart_laws sent com1 polls -> (polls < fuel)%nat -> port (serial_port_ s) = com1 -> regs_ok reg (cpu s) ->
  (forall u q q', port q = com1 -> SerialPort_init q = Ret (u, q') -> sent (dev q') = sent (dev q)) ->
  Forall2 (ctor_ok sent com1) ctors outs -> Z.of_nat (length ctors) < 2 ^ 64 ->
  if decide (kernel_physical_start mod PAGE_SIZE = 0) then
    exists s', start_messages fuel reg raw kernel_physical_start ctors s = Ret (tt, s') /\
      cpu s' = Cpu.with_if false (cpu s) /\ bytes s' = bytes s /\
      sent (dev (serial_port_ s')) = sent (dev (serial_port_ s)) ++ lit "Hello from kernel! " ++ [10] ++ lit "Calling global initilizers" ++ [10] ++
        initializers_text raw 0 ctors outs ++ dump_text reg (cpu s) (bytes s)
  else start_messages fuel reg raw kernel_physical_start ctors s = Halt.
Proof.
  intros Hu Hf Hp Hreg Hinit Hc Hn. set (s0 := mkDbg (Cpu.with_if false (cpu s)) (serial_port_ s) (bytes s) (kern s) (stacks_ s)).
  assert (regs_ok reg (cpu s0)) as Hreg0. { destruct Hreg as [[A1 A2 A3 A4 A5] B]. by split. }
  destruct (greeting_run fuel sent polls raw s0 Hu Hf Hinit) as (s1 & E1 & T1). pose proof T1 as (C1 & B1 & _ & _ & P1 & _).
  unfold start_messages. step_with (eq_refl : on_cpu Cpu.cli s = Ret (tt, s0)). step_with E1. case_decide as Ha.
  - rewrite (proj2 (Z.eqb_eq _ _) Ha). cbn [negb].
    destruct (local_print_run fuel sent com1 polls Hu Hf raw [Str (lit "Calling global initilizers" ++ [10])] s1 eq_refl) as (s2 & E2 & T2).
    { apply Forall_singleton. apply lits_ok. by apply Forall_singleton. }
    step_with E2. pose proof T2 as (C2 & B2 & _ & _ & P2 & _).
    destruct (call_initializers_run fuel sent com1 polls Hu Hf ctors outs 0 raw s2) as (s3 & E3 & T3); [done|by rewrite P2, P1|done|lia|lia|].
    step_with E3. pose proof T3 as (C3 & B3 & _ & _ & P3 & _).
    destruct (dump_all_run fuel reg sent com1 polls s3 Hu Hf) as (s4 & E4 & T4); [by rewrite P3, P2, P1|by rewrite C3, C2, C1|].
    exists s4. split; [exact E4|]. pose proof T4 as (C4 & B4 & _). split; [by rewrite C4, C3, C2, C1|]. split; [by rewrite B4, B3, B2, B1|].
    pose proof (sends_trans _ _ _ _ _ _ (sends_trans _ _ _ _ _ _ (sends_trans _ _ _ _ _ _ T1 T2) T3) T4) as (_ & _ & _ & _ & _ & H).
    rewrite H, C3, C2, C1, B3, B2, B1. rewrite <- !app_assoc. reflexivity.
  - rewrite (proj2 (Z.eqb_neq _ _) Ha). cbn [negb]. unfold Kernel_panic.
    destruct (panic_report_prints fuel reg sent com1 polls Hu Hf s1 s1 [] (lit "Kernel start address not page aligned")) as (s2 & E2 & _);
      [by rewrite C1|apply lit_ok|apply told_refl; by rewrite P1|]. by step_with E2.
Qed.

(** ** Concrete runs *)

Definition ex_cpu : Cpu.Cpu := Cpu.mkCpu (0, 0xff) (0, 0xfff) 0 ∅ 0xdead 0x1000 0x1000 16 24 24 24 0 0 true.
Definition ex_kern : Kernel := ex_two.
Definition ex_dbg {D} (d : D) (r : IntRadix) : @Dbg D := mkDbg ex_cpu (mkSP d com1 r 0) Unwind.ex_stack ex_kern [(0x1000, 0x1040)].
Definition ex_frames : list (Z * Z) := [(0x2222, 0x1010); (0x3333, 0)].

Lemma ex_regs_ok : regs_ok (fun _ => 0) ex_cpu.
Proof.
  split; [split|by vm_compute]; cbn [ex_cpu Cpu.GDTR Cpu.IDTR Cpu.MSR Cpu.CR2 Cpu.CR3 Cpu.RBP Cpu.TR Cpu.CS Cpu.DS Cpu.ES Cpu.SS Cpu.FS Cpu.GS].
  1,2,4,5: by vm_compute.
  intros i v H. by rewrite lookup_empty in H.
Qed.

Definition ex_process : Process := default (bare 1 Running) (processes ex_kern !! 1).

Lemma ex_stack_of {D} (d : D) r : stack_of 3 (ex_dbg d r) 0x1000 ex_process ex_frames.
Proof.
  split; try done.
  - apply Unwind.frames_next; [exists (0x1000, 0x1040); split; [right; left|cbn; lia]|by vm_compute|by vm_compute|].
    apply Unwind.frames_next; [exists (0x1000, 0x1040); split; [right; left|cbn; lia]|by vm_compute|by vm_compute|].
    apply Unwind.frames_end. intros (x & [->|[->|Hx]%elem_of_cons]%elem_of_cons & H1 & H2); [by vm_compute in H1|by vm_compute in H1|by apply elem_of_nil in Hx].
  - repeat (apply Forall_cons; split; [by vm_compute|]). by apply Forall_nil.
  - intros x. apply Unwind.ex_stack_bytes.
  - cbn. lia.
Qed.

(** The radix was decimal, so 0x2222 is printed as 8738. *)
Lemma runtime_failure_reports_witness :
  exists s', (forall stop, runtime_failure 2 3 (fun _ => 0) stop abort (ex_dbg (([], true) : Line) Dec) = stop s') /\
    runtime_failure 2 3 (fun _ => 0) halt abort (ex_dbg (([], true) : Line) Dec) = Halt /\
    fst (dev (serial_port_ s')) =
      lit "Stack dump:" ++ [10] ++ lit "  0x8738 rbp 0x4112" ++ [10] ++ lit "  0x13107 rbp 0x0" ++ [10] ++
      panic_text (fun _ => 0) (lit "abort") ex_cpu Unwind.ex_stack.
Proof.
  destruct (runtime_failure_reports 2 3 (fun _ => 0) fst com1 1 abort (ex_dbg (([], true) : Line) Dec) ex_process ex_frames line_laws) as (s' & H1 & _ & _ & _ & _ & H2).
  - lia.
  - reflexivity.
  - exact ex_regs_ok.
  - apply ex_stack_of.
  - exists s'. split; [exact H1|]. split; [exact (H1 halt)|exact H2].
Defined.

Lemma exception_reports_witness :
  exists s', (forall stop, unhandled_interrupt 2 3 stop 14 2 (ex_dbg (([], true) : Line) Dec) = stop s') /\
    fst (dev (serial_port_ s')) =
      lit "unhandled interrupt: IRQ = 0xe error = 0x2 pid = 0x1()" ++ [10] ++ lit "rip = 0x0 rsp = 0x0" ++ [10] ++ lit "page fault cr2 = dead" ++ [10] ++
      lit "exception happens in userspace programs" ++ [10].
Proof.
  destruct (exception_reports 2 3 (fun _ => 0) fst com1 1 14 2 (ex_dbg (([], true) : Line) Dec) ex_process [] line_laws) as ((s' & H1 & _ & _ & _ & H2) & _).
  - lia.
  - reflexivity.
  - exact ex_regs_ok.
  - by vm_compute.
  - by vm_compute.
  - by vm_compute.
  - reflexivity.
  - by vm_compute.
  - by vm_compute.
  - intros H. by vm_compute in H.
  - exists s'. split; [exact H1|exact H2].
Defined.

(** A port that sends a byte only if its status was read since the last write. *)
Definition Latch : Type := list Z * bool.
#[export] Instance latch_port : PortIO Latch := {|
  inb (a : Z) (d : Latch) := if a =? com1 + 5 then (0x21, (fst d, true)) else (0, d);
  outb (a b : Z) (d : Latch) := if a =? com1 then (if snd d then (fst d ++ [b], false) else d) else (fst d, false)
|}.
Lemma latch_laws : uart_laws (D := Latch) fst com1 0.
Proof.
  split.
  - unfold com1. lia.
  - intros a [l b]. unfold inb, latch_port. by destruct (a =? com1 + 5).
  - intros d. exists 0%nat. by split.
  - intros [l b] c _ Hc. done.
Qed.
Lemma latch_init u (q q' : @SerialPort Latch) : port q = com1 -> SerialPort_init q = Ret (u, q') -> fst (dev q') = fst (dev q).
Proof. destruct q as [[l b] p r e]. cbn [port]. intros ->. intros [= <- <-]. done. Qed.

Definition ex_ctors : list (Z * ST (@Dbg Latch) unit) := [(0x1234, GlobalConstructorTest 1); (0x5678, test_c_init_func 1)].
Definition ex_outs : list (list Z) :=
  [lit "    Testing global C++ initialization" ++ [10]; lit "    Testing GCC's constructor attribute initialization" ++ [10]].

Lemma say_sends {D} {ports : PortIO D} fuel sent base polls l (s : @Dbg D) : uart_laws sent base polls -> (polls < fuel)%nat -> port (serial_port_ s) = base ->
  Forall item_ok l -> exists s', say fuel l s = Ret (tt, s') /\ sends sent s s' (render_all (int_radix_ (serial_port_ s)) l).
Proof.
  intros Hu Hf Hp Hl. destruct (say_run fuel sent base polls Hu Hf l s Hp Hl) as (s' & E & H1 & H2 & H3 & H4 & H5 & _ & H7).
  exists s'. split; [done|]. unfold sends. split_and!; try done. congruence.
Qed.

Lemma ex_ctors_ok : Forall2 (ctor_ok fst com1) ex_ctors ex_outs.
Proof.
  unfold ex_ctors, ex_outs. constructor; [|constructor; [|constructor]].
  all: split; [by vm_compute|]; intros s Hp; cbn [snd].
  - apply (say_sends 1 fst com1 0 [Str (lit "    Testing global C++ initialization" ++ [10])] s latch_laws); [lia|done|].
    apply Forall_singleton, lits_ok, Forall_singleton; lia.
  - apply (say_sends 1 fst com1 0 [Str (lit "    Testing GCC's constructor attribute initialization" ++ [10])] s latch_laws); [lia|done|].
    apply Forall_singleton, lits_ok, Forall_singleton; lia.
Qed.

Lemma start_messages_ok_witness :
  (exists s', start_messages 1 (fun _ => 0) Dec 0x200000 ex_ctors (ex_dbg (([], false) : Latch) Dec) = Ret (tt, s') /\
    fst (dev (serial_port_ s')) =
      lit "Hello from kernel! " ++ [10] ++ lit "Calling global initilizers" ++ [10] ++
      lit "  before calling ctor 0 at 0x1234" ++ [10] ++ lit "    Testing global C++ initialization" ++ [10] ++
      lit "  before calling ctor 1 at 0x5678" ++ [10] ++ lit "    Testing GCC's constructor attribute initialization" ++ [10] ++
      dump_text (fun _ => 0) ex_cpu Unwind.ex_stack) /\
  start_messages 1 (fun _ => 0) Dec 0x200010 ex_ctors (ex_dbg (([], false) : Latch) Dec) = Halt.
Proof.
  split.
  - destruct (start_messages_ok 1 (fun _ => 0) fst 0 Dec 0x200000 ex_ctors ex_outs (ex_dbg (([], false) : Latch) Dec) latch_laws) as (s' & H1 & _ & _ & H2).
    + lia.
    + reflexivity.
    + exact ex_regs_ok.
    + exact latch_init.
    + exact ex_ctors_ok.
    + by vm_compute.
    + exists s'. split; [exact H1|exact H2].
  - apply (start_messages_ok 1 (fun _ => 0) fst 0 Dec 0x200010 ex_ctors ex_outs (ex_dbg (([], false) : Latch) Dec) latch_laws).
    + lia.
    + reflexivity.
    + exact ex_regs_ok.
    + exact latch_init.
    + exact ex_ctors_ok.
    + by vm_compute.
Defined.

End Debug.
