(* ===== verification/KMemory.v ===== *)
(** * Objects on the heap: include/common/kmemory.hpp, vdtor.hpp and kallocator.hpp

    [knew], [kdelete], the owning pointer [kup] with its deleter, and the allocator
    of the containers, over [kmalloc] and [kfree].  The heap is the page allocator
    with the objects alive at each address and, in order, the objects whose
    destructor ran. *)
From S2P Require Import Prelude LibUtils CpuDefs BuddyTree Buddy BuddyInv BuddyProofs BuddySpec BuddyThms PageAlloc PageAllocThms Process ProcessProofs ProcessThms AllocChain.

Module KMemory.

Section objects.
(** Objects of any class, with their sizes. *)
Context {T : Type} (sizeof : T -> Z).

Record Heap := mkHeap {
  al : Buddy.BuddyAllocator;
  objects : gmap Z T;
  destroyed : list T;
  (** pointers stored behind objects *)
  back : gmap Z Z
}.
Abbreviation M := (ST Heap).

Definition on_alloc {A} (c : ST Buddy.BuddyAllocator A) : M A := fun h =>
  match c (al h) with
  | Ret (a, s) => Ret (a, mkHeap s (objects h) (destroyed h) (back h))
  | Panic m => Panic m | Halt => Halt | Fault => Fault | OutOfFuel => OutOfFuel
  end.
Definition kmalloc (size : Z) : M Z := on_alloc (PageAlloc.kmalloc size).
Definition kfree (p : Z) : M unit := on_alloc (PageAlloc.kfree p).

(** [new (buf) T(...)] *)
Definition construct (buf : Z) (v : T) : M unit := modify (fun h => mkHeap (al h) (<[buf := v]> (objects h)) (destroyed h) (back h)).
(** [p->~T()] *)
Definition destruct_at (p : Z) : M unit :=
  o ← gets (fun h => objects h !! p);
  match o with
  | None => fault
  | Some v => modify (fun h => mkHeap (al h) (delete p (objects h)) (destroyed h ++ [v]) (back h))
  end.
(** The storage goes away under the object. *)
Definition forget (p : Z) : M unit := modify (fun h => mkHeap (al h) (delete p (objects h)) (destroyed h) (back h)).

Definition knew (v : T) : M Z :=
  buf ← kmalloc (sizeof v);
  construct buf v;;
  mret buf.

Definition kdelete (p : Z) : M unit :=
  destruct_at p;;
  kfree p.

(** [operator delete] of VIRTUAL_DTOR. *)
Definition virtual_delete (p : Z) : M unit :=
  destruct_at p;;
  kfree p.

(** The deleter frees the storage; no destructor runs. *)
Definition kdefault_delete (p : Z) : M unit :=
  forget p;;
  kfree p.

(** The object, then a pointer to it. *)
Definition make_kup (v : T) : M Z :=
  buf ← kmalloc (sizeof v + 8);
  construct buf v;;
  modify (fun h => mkHeap (al h) (objects h) (destroyed h) (<[wrap64 (buf + sizeof v) := buf]> (back h)));;
  mret buf.

(** The destructor of [kup]. *)
Definition kup_drop (p : Z) : M unit := if p =? 0 then mret tt else kdefault_delete p.

(** ** kallocator *)

Definition allocate (n : Z) : M Z := kmalloc n.
Definition deallocate (p n : Z) : M unit := kfree p.

End objects.
Arguments Heap : clear implicits.

(** ** Storage *)

Lemma get_block_phy_addr_uint s b : uint 64 (Buddy.get_block_phy_addr s b).
Proof. unfold Buddy.get_block_phy_addr. apply wrap_uint. lia. Qed.

Lemma kfree_owned s p : Inv s -> owned s p ->
  exists s', PageAlloc.kfree p s = Ret (tt, s') /\ Inv s' /\ same_config s s' /\ forall a, owned s' a <-> owned s a /\ a <> p.
Proof.
  intros HI (b & Hb & Hreg & ->). destruct (free_pages_ok s b HI Hb) as (s' & H & HI' & Hc & Hall).
  exists s'. split.
  { unfold PageAlloc.kfree, PageAlloc.kernel_page_free, block_vaddr. rewrite <- H. f_equal. pose proof (get_block_phy_addr_uint s b) as Hu.
    unfold uint, wrap in *. rewrite Zminus_mod_idemp_l. replace (KERNEL_START + Buddy.get_block_phy_addr s b - KERNEL_START) with (Buddy.get_block_phy_addr s b) by lia.
    by apply Z.mod_small. }
  split; [done|]. split; [done|]. pose proof (bi_params _ _ (Inv_inv _ HI)) as Hp. intros a. split.
  - intros (c & H1 & H2 & ->). apply Hall in H1 as [H1 Hne]. assert (in_region s c) by (by apply (in_region_config s s')).
    rewrite (block_vaddr_config s s' c Hc). split; [by exists c|]. intros E. apply Hne. by apply (block_vaddr_inj s c b).
  - intros [(c & H1 & H2 & ->) Hne]. exists c. split; [apply Hall; split; [done|]; by intros ->|].
    split; [by apply (in_region_config s s')|]. by rewrite (block_vaddr_config s s' c Hc).
Qed.

(** An allocation fails and changes nothing, or hands out exactly one new block. *)
Lemma kmalloc_owned s size : Inv s -> 0 < size < 2 ^ 64 ->
  exists a s', PageAlloc.kmalloc size s = Ret (a, s') /\ Inv s' /\ same_config s s' /\
    ((a = KERNEL_START /\ s' = s) \/ (~ owned s a /\ forall x, owned s' x <-> owned s x \/ x = a)).
Proof.
  intros HI Hs. rewrite kmalloc_eq by done. unfold PageAlloc.kernel_page_alloc.
  destruct (allocate_pages_cases s (class_of size) HI) as [[H _]|(b & s' & H & HI' & Hc & _ & Hreg & Hnew & Hall)]; [unfold class_of; lia|..].
  - exists KERNEL_START, s. split; [by step_with H|]. split_and!; try done. by left.
  - exists (block_vaddr s b), s'. split; [by step_with H|]. split; [done|]. split; [done|]. right.
    pose proof (bi_params _ _ (Inv_inv _ HI)) as Hp. split.
    + intros (c & H1 & H2 & E). apply Hnew. apply block_vaddr_inj in E; [by subst c|done..].
    + intros x. split.
      * intros (c & H1 & H2 & ->). rewrite (block_vaddr_config s s' c Hc). apply Hall in H1 as [H1| ->]; [left|by right].
        exists c. split; [done|]. split; [by apply (in_region_config s s')|done].
      * intros [(c & H1 & H2 & ->)| ->]; [exists c|exists b]; (split; [apply Hall; tauto|]); (split; [by apply (in_region_config s s')|]);
          by rewrite (block_vaddr_config s s' _ Hc).
Qed.

(** ** Lifetimes *)

Section lifetimes.
Context {T : Type} (sizeof : T -> Z) (Hsize : forall v, 0 < sizeof v < 2 ^ 63).

(** Every object has a block, unless its allocation failed. *)
Record heap_ok (h : Heap T) : Prop := {
  ho_inv : Inv (al h);
  ho_owned p v : objects h !! p = Some v -> p = KERNEL_START \/ owned (al h) p
}.

(** What [construct] after [kmalloc] leaves. *)
Definition built (h h' : Heap T) (p : Z) (v : T) : Prop :=
  objects h' = <[p := v]> (objects h) /\ destroyed h' = destroyed h /\
  (p = KERNEL_START \/ objects h !! p = None /\ ~ owned (al h) p /\ (forall x, owned (al h') x <-> owned (al h) x \/ x = p)).

Lemma kmalloc_built h size : heap_ok h -> 0 < size < 2 ^ 64 -> exists p s',
  kmalloc size h = Ret (p, mkHeap s' (objects h) (destroyed h) (back h)) /\
  forall v b, heap_ok (mkHeap s' (<[p := v]> (objects h)) (destroyed h) b) /\ built h (mkHeap s' (<[p := v]> (objects h)) (destroyed h) b) p v.
Proof using Type.
  intros [HI Ho] Hs. destruct (kmalloc_owned (al h) size HI Hs) as (p & s' & H & HI' & _ & Hp). exists p, s'.
  split; [unfold kmalloc, on_alloc; by rewrite H|]. intros v b. split.
  - split; [done|]. cbn. intros q w. rewrite lookup_insert. case_decide as E.
    + intros [= <-]. subst q. destruct Hp as [[-> _]|[_ Hx]]; [by left|right; apply Hx; by right].
    + intros [->|Hq]%Ho; [by left|right]. destruct Hp as [[_ ->]|[_ Hx]]; [done|]. apply Hx. by left.
  - split; [done|]. split; [done|]. destruct Hp as [[-> _]|[Hn Hx]]; [by left|].
    destruct (objects h !! p) as [w|] eqn:E; [|by right]. apply Ho in E as [->|?]; [by left|done].
Qed.

Lemma object_new_run h v : heap_ok h -> exists p h', knew sizeof v h = Ret (p, h') /\ heap_ok h' /\ built h h' p v.
Proof using Hsize.
  intros Hh. destruct (kmalloc_built h (sizeof v) Hh) as (p & s' & H & Hb); [specialize (Hsize v); lia|].
  exists p, (mkHeap s' (<[p := v]> (objects h)) (destroyed h) (back h)). split; [unfold knew; by step_with H|]. apply Hb.
Qed.

(** The pointer behind the object is the object's own address. *)
Lemma make_kup_run h v : heap_ok h -> exists p h', make_kup sizeof v h = Ret (p, h') /\ heap_ok h' /\ built h h' p v /\
  back h' !! wrap64 (p + sizeof v) = Some p.
Proof using Hsize.
  intros Hh. destruct (kmalloc_built h (sizeof v + 8) Hh) as (p & s' & H & Hb); [specialize (Hsize v); lia|].
  exists p, (mkHeap s' (<[p := v]> (objects h)) (destroyed h) (<[wrap64 (p + sizeof v) := p]> (back h))).
  split; [unfold make_kup; by step_with H|]. split; [apply Hb|]. split; [apply Hb|]. apply lookup_insert_eq.
Qed.

(** What releasing the storage of an object leaves. *)
Definition released (h h' : Heap T) (p : Z) : Prop := objects h' = delete p (objects h) /\ forall x, owned (al h') x <-> owned (al h) x /\ x <> p.

Lemma kfree_released h p ds : heap_ok h -> owned (al h) p ->
  exists h', kfree p (mkHeap (al h) (delete p (objects h)) ds (back h)) = Ret (tt, h') /\ heap_ok h' /\ released h h' p /\ destroyed h' = ds.
Proof using Type.
  intros [HI Ho] Hp. destruct (kfree_owned (al h) p HI Hp) as (s' & H & HI' & _ & Hx).
  exists (mkHeap s' (delete p (objects h)) ds (back h)). split; [unfold kfree, on_alloc; cbn [al]; by rewrite H|]. split; [|by split].
  split; [done|]. cbn. intros q w. rewrite lookup_delete. case_decide as E; [done|]. intros [->|Hq]%Ho; [by left|right]. apply Hx. split; [done|]. congruence.
Qed.

Lemma kdelete_run h p v : heap_ok h -> objects h !! p = Some v -> p <> KERNEL_START ->
  exists h', kdelete p h = Ret (tt, h') /\ virtual_delete p h = Ret (tt, h') /\ heap_ok h' /\ released h h' p /\ destroyed h' = destroyed h ++ [v].
Proof using Type.
  intros Hh Hv Hne. destruct (ho_owned _ Hh _ _ Hv) as [->|Hp]; [done|].
  destruct (kfree_released h p (destroyed h ++ [v]) Hh Hp) as (h' & H & Hr). exists h'. unfold kdelete, virtual_delete, destruct_at.
  rewrite !bind_assoc, !(bind_ret (gets (fun h => objects h !! p)) _ h (Some v) h) by (unfold gets; by rewrite Hv).
  split; [exact H|]. split; [exact H|]. exact Hr.
Qed.

Lemma kup_drop_run h p v : heap_ok h -> objects h !! p = Some v -> p <> KERNEL_START -> p <> 0 ->
  exists h', kup_drop p h = Ret (tt, h') /\ heap_ok h' /\ released h h' p /\ destroyed h' = destroyed h.
Proof using Type.
  intros Hh Hv Hne H0. destruct (ho_owned _ Hh _ _ Hv) as [->|Hp]; [done|].
  destruct (kfree_released h p (destroyed h) Hh Hp) as (h' & H & Hr). exists h'. unfold kup_drop. rewrite (proj2 (Z.eqb_neq _ _) H0). split; [exact H|exact Hr].
Qed.

(** Uses of the heap while memory lasts: objects are created, and objects that are
    alive are deleted or dropped by their owning pointer.  The lists are the
    objects created and those dropped. *)
Inductive trace : Heap T -> list T -> list T -> Heap T -> Prop :=
  | tr_nil h : trace h [] [] h
  | tr_new h v p h1 ns ds h2 :
      knew sizeof v h = Ret (p, h1) \/ make_kup sizeof v h = Ret (p, h1) -> p <> KERNEL_START ->
      trace h1 ns ds h2 -> trace h (v :: ns) ds h2
  | tr_delete h p v h1 ns ds h2 :
      objects h !! p = Some v -> p <> KERNEL_START -> kdelete p h = Ret (tt, h1) -> trace h1 ns ds h2 -> trace h ns ds h2
  | tr_drop h p v h1 ns ds h2 :
      objects h !! p = Some v -> p <> KERNEL_START -> p <> 0 -> kup_drop p h = Ret (tt, h1) -> trace h1 ns ds h2 -> trace h ns (v :: ds) h2.

Definition alive (h : Heap T) : list T := snd <$> map_to_list (objects h).

Lemma alive_insert h h' p v : objects h !! p = None -> objects h' = <[p := v]> (objects h) -> alive h' ≡ₚ v :: alive h.
Proof using Type. intros Hp E. unfold alive. rewrite E, map_to_list_insert by done. done. Qed.
Lemma alive_delete h h' p v : objects h !! p = Some v -> objects h' = delete p (objects h) -> alive h ≡ₚ v :: alive h'.
Proof using Type. intros Hp E. unfold alive. rewrite E, <- (map_to_list_delete (objects h) p v) by done. done. Qed.

Lemma built_new h p h1 v : heap_ok h -> knew sizeof v h = Ret (p, h1) \/ make_kup sizeof v h = Ret (p, h1) -> heap_ok h1 /\ built h h1 p v.
Proof using Hsize.
  intros Hh [H|H].
  - destruct (object_new_run h v Hh) as (q & h' & E & Hb). assert (q = p /\ h' = h1) as [-> ->] by (split; congruence). done.
  - destruct (make_kup_run h v Hh) as (q & h' & E & H1 & H2 & _). assert (q = p /\ h' = h1) as [-> ->] by (split; congruence). done.
Qed.

Lemma trace_inv h ns ds h' : trace h ns ds h' -> heap_ok h -> (forall p, objects h !! p <> None -> p <> KERNEL_START) ->
  heap_ok h' /\ (forall p, objects h' !! p <> None -> p <> KERNEL_START) /\ ns ++ alive h ++ destroyed h ≡ₚ alive h' ++ destroyed h' ++ ds.
Proof using Hsize.
  induction 1 as [h|h v p h1 ns ds h2 Hnew Hne _ IH|h p v h1 ns ds h2 Hv Hne Hdel _ IH|h p v h1 ns ds h2 Hv Hne H0 Hdrop _ IH]; intros Hh Hks.
  - split; [done|]. split; [done|]. by rewrite app_nil_r.
  - destruct (built_new h p h1 v Hh Hnew) as [Hh1 (E1 & E2 & [->|(Hp & _)])]; [done|].
    destruct (IH Hh1) as (A & B & C). { intros q. rewrite E1, lookup_insert. case_decide; [congruence|apply Hks]. }
    split; [done|]. split; [done|]. rewrite <- C, E2, (alive_insert h h1 p v Hp E1). cbn [app]. by rewrite Permutation_middle.
  - destruct (kdelete_run h p v Hh Hv Hne) as (h1' & E & _ & Hh1 & [Eo _] & Ed). assert (h1' = h1) as -> by congruence.
    destruct (IH Hh1) as (A & B & C). { intros q. rewrite Eo, lookup_delete. case_decide; [done|apply Hks]. }
    split; [done|]. split; [done|]. rewrite <- C, Ed, (alive_delete h h1 p v Hv Eo). f_equiv. cbn [app].
    rewrite app_assoc. by rewrite (Permutation_app_comm (alive h1 ++ destroyed h) [v]).
  - destruct (kup_drop_run h p v Hh Hv Hne H0) as (h1' & E & Hh1 & [Eo _] & Ed). assert (h1' = h1) as -> by congruence.
    destruct (IH Hh1) as (A & B & C). { intros q. rewrite Eo, lookup_delete. case_decide; [done|apply Hks]. }
    split; [done|]. split; [done|]. rewrite <- Ed, (alive_delete h h1 p v Hv Eo). cbn [app].
    rewrite <- Permutation_middle, C. rewrite !app_assoc. by rewrite Permutation_middle.
Qed.

End lifetimes.

(** C15: objects on the kernel heap.  However [knew], [make_kup], [kdelete] and owning
    pointers are used on live objects while memory lasts, every object that is
    alive has a block of the allocator to itself, deleting it works, runs its
    destructor and gives back exactly its block, and every object created is either
    alive, destroyed once, or was dropped by its owning pointer, whose deleter frees
    the storage without running the destructor. *)
Theorem object_lifetimes {T} (sizeof : T -> Z) s0 ns ds h :
  (forall v, 0 < sizeof v < 2 ^ 63) -> Inv s0 -> trace sizeof (mkHeap s0 ∅ [] ∅) ns ds h ->
  (forall p v, objects h !! p = Some v -> owned (al h) p /\
     exists h', kdelete p h = Ret (tt, h') /\ destroyed h' = destroyed h ++ [v] /\ (forall x, owned (al h') x <-> owned (al h) x /\ x <> p)) /\
  (forall p q v w, objects h !! p = Some v -> objects h !! q = Some w -> p <> q ->
     exists b c, p = block_vaddr (al h) b /\ q = block_vaddr (al h) c /\ ~ overlap b c) /\
  ns ≡ₚ alive h ++ destroyed h ++ ds.
Proof.
  intros Hsize HI Htr. destruct (trace_inv sizeof Hsize _ _ _ _ Htr) as (Hh & Hks & HP); [by split|done|].
  assert (forall p v, objects h !! p = Some v -> owned (al h) p) as Hown.
  { intros p v Hv. destruct (ho_owned _ Hh _ _ Hv) as [->|?]; [|done]. exfalso. apply (Hks KERNEL_START); [by rewrite Hv|done]. }
  split; [|split].
  - intros p v Hv. split; [by eapply Hown|]. destruct (kdelete_run h p v Hh Hv) as (h' & E & _ & _ & [_ Ho] & Ed); [apply Hks; by rewrite Hv|]. by exists h'.
  - intros p q v w Hp Hq Hne. destruct (Hown _ _ Hp) as (b & B1 & _ & ->), (Hown _ _ Hq) as (c & C1 & _ & ->). exists b, c. split; [done|]. split; [done|].
    intros Ho. apply Hne. f_equal. apply (allocated_disjoint (al h)); [apply Inv_inv, Hh|done..].
  - by rewrite <- HP, app_nil_r.
Qed.

(** ** The allocator of the containers *)

(** [kallocator::allocate(n)] asks for [n] bytes where its caller wants [n]
    elements: the block it returns has room for them exactly when [n] times the
    element size is within the size class of [n] bytes.  Up to 64 KiB in all there
    always is; from 64 Ki elements on, the last of a power of two of elements of
    more than one byte is outside the block. *)
Theorem kallocator_room {T} (h : Heap T) n size : Inv (al h) -> 0 < n < 2 ^ 32 -> 0 < size < 2 ^ 31 ->
  (allocate n h = Ret (KERNEL_START, h) \/
   exists b h', allocate n h = Ret (block_vaddr (al h) b, h') /\ is_allocated (al h') b /\ level (al h') b = class_of n) /\
  (n * size <= 2 ^ 16 -> n * size <= 2 ^ class_of n) /\
  (forall k, 16 <= k -> n = 2 ^ k -> 1 < size -> 2 ^ class_of n < n * size).
Proof.
  intros HI Hn Hsz. split; [|split].
  - unfold allocate, kmalloc, on_alloc. rewrite kmalloc_eq by lia. unfold PageAlloc.kernel_page_alloc.
    destruct (allocate_pages_cases (al h) (class_of n) HI) as [[H _]|(b & s' & H & HI' & Hc & Hl & Hreg & Hnew & Hall)]; [unfold class_of; lia|..].
    + left. step_with H. by destruct h.
    + right. exists b, (mkHeap s' (objects h) (destroyed h) (back h)). step_with H. split; [done|]. split; [apply Hall; by right|].
      destruct Hc as (_ & E & _). unfold level in *. cbn [al]. by rewrite E.
  - intros H. etransitivity; [exact H|]. apply Z.pow_le_mono_r; [lia|]. unfold class_of, Log2MinSize. lia.
  - intros k Hk -> H1. assert (class_of (2 ^ k) = k) as ->.
    { unfold class_of. rewrite Z.log2_up_pow2 by lia. unfold Log2MinSize. lia. }
    nia.
Qed.

(** ** Concrete runs *)

Definition ex_size (v : Z) : Z := 40.
Definition ex_heap : Heap Z := mkHeap boot ∅ [] ∅.

(** Two objects are created, the first is deleted, the second dropped. *)
Definition after {A} (c : ST (Heap Z) A) (h : Heap Z) : Heap Z := match c h with Ret (_, h) => h | _ => h end.
Definition ex_h1 : Heap Z := after (knew ex_size 11) ex_heap.
Definition ex_h2 : Heap Z := after (make_kup ex_size 22) ex_h1.
Definition ex_p1 : Z := match knew ex_size 11 ex_heap with Ret (p, _) => p | _ => 0 end.
Definition ex_p2 : Z := match make_kup ex_size 22 ex_h1 with Ret (p, _) => p | _ => 0 end.
Definition ex_h3 : Heap Z := after (kdelete ex_p1) ex_h2.
Definition ex_h4 : Heap Z := after (knew ex_size 33) ex_h3.
Definition ex_p4 : Z := match knew ex_size 33 ex_h3 with Ret (p, _) => p | _ => 0 end.
Definition ex_h5 : Heap Z := after (kup_drop ex_p2) ex_h4.

Lemma ex_trace : trace ex_size ex_heap [11; 22; 33] [22] ex_h5.
Proof.
  apply (tr_new _ _ _ ex_p1 ex_h1); [left; vm_compute; reflexivity|by vm_compute|].
  apply (tr_new _ _ _ ex_p2 ex_h2); [right; vm_compute; reflexivity|by vm_compute|].
  apply (tr_delete _ _ ex_p1 11 ex_h3); [by vm_compute|by vm_compute|vm_compute; reflexivity|].
  apply (tr_new _ _ _ ex_p4 ex_h4); [left; vm_compute; reflexivity|by vm_compute|].
  apply (tr_drop _ _ ex_p2 22 ex_h5); [by vm_compute|by vm_compute|by vm_compute|vm_compute; reflexivity|]. apply tr_nil.
Qed.

Lemma object_lifetimes_witness :
  [11; 22; 33] ≡ₚ alive ex_h5 ++ destroyed ex_h5 ++ [22] /\ alive ex_h5 = [33] /\ destroyed ex_h5 = [11].
Proof.
  split; [|split; vm_compute; reflexivity].
  apply (object_lifetimes ex_size boot [11; 22; 33] [22] ex_h5).
  - intros v. unfold ex_size. lia.
  - exact (ar_inv _ ex_ready).
  - exact ex_trace.
Defined.

(** 64 Ki elements of 24 bytes get 64 KiB. *)
Lemma kallocator_room_witness :
  (allocate 65536 ex_heap = Ret (KERNEL_START, ex_heap) \/
   exists b h', allocate 65536 ex_heap = Ret (block_vaddr (al ex_heap) b, h') /\ is_allocated (al h') b /\ level (al h') b = 16) /\
  2 ^ 16 < 65536 * 24.
Proof.
  destruct (kallocator_room ex_heap 65536 24) as (H1 & _ & H3).
  - exact (ar_inv _ ex_ready).
  - lia.
  - lia.
  - split; [exact H1|]. apply (H3 16); lia.
Defined.

End KMemory.
