(* ===== verification/BootDump.v ===== *)
(** * boot_page_table.c: [dump_pagetable]

    The walk over the page tables that the boot loader makes after it has switched
    to its own, with its output.  [rd] is memory as it can be read, [None] where
    reading is a fault. *)
From S2P Require Import Prelude LibString CpuDefs Serial SerialThms.

Module BootDump.
Import LibString Serial.

Section walk.
Context {D : Type} {ports : PortIO D} (fuel : nat) (rd : Z -> option Z).

(** The serial port and the counter [total_pages]. *)
Record Walk := mkWalk { sp : @SerialPort D; total_pages : Z }.
Abbreviation M := (ST Walk).

Definition on_port (c : ST (@SerialPort D) unit) : M unit := fun s =>
  match c (sp s) with
  | Ret (_, p) => Ret (tt, mkWalk p (total_pages s))
  | Panic m => Panic m | Halt => Halt | Fault => Fault | OutOfFuel => OutOfFuel
  end.
Definition load (a : Z) : M Z := fun s => match rd a with Some v => Ret (v, s) | None => Fault end.

(** [for (u64 i = 0; i < 512; i++) if (t[i] & 0x1) body(i, t[i])] *)
Definition for_present (t : Z) (body : Z -> Z -> M unit) : M unit :=
  forM (seqZ 0 512) (fun i =>
    e ← load (wrap64 (t + 8 * i));
    if Z.land e 0x1 =? 0 then mret tt else body i e).

Definition next_level (e : Z) : Z := Z.land e 0xfffffffffffff000.

(** [puts(head); puti(n); puts(" "); puti(e); puts("\n")] *)
Definition put_entry (head : list Z) (n e : Z) : M unit :=
  on_port (puts fuel head;; puti fuel n;; puts fuel (lit " ");; puti fuel e;; puts fuel [10]).

Definition pt_entry (l e : Z) : M unit := modify (fun s => mkWalk (sp s) (wrap64 (total_pages s + 1))).
Definition pdt_entry (k e : Z) : M unit := if Z.land e 0x80 =? 0 then for_present (next_level e) pt_entry else mret tt.
Definition pdpt_entry (i j e : Z) : M unit :=
  put_entry (lit "  pdpe ") (wrap64 (i * 512 + j)) e;;
  for_present (next_level e) pdt_entry.
Definition pml4t_entry (i e : Z) : M unit :=
  put_entry (lit "pml4e ") i e;;
  for_present (next_level e) (pdpt_entry i).
Definition dump_pagetable (pml4t : Z) : M unit := for_present pml4t pml4t_entry.

(** ** What the walk sees *)

(** The present entries of a table that can be read. *)
Definition entries (t : Z) : list (Z * Z) :=
  i ← seqZ 0 512; match rd (wrap64 (t + 8 * i)) with Some e => if Z.land e 0x1 =? 0 then [] else [(i, e)] | None => [] end.
Definition readable (t : Z) : Prop := forall i, 0 <= i < 512 -> is_Some (rd (wrap64 (t + 8 * i))).

Lemma for_present_run t body s : readable t -> for_present t body s = forM (entries t) (fun x => body (fst x) (snd x)) s.
Proof using Type.
  intros Hr. unfold for_present, entries. rewrite forM_bind. apply forM_ext. intros i s1 Hi%elem_of_seqZ.
  destruct (Hr i ltac:(lia)) as [e He]. unfold load. unfold mbind at 1, st_bind at 1. rewrite He.
  destruct (Z.land e 1 =? 0); [done|]. cbn [forM]. unfold mbind, st_bind. cbn [fst snd]. by destruct (body i e s1) as [[[] ?]| | | |].
Qed.

(** [c] does not return. *)
Definition stuck (c : M unit) : Prop := forall s s', c s <> Ret (tt, s').

Lemma stuck_seq (c d : M unit) : stuck d -> stuck (c;; d).
Proof using Type. intros H s s' E. apply bind_inv in E as ([] & s1 & _ & E). by apply (H s1 s'). Qed.
Lemma stuck_forM {A} (l : list A) body x : x ∈ l -> stuck (body x) -> stuck (forM l body).
Proof using Type.
  intros Hx Hb. induction Hx as [x l|x y l Hx IH]; intros s s' E; cbn [forM] in E; apply bind_inv in E as ([] & s1 & E1 & E2); [by apply (Hb s s1)|].
  by apply (IH Hb s1 s').
Qed.
(** A table that cannot be read. *)
Lemma stuck_table t body i : 0 <= i < 512 -> rd (wrap64 (t + 8 * i)) = None -> stuck (for_present t body).
Proof using Type.
  intros Hi Hr. apply (stuck_forM _ _ i); [apply elem_of_seqZ; lia|]. intros s s' E. unfold load, mbind, st_bind in E. by rewrite Hr in E.
Qed.
Lemma stuck_entry t body i e : readable t -> (i, e) ∈ entries t -> stuck (body i e) -> stuck (for_present t body).
Proof using Type.
  intros Hr He Hb s s'. rewrite (for_present_run t body s Hr). apply (stuck_forM _ _ (i, e) He). exact Hb.
Qed.

(** The tables below a page map are readable, and no entry maps a page of 1 GiB. *)
Definition tables_readable (pml4t : Z) : Prop :=
  readable pml4t /\ (forall i e, (i, e) ∈ entries pml4t -> readable (next_level e) /\
    forall j f, (j, f) ∈ entries (next_level e) -> Z.land f 0x80 = 0 /\ readable (next_level f) /\
      forall k g, (k, g) ∈ entries (next_level f) -> Z.land g 0x80 = 0 -> readable (next_level g)).

(** Reference: the lines in order, and the number of 4 KiB pages. *)
Definition line (head : list Z) (n e : Z) : list Z := head ++ digits Hex n ++ [32] ++ digits Hex e ++ [10].
Definition lines (pml4t : Z) : list Z :=
  x ← entries pml4t; line (lit "pml4e ") (fst x) (snd x) ++
    (y ← entries (next_level (snd x)); line (lit "  pdpe ") (fst x * 512 + fst y) (snd y)).
Definition pages_of_pdt (t : Z) : list (Z * Z) := z ← entries t; if Z.land (snd z) 0x80 =? 0 then entries (next_level (snd z)) else [].
Definition small_pages (pml4t : Z) : list (Z * Z) :=
  x ← entries pml4t; y ← entries (next_level (snd x)); if Z.land (snd y) 0x80 =? 0 then pages_of_pdt (next_level (snd y)) else [].

(** ** The walk as the reference *)

Context (sent : D -> list Z).

(** [s'] is [s] after [bs] was sent and [n] pages were counted. *)
Definition walked (s s' : Walk) (bs : list Z) (n : Z) : Prop :=
  emits sent (sp s) (sp s') bs /\ total_pages s' = wrap64 (total_pages s + n).
(** The boot loader's port; its numbers are hexadecimal. *)
Definition port_ok (s : Walk) : Prop := port (sp s) = boot_port /\ int_radix_ (sp s) = Hex /\ uint 64 (total_pages s).

Lemma walked_refl s : port_ok s -> walked s s [] 0.
Proof using Type. intros (_ & _ & Ht). split; [apply emits_refl|]. by rewrite Z.add_0_r, wrap_small. Qed.
Lemma walked_trans s1 s2 s3 l l' n n' : walked s1 s2 l n -> walked s2 s3 l' n' -> walked s1 s3 (l ++ l') (n + n').
Proof using Type.
  intros [A1 A2] [B1 B2]. split; [by eapply emits_trans|]. rewrite B2, A2. unfold wrap. rewrite Zplus_mod_idemp_l. f_equal. lia.
Qed.
Lemma walked_ok s s' bs n : walked s s' bs n -> port_ok s -> port_ok s'.
Proof using Type. intros [(_ & A2 & A3 & _) B] (P1 & P2 & P3). split; [congruence|]. split; [congruence|]. rewrite B. apply wrap_uint. lia. Qed.

(** [c] sends [bs] and counts [n] pages. *)
Definition does (c : M unit) (bs : list Z) (n : Z) : Prop := forall s, port_ok s -> exists s', c s = Ret (tt, s') /\ walked s s' bs n.

Lemma does_seq c d bs bs' n n' : does c bs n -> does d bs' n' -> does (c;; d) (bs ++ bs') (n + n').
Proof using Type.
  intros Hc Hd s Hs. destruct (Hc s Hs) as (s1 & E1 & W1). destruct (Hd s1 (walked_ok _ _ _ _ W1 Hs)) as (s2 & E2 & W2).
  exists s2. split; [by step_with E1|]. by eapply walked_trans.
Qed.
Lemma does_forM {A B} (l : list A) body (f : A -> list Z) (g : A -> list B) : (forall x, x ∈ l -> does (body x) (f x) (Z.of_nat (length (g x)))) ->
  does (forM l body) (x ← l; f x) (Z.of_nat (length (x ← l; g x))).
Proof using Type.
  induction l as [|x l IH]; intros Hall; [intros s Hs; exists s; split; [done|]; by apply walked_refl|].
  rewrite !bind_cons, length_app, Nat2Z.inj_add. cbn [forM]. apply does_seq; [apply Hall; left|]. apply IH. intros y Hy. apply Hall. by right.
Qed.

Lemma entries_spec t i e : (i, e) ∈ entries t -> 0 <= i < 512 /\ rd (wrap64 (t + 8 * i)) = Some e.
Proof using Type.
  unfold entries. rewrite list_elem_of_bind. intros (j & H & Hj%elem_of_seqZ). destruct (rd _) as [v|] eqn:E; [|by apply elem_of_nil in H].
  destruct (Z.land v 1 =? 0); [by apply elem_of_nil in H|]. apply list_elem_of_singleton in H as [= -> ->]. split; [lia|done].
Qed.

Lemma pdt_does t : readable t -> (forall k g, (k, g) ∈ entries t -> Z.land g 0x80 = 0 -> readable (next_level g)) ->
  does (for_present t pdt_entry) [] (Z.of_nat (length (pages_of_pdt t))).
Proof using Type.
  intros Hr Hn. assert (forall l : list (Z * Z), (l ≫= (fun _ => [])) = ([] : list Z)) as E0 by (induction l as [|x l IH]; [done|exact IH]).
  intros s. rewrite (for_present_run t _ s Hr). rewrite <- (E0 (entries t)). revert s. apply (does_forM (entries t) _ (fun _ => [])). intros [k g] Hk. cbn [fst snd]. unfold pdt_entry.
  destruct (Z.eqb_spec (Z.land g 0x80) 0) as [E|E]; [|intros s Hs; exists s; split; [done|by apply walked_refl]].
  intros s. rewrite for_present_run by eauto. revert s. generalize (entries (next_level g)) as l. clear. intros l.
  induction l as [|x l IH]; [intros s Hs; exists s; split; [done|by apply walked_refl]|]. cbn [forM length]. rewrite Nat2Z.inj_succ, <- Z.add_1_l.
  apply (does_seq _ _ [] []); [|exact IH]. intros s Hs. eexists. split; [reflexivity|]. split; [apply emits_refl|done].
Qed.

Context (polls : nat) (Hu : uart_laws sent boot_port polls) (Hf : (polls < fuel)%nat).

Lemma puts_run bs s : port s = boot_port -> Forall (fun b => 0 <= b < 256) bs -> exists s', puts fuel bs s = Ret (tt, s') /\ emits sent s s' (chars bs).
Proof using Hu Hf.
  intros Hp Hb. assert (puts fuel bs s = put_list fuel (chars bs) s) as ->; [|by apply (put_list_run sent boot_port polls Hu); [..|apply chars_ok]].
  revert s Hp. clear Hb. induction bs as [|b bs IH]; intros s Hp; [done|]. cbn [puts chars]. destruct (b =? 0); [done|]. cbn [negb put_list].
  unfold mbind, st_bind. rewrite putb_eq by done. destruct (put fuel b s) as [[[] s1]| | | |] eqn:E; [|done..]. apply IH. by rewrite (put_port _ _ _ _ E).
Qed.
Lemma puti_run n s : port s = boot_port -> int_radix_ s = Hex -> 0 <= n < 2 ^ 64 -> exists s', puti fuel n s = Ret (tt, s') /\ emits sent s s' (digits Hex n).
Proof using Hu Hf.
  intros Hp Hr Hn. rewrite (proj2 (boot_prints_like_kernel fuel s Hp Hr) n Hn). destruct (digits_ok Hex n Hn) as (ds & E1 & E2 & E3 & _).
  unfold put_int. rewrite Hr, E1, E2. apply (put_list_run sent boot_port polls Hu); [done|done|]. apply Forall_fmap. eapply Forall_impl; [exact E3|]. apply alphabet_byte.
Qed.

Lemma put_entry_does head n e : Forall (fun b => 0 < b < 256) head -> 0 <= n < 2 ^ 64 -> 0 <= e < 2 ^ 64 -> does (put_entry head n e) (line head n e) 0.
Proof using Hu Hf.
  intros Hh Hn He s (Hp & Hr & Ht). unfold put_entry.
  assert (forall q q' bs, emits sent q q' bs -> port q = boot_port -> int_radix_ q = Hex -> port q' = boot_port /\ int_radix_ q' = Hex) as Hk
    by (intros q q' bs (_ & A & B & _) ? ?; split; congruence).
  destruct (puts_run head (sp s) Hp) as (q1 & E1 & T1); [eapply Forall_impl; [exact Hh|]; cbn; clear; lia|]. destruct (Hk _ _ _ T1 Hp Hr) as [P1 R1].
  destruct (puti_run n q1 P1 R1 Hn) as (q2 & E2 & T2). destruct (Hk _ _ _ T2 P1 R1) as [P2 R2].
  destruct (puts_run (lit " ") q2 P2) as (q3 & E3 & T3); [by apply Forall_singleton|]. destruct (Hk _ _ _ T3 P2 R2) as [P3 R3].
  destruct (puti_run e q3 P3 R3 He) as (q4 & E4 & T4). destruct (Hk _ _ _ T4 P3 R3) as [P4 R4].
  destruct (puts_run [10] q4 P4) as (q5 & E5 & T5); [by apply Forall_singleton|].
  exists (mkWalk q5 (total_pages s)). split.
  { unfold on_port. rewrite (bind_ret _ _ _ _ _ E1), (bind_ret _ _ _ _ _ E2), (bind_ret _ _ _ _ _ E3), (bind_ret _ _ _ _ _ E4), E5. done. }
  split; [|cbn [total_pages]; by rewrite Z.add_0_r, wrap_small].
  assert (chars head = head) as Eh. { clear -Hh. induction Hh as [|b l Hb _ IH]; [done|]. cbn [chars]. rewrite (proj2 (Z.eqb_neq _ _)) by lia. by rewrite IH. }
  rewrite Eh in T1. pose proof (emits_trans _ _ _ _ _ _ (emits_trans _ _ _ _ _ _ (emits_trans _ _ _ _ _ _ (emits_trans _ _ _ _ _ _ T1 T2) T3) T4) T5) as T.
  rewrite <- !app_assoc in T. exact T.
Qed.

Context (Hrd : forall a v, rd a = Some v -> 0 <= v < 2 ^ 64).

Lemma does_eq c bs bs' n n' : bs = bs' -> n = n' -> does c bs n -> does c bs' n'.
Proof using Type. by intros -> ->. Qed.

Lemma pdpt_entry_does i j e : 0 <= i < 512 -> 0 <= j < 512 -> 0 <= e < 2 ^ 64 -> readable (next_level e) ->
  (forall k g, (k, g) ∈ entries (next_level e) -> Z.land g 0x80 = 0 -> readable (next_level g)) ->
  does (pdpt_entry i j e) (line (lit "  pdpe ") (i * 512 + j) e) (Z.of_nat (length (pages_of_pdt (next_level e)))).
Proof using Hu Hf.
  intros Hi Hj He Hr Hn. eapply does_eq; [|apply Z.add_0_l|]; [apply app_nil_r|]. unfold pdpt_entry. clear Hrd.
  rewrite (wrap_small 64 (i * 512 + j)) by (unfold uint; clear -Hi Hj; lia).
  apply does_seq; [|by apply pdt_does]. apply put_entry_does; [|clear -Hi Hj; lia|done]. repeat (apply Forall_cons; split; [done|]). by apply Forall_nil.
Qed.

Lemma dump_does pml4t : tables_readable pml4t -> does (dump_pagetable pml4t) (lines pml4t) (Z.of_nat (length (small_pages pml4t))).
Proof using Hu Hf Hrd.
  intros [Hr Hnext] s. unfold dump_pagetable. rewrite (for_present_run _ _ s Hr). revert s. apply does_forM. intros [i e] Hi. cbn [fst snd].
  destruct (Hnext i e Hi) as [Hr2 Hnext2]. pose proof (entries_spec _ _ _ Hi) as [Hi1 Hi2].
  unfold pml4t_entry. eapply does_eq; [reflexivity|apply Z.add_0_l|]. apply does_seq.
  - apply put_entry_does; [|clear -Hi1; lia|eauto]. repeat (apply Forall_cons; split; [done|]). by apply Forall_nil.
  - intros s. rewrite (for_present_run _ _ s Hr2). revert s. apply does_forM. intros [j f] Hj. cbn [fst snd].
    destruct (Hnext2 j f Hj) as (Hps & Hr3 & Hnext3). pose proof (entries_spec _ _ _ Hj) as [Hj1 Hj2]. rewrite Hps. apply pdpt_entry_does; eauto.
Qed.

End walk.

Lemma length_bind_le {A B} (l : list A) (f : A -> list B) n : (forall x, length (f x) <= n)%nat -> (length (l ≫= f) <= length l * n)%nat.
Proof. intros H. induction l as [|x l IH]; [done|]. rewrite bind_cons, length_app. cbn [length]. specialize (H x). lia. Qed.
Lemma entries_length rd t : (length (entries rd t) <= 512)%nat.
Proof.
  unfold entries. etransitivity; [apply (length_bind_le _ _ 1)|by rewrite length_seqZ].
  intros i. destruct (rd _) as [v|]; [|cbn; lia]. destruct (Z.land v 1 =? 0); cbn; lia.
Qed.
Lemma small_pages_bound rd pml4t : Z.of_nat (length (small_pages rd pml4t)) < 2 ^ 64.
Proof.
  assert (forall t, (length (pages_of_pdt rd t) <= 512 * 512)%nat) as H1.
  { intros t. etransitivity; [apply (length_bind_le _ _ 512)|pose proof (entries_length rd t); lia].
    intros z. destruct (_ =? 0); [apply entries_length|cbn; lia]. }
  assert (forall t, (length (y ← entries rd t; if (Z.land (snd y) 0x80 =? 0)%Z then pages_of_pdt rd (next_level (snd y)) else []) <= 512 * (512 * 512))%nat) as H2.
  { intros t. etransitivity; [apply (length_bind_le _ _ (512 * 512))|pose proof (entries_length rd t); lia].
    intros y. destruct (_ =? 0); [apply H1|apply Nat.le_0_l]. }
  assert (length (small_pages rd pml4t) <= 512 * (512 * (512 * 512)))%nat as H3; [|lia].
  unfold small_pages. etransitivity; [apply (length_bind_le _ _ (512 * (512 * 512)))|pose proof (entries_length rd pml4t); lia]. intros x. apply H2.
Qed.

(** C12: the boot loader's page table dump.  On tables that can be read and map no
    page of 1 GiB it ends, prints one line for every present entry of the page map
    and, below each, for every present entry of its page directory pointer table,
    in order, with the index and the entry in hexadecimal, and counts exactly the 4
    KiB pages that are mapped.  It takes every entry of a page directory pointer
    table for one that leads to a page directory, a mapping of 1 GiB too: where a
    word of what it takes for the directory cannot be read, it does not end. *)
Theorem dump_pagetable_ok {D} {ports : PortIO D} fuel rd sent polls pml4t (s : @Walk D) :
  uart_laws sent boot_port polls -> (polls < fuel)%nat -> (forall a v, rd a = Some v -> 0 <= v < 2 ^ 64) ->
  port (sp s) = boot_port -> int_radix_ (sp s) = Hex -> total_pages s = 0 ->
  (tables_readable rd pml4t -> exists s', dump_pagetable fuel rd pml4t s = Ret (tt, s') /\
     sent (dev (sp s')) = sent (dev (sp s)) ++ lines rd pml4t /\ total_pages s' = Z.of_nat (length (small_pages rd pml4t))) /\
  (forall i e j f k, readable rd pml4t -> (i, e) ∈ entries rd pml4t -> readable rd (next_level e) -> (j, f) ∈ entries rd (next_level e) ->
     0 <= k < 512 -> rd (wrap64 (next_level f + 8 * k)) = None -> forall s', dump_pagetable fuel rd pml4t s <> Ret (tt, s')).
Proof.
  intros Hu Hf Hrd Hp Hr Ht. split.
  - intros Htab. assert (port_ok s) as Hok by (split; [done|]; split; [done|]; by rewrite Ht).
    destruct (dump_does fuel rd sent polls Hu Hf Hrd pml4t Htab s Hok) as (s' & E & (T & _) & Hn).
    exists s'. split; [done|]. split; [done|]. rewrite Hn, Ht, Z.add_0_l. apply wrap_small. split; [lia|]. apply small_pages_bound.
  - intros i e j f k R1 E1 R2 E2 Hk Hnone s'. apply (stuck_entry rd pml4t _ i e R1 E1). apply stuck_seq.
    apply (stuck_entry rd _ _ j f R2 E2). apply stuck_seq. by apply (stuck_table rd _ _ k).
Qed.

(** ** Concrete runs *)

(** Four tables from 0x1000 on, one entry each; [f] is the second. *)
Definition ex_rd (f a : Z) : option Z :=
  if (0x1000 <=? a) && (a <? 0x5000) then
    Some (if a =? 0x1000 then 0x2003 else if a =? 0x2000 then f else if a =? 0x3008 then 0x4003 else if a =? 0x4010 then 0xabc003 else 0)
  else None.
Definition ex_walk : @Walk Line := mkWalk (mkSP ([], true) boot_port Hex 0) 0.

Lemma ex_rd_u64 f a v : 0 <= f < 2 ^ 64 -> ex_rd f a = Some v -> 0 <= v < 2 ^ 64.
Proof. intros Hf. unfold ex_rd. destruct (_ && _); [|done]. intros [= <-]. repeat (destruct (a =? _); [lia|]). lia. Qed.
Lemma ex_readable f t : 0x1000 <= t <= 0x4000 -> readable (ex_rd f) t.
Proof.
  intros Ht i Hi. unfold ex_rd. rewrite wrap_small by (unfold uint; lia). by rewrite (proj2 (Z.leb_le _ _)), (proj2 (Z.ltb_lt _ _)) by lia.
Qed.
Lemma ex_tables : tables_readable (ex_rd 0x3003) 0x1000.
Proof.
  split; [by apply ex_readable|]. intros i e. assert (entries (ex_rd 0x3003) 0x1000 = [(0, 0x2003)]) as -> by (by vm_compute).
  intros [= -> ->]%list_elem_of_singleton. split; [by apply ex_readable|]. intros j f.
  assert (entries (ex_rd 0x3003) (next_level 0x2003) = [(0, 0x3003)]) as -> by (by vm_compute).
  intros [= -> ->]%list_elem_of_singleton. split; [done|]. split; [by apply ex_readable|]. intros k g.
  assert (entries (ex_rd 0x3003) (next_level 0x3003) = [(1, 0x4003)]) as -> by (by vm_compute).
  intros [= -> ->]%list_elem_of_singleton _. by apply ex_readable.
Qed.

Lemma dump_pagetable_ok_witness :
  (exists s', dump_pagetable 2 (ex_rd 0x3003) 0x1000 ex_walk = Ret (tt, s') /\
    fst (dev (sp s')) = lit "pml4e 0 2003" ++ [10] ++ lit "  pdpe 0 3003" ++ [10] /\ total_pages s' = 1) /\
  (forall s', dump_pagetable 2 (ex_rd 0x40000083) 0x1000 ex_walk <> Ret (tt, s')).
Proof.
  split.
  - destruct (dump_pagetable_ok 2 (ex_rd 0x3003) fst 1 0x1000 ex_walk line_laws ltac:(lia) (fun a v => ex_rd_u64 0x3003 a v ltac:(lia)) eq_refl eq_refl eq_refl) as [H _].
    destruct (H ex_tables) as (s' & H1 & H2 & H3). exists s'. split; [exact H1|]. split; [exact (eq_trans H2 ltac:(vm_compute; reflexivity))|].
    exact (eq_trans H3 ltac:(vm_compute; reflexivity)).
  - refine (proj2 (dump_pagetable_ok 2 (ex_rd 0x40000083) fst 1 0x1000 ex_walk line_laws ltac:(lia) (fun a v => ex_rd_u64 0x40000083 a v ltac:(lia)) eq_refl eq_refl eq_refl)
      0 0x2003 0 0x40000083 0 _ _ _ _ _ _).
    + by apply ex_readable.
    + assert (entries (ex_rd 0x40000083) 0x1000 = [(0, 0x2003)]) as -> by (by vm_compute). left.
    + by apply ex_readable.
    + assert (entries (ex_rd 0x40000083) (next_level 0x2003) = [(0, 0x40000083)]) as -> by (by vm_compute). left.
    + lia.
    + by vm_compute.
Defined.

End BootDump.
