(* ===== verification/PortIo.v ===== *)
(** * lib/port_io.cpp: port input and output

    The four functions as the instructions of their inline assembly, over the
    registers they use and whatever is behind the ports; the boot loader has its
    own copies of the first two.  They are the implementation of the interface
    through which the serial port is driven. *)
From S2P Require Import Prelude LibString Serial SerialThms.

Module PortIo.
Import LibString Serial.

(** What the processor does on the bus: reads and writes of one and four bytes. *)
Class Bus (D : Type) := {
  in8 : Z -> D -> Z * D;
  out8 : Z -> Z -> D -> D;
  in32 : Z -> D -> Z * D;
  out32 : Z -> Z -> D -> D
}.

Section asm.
Context {D : Type} {bus : Bus D}.

Record Cpu := mkCpu { rax : Z; rdx : Z; devs : D }.

Inductive instr :=
  | MOV_al (src : Z) | MOV_eax (src : Z) | MOV_dx (src : Z)
  | OUTB | INB | OUTL | INL.

(** An 8- or 16-bit destination keeps the other bits of the register, a 32-bit one
    clears the upper half. *)
Definition effect (i : instr) (c : Cpu) : Cpu :=
  match i with
  | MOV_al v => mkCpu (set_bits 0 8 v (rax c)) (rdx c) (devs c)
  | MOV_eax v => mkCpu (wrap32 v) (rdx c) (devs c)
  | MOV_dx v => mkCpu (rax c) (set_bits 0 16 v (rdx c)) (devs c)
  | OUTB => mkCpu (rax c) (rdx c) (out8 (get_bits 0 16 (rdx c)) (get_bits 0 8 (rax c)) (devs c))
  | INB => let '(v, d) := in8 (get_bits 0 16 (rdx c)) (devs c) in mkCpu (set_bits 0 8 v (rax c)) (rdx c) d
  | OUTL => mkCpu (rax c) (rdx c) (out32 (get_bits 0 16 (rdx c)) (get_bits 0 32 (rax c)) (devs c))
  | INL => let '(v, d) := in32 (get_bits 0 16 (rdx c)) (devs c) in mkCpu (wrap32 v) (rdx c) d
  end.
Fixpoint run (l : list instr) (c : Cpu) : Cpu := match l with [] => c | i :: l => run l (effect i c) end.

Definition outb (address data : Z) (c : Cpu) : Cpu := run [MOV_al data; MOV_dx address; OUTB] c.
(** The result is moved from [al]. *)
Definition inb (address : Z) (c : Cpu) : Z * Cpu := let c := run [MOV_dx address; INB] c in (get_bits 0 8 (rax c), c).
Definition outl (address data : Z) (c : Cpu) : Cpu := run [MOV_eax data; MOV_dx address; OUTL] c.
Definition inl (address : Z) (c : Cpu) : Z * Cpu := let c := run [MOV_dx address; INL] c in (get_bits 0 32 (rax c), c).

(** The copies of the boot loader. *)
Definition boot_outb (address data : Z) (c : Cpu) : Cpu := run [MOV_al data; MOV_dx address; OUTB] c.
Definition boot_inb (address : Z) (c : Cpu) : Z * Cpu := let c := run [MOV_dx address; INB] c in (get_bits 0 8 (rax c), c).

(** The functions as the serial port sees them. *)
Definition port_io : PortIO Cpu := {| Serial.inb := inb; Serial.outb := outb |}.

Lemma get_set_low n v w : 0 <= n -> get_bits 0 n (set_bits 0 n v w) = v mod 2 ^ n.
Proof. intros Hn. by apply get_set_bits. Qed.

Lemma outb_run address data c : devs (outb address data c) = out8 (wrap16 address) (wrap8 data) (devs c).
Proof. unfold outb. cbn [run effect devs rax rdx]. by rewrite !get_set_low by lia. Qed.
Lemma inb_run address c : fst (inb address c) = wrap8 (fst (in8 (wrap16 address) (devs c))) /\ devs (snd (inb address c)) = snd (in8 (wrap16 address) (devs c)).
Proof.
  unfold inb. cbn [run effect devs rax rdx]. rewrite !get_set_low by lia. fold (wrap16 address). change (address mod 2 ^ 16) with (wrap16 address).
  destruct (in8 (wrap16 address) (devs c)) as [v d]. cbn [fst snd rax devs]. by rewrite get_set_low by lia.
Qed.

Lemma outl_run address data c : devs (outl address data c) = out32 (wrap16 address) (wrap32 data) (devs c).
Proof.
  unfold outl. cbn [run effect devs rax rdx]. rewrite get_set_low by lia. change (address mod 2 ^ 16) with (wrap16 address). f_equal.
  unfold get_bits. rewrite Z.shiftr_0_r, Z.land_ones by lia. unfold wrap. by rewrite Z.mod_mod by lia.
Qed.
Lemma inl_run address c : fst (inl address c) = wrap32 (fst (in32 (wrap16 address) (devs c))) /\ devs (snd (inl address c)) = snd (in32 (wrap16 address) (devs c)).
Proof.
  unfold inl. cbn [run effect devs rax rdx]. rewrite get_set_low by lia. change (address mod 2 ^ 16) with (wrap16 address).
  destruct (in32 (wrap16 address) (devs c)) as [v d]. cbn [fst snd rax devs]. split; [|done].
  unfold get_bits. rewrite Z.shiftr_0_r, Z.land_ones by lia. unfold wrap. by rewrite Z.mod_mod by lia.
Qed.

(** The bus as a port without the processor in between. *)
Definition bus_ports : PortIO D := {| Serial.inb := in8; Serial.outb := out8 |}.

Context (Hbyte : forall a d, 0 <= fst (in8 a d) < 256).

Lemma inb_same a c : 0 <= a < 2 ^ 16 -> fst (inb a c) = fst (in8 a (devs c)) /\ devs (snd (inb a c)) = snd (in8 a (devs c)).
Proof using Hbyte.
  intros Ha. destruct (inb_run a c) as [H1 H2]. rewrite (wrap_small 16 a Ha) in H1, H2. split; [|done]. rewrite H1. apply wrap_small. apply Hbyte.
Qed.

Lemma empty_after_asm base n c : 0 <= base < 2 ^ 16 - 8 -> empty_after (D := D) (H := bus_ports) base n (devs c) -> empty_after (D := Cpu) (H := port_io) base n c.
Proof using Hbyte.
  intros Hb. revert c. induction n as [|n IH]; intros c; cbn [empty_after Serial.inb bus_ports port_io];
    destruct (inb_same (base + 5) c ltac:(lia)) as [E1 E2];
    destruct (in8 (base + 5) (devs c)) as [v d], (inb (base + 5) c) as [v' c']; cbn [fst snd] in *; subst v' d; [done|].
  intros [H1 H2]. split; [done|]. by apply IH.
Qed.

(** A port that obeys the laws obeys them through the assembly. *)
Lemma asm_uart_laws sent base n : uart_laws (D := D) (H := bus_ports) sent base n -> uart_laws (D := Cpu) (H := port_io) (fun c => sent (devs c)) base n.
Proof using Hbyte.
  intros [H1 H2 H3 H4]. split; [done|..].
  - intros a c. cbn [Serial.inb port_io]. destruct (inb_run a c) as [_ ->]. apply (H2 (wrap16 a)).
  - intros c. destruct (H3 (devs c)) as (k & Hk & He). exists k. split; [done|]. by apply empty_after_asm.
  - intros c b. cbn [Serial.inb Serial.outb port_io]. destruct (inb_same (base + 5) c ltac:(lia)) as [-> E2]. intros Hst Hb.
    rewrite outb_run, E2, !wrap_small by (unfold uint; lia). by apply H4.
Qed.

End asm.

(** C34: the assembly behind [inb] and [outb] is right: whatever the registers held, a
    serial port with the documented behaviour receives exactly the characters that
    are printed with [<<], [outl] and [inl] transfer exactly 32 bits at the given
    port, and the boot loader's copies of the byte functions exactly 8. *)
Theorem port_io_prints {D} {bus : Bus D} sent base polls fuel l (s : @SerialPort Cpu) :
  (forall a d, 0 <= fst (in8 a d) < 256) -> uart_laws (D := D) (H := bus_ports) sent base polls -> port s = base -> (polls < fuel)%nat -> Forall item_ok l ->
  (exists s', print (H := port_io) fuel l s = Ret (tt, s') /\ sent (devs (dev s')) = sent (devs (dev s)) ++ render_all (int_radix_ s) l) /\
  (forall address data c, devs (outl address data c) = out32 (wrap16 address) (wrap32 data) (devs c) /\
     fst (inl address c) = wrap32 (fst (in32 (wrap16 address) (devs c))) /\
     devs (boot_outb address data c) = out8 (wrap16 address) (wrap8 data) (devs c) /\
     fst (boot_inb address c) = wrap8 (fst (in8 (wrap16 address) (devs c)))).
Proof.
  intros Hbyte Hu Hp Hf Hl. split.
  - destruct (print_run (H := port_io) _ base polls (asm_uart_laws Hbyte sent base polls Hu) fuel l s Hp Hf Hl) as (s' & H1 & H2 & _). by exists s'.
  - intros address data c. split; [apply outl_run|]. split; [apply inl_run|]. split; [exact (outb_run address data c)|]. exact (proj1 (inb_run address c)).
Qed.

(** ** A port *)

#[export] Instance line_bus : Bus Line := {| in8 := @Serial.inb Line line_port; out8 := @Serial.outb Line line_port; in32 := fun a d => (0, d); out32 := fun a v d => d |}.

Lemma port_io_prints_witness :
  exists s', print (H := port_io) 2 [Str (lit "a = 0x"); Radix Hex; Int 255] (mkSP (mkCpu 0x1234 0x5678 (([], true) : Line)) boot_port Dec 0) = Ret (tt, s') /\
    fst (devs (dev s')) = lit "a = 0xff".
Proof.
  destruct (port_io_prints (bus := line_bus) fst boot_port 1 2 [Str (lit "a = 0x"); Radix Hex; Int 255] (mkSP (mkCpu 0x1234 0x5678 (([], true) : Line)) boot_port Dec 0)) as [(s' & H1 & H2) _].
  - intros a [l b]. unfold in8, line_bus, Serial.inb, line_port. cbn [fst snd]. destruct (a =? boot_port + 5), (a =? boot_port + 2), (a =? boot_port), b; cbn; lia.
  - exact line_laws.
  - reflexivity.
  - lia.
  - repeat constructor; cbn; lia.
  - exists s'. split; [exact H1|]. exact (eq_trans H2 eq_refl).
Defined.

End PortIo.
