(* ===== verification/Init.v ===== *)
(** * init/init.S, init/init.cpp and kernel_start: entering the kernel

    The first stack of the kernel, the constructor of [Kernel] and the copy of the
    structure that the boot loader hands over.  The switch of stacks runs on the machine of
    [ContextSwitch]; the structure is its packed bytes. *)
From S2P Require Import Prelude LibUtils CpuDefs LibString SmallVec Paging Process Elf Boot Irq Serial SerialThms Syscall ContextSwitch ContextSwitchThms.

Module Init.
Import LibString ContextSwitch.

(** ** The first stack *)

(** [kernel_init_stack], and the value of [kernel_init_stack_bottom] for an array at
    [stack]. *)
Definition sizeof_kernel_init_stack : Z := 4096 * 8.
Definition kernel_init_stack_bottom (stack : Z) : Z := wrap64 (stack + (sizeof_kernel_init_stack - 128)).

(** [movabsq (kernel_init_stack_bottom), %rax] and [ret] *)
Definition load_abs (a : Z) (dst : reg) (m : Machine) : Machine := set_gpr dst (mem m a) m.
Definition ret (m : Machine) : Machine :=
  let r := regs m in
  mkMachine (mkRegs (gpr r) (seg r) (r_cr3 r) (word_at m 0) (r_cs r) (r_rflags r) (wrap64 (r_rsp r + 8)) (r_ss r)) (mem m) (sys m).

(** [var] is the address of the variable [kernel_init_stack_bottom]. *)
Definition _setup_init_stack (var : Z) (m : Machine) : Machine :=
  ret (run [MOV_to_rsp RAX; PUSH RDI] (load_abs var RAX (effect (POP RDI) m))).

(** ** The structure handed over *)

Definition sizeof_EFIServicesInfo : Z := 8192 + 5 * 8 + 4 + 8.

(** [*(EFIServicesInfo* )a] *)
Definition info_at (m : memory) (a : Z) : Boot.EFIServicesInfo :=
  Boot.mkInfo (read_bytes m a 8192) (Elf.le_read 8 m (a + 8192)) (Elf.le_read 8 m (a + 8200)) (Elf.le_read 8 m (a + 8208))
    (Elf.le_read 8 m (a + 8216)) (Elf.le_read 8 m (a + 8224)) (Elf.le_read 4 m (a + 8232)) (Elf.le_read 8 m (a + 8236)).

(** The members of the kernel object before [efi_info]: four pointers, a vector of
    eight pairs with its size at the end, a pointer and the serial port; the object
    is padded to a multiple of eight bytes. *)
Definition offset_stacks_size : Z := 4 * 8 + 8 * 16.
Definition offset_serial_port : Z := offset_stacks_size + 8 + 8.
Definition offset_efi_info : Z := offset_serial_port + 8.
Definition sizeof_Kernel : Z := (offset_efi_info + sizeof_EFIServicesInfo + 7) / 8 * 8.

(** [Kernel kernel;] the members that have a value: the size of the vector, and
    the number of the serial port, whose constructor programs the port [d]. *)
Definition Kernel_new {D} `{Serial.PortIO D} (kernel : Z) (m : memory) (d : D) : memory * D :=
  let m := memset (wrap64 (kernel + offset_stacks_size)) 0 8 m in
  let m := write (wrap64 (kernel + offset_serial_port + 1)) 0x03 (write (wrap64 (kernel + offset_serial_port)) 0xf8 m) in
  (m, match Serial.SerialPort_init (Serial.mkSP d 0x3f8 Dec 0) with Ret (_, p) => Serial.dev p | _ => d end).

(** [kernel_start] up to the call of [start]: memory, the serial port, and the new
    value of [Kernel::k]. *)
Definition kernel_start {D} `{Serial.PortIO D} (kernel efi_info : Z) (m : memory) (d : D) : memory * D * Z :=
  let '(m, d) := Kernel_new kernel m d in
  (memcpy (wrap64 (kernel + offset_efi_info)) efi_info sizeof_EFIServicesInfo m, d, kernel).

(** ** Entering *)

Lemma read_bytes_shift n m m' a b : (forall x, 0 <= x < n -> m' (a + x) = m (b + x)) -> 0 <= a -> 0 <= b -> a + n <= 2 ^ 64 -> b + n <= 2 ^ 64 ->
  read_bytes m' a n = read_bytes m b n.
Proof.
  intros H Ha Hb Han Hbn. unfold read_bytes. apply list_fmap_ext. intros i x Hx. apply lookup_seq in Hx as [-> Hi]. rewrite !wrap_small by (unfold uint; lia). apply H. lia.
Qed.

(** The copy reads like the original. *)
Lemma info_at_shift m m' a b : (forall x, 0 <= x < sizeof_EFIServicesInfo -> m' (a + x) = m (b + x)) -> 0 <= a -> 0 <= b ->
  a + sizeof_EFIServicesInfo <= 2 ^ 64 -> b + sizeof_EFIServicesInfo <= 2 ^ 64 -> info_at m' a = info_at m b.
Proof.
  unfold sizeof_EFIServicesInfo. intros H Ha Hb Han Hbn. unfold info_at. f_equal; [apply read_bytes_shift; [|lia..]; intros x Hx; apply H; lia|..].
  all: apply Elf.le_read_shift; [intros x Hx; rewrite <- !Z.add_assoc; apply H; lia|lia..].
Qed.

Lemma setup_init_stack_run var m b : mem m var = b -> 0 <= r_rsp (regs m) < 2 ^ 64 -> 8 <= b < 2 ^ 64 ->
  let m' := _setup_init_stack var m in
  r_rip (regs m') = mem m (r_rsp (regs m)) /\ r_rsp (regs m') = b /\ gpr (regs m') RDI = mem m (r_rsp (regs m)) /\
  (forall x, x <> RAX -> x <> RDI -> gpr (regs m') x = gpr (regs m) x) /\ (forall a, a <> b - 8 -> mem m' a = mem m a).
Proof.
  destruct m as [[g s c3 ip cs0 fl p st] mm k]. cbn [mem regs r_rsp]. intros Hb Hp Hb8.
  set (g1 := upd (upd g RDI (mm p)) RAX b).
  assert (_setup_init_stack var (mkMachine (mkRegs g s c3 ip cs0 fl p st) mm k) =
    mkMachine (mkRegs g1 s c3 (mm p) cs0 fl b st) (upd mm (b - 8) (mm p)) k) as ->.
  { unfold _setup_init_stack. cbn [run effect]. unfold ret, push, load_abs, word_at, set_rsp, set_gpr, with_rsp, with_gpr, word_at.
    cbn [regs mem gpr seg r_cr3 r_rip r_cs r_rflags r_rsp r_ss sys]. rewrite !Z.add_0_r, (wrap_small 64 p Hp), Hb. fold g1.
    assert (g1 RAX = b) as -> by (unfold g1, upd; by rewrite decide_True). assert (g1 RDI = mm p) as -> by (unfold g1, upd; by rewrite decide_False, decide_True).
    assert (wrap64 (b - 8) = b - 8) as E by (apply wrap_small; unfold uint; lia). rewrite !E. replace (b - 8 + 8) with b by lia.
    unfold upd at 1. rewrite decide_True by done. by rewrite (wrap_small 64 b) by (unfold uint; lia). }
  cbn [regs mem gpr r_rip r_rsp]. unfold g1, upd. split_and!; try done.
  - intros x H1 H2. by rewrite !decide_False by done.
  - intros a Ha. by rewrite decide_False by done.
Qed.

(** Memory after the constructor of the kernel object. *)
Lemma Kernel_new_run {D} `{Serial.PortIO D} kernel m (d : D) : 0 <= kernel -> kernel + sizeof_Kernel <= 2 ^ 64 ->
  let m' := fst (Kernel_new kernel m d) in
  Elf.le_read 8 m' (kernel + offset_stacks_size) = 0 /\ Elf.le_read 2 m' (kernel + offset_serial_port) = 0x3f8 /\
  (forall a, a < kernel \/ kernel + offset_efi_info <= a -> m' a = m a).
Proof.
  assert (sizeof_Kernel = 8432 /\ offset_efi_info = 184 /\ offset_stacks_size = 160 /\ offset_serial_port = 176) as (-> & -> & -> & ->) by done.
  intros H0 H1. unfold Kernel_new. cbn [fst].
  assert (offset_stacks_size = 160 /\ offset_serial_port = 176) as (-> & ->) by done.
  rewrite !(wrap_small 64) by (unfold uint; lia). set (m1 := memset _ _ _ _). replace (kernel + 176 + 1) with (kernel + 177) by lia.
  assert (forall a, write (kernel + 177) 0x03 (write (kernel + 176) 0xf8 m1) a =
    if decide (a = kernel + 177) then 0x03 else if decide (a = kernel + 176) then 0xf8 else if decide (kernel + 160 <= a < kernel + 168) then 0 else m a) as E.
  { intros a. unfold write, insert, fn_insert. destruct (decide (kernel + 177 = a)) as [<-|Ha]; [by rewrite decide_True|]. rewrite (decide_False (P := a = kernel + 177)) by lia.
    destruct (decide (kernel + 176 = a)) as [<-|Hb]; [by rewrite decide_True|]. rewrite (decide_False (P := a = kernel + 176)) by lia.
    unfold m1. rewrite memset_spec by lia. replace (kernel + 160 + 8) with (kernel + 168) by lia. by case_decide. }
  set (m2 := write _ _ _) in *. split; [|split].
  - rewrite (Elf.le_read_shift 8 (fun _ => 0) m2 (kernel + 160) 0); [done| |lia..].
    intros x Hx. rewrite E. repeat case_decide; lia.
  - rewrite (Elf.le_read_shift 2 (fun x => if x =? 0 then 0xf8 else 0x03) m2 (kernel + 176) 0); [done| |lia..].
    intros x Hx. rewrite E. assert (x = 0 \/ x = 1) as [->| ->] by lia; repeat case_decide; try lia; done.
  - intros a Ha. rewrite E. repeat case_decide; lia || done.
Qed.

(** C10: the kernel is entered on its own stack with what the boot loader found out.
    The assembly at the entry returns to its caller on the kernel's first stack,
    128 bytes below its end, and keeps all registers but [rax] and [rdi]; the kernel
    object fits on that stack, starts with no stacks and with serial port 0x3f8,
    which its constructor programs, and its copy of the hand-over structure reads
    like the boot loader's in every member, while no byte outside the object
    changes.  [rdi], which held the pointer to the structure, is lost on the way: the
    compiler must keep it elsewhere. *)
Theorem kernel_entered {D} `{Serial.PortIO D} var stack kernel efi_info m u (d : D) :
  mem m var = kernel_init_stack_bottom stack -> 0 <= r_rsp (regs m) < 2 ^ 64 -> 0 <= stack -> stack + sizeof_kernel_init_stack <= 2 ^ 64 ->
  stack <= kernel -> kernel + sizeof_Kernel <= kernel_init_stack_bottom stack ->
  0 <= efi_info -> efi_info + sizeof_EFIServicesInfo <= 2 ^ 64 -> efi_info + sizeof_EFIServicesInfo <= kernel \/ kernel + sizeof_Kernel <= efi_info ->
  let m' := _setup_init_stack var m in
  r_rip (regs m') = mem m (r_rsp (regs m)) /\ r_rsp (regs m') = stack + 32640 /\ gpr (regs m') RDI = mem m (r_rsp (regs m)) /\
  (forall x, x <> RAX -> x <> RDI -> gpr (regs m') x = gpr (regs m) x) /\
  sizeof_Kernel <= kernel_init_stack_bottom stack - stack /\
  let '(u', d', k) := kernel_start kernel efi_info u d in
  k = kernel /\ info_at u' (kernel + offset_efi_info) = info_at u efi_info /\
  Elf.le_read 8 u' (kernel + offset_stacks_size) = 0 /\ Elf.le_read 2 u' (kernel + offset_serial_port) = 0x3f8 /\
  (exists p, Serial.SerialPort_init (Serial.mkSP d 0x3f8 Dec 0) = Ret (tt, p) /\ d' = Serial.dev p) /\
  (forall a, a < kernel \/ kernel + sizeof_Kernel <= a -> u' a = u a).
Proof.
  assert (sizeof_Kernel = 8432 /\ offset_efi_info = 184 /\ sizeof_EFIServicesInfo = 8244 /\ sizeof_kernel_init_stack = 32768) as (S1 & S2 & S3 & S4) by done.
  assert (offset_stacks_size = 160 /\ offset_serial_port = 176) as [S5 S6] by done.
  intros Hv Hsp Hs0 Hs1 Hk0 Hk He0 He1 Hdis m'.
  assert (kernel_init_stack_bottom stack = stack + 32640) as Eb by (apply wrap_small; unfold uint; lia). rewrite Eb in *.
  destruct (setup_init_stack_run var m (stack + 32640) Hv Hsp ltac:(lia)) as (A1 & A2 & A3 & A4 & _). split_and!; try done; [lia|].
  destruct (Kernel_new_run kernel u d ltac:(lia) ltac:(lia)) as (K1 & K2 & K3). unfold kernel_start.
  assert (exists p, Serial.SerialPort_init (Serial.mkSP d 0x3f8 Dec 0) = Ret (tt, p) /\ snd (Kernel_new kernel u d) = Serial.dev p) as Hd.
  { unfold Kernel_new. cbn [snd]. destruct (Serial.SerialPort_init (Serial.mkSP d 0x3f8 Dec 0)) as [[[] p]| | | |] eqn:E; [by exists p|discriminate E..]. }
  destruct (Kernel_new kernel u d) as [u1 d1]. cbn [fst snd] in *. rewrite (wrap_small 64 (kernel + offset_efi_info)) by (unfold uint; lia).
  assert (forall a, memcpy (kernel + offset_efi_info) efi_info sizeof_EFIServicesInfo u1 a =
    if decide (kernel + 184 <= a < kernel + 184 + 8244) then u1 (efi_info + (a - (kernel + 184))) else u1 a) as Ec by (intros a; rewrite memcpy_spec by lia; by rewrite S2, S3).
  split; [done|]. split; [|split; [|split; [|split; [done|]]]].
  - apply info_at_shift; [|lia..]. intros x Hx. rewrite Ec, decide_True by lia. rewrite K3 by lia. f_equal. lia.
  - rewrite <- K1. apply Elf.le_read_shift; [|lia..]. intros x Hx. by rewrite Ec, decide_False by lia.
  - rewrite <- K2. apply Elf.le_read_shift; [|lia..]. intros x Hx. by rewrite Ec, decide_False by lia.
  - intros a Ha. rewrite Ec, decide_False by lia. apply K3. lia.
Qed.

(** ** A concrete entry *)

Definition entry_machine : Machine :=
  mkMachine (mkRegs (fun _ => 5) (fun _ => 0) 0x1000 0x2000 8 2 0x9000 16) (fun a => if a =? 0x9000 then 0x2222 else if a =? 0x4000 then 0x100000 + 32640 else 0) ex_sys.

Lemma kernel_entered_witness :
  r_rip (regs (_setup_init_stack 0x4000 entry_machine)) = 0x2222 /\ r_rsp (regs (_setup_init_stack 0x4000 entry_machine)) = 0x100000 + 32640 /\
  let '(u', _, _) := kernel_start (0x100000 + 32640 - 8432) 0x700000 (fun a => a mod 251) (([], true) : Line) in
  info_at u' (0x100000 + 32640 - 8432 + 184) = info_at (fun a => a mod 251) 0x700000.
Proof.
  destruct (kernel_entered 0x4000 0x100000 (0x100000 + 32640 - 8432) 0x700000 entry_machine (fun a => a mod 251) (([], true) : Line)) as (H1 & H2 & _ & _ & _ & H3).
  - by vm_compute.
  - by vm_compute.
  - lia.
  - by vm_compute.
  - lia.
  - by vm_compute.
  - lia.
  - by vm_compute.
  - right. by vm_compute.
  - split; [exact H1|]. split; [exact H2|]. destruct (kernel_start _ _ _ _) as [[u' d'] k]. exact (proj1 (proj2 H3)).
Defined.

End Init.
