(* ===== verification/Fat32.v ===== *)
(** * include/fs/fat32.hpp: the structures of a FAT32 volume

    The header declares packed structures and no code uses them yet; it is not in a
    state to be compiled (a semicolon is missing and [EbrFat32] is used before it is
    declared).  Here: the layouts it describes, with members in bits as in
    [CpuDefs], and that they are those of the volume on disk. *)
From S2P Require Import Prelude CpuDefs.

Module Fat32.

(** [char name[n]] *)
Definition chars (name : string) (n : Z) : string * Z := (name, 8 * n).

Definition EbrFat32 : layout :=
  [("sectorsPerFat", 32); ("flags", 16); ("version", 16); ("clusterNumberOfRootDir", 32); ("sectorNumberFSInfo", 16);
   ("sectorNumberBackupBootSector", 16); chars "reserved1" 12; ("driverNumber", 8); ("ntFlags", 8); ("signature", 8);
   ("volumeIdSerial", 32); chars "label" 11; chars "systemIdentifier" 8; chars "bootCode" 420; ("bootablePartitionSignature", 16)]%string.

(** The last member is the union. *)
Definition Bpb : layout :=
  [chars "jumpInstruction" 3; chars "oemIdentifier" 8; ("bytesPerSector", 16); ("sectorsPerCluster", 8); ("reservedSectorCount", 16);
   ("fatCount", 8); ("dirEntryCount", 16); ("sectorCount", 16); ("mediaDescriptorType", 8); ("reserved1", 16); ("sectorsPerTrack", 16);
   ("headCount", 16); ("hiddenSectorCount", 32); ("largeSectorCount", 32); ("ebrFat32", layout_bits EbrFat32)]%string.

Definition FSInfo : layout :=
  [("signature", 32); chars "reserved" 480; ("signature2", 32); ("lastKnownFreeClusterCount", 32); ("hintStartCluster", 32);
   chars "reserved1" 12; ("signature3", 32)]%string.

(** Byte offset of a member; of a member of the extended boot record in the boot
    sector. *)
Definition offset (l : layout) (name : string) : Z := fst (field l name) / 8.
Definition boot_offset (name : string) : Z := offset Bpb "ebrFat32" + offset EbrFat32 name.

(** The boot sector and the information sector are one sector of 512 bytes each,
    and the members a driver needs are where the format has them. *)
Theorem fat32_layout :
  layout_bits Bpb = 8 * 512 /\ layout_bits FSInfo = 8 * 512 /\
  (offset Bpb "bytesPerSector", offset Bpb "sectorsPerCluster", offset Bpb "reservedSectorCount", offset Bpb "fatCount", offset Bpb "largeSectorCount") = (0x0b, 0x0d, 0x0e, 0x10, 0x20) /\
  (boot_offset "sectorsPerFat", boot_offset "clusterNumberOfRootDir", boot_offset "sectorNumberFSInfo", boot_offset "signature", boot_offset "bootablePartitionSignature") = (0x24, 0x2c, 0x30, 0x42, 0x1fe) /\
  (offset FSInfo "signature2", offset FSInfo "lastKnownFreeClusterCount", offset FSInfo "hintStartCluster", offset FSInfo "signature3") = (0x1e4, 0x1e8, 0x1ec, 0x1fc).
Proof. by vm_compute. Qed.

End Fat32.
