(* ===== verification/BootScreen.v ===== *)
(** * boot_loader.c: the graphics routines

    [egInitScreen], [egDetermineScreenSize] and [egClearScreen] over the file's
    variables.  What the firmware offers is the parameter; nothing calls these
    routines yet. *)
From S2P Require Import Prelude Boot.

Module BootScreen.
Import Boot.

(** A mode: width and height. *)
Abbreviation mode := (Z * Z)%type.

(** [LibLocateProtocol] for the three protocols: the interface, if there is one.
    An interface of the graphics output protocol has a current mode; [GetMode] of
    the older protocol has a status and a mode. *)
Record Protocols := mkProtocols {
  locate_console : Z * Z;
  locate_uga : Z * Z;
  locate_gop : Z * Z;
  gop_mode : Z -> mode;
  uga_GetMode : Z -> Z * mode
}.

(** Null pointers are 0. *)
Record Screen := mkScreen {
  ConsoleControl : Z; UgaDraw : Z; GraphicsOutput : Z;
  egHasGraphics : bool; egScreenWidth : Z; egScreenHeight : Z
}.
Definition initial_screen : Screen := mkScreen 0 0 0 false 800 600.

Section screen.
Context (fw : Protocols).

(** The interface, or null after an error. *)
Definition located (r : Z * Z) : Z := if EFI_ERROR (fst r) then 0 else snd r.

Definition egDetermineScreenSize (s : Screen) : Screen :=
  if negb (GraphicsOutput s =? 0) then
    let '(w, h) := gop_mode fw (GraphicsOutput s) in
    mkScreen (ConsoleControl s) (UgaDraw s) (GraphicsOutput s) true w h
  else if negb (UgaDraw s =? 0) then
    let '(status, (w, h)) := uga_GetMode fw (UgaDraw s) in
    if EFI_ERROR status then mkScreen (ConsoleControl s) 0 (GraphicsOutput s) false (egScreenWidth s) (egScreenHeight s)
    else mkScreen (ConsoleControl s) (UgaDraw s) (GraphicsOutput s) true w h
  else mkScreen (ConsoleControl s) (UgaDraw s) (GraphicsOutput s) false (egScreenWidth s) (egScreenHeight s).

Definition egInitScreen (s : Screen) : Screen :=
  egDetermineScreenSize (mkScreen (located (locate_console fw)) (located (locate_uga fw)) (located (locate_gop fw))
    (egHasGraphics s) (egScreenWidth s) (egScreenHeight s)).

(** The call of [Blt] made, if any: the interface, which protocol it is, the colour
    (red, green, blue, reserved) and the size of the rectangle. *)
Inductive protocol := Gop | Uga.
Definition egClearScreen (s : Screen) : option (protocol * Z * (Z * Z * Z * Z) * (Z * Z)) :=
  let FillColor := (0xff, 0x0, 0x0, 0) in
  if negb (GraphicsOutput s =? 0) then Some (Gop, GraphicsOutput s, FillColor, (egScreenWidth s, egScreenHeight s))
  else if negb (UgaDraw s =? 0) then Some (Uga, UgaDraw s, FillColor, (egScreenWidth s, egScreenHeight s))
  else None.

(** After [egInitScreen] the screen is cleared exactly when there are graphics, with
    the size the chosen protocol reports; without, the default size stays. *)
Theorem clear_screen_ok : let s := egInitScreen initial_screen in
  (egHasGraphics s = true <-> is_Some (egClearScreen s)) /\
  (egHasGraphics s = false -> (egScreenWidth s, egScreenHeight s) = (800, 600)) /\
  (forall p i c size, egClearScreen s = Some (p, i, c, size) -> i <> 0 /\
     match p with Gop => i = located (locate_gop fw) /\ size = gop_mode fw i
                | Uga => located (locate_gop fw) = 0 /\ i = located (locate_uga fw) /\ size = snd (uga_GetMode fw i) /\ EFI_ERROR (fst (uga_GetMode fw i)) = false end).
Proof.
  unfold egInitScreen, egDetermineScreenSize, egClearScreen. cbn [GraphicsOutput UgaDraw ConsoleControl egScreenWidth egScreenHeight egHasGraphics initial_screen].
  destruct (Z.eqb_spec (located (locate_gop fw)) 0) as [Eg|Eg]; cbn [negb].
  2: { destruct (gop_mode fw (located (locate_gop fw))) as [w h] eqn:E. cbn. rewrite (proj2 (Z.eqb_neq _ _) Eg). cbn [negb].
       split_and!; [split; eauto|done|]. intros p i c size [= <- <- <- <-]. split; [done|]. by rewrite E. }
  destruct (Z.eqb_spec (located (locate_uga fw)) 0) as [Eu|Eu]; cbn [negb].
  { cbn. rewrite Eg, Eu. cbn. split_and!; [split; [done|by intros [? ?]]|done|done]. }
  destruct (uga_GetMode fw (located (locate_uga fw))) as [status [w h]] eqn:E. destruct (EFI_ERROR status) eqn:Es; cbn.
  - rewrite Eg. cbn. split_and!; [split; [done|by intros [? ?]]|done|done].
  - rewrite Eg, (proj2 (Z.eqb_neq _ _) Eu). cbn. split_and!; [split; eauto|done|]. intros p i c size [= <- <- <- <-]. split; [done|]. by rewrite E.
Qed.

End screen.
End BootScreen.
