(* ===== verification/FixedBlock.v ===== *)
(** * include/mm/fixed_block_allocator.h: blocks of one size in a free list

    A [T *] into [buffer] is an index, and [next_ptr] of the blocks a finite map
    from index to optional index.  Access outside [buffer] or through null is
    [Fault]. *)
From S2P Require Import Prelude.

Module FixedBlock.

Record FixedBlockAllocator := mkFixed { max_size : Z; next_ptr : gmap Z (option Z); head : option Z; tail : option Z }.
Abbreviation M := (ST FixedBlockAllocator).

Definition valid_ptr (s : FixedBlockAllocator) (p : Z) : bool := (0 <=? p) && (p <? max_size s).
Definition set_next (p : option Z) (v : option Z) : M unit := fun s =>
  match p with
  | Some p => if valid_ptr s p then Ret (tt, mkFixed (max_size s) (<[p := v]> (next_ptr s)) (head s) (tail s)) else Fault
  | None => Fault
  end.
Definition get_next (p : option Z) : M (option Z) := fun s =>
  match p with
  | Some p => if valid_ptr s p then Ret (default None (next_ptr s !! p), s) else Fault
  | None => Fault
  end.
Definition set_head (p : option Z) : M unit := modify (fun s => mkFixed (max_size s) (next_ptr s) p (tail s)).

(** The loop of the constructor links every block to the next. *)
Definition link_blocks (max_size : Z) : gmap Z (option Z) :=
  for_loop (Z.to_nat (max_size - 1)) 1 (fun i m => <[i - 1 := Some i]> m) ∅.
Definition FixedBlockAllocator_new (max_size : Z) : outcome FixedBlockAllocator :=
  if max_size =? 0 then Panic "FixedBlockAllocator max_size must > 0"
  else Ret (mkFixed max_size (<[max_size - 1 := None]> (link_blocks max_size)) (Some 0) (Some (max_size - 1))).

Definition allocate : M (option Z) :=
  s ← get;
  if bool_decide (head s = tail s) then mret None
  else
    let old_head := head s in
    new_head ← get_next old_head;
    set_next old_head None;;
    set_head new_head;;
    mret old_head.

(** [free] takes any pointer. *)
Definition free (p : Z) : M unit :=
  s ← get;
  set_next (Some p) (head s);;
  set_head (Some p).

(** ** The list of free blocks *)

(** [l], followed by the sentinel [t], is the chain from [h]. *)
Fixpoint chain (m : gmap Z (option Z)) (h : option Z) (l : list Z) (t : Z) : Prop :=
  match l with
  | [] => h = Some t
  | x :: l => h = Some x /\ chain m (default None (m !! x)) l t
  end.

(** The allocator with free blocks [l]: the last block is never handed out. *)
Record represents (s : FixedBlockAllocator) (l : list Z) : Prop := {
  rep_chain : chain (next_ptr s) (head s) l (max_size s - 1);
  rep_tail : tail s = Some (max_size s - 1);
  rep_size : 1 <= max_size s;
  rep_range : Forall (fun x => 0 <= x < max_size s - 1) l;
  rep_nodup : NoDup l
}.

Lemma chain_insert m h l t x v : x ∉ l -> chain (<[x := v]> m) h l t <-> chain m h l t.
Proof.
  revert h. induction l as [|y l IH]; intros h Hx; [done|]. apply not_elem_of_cons in Hx as [Hne Hx]. cbn [chain].
  rewrite IH by done. by rewrite lookup_insert_ne.
Qed.

Lemma link_chain n t m : 0 <= t -> (forall i, 0 <= i < t -> m !! i = Some (Some (i + 1))) -> Z.of_nat n <= t ->
  chain m (Some (t - Z.of_nat n)) (seqZ (t - Z.of_nat n) (Z.of_nat n)) t.
Proof.
  intros Ht Hm. induction n as [|n IH]; intros Hn.
  - cbn [Z.of_nat seqZ]. cbn. f_equal. lia.
  - rewrite seqZ_cons by lia. cbn [chain]. split; [done|]. rewrite Hm by lia. cbn [default].
    replace (t - Z.of_nat (S n) + 1) with (t - Z.of_nat n) by lia. replace (Z.succ (t - Z.of_nat (S n))) with (t - Z.of_nat n) by lia.
    replace (Z.pred (Z.of_nat (S n))) with (Z.of_nat n) by lia. apply IH. lia.
Qed.

Lemma link_blocks_spec n i : 0 <= i < n - 1 -> link_blocks n !! i = Some (Some (i + 1)).
Proof.
  intros Hi. unfold link_blocks.
  pose proof (for_loop_ind (fun k (m : gmap Z (option Z)) => forall i, 0 <= i < k - 1 -> m !! i = Some (Some (i + 1)))
    (Z.to_nat (n - 1)) 1 (fun i m => <[i - 1 := Some i]> m) ∅) as H.
  apply H; [intros; lia| |lia]. clear. intros j m Hj IH i Hi. destruct (decide (i = j - 1)) as [->|Hne].
  - rewrite lookup_insert_eq. do 2 f_equal. lia.
  - rewrite lookup_insert_ne by lia. apply IH. lia.
Qed.

Lemma new_represents n : 1 <= n < 2 ^ 64 -> exists s, FixedBlockAllocator_new n = Ret s /\ max_size s = n /\ represents s (seqZ 0 (n - 1)).
Proof.
  intros Hn. unfold FixedBlockAllocator_new. rewrite (proj2 (Z.eqb_neq _ _)) by lia. eexists. split; [reflexivity|]. split; [done|]. split; cbn [next_ptr head tail max_size].
  - rewrite chain_insert by (rewrite elem_of_seqZ; lia).
    pose proof (link_chain (Z.to_nat (n - 1)) (n - 1) (link_blocks n) ltac:(lia) (fun i => link_blocks_spec n i) ltac:(lia)) as H.
    rewrite Z2Nat.id, Z.sub_diag in H by lia. exact H.
  - done.
  - lia.
  - apply Forall_forall. intros x Hx%elem_of_seqZ. lia.
  - apply NoDup_seqZ.
Qed.

Lemma allocate_ok s l : represents s l ->
  match l with
  | [] => allocate s = Ret (None, s)
  | x :: l => exists s', allocate s = Ret (Some x, s') /\ max_size s' = max_size s /\ represents s' l
  end.
Proof.
  intros [Hc Ht Hs Hr Hn]. unfold allocate. rewrite bind_ret with (a := s) (s' := s) by done. destruct l as [|x l].
  - cbn [chain] in Hc. rewrite bool_decide_eq_true_2 by congruence. done.
  - cbn [chain] in Hc. destruct Hc as [Eh Hc]. apply Forall_cons in Hr as [Hx Hr]. apply NoDup_cons in Hn as [Hnx Hn].
    rewrite bool_decide_eq_false_2 by (rewrite Eh, Ht; intros [= ->]; lia).
    assert (valid_ptr s x = true) as Hv by (unfold valid_ptr; apply andb_true_iff; split; [apply Z.leb_le|apply Z.ltb_lt]; lia).
    rewrite Eh. unfold mbind, st_bind, get_next, set_next, set_head, modify, mret, st_ret. rewrite Hv. cbv beta iota. cbn [valid_ptr max_size]. rewrite Hv. eexists. split; [reflexivity|]. split; [done|].
    split; cbn [next_ptr head tail max_size]; try done. by apply chain_insert.
Qed.

Lemma free_ok s l p : represents s l -> 0 <= p < max_size s - 1 -> p ∉ l ->
  exists s', free p s = Ret (tt, s') /\ max_size s' = max_size s /\ represents s' (p :: l).
Proof.
  intros [Hc Ht Hs Hr Hn] Hp Hnp. unfold free. rewrite bind_ret with (a := s) (s' := s) by done.
  assert (valid_ptr s p = true) as Hv by (unfold valid_ptr; apply andb_true_iff; split; [apply Z.leb_le|apply Z.ltb_lt]; lia).
  unfold mbind, st_bind, set_next, set_head, modify. rewrite Hv. eexists. split; [reflexivity|]. split; [done|].
  split; cbn [next_ptr head tail max_size]; try done.
  - cbn [chain]. split; [done|]. rewrite lookup_insert_eq. cbn [default]. by apply chain_insert.
  - by apply Forall_cons.
  - by apply NoDup_cons.
Qed.

(** ** Runs *)

Inductive event := EvAlloc (r : option Z) | EvFree (p : Z).
Inductive step : FixedBlockAllocator -> event -> FixedBlockAllocator -> Prop :=
  | step_alloc s r s' : allocate s = Ret (r, s') -> step s (EvAlloc r) s'
  | step_free s p s' : free p s = Ret (tt, s') -> step s (EvFree p) s'.

(** The abstract allocator: a stack of free blocks and the set handed out.  Only
    blocks in use are given back. *)
Inductive spec_step : list Z * gset Z -> event -> list Z * gset Z -> Prop :=
  | spec_alloc x l X : spec_step (x :: l, X) (EvAlloc (Some x)) (l, {[x]} ∪ X)
  | spec_full X : spec_step ([], X) (EvAlloc None) ([], X)
  | spec_free p l X : p ∈ X -> spec_step (l, X) (EvFree p) (p :: l, X ∖ {[p]}).

(** The free blocks and those handed out are the first [n - 1]. *)
Definition accounts (n : Z) (l : list Z) (X : gset Z) : Prop := forall x, 0 <= x < n - 1 <-> (x ∈ l \/ x ∈ X) .
Definition related (n : Z) (s : FixedBlockAllocator) (a : list Z * gset Z) : Prop :=
  represents s (fst a) /\ max_size s = n /\ accounts n (fst a) (snd a) /\ (forall x, x ∈ fst a -> x ∉ snd a).

Definition allowed (a : list Z * gset Z) (e : event) : Prop := match e with EvFree p => p ∈ snd a | EvAlloc _ => True end.

Lemma step_related n s a e s' : related n s a -> allowed a e -> step s e s' -> exists a', spec_step a e a' /\ related n s' a'.
Proof.
  destruct a as [l X]. intros (Hrep & Hn & Hacc & Hdis) Ha Hstep. cbn [fst snd] in *. pose proof (rep_nodup _ _ Hrep) as Hnd. inversion Hstep as [s0 r s1 Hrun|s0 p s1 Hrun]; subst.
  - pose proof (allocate_ok s l Hrep) as Ho. destruct l as [|x l].
    + rewrite Hrun in Ho. injection Ho as -> ->. exists ([], X). split; [constructor|done].
    + destruct Ho as (s2 & Ho & Hm & Hrep2). rewrite Hrun in Ho. injection Ho as -> ->. apply NoDup_cons in Hnd as [Hx Hnd].
      exists (l, {[x]} ∪ X). split; [constructor|]. split; [done|]. split; [done|]. cbn [fst snd]. split.
      * intros y. rewrite (Hacc y). rewrite elem_of_cons, elem_of_union, elem_of_singleton. tauto.
      * intros y Hy. rewrite elem_of_union, elem_of_singleton. intros [->|Hy2]; [done|]. by apply (Hdis y); [right|].
  - cbn in Ha. assert (0 <= p < max_size s - 1) as Hp by (apply Hacc; by right). assert (p ∉ l) as Hpl by (intros Hl; by apply (Hdis p)).
    destruct (free_ok s l p Hrep Hp Hpl) as (s2 & Ho & Hm & Hrep2). rewrite Hrun in Ho. injection Ho as ->.
    exists (p :: l, X ∖ {[p]}). split; [by constructor|]. split; [done|]. split; [done|]. cbn [fst snd]. split.
    + intros y. rewrite (Hacc y). rewrite elem_of_cons, elem_of_difference, elem_of_singleton. destruct (decide (y = p)) as [->|]; tauto.
    + intros y. rewrite elem_of_cons, elem_of_difference, elem_of_singleton. intros [->|Hy]; [tauto|]. intros [Hy2 _]. by apply (Hdis y).
Qed.

Inductive run : FixedBlockAllocator -> list event -> FixedBlockAllocator -> Prop :=
  | run_nil s : run s [] s
  | run_cons s e s1 es s2 : step s e s1 -> run s1 es s2 -> run s (e :: es) s2.
Inductive spec_run : list Z * gset Z -> list event -> list Z * gset Z -> Prop :=
  | spec_nil a : spec_run a [] a
  | spec_cons a e a1 es a2 : spec_step a e a1 -> spec_run a1 es a2 -> spec_run a (e :: es) a2.

(** The caller, who holds [X], gives back only what it holds. *)
Fixpoint disciplined (X : gset Z) (es : list event) : Prop :=
  match es with
  | [] => True
  | EvAlloc (Some x) :: es => disciplined ({[x]} ∪ X) es
  | EvAlloc None :: es => disciplined X es
  | EvFree p :: es => p ∈ X /\ disciplined (X ∖ {[p]}) es
  end.

Lemma run_related n s a es s' : run s es s' -> related n s a -> disciplined (snd a) es -> exists a', spec_run a es a' /\ related n s' a'.
Proof.
  intros Hrun. revert a. induction Hrun as [s|s e s1 es s2 Hstep Hrun IH]; intros a Hrel Hd; [exists a; split; [constructor|done]|].
  assert (allowed a e) as Ha by (destruct e; [done|apply Hd]). destruct (step_related n s a e s1 Hrel Ha Hstep) as (a1 & Hsp & Hrel1).
  destruct (IH a1 Hrel1) as (a2 & Hspr & Hrel2); [|exists a2; split; [by econstructor|done]].
  destruct Hsp; cbn in Hd |- *; [done|done|apply Hd].
Qed.

(** C39: whatever a caller does that gives back only blocks it holds, the free-list
    allocator behaves as a stack of free blocks that starts with the blocks 0 to
    [n - 2] in order: it never faults, hands out the block given back last, and
    reports that none is left exactly when all of these are handed out.  The last
    block of the buffer is the sentinel and is never handed out. *)
Theorem fixed_block_refinement n s es s' :
  1 <= n < 2 ^ 64 -> FixedBlockAllocator_new n = Ret s -> run s es s' -> disciplined ∅ es ->
  exists l X, spec_run (seqZ 0 (n - 1), ∅) es (l, X) /\ (forall x, 0 <= x < n - 1 <-> x ∈ l \/ x ∈ X) /\
    (exists r s2, allocate s' = Ret (r, s2) /\ (r = None <-> l = [])) /\ (forall p, p ∈ X -> exists s2, free p s' = Ret (tt, s2)).
Proof.
  intros Hn Hnew Hrun Hd. assert (related n s (seqZ 0 (n - 1), ∅)) as H0.
  { destruct (new_represents n Hn) as (s0 & E & Hm & Hrep). rewrite Hnew in E. injection E as <-. split; [done|]. split; [done|]. cbn [fst snd]. split.
    - intros x. rewrite elem_of_seqZ. split; [intros H; left; lia|intros [H|H]; [lia|set_solver]].
    - set_solver. }
  destruct (run_related n s _ es s' Hrun H0 Hd) as ([l X] & Hsp & Hrep & Hm & Hacc & Hdis). cbn [fst snd] in *. exists l, X. split; [done|]. split; [done|]. split.
  - pose proof (allocate_ok s' l Hrep) as Ho. destruct l as [|x l]; [by exists None, s'|]. destruct Ho as (s2 & Ho & _). exists (Some x), s2. by split.
  - intros p Hp. destruct (free_ok s' l p Hrep) as (s2 & Ho & _); [rewrite Hm; apply Hacc; by right|intros Hl; by apply (Hdis p)|by exists s2].
Qed.

(** ** Concrete runs *)

Definition ex_fixed : FixedBlockAllocator := match FixedBlockAllocator_new 4 with Ret s => s | _ => mkFixed 0 ∅ None None end.
Definition exec {A} (c : M A) (s : FixedBlockAllocator) : FixedBlockAllocator := match c s with Ret (_, s') => s' | _ => s end.

Lemma fixed_block_refinement_witness :
  let es := [EvAlloc (Some 0); EvAlloc (Some 1); EvFree 0] in
  let s := exec (free 0) (exec allocate (exec allocate ex_fixed)) in
  exists l X, spec_run (seqZ 0 (4 - 1), ∅) es (l, X) /\ (forall x, 0 <= x < 4 - 1 <-> x ∈ l \/ x ∈ X) /\
    (exists r s2, allocate s = Ret (r, s2) /\ (r = None <-> l = [])) /\ (forall p, p ∈ X -> exists s2, free p s = Ret (tt, s2)).
Proof.
  intros es s. apply (fixed_block_refinement 4 ex_fixed es s); [lia|by vm_compute| |cbn; set_solver].
  eapply run_cons; [constructor; by vm_compute|]. eapply run_cons; [constructor; by vm_compute|].
  eapply run_cons; [constructor; by vm_compute|]. apply run_nil.
Defined.

End FixedBlock.
