(* ===== verification/Hexdump.v ===== *)
(** * include/common/hexdump.hpp: printing memory

    Output is a list of characters, as their codes. *)
From S2P Require Import Prelude LibString.

Module Hexdump.
Import LibString.

(** The character of a digit: "0123456789abcdef". *)
Definition digit_char (d : Z) : Z := if d <? 10 then 48 + d else 87 + d.

(** [IntRadix::Hex << (value >> 4) << (value & 0xf)]: two digits below 16, each
    printed as a number of its own. *)
Definition hex01 (value : Z) : list Z := [digit_char (Z.shiftr value 4); digit_char (Z.land value 0xf)].

(** [value >> n] of a 32-bit number is undefined from 32 on. *)
Definition shr32 (value n : Z) : outcome Z := if (0 <=? n) && (n <? 32) then Ret (Z.shiftr value n) else Fault.

(** The rounds of [hex04] from [i] on. *)
Fixpoint hex04_loop (n : nat) (i value : Z) : outcome (list Z) :=
  match n with
  | O => Ret []
  | S n =>
      match shr32 value (64 - 8 - i * 8) with
      | Ret v => match hex04_loop n (i + 1) value with Ret l => Ret (hex01 (Z.land v 0xff) ++ l) | e => e end
      | Panic m => Panic m | Halt => Halt | Fault => Fault | OutOfFuel => OutOfFuel
      end
  end.
Definition hex04 (value : Z) : outcome (list Z) := hex04_loop 8 0 value.

(** It shifts by 56 first. *)
Lemma hex04_undefined value : hex04 value = Fault.
Proof. reflexivity. Qed.

(** [print_hex] of a 64-bit value, most significant byte first. *)
Definition print_hex (value : Z) : list Z :=
  flat_map (fun i => hex01 (Z.land (Z.shiftr value (8 * (7 - Z.of_nat i))) 0xff)) (seq 0 8).

(** [char] is signed: bytes from 128 on are negative. *)
Definition isprint (c : Z) : bool := let c := swrap 8 c in (0x20 <=? c) && (c <? 0x7f).

Definition hexdump_line (bytes : list Z) (cols : nat) (addr : Z) (compact : bool) (indent : nat) : list Z :=
  (if compact then [] else repeat 32 indent ++ print_hex addr ++ [32; 124; 32]) ++
  flat_map (fun b => hex01 b ++ [32]) bytes ++
  (if compact then []
   else flat_map (fun _ => [32; 32; 32]) (seq (length bytes) (cols - length bytes)) ++ [32; 124; 32] ++
        map (fun b => if isprint b then b else 46) bytes ++ [10]).

(** [hexdump] of a byte array: whole lines of 16, then the rest. *)
Definition hexdump (bytes : list Z) (compact : bool) (indent : nat) : list Z :=
  let cols := 16%nat in
  let whole_lines := (length bytes / cols)%nat in
  flat_map (fun line => hexdump_line (take cols (drop (line * cols) bytes)) cols (Z.of_nat (line * cols)) compact indent) (seq 0 whole_lines) ++
  (if (whole_lines * cols <? length bytes)%nat
   then hexdump_line (drop (whole_lines * cols) bytes) cols (Z.of_nat (whole_lines * cols)) compact indent
   else []).

(** ** Reading it back *)

Definition digit_value (c : Z) : Z := if c <? 58 then c - 48 else c - 87.

(** Two digits and a space per byte. *)
Fixpoint parse_compact (cs : list Z) : list Z :=
  match cs with
  | hi :: lo :: _ :: cs => 16 * digit_value hi + digit_value lo :: parse_compact cs
  | _ => []
  end.

Lemma digit_value_char d : 0 <= d < 16 -> digit_value (digit_char d) = d.
Proof. intros Hd. unfold digit_value, digit_char. repeat case_match; lia. Qed.

Lemma compact_lines bytes n : (n * 16 <= length bytes)%nat ->
  flat_map (fun line => hexdump_line (take 16 (drop (line * 16) bytes)) 16 (Z.of_nat (line * 16)) true 0) (seq 0 n) =
  flat_map (fun b => hex01 b ++ [32]) (take (n * 16) bytes).
Proof.
  induction n as [|n IH]; intros Hn; [done|]. rewrite seq_S, flat_map_app, IH by lia. cbn [flat_map plus]. rewrite app_nil_r.
  unfold hexdump_line. cbn [app]. rewrite app_nil_r, <- flat_map_app. f_equal.
  replace (S n * 16)%nat with (n * 16 + 16)%nat by lia. rewrite <- (take_drop (n * 16) bytes) at 3. rewrite take_app_add' by (rewrite length_take; lia). done.
Qed.

Lemma hexdump_compact bytes : hexdump bytes true 0 = flat_map (fun b => hex01 b ++ [32]) bytes.
Proof.
  unfold hexdump. set (n := (length bytes / 16)%nat). pose proof (Nat.div_mod_eq (length bytes) 16) as Hdm. fold n in Hdm.
  pose proof (Nat.mod_upper_bound (length bytes) 16 ltac:(lia)) as Hmod.
  rewrite compact_lines by lia. destruct (Nat.ltb_spec (n * 16) (length bytes)).
  - unfold hexdump_line. cbn [app]. rewrite app_nil_r, <- flat_map_app. by rewrite take_drop.
  - rewrite app_nil_r. by rewrite take_ge by lia.
Qed.

(** A compact hex dump can be read back: it is two digits and a space for every
    byte, in order, across the lines it is produced in. *)
Theorem hexdump_roundtrip bytes :
  Forall (fun b => 0 <= b < 256) bytes ->
  parse_compact (hexdump bytes true 0) = bytes /\ length (hexdump bytes true 0) = (3 * length bytes)%nat.
Proof.
  intros Hb. rewrite hexdump_compact. induction Hb as [|b bytes Hb Hf [IH1 IH2]]; [done|].
  change (flat_map (fun b => hex01 b ++ [32]) (b :: bytes)) with ((hex01 b ++ [32]) ++ flat_map (fun b => hex01 b ++ [32]) bytes).
  set (r := flat_map (fun b => hex01 b ++ [32]) bytes) in *. cbn. rewrite IH1, IH2. split; [|lia]. f_equal.
  change 0xf with (Z.ones 4). rewrite Z.land_ones, Z.shiftr_div_pow2 by lia. rewrite !digit_value_char by dlia. dlia.
Qed.

Lemma hexdump_roundtrip_witness :
  parse_compact (hexdump [0x52; 0x54; 0x00; 0x12; 0x34; 0xff] true 0) = [0x52; 0x54; 0x00; 0x12; 0x34; 0xff] /\
  length (hexdump [0x52; 0x54; 0x00; 0x12; 0x34; 0xff] true 0) = 18%nat.
Proof. apply (hexdump_roundtrip [0x52; 0x54; 0x00; 0x12; 0x34; 0xff]). repeat constructor; discriminate. Defined.

End Hexdump.
